(** * Verification of the calendar scheduling core

    A shallow embedding of the scheduling engine: the time indexer, the
    squeaky-wheel scheduler ([app/scheduler/swo.py]), the constraint model
    of the CP/LNS scheduler ([app/scheduler/cp_lns.py]) and the
    segmentation and remap layer ([app/services/scheduling.py]). *)

From Stdlib Require Import ZArith List Bool Lia String Ascii QArith Qabs
  Qround Qpower Lqa Permutation Sorted DecimalString.
From Stdlib Require DecimalNat DecimalFacts SpecFloat.
From Equations Require Import Equations.
Import ListNotations.

Local Open Scope Z_scope.

(** ** Segmentation ([app/services/scheduling.py], [_segment_duration]) *)

Definition MAX_BLOCK_MINUTES : Z := 120.
Definition MIN_BLOCK_MINUTES : Z := 15.

(** One turn of the [while remaining > 0] loop of [_segment_duration]:
    the chunk appended for the current [remaining]. *)
Definition segment_chunk (remaining : Z) : Z :=
  let chunk := Z.min MAX_BLOCK_MINUTES remaining in
  let remainder := remaining - chunk in
  let chunk :=
    if (0 <? remainder) && (remainder <? MIN_BLOCK_MINUTES) then
      let deficit := MIN_BLOCK_MINUTES - remainder in
      let adjustment := Z.min deficit (chunk - MIN_BLOCK_MINUTES) in
      chunk - adjustment
    else chunk in
  Z.max MIN_BLOCK_MINUTES (Z.min chunk remaining).

(** The loop itself.  Every chunk is at least [MIN_BLOCK_MINUTES], so
    [remaining] strictly decreases while it is positive. *)
Equations? segment_loop (remaining : Z) : list Z
  by wf (Z.to_nat remaining) lt :=
  segment_loop remaining with Z_gt_dec remaining 0 => {
    | left _ := segment_chunk remaining
                  :: segment_loop (remaining - segment_chunk remaining);
    | right _ := [] }.
Proof.
  assert (MIN_BLOCK_MINUTES <= segment_chunk remaining)
    by (unfold segment_chunk; lia).
  unfold MIN_BLOCK_MINUTES in *. lia.
Qed.

Definition _segment_duration (total_minutes : Z) : list Z :=
  segment_loop (Z.max total_minutes MIN_BLOCK_MINUTES).

Definition sumZ (l : list Z) : Z := fold_right Z.add 0 l.

(** ** Python containers

    A [dict] keeps insertion order; assigning to a key that is already
    present replaces the value in place, a new key is appended. *)

Definition dict (V : Type) : Type := list (string * V).

Fixpoint dict_get {V} (d : dict V) (k : string) : option V :=
  match d with
  | [] => None
  | (k', v) :: r => if String.eqb k' k then Some v else dict_get r k
  end.

Fixpoint dict_set {V} (d : dict V) (k : string) (v : V) : dict V :=
  match d with
  | [] => [(k, v)]
  | (k', v') :: r =>
      if String.eqb k' k then (k', v) :: r else (k', v') :: dict_set r k v
  end.

Definition dict_keys {V} (d : dict V) : list string := map fst d.

(** [mapping.get(k, default)] *)
Definition dict_get_default {V} (d : dict V) (k : string) (default : V) : V :=
  match dict_get d k with Some v => v | None => default end.

(** Exceptions are modelled by [option]; [None] is a raised exception. *)
Definition obind {A B} (m : option A) (f : A -> option B) : option B :=
  match m with
  | Some a => f a
  | None => None
  end.

Notation "x <- m ;; k" := (obind m (fun x => k))
  (at level 61, m at next level, right associativity).

(** [len(l)] *)
Definition len {A} (l : list A) : Z := Z.of_nat (List.length l).

(** The position that the index [i] denotes in a list of length [n]: a
    negative index counts from the end; [None] stands for [IndexError]. *)
Definition py_index (n i : Z) : option nat :=
  let j := if i <? 0 then i + n else i in
  if (0 <=? j) && (j <? n) then Some (Z.to_nat j) else None.

(** [lst[i]] *)
Definition list_get {A} (l : list A) (i : Z) : option A :=
  n <- py_index (len l) i ;; nth_error l n.

(** [lst[i] = v] at a position of the list. *)
Fixpoint list_set_nat {A} (l : list A) (n : nat) (v : A) : option (list A) :=
  match l, n with
  | [], _ => None
  | _ :: r, O => Some (v :: r)
  | x :: r, S n' =>
      match list_set_nat r n' v with
      | Some r' => Some (x :: r')
      | None => None
      end
  end.

(** [lst[i] = v] *)
Definition list_set {A} (l : list A) (i : Z) (v : A) : option (list A) :=
  n <- py_index (len l) i ;; list_set_nat l n v.

(** [sorted(l, key=...)]: a stable sort; [le x y] compares the keys.
    An element is put in front of the first element of the sorted tail
    whose key is not smaller, so equal keys keep their original order. *)
Fixpoint insert_by {A} (le : A -> A -> bool) (x : A) (l : list A) : list A :=
  match l with
  | [] => [x]
  | y :: r => if le x y then x :: y :: r else y :: insert_by le x r
  end.

Definition sorted {A} (le : A -> A -> bool) (l : list A) : list A :=
  fold_right (insert_by le) [] l.

(** [min(l)] and [max(l)] of a list whose first element is [x]. *)
Definition list_min (x : Z) (l : list Z) : Z := fold_left Z.min l x.
Definition list_max (x : Z) (l : list Z) : Z := fold_left Z.max l x.

(** [max(l, default=d)] *)
Definition list_max_default (l : list Z) (d : Z) : Z :=
  match l with
  | [] => d
  | x :: r => list_max x r
  end.

(** ** Instants

    A [datetime] is an instant on the UTC time line, counted in
    microseconds (the resolution of Python's [datetime]); the service
    normalises every instant to UTC before it reaches a scheduler.  A
    [timedelta] is a difference of two instants. *)

Definition datetime : Type := Z.

Definition US_PER_MINUTE : Z := 60000000.
Definition US_PER_HOUR : Z := 60 * US_PER_MINUTE.
Definition US_PER_DAY : Z := 24 * US_PER_HOUR.

Definition timedelta_minutes (m : Z) : Z := m * US_PER_MINUTE.
Definition timedelta_days (d : Z) : Z := d * US_PER_DAY.

Definition dt_minute (t : datetime) : Z := (t / US_PER_MINUTE) mod 60.
Definition dt_hour (t : datetime) : Z := (t / US_PER_HOUR) mod 24.

(** [t.replace(second=0, microsecond=0)] *)
Definition replace_second_zero (t : datetime) : datetime :=
  t - t mod US_PER_MINUTE.

(** [t.replace(hour=h, minute=0, second=0, microsecond=0)] *)
Definition replace_hour (t : datetime) (h : Z) : datetime :=
  t - t mod US_PER_DAY + h * US_PER_HOUR.

(** Ceiling of the quotient [a / b] of two integers, [math.ceil(a / b)]. *)
Definition cdiv (a b : Z) : Z := - ((- a) / b).

(** ** Solver input and output ([app/scheduler/cp_lns.py]) *)

Record ScheduleTask := {
  task_id : string;
  duration_minutes : Z;
  earliest_start : datetime;
  due : datetime;
  priority : Z;
  preferred_windows : option (list (datetime * datetime));
  fixed_start : option datetime
}.

Record ScheduleMeeting := {
  meeting_id : string;
  meeting_start : datetime;
  meeting_end : datetime
}.

Record ScheduleRequest := {
  tasks : list ScheduleTask;
  meetings : list ScheduleMeeting;
  previous_assignments : option (dict (datetime * datetime));
  neighborhood_window : option (datetime * datetime)
}.

Record AssignedTask := {
  assigned_task_id : string;
  assigned_start : datetime;
  assigned_end : datetime;
  deviation_minutes : Z;
  tardiness_minutes : Z
}.

Record ScheduleResult := {
  assignments : list AssignedTask;
  unscheduled_tasks : list string;
  objective_value : option Z
}.

(** ** Time indexer ([_TimeIndexer], the same class in both schedulers)

    [delta.total_seconds() / 60 / granularity] is a quotient of floats in
    the source; it is kept exact here, as a quotient of integers.  The
    float computation itself is [TimeIndexerFloat], further down. *)

Record _TimeIndexer := {
  base : datetime;
  granularity : Z
}.

Definition to_slot (ix : _TimeIndexer) (timestamp : datetime) : Z :=
  (timestamp - base ix) / (US_PER_MINUTE * granularity ix).

Definition to_slot_ceiling (ix : _TimeIndexer) (timestamp : datetime) : Z :=
  cdiv (timestamp - base ix) (US_PER_MINUTE * granularity ix).

Definition to_datetime (ix : _TimeIndexer) (slot : Z) : datetime :=
  base ix + timedelta_minutes (slot * granularity ix).

Definition duration_to_slots (ix : _TimeIndexer) (minutes : Z) : Z :=
  Z.max 1 (cdiv minutes (granularity ix)).

(** Base and horizon: the first lines of [schedule], identical in
    [CPLNSScheduler] and [SWOScheduler].  [t0] is the first task of the
    (non-empty) task list. *)
Definition base_start_of (granularity_minutes : Z) (t0 : ScheduleTask)
    (ts : list ScheduleTask) (ms : list ScheduleMeeting) : datetime :=
  let base_start_candidates :=
    map earliest_start ts ++
    match ms with [] => [] | _ => map meeting_start ms end in
  let base_start := list_min (earliest_start t0) base_start_candidates in
  let base_start := replace_second_zero base_start in
  let minute_offset := dt_minute base_start mod granularity_minutes in
  if minute_offset =? 0 then base_start
  else base_start - timedelta_minutes minute_offset.

Definition horizon_slots_of (indexer : _TimeIndexer)
    (all_tasks : list ScheduleTask) (ms : list ScheduleMeeting) : Z :=
  let base_start := base indexer in
  let horizon_end_candidate :=
    Z.max (list_max_default (map due all_tasks) base_start)
          (list_max_default (map meeting_end ms) base_start) in
  Z.max (to_slot_ceiling indexer horizon_end_candidate + 10) 10.

(** [previous = request.previous_assignments or {}] *)
Definition previous_of (request : ScheduleRequest) : dict (datetime * datetime) :=
  match previous_assignments request with
  | Some d => d
  | None => []
  end.

(** [range(lo, hi)] *)
Definition range (lo hi : Z) : list Z :=
  map (fun i => lo + Z.of_nat i) (seq 0 (Z.to_nat (hi - lo))).

(** Field-wise equality of two tasks (the [__eq__] of the dataclass). *)
Definition window_eqb (a b : datetime * datetime) : bool :=
  (fst a =? fst b) && (snd a =? snd b).

Fixpoint list_eqb {A} (eqb : A -> A -> bool) (l1 l2 : list A) : bool :=
  match l1, l2 with
  | [], [] => true
  | x :: r1, y :: r2 => eqb x y && list_eqb eqb r1 r2
  | _, _ => false
  end.

Definition option_eqb {A} (eqb : A -> A -> bool) (a b : option A) : bool :=
  match a, b with
  | None, None => true
  | Some x, Some y => eqb x y
  | _, _ => false
  end.

Definition ScheduleTask_eqb (a b : ScheduleTask) : bool :=
  String.eqb (task_id a) (task_id b)
  && (duration_minutes a =? duration_minutes b)
  && (earliest_start a =? earliest_start b)
  && (due a =? due b)
  && (priority a =? priority b)
  && option_eqb (list_eqb window_eqb) (preferred_windows a) (preferred_windows b)
  && option_eqb Z.eqb (fixed_start a) (fixed_start b).

(** ** Floats ([_TimeIndexer] as the source computes it)

    A Python [float] is an IEEE 754 binary64 number.  The quotient of
    two integers, the quotient of two floats and the conversion of an
    integer are the representable number nearest to the exact value, a
    tie going to the even significand.  A finite float is kept as the
    rational it denotes. *)

(** The exponent [e] of a positive rational: [2^e <= x < 2^(e+1)]. *)
Definition binade (x : Q) : Z :=
  let k := Z.log2 (Qnum x) - Z.log2 (Z.pos (Qden x)) in
  if Qle_bool (2 ^ k) x then k else k - 1.

(** The nearest integer, a tie going to the even one. *)
Definition round_half_even (x : Q) : Z :=
  let f := Qfloor x in
  match (x - inject_Z f ?= 1 # 2)%Q with
  | Lt => f
  | Gt => f + 1
  | Eq => if Z.even f then f else f + 1
  end.

(** The nearest number with a significand of 53 bits and an exponent of
    at least [-1022]; below [2^-1022] the numbers are subnormal, at a
    distance of [2^-1074] from each other. *)
Definition float_round (x : Q) : Q :=
  if Qeq_bool x 0 then 0%Q
  else
    let e := Z.max (binade (Qabs x)) (-1022) in
    let ulp := (2 ^ (e - 52))%Q in
    (inject_Z (round_half_even (x / ulp)) * ulp)%Q.

(** A rounded value of [2^1024] or more is beyond the largest float. *)
Definition finite (x : Q) : option Q :=
  if Qle_bool (2 ^ 1024) (Qabs x) then None else Some x.

(** The unit roundoff of binary64, [2^-53]. *)
Definition unit_roundoff : Q := 1 # 9007199254740992.

(** [float(n)]; [None] is [OverflowError]. *)
Definition float_of_int (n : Z) : option Q :=
  finite (float_round (inject_Z n)).

(** [a / b] on two integers; [None] is [ZeroDivisionError] or
    [OverflowError]. *)
Definition int_truediv (a b : Z) : option Q :=
  if b =? 0 then None
  else finite (float_round (inject_Z a / inject_Z b)).

(** [x / n] on a float and an integer, which is converted first;
    [None] is [ZeroDivisionError], the [OverflowError] of the
    conversion, or an infinite quotient, on which [math.floor] and
    [math.ceil] raise [OverflowError]. *)
Definition float_truediv_int (x : Q) (n : Z) : option Q :=
  y <- float_of_int n ;;
  if Qeq_bool y 0 then None else finite (float_round (x / y)).

(** [delta.total_seconds()], the microseconds of the difference divided
    by [10**6]. *)
Definition total_seconds (delta : Z) : option Q :=
  int_truediv delta 1000000.

(** The methods of [_TimeIndexer] as the source computes them, on
    floats. *)
Module TimeIndexerFloat.

Definition to_slot (self : _TimeIndexer) (timestamp : datetime)
    : option Z :=
  let delta := timestamp - base self in
  seconds <- total_seconds delta ;;
  minutes <- float_truediv_int seconds 60 ;;
  quotient <- float_truediv_int minutes (granularity self) ;;
  Some (Qfloor quotient).

Definition to_slot_ceiling (self : _TimeIndexer) (timestamp : datetime)
    : option Z :=
  let delta := timestamp - base self in
  seconds <- total_seconds delta ;;
  minutes <- float_truediv_int seconds 60 ;;
  quotient <- float_truediv_int minutes (granularity self) ;;
  Some (Qceiling quotient).

Definition duration_to_slots (self : _TimeIndexer) (minutes : Z)
    : option Z :=
  quotient <- int_truediv minutes (granularity self) ;;
  Some (Z.max 1 (Qceiling quotient)).

End TimeIndexerFloat.

(** The same quotient with the binary64 operations of the Standard
    Library ([SpecFloat]), for two integers that are floats. *)
Definition binary64_of_int (n : Z) : SpecFloat.spec_float :=
  SpecFloat.binary_normalize 53 1024 n 0 false.

Definition binary64_value (x : SpecFloat.spec_float) : option Q :=
  match x with
  | SpecFloat.S754_zero _ => Some 0%Q
  | SpecFloat.S754_finite s m e =>
      Some (inject_Z (if s then Z.neg m else Z.pos m) * 2 ^ e)%Q
  | _ => None
  end.

Definition same_quotient (ab : Z * Z) : bool :=
  let '(a, b) := ab in
  match binary64_value
          (SpecFloat.SFdiv 53 1024 (binary64_of_int a) (binary64_of_int b)),
        int_truediv a b with
  | Some x, Some y => Qeq_bool x y
  | None, None => true
  | _, _ => false
  end.

Definition quotient_examples : list (Z * Z) :=
  [(1, 3); (1, 10); (-1, 3); (2, 3); (7, 1); (0, 5); (1, 1000000);
   (2251799813685247, 1000000); (1799999999999999, 1000000);
   (1800000000000001, 1000000); (-1799999999999999, 1000000);
   (9007199254740991, 3); (9007199254740991, 9007199254740990);
   (1, 9007199254740991); (3, 4503599627370496); (4503599627370497, 2);
   (4503599627370499, 2); (-4503599627370497, 2); (123456789, 60);
   (5, 15); (2251799813685247, 7);
   (1, 2 ^ 1023); (1, 2 ^ 1023 + 2 ^ 1000); (3, 2 ^ 1023);
   (2 ^ 1023, 1); (-5, 2 ^ 1022 + 2 ^ 990)].

(** ** The squeaky-wheel scheduler ([app/scheduler/swo.py]) *)

Module SWOScheduler.

Record _SegmentInfo := {
  task : ScheduleTask;
  duration_slots : Z;
  earliest_slot : Z;
  latest_start_slot : Z;
  due_slot : Z;
  previous_start_slot : option Z
}.

(** The scheduler object; [__init__] raises [ValueError] unless
    [init_ok] holds.  Penalties are floats in the source and exact
    rationals here. *)
Record t := {
  granularity_minutes : Z;
  max_iterations : Z;
  unscheduled_penalty : Z;
  deviation_weight : Z;
  slack_weight : Z;
  working_day_start_hour : Z;
  working_day_end_hour : Z
}.

Definition init_ok (self : t) : bool :=
  (0 <=? working_day_start_hour self)
  && (working_day_start_hour self <? working_day_end_hour self)
  && (working_day_end_hour self <=? 24).

Definition default : t :=
  {| granularity_minutes := 15; max_iterations := 6;
     unscheduled_penalty := 10000; deviation_weight := 50;
     slack_weight := 5; working_day_start_hour := 9;
     working_day_end_hour := 17 |}.

(** [all(not occupancy[idx] for idx in idxs)], stopping at the first
    occupied slot. *)
Fixpoint all_not_occupied (occupancy : list bool) (idxs : list Z)
    : option bool :=
  match idxs with
  | [] => Some true
  | idx :: r =>
      b <- list_get occupancy idx ;;
      if b then Some false else all_not_occupied occupancy r
  end.

(** The [while slot <= latest_start] loop of [_find_slot]; [fuel]
    bounds the number of turns. *)
Fixpoint find_slot_loop (info : _SegmentInfo) (occupancy : list bool)
    (latest_start slot : Z) (fuel : nat) : option (option Z) :=
  match fuel with
  | O => Some None
  | S fuel' =>
      if slot <=? latest_start then
        let end_slot := slot + duration_slots info in
        if end_slot >? due_slot info then
          find_slot_loop info occupancy latest_start (slot + 1) fuel'
        else
          free <- all_not_occupied occupancy (range slot end_slot) ;;
          if free then Some (Some slot)
          else find_slot_loop info occupancy latest_start (slot + 1) fuel'
      else Some None
  end.

Definition _find_slot (info : _SegmentInfo) (occupancy : list bool)
    (horizon_slots : Z) : option (option Z) :=
  let latest_start :=
    Z.min (latest_start_slot info) (horizon_slots - duration_slots info) in
  let slot := earliest_slot info in
  find_slot_loop info occupancy latest_start slot
    (Z.to_nat (latest_start - slot + 1)).

(** [for slot in idxs: occupancy[slot] = True] *)
Fixpoint mark_occupied (occupancy : list bool) (idxs : list Z)
    : option (list bool) :=
  match idxs with
  | [] => Some occupancy
  | slot :: r =>
      occupancy' <- list_set occupancy slot true ;;
      mark_occupied occupancy' r
  end.

(** The three locals of [_construct_schedule]. *)
Record pass_state := {
  occupancy : list bool;
  pass_assignments : dict Z;
  pass_unscheduled : list string
}.

(** The body of [for task in order]. *)
Definition construct_step (segment_infos : dict _SegmentInfo)
    (horizon_slots : Z) (st : pass_state) (tk : ScheduleTask)
    : option pass_state :=
  info <- dict_get segment_infos (task_id tk) ;;
  start_slot <- _find_slot info (occupancy st) horizon_slots ;;
  match start_slot with
  | None =>
      Some {| occupancy := occupancy st;
              pass_assignments := pass_assignments st;
              pass_unscheduled := pass_unscheduled st ++ [task_id tk] |}
  | Some start_slot =>
      occupancy' <- mark_occupied (occupancy st)
                      (range start_slot (start_slot + duration_slots info)) ;;
      Some {| occupancy := occupancy';
              pass_assignments :=
                dict_set (pass_assignments st) (task_id tk) start_slot;
              pass_unscheduled := pass_unscheduled st |}
  end.

Fixpoint construct_loop (segment_infos : dict _SegmentInfo)
    (horizon_slots : Z) (order : list ScheduleTask) (st : pass_state)
    : option pass_state :=
  match order with
  | [] => Some st
  | tk :: r =>
      st' <- construct_step segment_infos horizon_slots st tk ;;
      construct_loop segment_infos horizon_slots r st'
  end.

Definition _construct_schedule (order : list ScheduleTask)
    (segment_infos : dict _SegmentInfo) (base_occupancy : list bool)
    (horizon_slots : Z) : option (dict Z * list string) :=
  st <- construct_loop segment_infos horizon_slots order
          {| occupancy := base_occupancy;
             pass_assignments := [];
             pass_unscheduled := [] |} ;;
  Some (pass_assignments st, pass_unscheduled st).

(** The [AssignedTask] that [_build_result] makes for the task [tid]
    started at [start_slot]. *)
Definition make_assigned (indexer : _TimeIndexer) (info : _SegmentInfo)
    (tid : string) (start_slot : Z) : AssignedTask :=
  let end_slot := start_slot + duration_slots info in
  let start_dt := to_datetime indexer start_slot in
  let end_dt := to_datetime indexer end_slot in
  let deviation :=
    match previous_start_slot info with
    | Some p => Z.abs (start_slot - p) * granularity indexer
    | None => 0
    end in
  let tardiness :=
    if end_dt >? due (task info)
    then Z.quot (end_dt - due (task info)) US_PER_MINUTE
    else 0 in
  {| assigned_task_id := tid;
     assigned_start := start_dt;
     assigned_end := end_dt;
     deviation_minutes := deviation;
     tardiness_minutes := tardiness |}.

(** The body of [for task_id, start_slot in assignments.items()] in
    [_build_result]. *)
Definition assigned_of (segment_infos : dict _SegmentInfo)
    (indexer : _TimeIndexer) (item : string * Z) : option AssignedTask :=
  let '(tid, start_slot) := item in
  info <- dict_get segment_infos tid ;;
  Some (make_assigned indexer info tid start_slot).

Fixpoint assigned_list (segment_infos : dict _SegmentInfo)
    (indexer : _TimeIndexer) (items : dict Z) : option (list AssignedTask) :=
  match items with
  | [] => Some []
  | item :: r =>
      a <- assigned_of segment_infos indexer item ;;
      rest <- assigned_list segment_infos indexer r ;;
      Some (a :: rest)
  end.

Definition start_le (a b : AssignedTask) : bool :=
  assigned_start a <=? assigned_start b.

Definition _build_result (assignments : dict Z) (unscheduled : list string)
    (segment_infos : dict _SegmentInfo) (indexer : _TimeIndexer)
    : option ScheduleResult :=
  assigned <- assigned_list segment_infos indexer assignments ;;
  Some {| assignments := sorted start_le assigned;
          unscheduled_tasks := unscheduled;
          objective_value := None |}.

(** The body of [for task_id, info in segment_infos.items()] in
    [_evaluate_penalties]. *)
Definition penalty_of (self : t) (assignments : dict Z)
    (unscheduled : list string) (tid : string) (info : _SegmentInfo)
    : option Q :=
  if existsb (String.eqb tid) unscheduled
  then Some (inject_Z (unscheduled_penalty self))
  else
    start_slot <- dict_get assignments tid ;;
    let end_slot := start_slot + duration_slots info in
    let slack := Z.max 0 (due_slot info - end_slot) in
    let deviation_minutes :=
      match previous_start_slot info with
      | Some p => Z.abs (start_slot - p) * granularity_minutes self
      | None => 0
      end in
    Some (inject_Z (deviation_weight self * deviation_minutes)
          + inject_Z (slack_weight self) * (1 / inject_Z (slack + 1)))%Q.

Fixpoint penalties_loop (self : t) (assignments : dict Z)
    (unscheduled : list string) (items : dict _SegmentInfo)
    (penalties : dict Q) : option (dict Q) :=
  match items with
  | [] => Some penalties
  | (tid, info) :: r =>
      p <- penalty_of self assignments unscheduled tid info ;;
      penalties_loop self assignments unscheduled r (dict_set penalties tid p)
  end.

Definition _evaluate_penalties (self : t) (assignments : dict Z)
    (unscheduled : list string) (segment_infos : dict _SegmentInfo)
    : option (dict Q) :=
  penalties_loop self assignments unscheduled segment_infos [].

(** The body of the first [for task in tasks] loop of [schedule]. *)
Definition segment_info_of (indexer : _TimeIndexer) (horizon_slots : Z)
    (previous : dict (datetime * datetime)) (tk : ScheduleTask)
    : _SegmentInfo :=
  let duration_slots := duration_to_slots indexer (duration_minutes tk) in
  let earliest_slot := to_slot_ceiling indexer (earliest_start tk) in
  let due_slot := to_slot_ceiling indexer (due tk) in
  let latest_start_slot :=
    Z.max earliest_slot
          (Z.min (due_slot - duration_slots) (horizon_slots - duration_slots)) in
  let previous_assignment := dict_get previous (task_id tk) in
  let previous_start_slot :=
    match previous_assignment with
    | Some pa => Some (to_slot indexer (fst pa))
    | None => None
    end in
  {| task := tk;
     duration_slots := duration_slots;
     earliest_slot := earliest_slot;
     latest_start_slot := latest_start_slot;
     due_slot := due_slot;
     previous_start_slot := previous_start_slot |}.

Fixpoint infos_loop (indexer : _TimeIndexer) (horizon_slots : Z)
    (previous : dict (datetime * datetime)) (ts : list ScheduleTask)
    (segment_infos : dict _SegmentInfo) : dict _SegmentInfo :=
  match ts with
  | [] => segment_infos
  | tk :: r =>
      infos_loop indexer horizon_slots previous r
        (dict_set segment_infos (task_id tk)
           (segment_info_of indexer horizon_slots previous tk))
  end.

(** [key=lambda t: (-t.priority, t.earliest_start)] *)
Definition initial_le (a b : ScheduleTask) : bool :=
  if - priority a =? - priority b
  then earliest_start a <=? earliest_start b
  else - priority a <? - priority b.

(** Whether a slot starts outside the working hours.  The source
    compares [dt.hour + dt.minute / 60] with the two integer hours;
    both sides are multiplied by 60 here. *)
Definition outside_working_hours (self : t) (dt : datetime) : bool :=
  let hour60 := 60 * dt_hour dt + dt_minute dt in
  (hour60 <? 60 * working_day_start_hour self)
  || (hour60 >=? 60 * working_day_end_hour self).

Fixpoint block_hours_loop (self : t) (indexer : _TimeIndexer)
    (slots : list Z) (base_occupancy : list bool) : option (list bool) :=
  match slots with
  | [] => Some base_occupancy
  | slot :: r =>
      let dt := to_datetime indexer slot in
      if outside_working_hours self dt then
        occ <- list_set base_occupancy slot true ;;
        block_hours_loop self indexer r occ
      else block_hours_loop self indexer r base_occupancy
  end.

Definition block_hours (self : t) (indexer : _TimeIndexer)
    (horizon_slots : Z) (base_occupancy : list bool) : option (list bool) :=
  if (working_day_start_hour self >? 0) || (working_day_end_hour self <? 24)
  then block_hours_loop self indexer (range 0 horizon_slots) base_occupancy
  else Some base_occupancy.

Fixpoint block_meetings (indexer : _TimeIndexer) (horizon_slots : Z)
    (ms : list ScheduleMeeting) (base_occupancy : list bool)
    : option (list bool) :=
  match ms with
  | [] => Some base_occupancy
  | meeting :: r =>
      let start_slot := Z.max 0 (to_slot indexer (meeting_start meeting)) in
      let end_slot :=
        Z.min horizon_slots (to_slot_ceiling indexer (meeting_end meeting)) in
      occ <- mark_occupied base_occupancy (range start_slot end_slot) ;;
      block_meetings indexer horizon_slots r occ
  end.

(** The base occupancy: [[False] * horizon_slots] with the slots outside
    the working hours and the slots of the meetings taken. *)
Definition base_occupancy_of (self : t) (indexer : _TimeIndexer)
    (horizon_slots : Z) (ms : list ScheduleMeeting) : option (list bool) :=
  let base_occupancy := repeat false (Z.to_nat horizon_slots) in
  base_occupancy <- block_hours self indexer horizon_slots base_occupancy ;;
  block_meetings indexer horizon_slots ms base_occupancy.

(** The indexer of a request with first task [t0]. *)
Definition indexer_of (self : t) (t0 : ScheduleTask)
    (ts : list ScheduleTask) (ms : list ScheduleMeeting) : _TimeIndexer :=
  {| base := base_start_of (granularity_minutes self) t0 ts ms;
     granularity := granularity_minutes self |}.

(** [math.inf] is [None]. *)
Definition lt_inf (a : Z) (b : option Z) : bool :=
  match b with Some b => a <? b | None => true end.

Definition eq_inf (a : Z) (b : option Z) : bool :=
  match b with Some b => a =? b | None => false end.

(** [any(abs(new_penalties[id] - penalties[id]) > 1e-6 for task in order)] *)
Fixpoint any_changed (new_penalties penalties : dict Q)
    (order : list ScheduleTask) : option bool :=
  match order with
  | [] => Some false
  | tk :: r =>
      n <- dict_get new_penalties (task_id tk) ;;
      o <- dict_get penalties (task_id tk) ;;
      if negb (Qle_bool (Qabs (n - o)) (1 # 1000000)) then Some true
      else any_changed new_penalties penalties r
  end.

(** The keys [(-penalties[t.task_id], -t.priority, t.earliest_start)]
    of the reordering, computed once per task. *)
Fixpoint reorder_keys (penalties : dict Q) (order : list ScheduleTask)
    : option (list ((Q * Z * datetime) * ScheduleTask)) :=
  match order with
  | [] => Some []
  | tk :: r =>
      p <- dict_get penalties (task_id tk) ;;
      rest <- reorder_keys penalties r ;;
      Some (((- p)%Q, - priority tk, earliest_start tk, tk) :: rest)
  end.

(** Order of the key tuples. *)
Definition reorder_le (a b : (Q * Z * datetime) * ScheduleTask) : bool :=
  let '(pa, qa, ea, _) := a in
  let '(pb, qb, eb, _) := b in
  if negb (Qeq_bool pa pb) then Qle_bool pa pb
  else if negb (qa =? qb) then qa <? qb
  else ea <=? eb.

(** The locals that the [for iteration in range(max_iterations)] loop
    of [schedule] carries from one turn to the next. *)
Record loop_state := {
  order : list ScheduleTask;
  penalties : dict Q;
  best_result : option ScheduleResult;
  best_unscheduled : option Z;
  best_objective : option Z
}.

(** [{task.task_id: 0.0 for task in tasks}] *)
Fixpoint initial_penalties (ts : list ScheduleTask) (penalties : dict Q)
    : dict Q :=
  match ts with
  | [] => penalties
  | tk :: r => initial_penalties r (dict_set penalties (task_id tk) 0%Q)
  end.

Fixpoint iterations (self : t) (segment_infos : dict _SegmentInfo)
    (base_occupancy : list bool) (horizon_slots : Z)
    (indexer : _TimeIndexer) (n : nat) (st : loop_state)
    : option loop_state :=
  match n with
  | O => Some st
  | S n' =>
      pass <- _construct_schedule (order st) segment_infos base_occupancy
                horizon_slots ;;
      let '(assignments, unscheduled) := pass in
      result <- _build_result assignments unscheduled segment_infos indexer ;;
      let objective := len unscheduled * unscheduled_penalty self in
      let better :=
        match best_result st with None => true | Some _ => false end
        || lt_inf (len unscheduled) (best_unscheduled st)
        || (eq_inf (len unscheduled) (best_unscheduled st)
            && lt_inf objective (best_objective st)) in
      let best_result' := if better then Some result else best_result st in
      let best_unscheduled' :=
        if better then Some (len unscheduled) else best_unscheduled st in
      let best_objective' :=
        if better then Some objective else best_objective st in
      new_penalties <-
        _evaluate_penalties self assignments unscheduled segment_infos ;;
      changed <- any_changed new_penalties (penalties st) (order st) ;;
      keyed <- reorder_keys new_penalties (order st) ;;
      let new_order := map snd (sorted reorder_le keyed) in
      let st' := {| order := order st;
                    penalties := new_penalties;
                    best_result := best_result';
                    best_unscheduled := best_unscheduled';
                    best_objective := best_objective' |} in
      if negb changed || list_eqb ScheduleTask_eqb new_order (order st)
      then Some st'
      else iterations self segment_infos base_occupancy horizon_slots
             indexer n'
             {| order := new_order;
                penalties := penalties st';
                best_result := best_result st';
                best_unscheduled := best_unscheduled st';
                best_objective := best_objective st' |}
  end.

Definition schedule (self : t) (request : ScheduleRequest)
    : option ScheduleResult :=
  match tasks request with
  | [] => Some {| assignments := []; unscheduled_tasks := [];
                  objective_value := Some 0 |}
  | t0 :: ts =>
      let all_tasks := t0 :: ts in
      let meetings := meetings request in
      let previous := previous_of request in
      let indexer := indexer_of self t0 ts meetings in
      let horizon_slots := horizon_slots_of indexer all_tasks meetings in
      let segment_infos :=
        infos_loop indexer horizon_slots previous all_tasks [] in
      let order := sorted initial_le all_tasks in
      base_occupancy <- base_occupancy_of self indexer horizon_slots meetings ;;
      st <- iterations self segment_infos base_occupancy horizon_slots
              indexer (Z.to_nat (max_iterations self))
              {| order := order;
                 penalties := initial_penalties all_tasks [];
                 best_result := None;
                 best_unscheduled := None;
                 best_objective := None |} ;;
      let best :=
        match best_result st with
        | Some r => r
        | None => {| assignments := [];
                     unscheduled_tasks := dict_keys previous;
                     objective_value := None |}
        end in
      Some {| assignments := assignments best;
              unscheduled_tasks := unscheduled_tasks best;
              objective_value := best_objective st |}
  end.

End SWOScheduler.

(** ** The CP/LNS scheduler ([app/scheduler/cp_lns.py])

    [schedule] builds a constraint model, hands it to the CP-SAT solver
    and decodes the solver's answer.  The solver is an external library:
    the model is embedded as the predicate that a valuation of the
    decision variables satisfies every constraint that [schedule] adds,
    and the solver's answer is an input of the decoding. *)

Module CPLNSScheduler.

(** The scheduler object ([__init__] raises [ValueError] unless
    [init_ok]).  The time limit and the worker count only configure the
    solver's search and are left out. *)
Record t := {
  granularity_minutes : Z;
  tardiness_weight : Z;
  stability_weight : Z;
  start_time_weight : Z;
  unscheduled_weight : Z;
  working_day_start_hour : Z;
  working_day_end_hour : Z
}.

Definition init_ok (self : t) : bool :=
  (0 <=? working_day_start_hour self)
  && (working_day_start_hour self <? working_day_end_hour self)
  && (working_day_end_hour self <=? 24).

Definition default : t :=
  {| granularity_minutes := 5; tardiness_weight := 200;
     stability_weight := 30; start_time_weight := 1;
     unscheduled_weight := 10000; working_day_start_hour := 9;
     working_day_end_hour := 17 |}.

(** The values of the five decision variables of one task: [start],
    [end], [presence], [tardiness] and [deviation]. *)
Record task_values := {
  start_val : Z;
  end_val : Z;
  presence_val : bool;
  tardiness_val : Z;
  deviation_val : Z
}.

Inductive CpSolverStatus :=
| UNKNOWN | MODEL_INVALID | FEASIBLE | INFEASIBLE | OPTIMAL.

(** What [solver.Solve(model)] leaves behind: the status, the value of
    the variables of each task (in the order of [request.tasks]) and
    the objective value. *)
Record solver_response := {
  status : CpSolverStatus;
  values : list task_values;
  objective : Z
}.

Definition is_solution (s : CpSolverStatus) : bool :=
  match s with
  | OPTIMAL | FEASIBLE => true
  | _ => false
  end.

(** [window_slot_range] *)
Definition window_slot_range_of (indexer : _TimeIndexer)
    (neighborhood : option (datetime * datetime)) : option (Z * Z) :=
  match neighborhood with
  | Some (w_start, w_end) =>
      Some (to_slot indexer w_start, to_slot_ceiling indexer w_end)
  | None => None
  end.

Definition in_domain (lo hi v : Z) : bool := (lo <=? v) && (v <=? hi).

(** The constraints that the body of [for task in tasks] adds for one
    task, read on the values [v] of that task's variables. *)
Definition task_constraints (indexer : _TimeIndexer) (horizon_slots : Z)
    (previous : dict (datetime * datetime))
    (window_slot_range : option (Z * Z))
    (tk : ScheduleTask) (v : task_values) : bool :=
  let duration_slots := duration_to_slots indexer (duration_minutes tk) in
  let earliest_slot := to_slot indexer (earliest_start tk) in
  let latest_start_slot := to_slot_ceiling indexer (due tk) - duration_slots in
  let latest_start_slot := Z.min latest_start_slot (horizon_slots - duration_slots) in
  let earliest_slot := Z.max 0 earliest_slot in
  let latest_start_slot := Z.max earliest_slot latest_start_slot in
  let start := start_val v in
  let end_ := end_val v in
  let presence := presence_val v in
  (* NewIntVar domains; NewOptionalIntervalVar(start, duration, end, presence) *)
  in_domain earliest_slot latest_start_slot start
  && in_domain (earliest_slot + duration_slots) horizon_slots end_
  && implb presence (start + duration_slots =? end_)
  (* Respect earliest start / due windows when task is scheduled. *)
  && implb presence (start >=? earliest_slot)
  && implb presence (end_ <=? to_slot_ceiling indexer (due tk))
  &&
  let previous_assignment := dict_get previous (task_id tk) in
  let previous_start_slot :=
    match previous_assignment with
    | Some pa => Some (to_slot indexer (fst pa))
    | None => None
    end in
  (match fixed_start tk with
   | Some fs =>
       let fixed_slot := to_slot indexer fs in
       (start =? fixed_slot) && presence
   | None =>
       match window_slot_range, previous_start_slot with
       | Some (w_lo, w_hi), Some p =>
           if negb ((w_lo <=? p) && (p <=? w_hi))
           then (start =? p) && presence
           else true
       | _, _ => true
       end
   end)
  &&
  let previous_start_slot :=
    match fixed_start tk with
    | Some fs => Some (to_slot indexer fs)
    | None => previous_start_slot
    end in
  (* Tasks without any previous assignment should be scheduled. *)
  (match previous_assignment, fixed_start tk with
   | None, None => presence
   | _, _ => true
   end)
  (* Lateness variables capture deadline violation (0 if on-time). *)
  && in_domain 0 horizon_slots (tardiness_val v)
  && implb presence
       (tardiness_val v >=? end_ - to_slot_ceiling indexer (due tk))
  && implb (negb presence) (tardiness_val v =? 0)
  && in_domain 0 horizon_slots (deviation_val v)
  && (match previous_start_slot with
      | Some p =>
          (deviation_val v >=? start - p) && (deviation_val v >=? p - start)
      | None => deviation_val v =? 0
      end).

(** The fixed interval of one meeting. *)
Definition meeting_interval (indexer : _TimeIndexer)
    (meeting : ScheduleMeeting) : Z * Z :=
  let meeting_start_slot := to_slot indexer (meeting_start meeting) in
  let meeting_duration_minutes :=
    Z.max 1 (cdiv (meeting_end meeting - meeting_start meeting) US_PER_MINUTE) in
  let meeting_duration_slots :=
    duration_to_slots indexer meeting_duration_minutes in
  (meeting_start_slot, meeting_start_slot + meeting_duration_slots).

(** [add_block_interval]: the list of fixed intervals with the new
    block appended, or unchanged when the block is empty. *)
Definition add_block_interval (indexer : _TimeIndexer) (horizon_slots : Z)
    (intervals : list (Z * Z)) (start_dt end_dt : datetime)
    : list (Z * Z) :=
  let start_slot := Z.max 0 (to_slot indexer start_dt) in
  let end_slot := Z.min horizon_slots (to_slot_ceiling indexer end_dt) in
  if end_slot <=? start_slot then intervals
  else
    let duration := end_slot - start_slot in
    intervals ++ [(start_slot, start_slot + duration)].

(** [current_day.replace(hour=h, minute=0, second=0, microsecond=0)]
    for a [current_day] at midnight; [ValueError] unless [0 <= h <= 23]. *)
Definition replace_hour_checked (current_day : datetime) (h : Z)
    : option datetime :=
  if (0 <=? h) && (h <=? 23) then Some (replace_hour current_day h)
  else None.

(** The [while current_day < horizon_end_dt] loop; [fuel] bounds the
    number of days. *)
Fixpoint day_loop (self : t) (indexer : _TimeIndexer) (horizon_slots : Z)
    (horizon_end_dt : datetime) (fuel : nat) (current_day : datetime)
    (intervals : list (Z * Z)) : option (list (Z * Z)) :=
  match fuel with
  | O => Some intervals
  | S fuel' =>
      if current_day <? horizon_end_dt then
        work_start_dt <-
          replace_hour_checked current_day (working_day_start_hour self) ;;
        work_end_dt <-
          replace_hour_checked current_day (working_day_end_hour self) ;;
        let next_day_dt := current_day + timedelta_days 1 in
        let intervals :=
          add_block_interval indexer horizon_slots intervals
            current_day work_start_dt in
        let intervals :=
          add_block_interval indexer horizon_slots intervals
            work_end_dt next_day_dt in
        day_loop self indexer horizon_slots horizon_end_dt fuel'
          next_day_dt intervals
      else Some intervals
  end.

(** The fixed intervals of the model: the meetings, then the blocks
    outside the working hours. *)
Definition fixed_intervals (self : t) (indexer : _TimeIndexer)
    (horizon_slots : Z) (ms : list ScheduleMeeting)
    : option (list (Z * Z)) :=
  let intervals := map (meeting_interval indexer) ms in
  if (working_day_start_hour self >? 0) || (working_day_end_hour self <? 24)
  then
    let base_start := base indexer in
    let horizon_end_dt := to_datetime indexer horizon_slots in
    let current_day := replace_hour base_start 0 in
    let current_day :=
      if current_day >? base_start then current_day - timedelta_days 1
      else current_day in
    day_loop self indexer horizon_slots horizon_end_dt
      (Z.to_nat ((horizon_end_dt - current_day) / US_PER_DAY + 1))
      current_day intervals
  else Some intervals.

(** [AddNoOverlap]: two intervals of the list never share a slot. *)
Definition disjointb (a b : Z * Z) : bool :=
  (snd a <=? fst b) || (snd b <=? fst a).

Fixpoint no_overlap (intervals : list (Z * Z)) : bool :=
  match intervals with
  | [] => true
  | i :: r => forallb (disjointb i) r && no_overlap r
  end.

(** The intervals of the tasks that are present. *)
Definition task_intervals (vs : list task_values) : list (Z * Z) :=
  map (fun v => (start_val v, end_val v))
      (filter presence_val vs).

(** The variable dictionaries ([start_vars], [end_vars], [present_vars],
    [lateness_vars], [deviation_vars]) share their keys; they are kept
    as one dictionary from a task id to the values of its variables. *)
Fixpoint vars_of (ts : list ScheduleTask) (vs : list task_values)
    (vars : dict task_values) : dict task_values :=
  match ts, vs with
  | tk :: ts', v :: vs' => vars_of ts' vs' (dict_set vars (task_id tk) v)
  | _, _ => vars
  end.

(** The objective: the sum of [objective_terms]. *)
Fixpoint objective_of (self : t) (vars : dict task_values)
    (ts : list ScheduleTask) : option Z :=
  match ts with
  | [] => Some 0
  | tk :: r =>
      v <- dict_get vars (task_id tk) ;;
      rest <- objective_of self vars r ;;
      Some (unscheduled_weight self * (1 - (if presence_val v then 1 else 0))
            + tardiness_weight self * priority tk * tardiness_val v
            + stability_weight self * deviation_val v
            + start_time_weight self * priority tk * start_val v
            + rest)
  end.

(** The indexer and the horizon of a request with first task [t0]. *)
Definition indexer_of (self : t) (t0 : ScheduleTask)
    (ts : list ScheduleTask) (ms : list ScheduleMeeting) : _TimeIndexer :=
  {| base := base_start_of (granularity_minutes self) t0 ts ms;
     granularity := granularity_minutes self |}.

(** Whether the valuation [vs] satisfies the model that [schedule]
    builds for a non-empty request. *)
Definition model_satisfied (self : t) (request : ScheduleRequest)
    (vs : list task_values) : bool :=
  match tasks request with
  | [] => false
  | t0 :: ts =>
      let all_tasks := t0 :: ts in
      let indexer := indexer_of self t0 ts (meetings request) in
      let horizon_slots :=
        horizon_slots_of indexer all_tasks (meetings request) in
      let window_slot_range :=
        window_slot_range_of indexer (neighborhood_window request) in
      match fixed_intervals self indexer horizon_slots (meetings request) with
      | None => false
      | Some fixed =>
          Nat.eqb (List.length vs) (List.length all_tasks)
          && forallb
               (fun tv => task_constraints indexer horizon_slots
                            (previous_of request) window_slot_range
                            (fst tv) (snd tv))
               (combine all_tasks vs)
          && no_overlap (task_intervals vs ++ fixed)
      end
  end.

(** The solver's contract: a response with status [OPTIMAL] or
    [FEASIBLE] carries a valuation that satisfies the model, and the
    value of the objective at it. *)
Definition response_ok (self : t) (request : ScheduleRequest)
    (response : solver_response) : bool :=
  if is_solution (status response) then
    model_satisfied self request (values response)
    && match objective_of self
               (vars_of (tasks request) (values response) [])
               (tasks request) with
       | Some o => objective response =? o
       | None => false
       end
  else true.

(** The [AssignedTask] that the decoding makes for a present task from
    the values of its variables. *)
Definition make_assigned (self : t) (indexer : _TimeIndexer)
    (tk : ScheduleTask) (v : task_values) : AssignedTask :=
  let start_dt := to_datetime indexer (start_val v) in
  let end_dt := to_datetime indexer (end_val v) in
  let deviation_minutes := deviation_val v * granularity_minutes self in
  let tardiness_minutes := tardiness_val v * granularity_minutes self in
  {| assigned_task_id := task_id tk;
     assigned_start := start_dt;
     assigned_end := end_dt;
     deviation_minutes := deviation_minutes;
     tardiness_minutes := tardiness_minutes |}.

(** The decoding loop [for task in tasks] after the solver call. *)
Fixpoint decode (self : t) (indexer : _TimeIndexer)
    (vars : dict task_values) (ts : list ScheduleTask)
    : option (list AssignedTask * list string) :=
  match ts with
  | [] => Some ([], [])
  | tk :: r =>
      v <- dict_get vars (task_id tk) ;;
      rest <- decode self indexer vars r ;;
      let '(assignments, unscheduled) := rest in
      if negb (presence_val v) then
        Some (assignments, task_id tk :: unscheduled)
      else
        Some (make_assigned self indexer tk v :: assignments, unscheduled)
  end.

Definition start_le (a b : AssignedTask) : bool :=
  assigned_start a <=? assigned_start b.

(** [schedule]; [response] is the outcome of [solver.Solve(model)]. *)
Definition schedule (self : t) (request : ScheduleRequest)
    (response : solver_response) : option ScheduleResult :=
  match tasks request with
  | [] => Some {| assignments := []; unscheduled_tasks := [];
                  objective_value := Some 0 |}
  | t0 :: ts =>
      let all_tasks := t0 :: ts in
      let indexer := indexer_of self t0 ts (meetings request) in
      let horizon_slots :=
        horizon_slots_of indexer all_tasks (meetings request) in
      (* building the model may raise *)
      _ <- fixed_intervals self indexer horizon_slots (meetings request) ;;
      if negb (is_solution (status response)) then
        Some {| assignments := [];
                unscheduled_tasks := map task_id all_tasks;
                objective_value := None |}
      else
        let vars := vars_of all_tasks (values response) [] in
        decoded <- decode self indexer vars all_tasks ;;
        let '(assignments, unscheduled) := decoded in
        let objective_value :=
          match status response with
          | OPTIMAL => Some (objective response)
          | _ => None
          end in
        Some {| assignments := sorted start_le assignments;
                unscheduled_tasks := unscheduled;
                objective_value := objective_value |}
  end.

End CPLNSScheduler.

(** ** Segmentation and remap in the service ([app/services/scheduling.py]) *)

(** A task row as the service reads it.  [task_row_id] is [str(task.id)],
    the text of a UUID; the preferred windows are taken as already
    parsed by [_extract_preferred_windows]. *)
Record Task := {
  task_row_id : string;
  task_row_duration_minutes : Z;
  task_row_earliest_start : datetime;
  task_row_due : datetime;
  task_row_priority : Z;
  task_row_preferred_windows : option (list (datetime * datetime))
}.

(** The characters of the text of a UUID: hexadecimal digits and dashes. *)
Definition uuid_char (c : ascii) : bool :=
  let n := nat_of_ascii c in
  ((48 <=? n) && (n <=? 57))%nat       (* 0-9 *)
  || ((97 <=? n) && (n <=? 102))%nat   (* a-f *)
  || (n =? 45)%nat.                    (* - *)

Fixpoint uuid_text (s : string) : bool :=
  match s with
  | EmptyString => true
  | String c r => uuid_char c && uuid_text r
  end.

(** [str(n)] for a natural number. *)
Definition str_of_nat (n : nat) : string :=
  NilZero.string_of_uint (Nat.to_uint n).

(** [str(task.id) if index == 0 else f"{task.id}::seg{index+1}"] *)
Definition schedule_id_of (tid : string) (index : nat) : string :=
  match index with
  | O => tid
  | S _ => (tid ++ "::seg" ++ str_of_nat (index + 1))%string
  end.

(** The three accumulators of the fan-out loop of [_run_with_scheduler]. *)
Record expansion := {
  expanded_tasks : list ScheduleTask;
  schedule_mapping : dict string;
  segment_previous_assignments : dict (datetime * datetime)
}.

(** The body of [for index, segment_duration in enumerate(segments)]. *)
Definition expand_segment (tk : Task)
    (previous_segments : list (datetime * datetime))
    (acc : expansion) (index : nat) (segment_duration : Z) : expansion :=
  let schedule_id := schedule_id_of (task_row_id tk) index in
  {| expanded_tasks :=
       expanded_tasks acc ++
       [{| task_id := schedule_id;
           duration_minutes := segment_duration;
           earliest_start := task_row_earliest_start tk;
           due := task_row_due tk;
           priority := task_row_priority tk;
           preferred_windows := task_row_preferred_windows tk;
           fixed_start := None |}];
     schedule_mapping :=
       dict_set (schedule_mapping acc) schedule_id (task_row_id tk);
     segment_previous_assignments :=
       match nth_error previous_segments index with
       | Some prev =>
           dict_set (segment_previous_assignments acc) schedule_id prev
       | None => segment_previous_assignments acc
       end |}.

Fixpoint expand_segments (tk : Task)
    (previous_segments : list (datetime * datetime))
    (acc : expansion) (index : nat) (segments : list Z) : expansion :=
  match segments with
  | [] => acc
  | segment_duration :: r =>
      expand_segments tk previous_segments
        (expand_segment tk previous_segments acc index segment_duration)
        (S index) r
  end.

(** The loop [for task in tasks]; [previous_assignments_grouped] is the
    grouping of the latest snapshot. *)
Fixpoint expand_tasks
    (previous_assignments_grouped : dict (list (datetime * datetime)))
    (ts : list Task) (acc : expansion) : expansion :=
  match ts with
  | [] => acc
  | tk :: r =>
      let segments := _segment_duration (task_row_duration_minutes tk) in
      let previous_segments :=
        dict_get_default previous_assignments_grouped (task_row_id tk) [] in
      expand_tasks previous_assignments_grouped r
        (expand_segments tk previous_segments acc 0%nat segments)
  end.

Definition empty_expansion : expansion :=
  {| expanded_tasks := []; schedule_mapping := [];
     segment_previous_assignments := [] |}.

(** [mapping.get(task_id, task_id)] *)
Definition root_id (mapping : dict string) (tid : string) : string :=
  dict_get_default mapping tid tid.

(** A set comprehension followed by [sorted]: the elements without
    repetition, in increasing order.  The order in which the set is
    walked does not show in the sorted list. *)
Definition sorted_set (l : list string) : list string :=
  sorted String.leb (nodup string_dec l).

Definition _remap_schedule_result (result : ScheduleResult)
    (mapping : dict string) : ScheduleResult :=
  let remapped_assignments :=
    map (fun assignment =>
           {| assigned_task_id := root_id mapping (assigned_task_id assignment);
              assigned_start := assigned_start assignment;
              assigned_end := assigned_end assignment;
              deviation_minutes := deviation_minutes assignment;
              tardiness_minutes := tardiness_minutes assignment |})
        (assignments result) in
  let remapped_unscheduled :=
    sorted_set (map (root_id mapping) (unscheduled_tasks result)) in
  {| assignments := remapped_assignments;
     unscheduled_tasks := remapped_unscheduled;
     objective_value := objective_value result |}.

(** ** Vocabulary of the statements *)

(** The width of a slot in microseconds. *)
Definition slot_width (ix : _TimeIndexer) : Z := US_PER_MINUTE * granularity ix.

(** A slot of the occupancy bitmap is free: it exists and is not taken. *)
Definition free (occupancy : list bool) (idx : Z) : Prop :=
  list_get occupancy idx = Some false.

(** A start slot that the construction pass may give to a task: inside
    [earliest_slot, latest_start_slot], ending by [due_slot], on free
    slots only. *)
Definition fits (info : SWOScheduler._SegmentInfo) (occupancy : list bool)
    (slot : Z) : Prop :=
  SWOScheduler.earliest_slot info <= slot <= SWOScheduler.latest_start_slot info
  /\ slot + SWOScheduler.duration_slots info <= SWOScheduler.due_slot info
  /\ forall idx, slot <= idx < slot + SWOScheduler.duration_slots info ->
                 free occupancy idx.

Definition least_fit (info : SWOScheduler._SegmentInfo) (occupancy : list bool)
    (slot : Z) : Prop :=
  fits info occupancy slot
  /\ forall slot', fits info occupancy slot' -> slot <= slot'.

(** [occupancy'] is [occupancy] with the slots of [lo, hi) taken. *)
Definition marked (occupancy occupancy' : list bool) (lo hi : Z) : Prop :=
  len occupancy' = len occupancy
  /\ forall idx, 0 <= idx ->
                 list_get occupancy' idx
                 = if (lo <=? idx) && (idx <? hi) then Some true
                   else list_get occupancy idx.

(** A candidate start slot passes the two tests of the body of the loop
    of [_find_slot]. *)
Definition accepted_at (info : SWOScheduler._SegmentInfo)
    (occupancy : list bool) (slot : Z) : Prop :=
  slot + SWOScheduler.duration_slots info <= SWOScheduler.due_slot info
  /\ Forall (free occupancy)
            (range slot (slot + SWOScheduler.duration_slots info)).

(** The invariant of the loop of [_construct_schedule], for the
    dictionary [segment_infos], the horizon and the base occupancy of
    the pass: the bitmap keeps its length, a slot taken in the base
    occupancy stays taken, every recorded start fits the base occupancy
    and covers taken slots only, and the recorded intervals are pairwise
    apart. *)
Definition entry_ok (segment_infos : dict SWOScheduler._SegmentInfo)
    (base_occupancy occupancy : list bool) (e : string * Z) : Prop :=
  exists info,
    dict_get segment_infos (fst e) = Some info
    /\ fits info base_occupancy (snd e)
    /\ forall idx, snd e <= idx < snd e + SWOScheduler.duration_slots info ->
                   list_get occupancy idx = Some true.

Definition entries_apart (segment_infos : dict SWOScheduler._SegmentInfo)
    (e1 e2 : string * Z) : Prop :=
  forall i1 i2,
    dict_get segment_infos (fst e1) = Some i1 ->
    dict_get segment_infos (fst e2) = Some i2 ->
    snd e1 + SWOScheduler.duration_slots i1 <= snd e2
    \/ snd e2 + SWOScheduler.duration_slots i2 <= snd e1.

Record pass_inv (segment_infos : dict SWOScheduler._SegmentInfo)
    (horizon_slots : Z) (base_occupancy : list bool)
    (st : SWOScheduler.pass_state) : Prop := {
  inv_len : len (SWOScheduler.occupancy st) = horizon_slots;
  inv_base : forall idx, 0 <= idx ->
                         list_get base_occupancy idx = Some true ->
                         list_get (SWOScheduler.occupancy st) idx = Some true;
  inv_entries : Forall (entry_ok segment_infos base_occupancy
                          (SWOScheduler.occupancy st))
                       (SWOScheduler.pass_assignments st);
  inv_apart : ForallOrdPairs (entries_apart segment_infos)
                             (SWOScheduler.pass_assignments st)
}.

(** Where an assignment of a pass comes from: a task id with its
    segment info and a start slot that fits the base occupancy. *)
Definition from_entry_of (segment_infos : dict SWOScheduler._SegmentInfo)
    (base_occupancy : list bool) (indexer : _TimeIndexer)
    (items : dict Z) (a : AssignedTask) : Prop :=
  exists e info,
    In e items
    /\ dict_get segment_infos (fst e) = Some info
    /\ fits info base_occupancy (snd e)
    /\ a = SWOScheduler.make_assigned indexer info (fst e) (snd e).

(** A task id has been dealt with by the pass: it has a start slot or
    it is unscheduled. *)
Definition covered (st : SWOScheduler.pass_state) (k : string) : Prop :=
  In k (dict_keys (SWOScheduler.pass_assignments st))
  \/ In k (SWOScheduler.pass_unscheduled st).

(** The base occupancy has the length of the horizon, and the slots that
    start outside the working hours and the slots that a meeting touches
    are taken. *)
Definition base_ok (self : SWOScheduler.t) (ix : _TimeIndexer)
    (horizon_slots : Z) (ms : list ScheduleMeeting) (occ : list bool) : Prop :=
  len occ = horizon_slots
  /\ (forall idx, 0 <= idx < horizon_slots ->
                  SWOScheduler.outside_working_hours self (to_datetime ix idx) = true ->
                  list_get occ idx = Some true)
  /\ (forall m idx, In m ms -> 0 <= idx < horizon_slots ->
                    to_slot ix (meeting_start m) <= idx
                                < to_slot_ceiling ix (meeting_end m) ->
                    list_get occ idx = Some true).

(** A result that one construction pass over a permutation of the
    tasks produces. *)
Definition is_pass_result (segment_infos : dict SWOScheduler._SegmentInfo)
    (base_occupancy : list bool) (horizon_slots : Z) (ix : _TimeIndexer)
    (all_tasks : list ScheduleTask) (r : ScheduleResult) : Prop :=
  exists order asg uns,
    Permutation all_tasks order
    /\ SWOScheduler._construct_schedule order segment_infos base_occupancy
         horizon_slots = Some (asg, uns)
    /\ SWOScheduler._build_result asg uns segment_infos ix = Some r.

(** The invariant of the iteration loop of [SWOScheduler.schedule]. *)
Definition loop_inv (segment_infos : dict SWOScheduler._SegmentInfo)
    (base_occupancy : list bool) (horizon_slots : Z) (ix : _TimeIndexer)
    (all_tasks : list ScheduleTask) (st : SWOScheduler.loop_state) : Prop :=
  Permutation all_tasks (SWOScheduler.order st)
  /\ (forall tk, In tk all_tasks ->
                 In (task_id tk) (dict_keys (SWOScheduler.penalties st)))
  /\ match SWOScheduler.best_result st with
     | Some r => is_pass_result segment_infos base_occupancy horizon_slots ix
                   all_tasks r
     | None => True
     end.

(** The indexer and the horizon that a scheduler with granularity [g]
    derives from a request (both schedulers derive them alike). *)
Definition request_indexer (g : Z) (request : ScheduleRequest) : _TimeIndexer :=
  match tasks request with
  | [] => {| base := 0; granularity := g |}
  | t0 :: ts =>
      {| base := base_start_of g t0 ts (meetings request); granularity := g |}
  end.

Definition request_horizon (g : Z) (request : ScheduleRequest) : Z :=
  horizon_slots_of (request_indexer g request) (tasks request)
    (meetings request).

(** An assignment of the squeaky-wheel scheduler for the task [tk]: made
    by [_build_result] from a start slot that fits the segment info of
    [tk] in the base occupancy [occ]. *)
Definition swo_assignment_of (self : SWOScheduler.t)
    (request : ScheduleRequest) (occ : list bool)
    (tk : ScheduleTask) (a : AssignedTask) : Prop :=
  let ix := request_indexer (SWOScheduler.granularity_minutes self) request in
  let hz := request_horizon (SWOScheduler.granularity_minutes self) request in
  let info := SWOScheduler.segment_info_of ix hz (previous_of request) tk in
  exists s,
    fits info occ s
    /\ a = SWOScheduler.make_assigned ix info (task_id tk) s.

(** The tasks of a solution that are present (absent), with the values
    of their variables. *)
Definition present_pairs (ts : list ScheduleTask)
    (vs : list CPLNSScheduler.task_values)
    : list (ScheduleTask * CPLNSScheduler.task_values) :=
  filter (fun tv => CPLNSScheduler.presence_val (snd tv)) (combine ts vs).

Definition absent_pairs (ts : list ScheduleTask)
    (vs : list CPLNSScheduler.task_values)
    : list (ScheduleTask * CPLNSScheduler.task_values) :=
  filter (fun tv => negb (CPLNSScheduler.presence_val (snd tv))) (combine ts vs).

(** The constraints of the task [tk] in the model of a request. *)
Definition cp_task_ok (self : CPLNSScheduler.t) (request : ScheduleRequest)
    (tk : ScheduleTask) (v : CPLNSScheduler.task_values) : Prop :=
  let g := CPLNSScheduler.granularity_minutes self in
  CPLNSScheduler.task_constraints (request_indexer g request)
    (request_horizon g request) (previous_of request)
    (CPLNSScheduler.window_slot_range_of (request_indexer g request)
       (neighborhood_window request))
    tk v = true.

(** An assignment of the CP scheduler for the task [tk]: decoded from
    values [v] that satisfy the constraints of [tk] with [presence = 1],
    on an interval that shares no slot with a fixed interval. *)
Definition cp_assignment_of (self : CPLNSScheduler.t)
    (request : ScheduleRequest) (response : CPLNSScheduler.solver_response)
    (fixed : list (Z * Z)) (tk : ScheduleTask) (a : AssignedTask) : Prop :=
  exists v,
    In (tk, v) (combine (tasks request) (CPLNSScheduler.values response))
    /\ CPLNSScheduler.presence_val v = true
    /\ cp_task_ok self request tk v
    /\ (forall iv, In iv fixed ->
                   CPLNSScheduler.disjointb
                     (CPLNSScheduler.start_val v, CPLNSScheduler.end_val v) iv
                   = true)
    /\ a = CPLNSScheduler.make_assigned self
             (request_indexer (CPLNSScheduler.granularity_minutes self) request)
             tk v.

(** The order of task ids that [sorted] uses on strings. *)
Definition string_le (a b : string) : Prop := String.leb a b = true.

(** The mapping sends every id to an id that it leaves alone. *)
Definition roots_fixed (mapping : dict string) : Prop :=
  forall k, root_id mapping (root_id mapping k) = root_id mapping k.

(** The invariant of the fan-out loop on [schedule_mapping]: every value
    is the text of a UUID, is mapped to itself, and is the root of the
    segment id that is mapped to it. *)
Definition mapping_inv (mapping : dict string) : Prop :=
  forall k v, dict_get mapping k = Some v ->
              uuid_text v = true
              /\ dict_get mapping v = Some v
              /\ exists i, k = schedule_id_of v i.

(** [mapping'] keeps every entry of [mapping]. *)
Definition mapping_extends (mapping mapping' : dict string) : Prop :=
  forall k v, dict_get mapping k = Some v -> dict_get mapping' k = Some v.

(** The task rows all carry the text of a UUID as their id. *)
Definition uuid_ids (rows : list Task) : bool :=
  forallb (fun tk => uuid_text (task_row_id tk)) rows.

(** The slot at which the model pins the start of a task, if it does:
    the slot of [fixed_start], or the slot of the previous start when it
    lies outside the slot range of the neighbourhood window. *)
Definition pinned_slot (ix : _TimeIndexer)
    (previous : dict (datetime * datetime))
    (window_slot_range : option (Z * Z)) (tk : ScheduleTask) : option Z :=
  match fixed_start tk with
  | Some fs => Some (to_slot ix fs)
  | None =>
      match window_slot_range, dict_get previous (task_id tk) with
      | Some (w_lo, w_hi), Some pa =>
          let p := to_slot ix (fst pa) in
          if negb ((w_lo <=? p) && (p <=? w_hi)) then Some p else None
      | _, _ => None
      end
  end.

(** Every task with a [fixed_start] is assigned in [res], at the slot of
    its [fixed_start], and is not unscheduled. *)
Definition pinned_by_fixed_start (ix : _TimeIndexer)
    (request : ScheduleRequest) (res : ScheduleResult) : Prop :=
  forall tk fs,
    In tk (tasks request) -> fixed_start tk = Some fs ->
    (exists a, In a (assignments res)
               /\ assigned_task_id a = task_id tk
               /\ assigned_start a = to_datetime ix (to_slot ix fs))
    /\ ~ In (task_id tk) (unscheduled_tasks res).

(** The task [tk] is frozen by the neighbourhood window of the request:
    a window is given, the task has a previous assignment [prev] and no
    fixed start, and the slot of the previous start lies outside the
    slot range of the window. *)
Definition frozen (ix : _TimeIndexer) (request : ScheduleRequest)
    (tk : ScheduleTask) (prev : datetime * datetime) : Prop :=
  exists w,
    neighborhood_window request = Some w
    /\ dict_get (previous_of request) (task_id tk) = Some prev
    /\ fixed_start tk = None
    /\ ~ (to_slot ix (fst w) <= to_slot ix (fst prev)
                               <= to_slot_ceiling ix (snd w)).

(** Every frozen task is assigned in [res] and starts at [start_of prev],
    where [prev] is its previous assignment. *)
Definition frozen_tasks_start_at (ix : _TimeIndexer)
    (request : ScheduleRequest) (res : ScheduleResult)
    (start_of : datetime * datetime -> datetime) : Prop :=
  forall tk prev,
    In tk (tasks request) -> frozen ix request tk prev ->
    (exists a, In a (assignments res)
               /\ assigned_task_id a = task_id tk
               /\ assigned_start a = start_of prev)
    /\ ~ In (task_id tk) (unscheduled_tasks res).




(** An instant inside the working hours [ws, we). *)
Definition working (ws we : Z) (t : datetime) : Prop := ws <= dt_hour t < we.



(** An instant that a fixed interval of the list covers. *)
Definition covered_by (ix : _TimeIndexer) (intervals : list (Z * Z))
    (t : datetime) : Prop :=
  exists lo hi, In (lo, hi) intervals
                /\ to_datetime ix lo <= t < to_datetime ix hi.




(** The result for a request without tasks. *)
Definition empty_result : ScheduleResult :=
  {| assignments := []; unscheduled_tasks := []; objective_value := Some 0 |}.

(** The state in which [_construct_schedule] enters its loop. *)
Definition initial_pass_state (base_occupancy : list bool)
    : SWOScheduler.pass_state :=
  {| SWOScheduler.occupancy := base_occupancy;
     SWOScheduler.pass_assignments := [];
     SWOScheduler.pass_unscheduled := [] |}.

(** Every segment info has a start slot on the grid and a length. *)
Definition infos_ok (segment_infos : dict SWOScheduler._SegmentInfo) : Prop :=
  forall k info, dict_get segment_infos k = Some info ->
                 0 <= SWOScheduler.earliest_slot info
                 /\ 1 <= SWOScheduler.duration_slots info.

(** What one turn of the loop of [_construct_schedule] does with the
    task [tk], from the state [st] to the state [st']. *)
Definition step_outcome (info : SWOScheduler._SegmentInfo)
    (tk : ScheduleTask) (st st' : SWOScheduler.pass_state) : Prop :=
  (exists s,
      least_fit info (SWOScheduler.occupancy st) s
      /\ SWOScheduler.pass_assignments st'
         = dict_set (SWOScheduler.pass_assignments st) (task_id tk) s
      /\ marked (SWOScheduler.occupancy st) (SWOScheduler.occupancy st')
                s (s + SWOScheduler.duration_slots info)
      /\ SWOScheduler.pass_unscheduled st' = SWOScheduler.pass_unscheduled st)
  \/ ((forall s, ~ fits info (SWOScheduler.occupancy st) s)
      /\ SWOScheduler.pass_unscheduled st'
         = SWOScheduler.pass_unscheduled st ++ [task_id tk]
      /\ SWOScheduler.occupancy st' = SWOScheduler.occupancy st
      /\ SWOScheduler.pass_assignments st' = SWOScheduler.pass_assignments st).

(** Two half-open intervals of instants do not meet. *)
Definition disjoint (s1 e1 s2 e2 : datetime) : Prop := e1 <= s2 \/ e2 <= s1.

Definition assigned_disjoint (a b : AssignedTask) : Prop :=
  disjoint (assigned_start a) (assigned_end a)
           (assigned_start b) (assigned_end b).

(** The assignments of a result are pairwise non-overlapping. *)
Definition non_overlapping (l : list AssignedTask) : Prop :=
  ForallOrdPairs assigned_disjoint l.

(** ** Example inputs

    Instants of 2025-01-06 (UTC), the day of the scenarios of the
    specification. *)

Definition on_day (h m : Z) : datetime :=
  20094 * US_PER_DAY + (h * 60 + m) * US_PER_MINUTE.

Definition plain_task (tid : string) (minutes : Z) (es du : datetime)
    (prio : Z) : ScheduleTask :=
  {| task_id := tid; duration_minutes := minutes; earliest_start := es;
     due := du; priority := prio; preferred_windows := None;
     fixed_start := None |}.

Definition meeting_10_11 : ScheduleMeeting :=
  {| meeting_id := "meeting-1"; meeting_start := on_day 10 0;
     meeting_end := on_day 11 0 |}.

(** Scenario 1: two tasks around a meeting. *)
Definition request_meeting_deadline : ScheduleRequest :=
  {| tasks := [plain_task "task-a" 90 (on_day 9 0) (on_day 17 0) 5;
               plain_task "task-b" 60 (on_day 9 0) (on_day 12 0) 10];
     meetings := [meeting_10_11];
     previous_assignments := None;
     neighborhood_window := None |}.

(** The optimal solution of scenario 1 at 5 minutes per slot: task-b at
    09:00, task-a at 11:00. *)
Definition response_meeting_deadline : CPLNSScheduler.solver_response :=
  {| CPLNSScheduler.status := CPLNSScheduler.OPTIMAL;
     CPLNSScheduler.values :=
       [{| CPLNSScheduler.start_val := 24; CPLNSScheduler.end_val := 42;
           CPLNSScheduler.presence_val := true;
           CPLNSScheduler.tardiness_val := 0;
           CPLNSScheduler.deviation_val := 0 |};
        {| CPLNSScheduler.start_val := 0; CPLNSScheduler.end_val := 12;
           CPLNSScheduler.presence_val := true;
           CPLNSScheduler.tardiness_val := 0;
           CPLNSScheduler.deviation_val := 0 |}];
     CPLNSScheduler.objective := 120 |}.

(** The result of both schedulers on scenario 1, up to the objective
    value. *)
Definition result_meeting_deadline (objective : option Z) : ScheduleResult :=
  {| assignments :=
       [{| assigned_task_id := "task-b"; assigned_start := on_day 9 0;
           assigned_end := on_day 10 0; deviation_minutes := 0;
           tardiness_minutes := 0 |};
        {| assigned_task_id := "task-a"; assigned_start := on_day 11 0;
           assigned_end := on_day 12 30; deviation_minutes := 0;
           tardiness_minutes := 0 |}];
     unscheduled_tasks := [];
     objective_value := objective |}.

(** Two task rows, the first one split into three segments, and a
    result over their segments. *)
Definition example_rows : list Task :=
  [{| task_row_id := "0b9f-aa01"; task_row_duration_minutes := 250;
      task_row_earliest_start := on_day 9 0; task_row_due := on_day 17 0;
      task_row_priority := 5; task_row_preferred_windows := None |};
   {| task_row_id := "07c2-bb02"; task_row_duration_minutes := 30;
      task_row_earliest_start := on_day 9 0; task_row_due := on_day 12 0;
      task_row_priority := 3; task_row_preferred_windows := None |}].

Definition example_segment_result : ScheduleResult :=
  {| assignments :=
       [{| assigned_task_id := "0b9f-aa01"; assigned_start := on_day 9 0;
           assigned_end := on_day 11 0; deviation_minutes := 0;
           tardiness_minutes := 0 |};
        {| assigned_task_id := "0b9f-aa01::seg2"; assigned_start := on_day 11 0;
           assigned_end := on_day 13 0; deviation_minutes := 0;
           tardiness_minutes := 0 |}];
     unscheduled_tasks :=
       ["0b9f-aa01::seg3"; "07c2-bb02"; "0b9f-aa01::seg3"]%string;
     objective_value := None |}.

(** A task with a fixed start at 10:00 that may start at 09:00. *)
Definition task_fixed_at_10 : ScheduleTask :=
  {| task_id := "task-a"; duration_minutes := 60;
     earliest_start := on_day 9 0; due := on_day 17 0; priority := 5;
     preferred_windows := None; fixed_start := Some (on_day 10 0) |}.

Definition request_fixed_start : ScheduleRequest :=
  {| tasks := [task_fixed_at_10]; meetings := [];
     previous_assignments := None; neighborhood_window := None |}.

Definition one_assignment (tid : string) (s e : datetime)
    (objective : option Z) : ScheduleResult :=
  {| assignments :=
       [{| assigned_task_id := tid; assigned_start := s; assigned_end := e;
           deviation_minutes := 0; tardiness_minutes := 0 |}];
     unscheduled_tasks := [];
     objective_value := objective |}.

Definition one_task_values (s e : Z) : CPLNSScheduler.task_values :=
  {| CPLNSScheduler.start_val := s; CPLNSScheduler.end_val := e;
     CPLNSScheduler.presence_val := true;
     CPLNSScheduler.tardiness_val := 0;
     CPLNSScheduler.deviation_val := 0 |}.

(** The solution of [request_fixed_start]: the task at 10:00. *)
Definition response_fixed_start : CPLNSScheduler.solver_response :=
  {| CPLNSScheduler.status := CPLNSScheduler.OPTIMAL;
     CPLNSScheduler.values := [one_task_values 12 24];
     CPLNSScheduler.objective := 60 |}.

(** Scenario 2: task-a is frozen at 09:00, task-b has to leave the slot
    of the meeting. *)
Definition request_lns : ScheduleRequest :=
  {| tasks := [plain_task "task-a" 60 (on_day 9 0) (on_day 17 0) 5;
               plain_task "task-b" 60 (on_day 9 0) (on_day 17 0) 3];
     meetings := [meeting_10_11];
     previous_assignments :=
       Some [("task-a"%string, (on_day 9 0, on_day 10 0));
             ("task-b"%string, (on_day 10 0, on_day 11 0))];
     neighborhood_window := Some (on_day 9 55, on_day 11 5) |}.

Definition response_lns : CPLNSScheduler.solver_response :=
  {| CPLNSScheduler.status := CPLNSScheduler.OPTIMAL;
     CPLNSScheduler.values :=
       [one_task_values 0 12;
        {| CPLNSScheduler.start_val := 24; CPLNSScheduler.end_val := 36;
           CPLNSScheduler.presence_val := true;
           CPLNSScheduler.tardiness_val := 0;
           CPLNSScheduler.deviation_val := 12 |}];
     CPLNSScheduler.objective := 432 |}.

Definition result_lns : ScheduleResult :=
  {| assignments :=
       [{| assigned_task_id := "task-a"; assigned_start := on_day 9 0;
           assigned_end := on_day 10 0; deviation_minutes := 0;
           tardiness_minutes := 0 |};
        {| assigned_task_id := "task-b"; assigned_start := on_day 11 0;
           assigned_end := on_day 12 0; deviation_minutes := 60;
           tardiness_minutes := 0 |}];
     unscheduled_tasks := [];
     objective_value := Some 432 |}.

(** A frozen task whose previous slot a meeting has taken since: the
    model has no solution. *)
Definition request_frozen_conflict : ScheduleRequest :=
  {| tasks := [plain_task "task-a" 60 (on_day 9 0) (on_day 17 0) 5];
     meetings := [meeting_10_11];
     previous_assignments :=
       Some [("task-a"%string, (on_day 10 0, on_day 11 0))];
     neighborhood_window := Some (on_day 12 0, on_day 13 0) |}.

Definition response_infeasible : CPLNSScheduler.solver_response :=
  {| CPLNSScheduler.status := CPLNSScheduler.INFEASIBLE;
     CPLNSScheduler.values := [];
     CPLNSScheduler.objective := 0 |}.

Definition result_all_unscheduled (ids : list string) : ScheduleResult :=
  {| assignments := []; unscheduled_tasks := ids; objective_value := None |}.

(** A frozen task whose previous start, 09:02, is not on the slot grid. *)
Definition request_frozen_off_grid : ScheduleRequest :=
  {| tasks := [plain_task "task-a" 60 (on_day 9 0) (on_day 17 0) 5];
     meetings := [];
     previous_assignments :=
       Some [("task-a"%string, (on_day 9 2, on_day 10 2))];
     neighborhood_window := Some (on_day 12 0, on_day 13 0) |}.

Definition response_frozen_off_grid : CPLNSScheduler.solver_response :=
  {| CPLNSScheduler.status := CPLNSScheduler.OPTIMAL;
     CPLNSScheduler.values := [one_task_values 0 12];
     CPLNSScheduler.objective := 0 |}.

(** A deadline off the slot grid of the CP scheduler: 09:32 at 5
    minutes per slot; a meeting keeps the first slot. *)
Definition request_due_off_grid : ScheduleRequest :=
  {| tasks := [plain_task "task-a" 30 (on_day 9 0) (on_day 9 32) 5];
     meetings := [{| meeting_id := "meeting-0"; meeting_start := on_day 9 0;
                     meeting_end := on_day 9 5 |}];
     previous_assignments := None;
     neighborhood_window := None |}.

Definition response_due_off_grid : CPLNSScheduler.solver_response :=
  {| CPLNSScheduler.status := CPLNSScheduler.OPTIMAL;
     CPLNSScheduler.values := [one_task_values 1 7];
     CPLNSScheduler.objective := 5 |}.






(** A request without tasks. *)
Definition request_no_tasks : ScheduleRequest :=
  {| tasks := []; meetings := [meeting_10_11];
     previous_assignments := None; neighborhood_window := None |}.

(** ** Metrics, snapshots and the request of the service
    ([app/services/scheduling.py], [app/repositories/plan_snapshots.py]) *)

(** [sum(xs)]: the additions are made from left to right, starting at 0. *)
Definition py_sum (xs : list Z) : Z := fold_left Z.add xs 0.

Record SchedulingMetrics := {
  scheduled_count : Z;
  unscheduled_count : Z;
  total_deviation_minutes : Z;
  total_tardiness_minutes : Z
}.

Definition _build_metrics (result : ScheduleResult) : SchedulingMetrics :=
  let total_deviation := py_sum (map deviation_minutes (assignments result)) in
  let total_tardiness := py_sum (map tardiness_minutes (assignments result)) in
  let unscheduled_count := len (unscheduled_tasks result) in
  let scheduled_count := len (assignments result) in
  {| scheduled_count := scheduled_count;
     unscheduled_count := unscheduled_count;
     total_deviation_minutes := total_deviation;
     total_tardiness_minutes := total_tardiness |}.

(** A row of [task_assignments], with the columns that
    [assignments_as_mapping] reads; [assignment_task_id] is
    [str(assignment.task_id)]. *)
Record TaskAssignment := {
  assignment_task_id : string;
  scheduled_start : datetime;
  scheduled_end : datetime
}.

(** [grouped.setdefault(key, []).append(item)] *)
Definition setdefault_append {V} (grouped : dict (list V)) (key : string)
    (item : V) : dict (list V) :=
  dict_set grouped key (dict_get_default grouped key [] ++ [item]).

(** The loop [for assignment in snapshot.assignments]. *)
Fixpoint group_loop (rows : list TaskAssignment)
    (grouped : dict (list (datetime * datetime)))
    : dict (list (datetime * datetime)) :=
  match rows with
  | [] => grouped
  | assignment :: r =>
      group_loop r
        (setdefault_append grouped (assignment_task_id assignment)
           (scheduled_start assignment, scheduled_end assignment))
  end.

(** [key=lambda item: item[0]] *)
Definition item_start_le (a b : datetime * datetime) : bool :=
  fst a <=? fst b.

(** [assignments_as_mapping]; the second loop sorts every list of the
    dictionary in place. *)
Definition assignments_as_mapping (snapshot_assignments : list TaskAssignment)
    : dict (list (datetime * datetime)) :=
  let grouped := group_loop snapshot_assignments [] in
  map (fun kv => (fst kv, sorted item_start_le (snd kv))) grouped.

(** A row of [meetings]; [meeting_row_id] is [str(meeting.id)]. *)
Record Meeting := {
  meeting_row_id : string;
  start_time : datetime;
  end_time : datetime
}.

Definition _to_schedule_meeting (meeting : Meeting) : ScheduleMeeting :=
  {| meeting_id := meeting_row_id meeting;
     meeting_start := start_time meeting;
     meeting_end := end_time meeting |}.

(** The first half of [_run_with_scheduler]: the grouping of the latest
    snapshot, the fan-out of the task rows and the request; the result is
    the request together with [schedule_mapping]. *)
Definition request_of_rows (previous_snapshot : option (list TaskAssignment))
    (rows : list Task) (ms : list Meeting)
    (window : option (datetime * datetime)) : ScheduleRequest * dict string :=
  let previous_assignments_grouped :=
    match previous_snapshot with
    | Some snapshot => assignments_as_mapping snapshot
    | None => []
    end in
  let exp := expand_tasks previous_assignments_grouped rows empty_expansion in
  ({| tasks := expanded_tasks exp;
      meetings := map _to_schedule_meeting ms;
      previous_assignments := Some (segment_previous_assignments exp);
      neighborhood_window := window |},
   schedule_mapping exp).

(** The second half: the scheduler's result remapped to the ids of the
    task rows, and its metrics. *)
Definition remapped_with_metrics (result : ScheduleResult)
    (mapping : dict string) : ScheduleResult * SchedulingMetrics :=
  let remapped_result := _remap_schedule_result result mapping in
  let metrics := _build_metrics remapped_result in
  (remapped_result, metrics).

(** ** Vocabulary of the further properties *)

(** The segments that the fan-out makes of one task row: one task per
    chunk of [_segment_duration], numbered from 0. *)
Definition segment_task (tk : Task) (index : nat) (segment_duration : Z)
    : ScheduleTask :=
  {| task_id := schedule_id_of (task_row_id tk) index;
     duration_minutes := segment_duration;
     earliest_start := task_row_earliest_start tk;
     due := task_row_due tk;
     priority := task_row_priority tk;
     preferred_windows := task_row_preferred_windows tk;
     fixed_start := None |}.

Fixpoint segment_tasks_from (tk : Task) (index : nat) (segments : list Z)
    : list ScheduleTask :=
  match segments with
  | [] => []
  | d :: r => segment_task tk index d :: segment_tasks_from tk (S index) r
  end.

Definition segment_tasks (tk : Task) : list ScheduleTask :=
  segment_tasks_from tk 0 (_segment_duration (task_row_duration_minutes tk)).

(** A list of assignments in which every assignment ends before the
    next ones start. *)
Definition chronological (l : list AssignedTask) : Prop :=
  StronglySorted (fun a b => assigned_end a <= assigned_start b) l.

(** What the iteration loop of the squeaky-wheel scheduler records with
    its best result: the number of unscheduled ids of that result, and
    that number times the penalty. *)
Definition best_recorded (self : SWOScheduler.t)
    (st : SWOScheduler.loop_state) : Prop :=
  match SWOScheduler.best_result st with
  | Some r =>
      SWOScheduler.best_unscheduled st = Some (len (unscheduled_tasks r))
      /\ SWOScheduler.best_objective st
         = Some (len (unscheduled_tasks r) * SWOScheduler.unscheduled_penalty self)
  | None =>
      SWOScheduler.best_unscheduled st = None
      /\ SWOScheduler.best_objective st = None
  end.

(** The invariant of the fan-out loop on [segment_previous_assignments]:
    every entry is, for a segment id over a UUID root, the previous
    assignment of the root at the index of the segment. *)
Definition previous_inv (grouped : dict (list (datetime * datetime)))
    (d : dict (datetime * datetime)) : Prop :=
  forall k v,
    dict_get d k = Some v ->
    exists root j,
      uuid_text root = true
      /\ k = schedule_id_of root j
      /\ nth_error (dict_get_default grouped root []) j = Some v.

(** The start and end columns of the rows of a snapshot that belong to
    the task [k], in the order of the rows. *)
Definition rows_of_task (snapshot_assignments : list TaskAssignment)
    (k : string) : list (datetime * datetime) :=
  map (fun a => (scheduled_start a, scheduled_end a))
      (filter (fun a => String.eqb (assignment_task_id a) k)
              snapshot_assignments).

(** Two states of the iteration loop record the same best result. *)
Definition same_best (st1 st2 : SWOScheduler.loop_state) : Prop :=
  SWOScheduler.best_result st1 = SWOScheduler.best_result st2
  /\ SWOScheduler.best_unscheduled st1 = SWOScheduler.best_unscheduled st2
  /\ SWOScheduler.best_objective st1 = SWOScheduler.best_objective st2.

(** In [st1] the pass with the result [result] and the unscheduled ids
    [uns] has taken the place of the best result of [st]; this happens
    only when [st] has no best result or a best result with at least as
    many unscheduled ids. *)
Definition replaces_best (self : SWOScheduler.t)
    (st st1 : SWOScheduler.loop_state) (uns : list string)
    (result : ScheduleResult) : Prop :=
  SWOScheduler.best_result st1 = Some result
  /\ SWOScheduler.best_unscheduled st1 = Some (len uns)
  /\ SWOScheduler.best_objective st1
     = Some (len uns * SWOScheduler.unscheduled_penalty self)
  /\ (SWOScheduler.best_result st = None
      \/ SWOScheduler.best_unscheduled st = None
      \/ exists b, SWOScheduler.best_unscheduled st = Some b /\ len uns <= b).

(** The state in which [SWOScheduler.schedule] enters its iteration
    loop. *)
Definition initial_loop_state (request : ScheduleRequest)
    : SWOScheduler.loop_state :=
  {| SWOScheduler.order := sorted SWOScheduler.initial_le (tasks request);
     SWOScheduler.penalties :=
       SWOScheduler.initial_penalties (tasks request) [];
     SWOScheduler.best_result := None;
     SWOScheduler.best_unscheduled := None;
     SWOScheduler.best_objective := None |}.

(** The result that [SWOScheduler.schedule] returns after the loop has
    ended in the state [st]. *)
Definition result_of_loop (request : ScheduleRequest)
    (st : SWOScheduler.loop_state) : ScheduleResult :=
  let best :=
    match SWOScheduler.best_result st with
    | Some r => r
    | None => {| assignments := [];
                 unscheduled_tasks := dict_keys (previous_of request);
                 objective_value := None |}
    end in
  {| assignments := assignments best;
     unscheduled_tasks := unscheduled_tasks best;
     objective_value := SWOScheduler.best_objective st |}.

(** Whether a meeting touches a slot: the slot lies between the slot of
    the start of the meeting and the first slot at or after its end. *)
Definition meeting_touches (ix : _TimeIndexer) (m : ScheduleMeeting)
    (idx : Z) : bool :=
  (to_slot ix (meeting_start m) <=? idx)
  && (idx <? to_slot_ceiling ix (meeting_end m)).

(** The instants from which [schedule] takes its base: the earliest
    starts of the tasks and the starts of the meetings. *)
Definition base_candidates (request : ScheduleRequest) : list datetime :=
  map earliest_start (tasks request) ++ map meeting_start (meetings request).

(** ** Further example inputs *)

(** Two task rows of 150 and 90 minutes. *)
Definition example_row (tid : string) (minutes : Z) : Task :=
  {| task_row_id := tid;
     task_row_duration_minutes := minutes;
     task_row_earliest_start := on_day 9 0;
     task_row_due := on_day 17 0;
     task_row_priority := 1;
     task_row_preferred_windows := None |}.

Definition two_rows : list Task :=
  [example_row "6f1c2d3e-0000-4000-8000-00000000000a" 150;
   example_row "6f1c2d3e-0000-4000-8000-00000000000b" 90].

(** A squeaky-wheel scheduler that makes no iteration. *)
Definition swo_no_iterations : SWOScheduler.t :=
  {| SWOScheduler.granularity_minutes := 15;
     SWOScheduler.max_iterations := 0;
     SWOScheduler.unscheduled_penalty := 10000;
     SWOScheduler.deviation_weight := 50;
     SWOScheduler.slack_weight := 5;
     SWOScheduler.working_day_start_hour := 9;
     SWOScheduler.working_day_end_hour := 17 |}.

(** The result of the squeaky-wheel scheduler on scenario 2: the
    assignments of [result_lns], with the objective value 0. *)
Definition result_lns_swo : ScheduleResult :=
  {| assignments := assignments result_lns;
     unscheduled_tasks := [];
     objective_value := Some 0 |}.

(** A CP scheduler whose working day ends at midnight. *)
Definition cp_until_midnight : CPLNSScheduler.t :=
  {| CPLNSScheduler.granularity_minutes := 5;
     CPLNSScheduler.tardiness_weight := 200;
     CPLNSScheduler.stability_weight := 30;
     CPLNSScheduler.start_time_weight := 1;
     CPLNSScheduler.unscheduled_weight := 10000;
     CPLNSScheduler.working_day_start_hour := 9;
     CPLNSScheduler.working_day_end_hour := 24 |}.

(** A task with a previous assignment and no neighbourhood window, and
    a feasible solution that leaves it out. *)
Definition request_droppable : ScheduleRequest :=
  {| tasks := [plain_task "task-a" 60 (on_day 9 0) (on_day 17 0) 5];
     meetings := [];
     previous_assignments :=
       Some [("task-a"%string, (on_day 9 0, on_day 10 0))];
     neighborhood_window := None |}.

Definition response_dropped : CPLNSScheduler.solver_response :=
  {| CPLNSScheduler.status := CPLNSScheduler.FEASIBLE;
     CPLNSScheduler.values :=
       [{| CPLNSScheduler.start_val := 0; CPLNSScheduler.end_val := 12;
           CPLNSScheduler.presence_val := false;
           CPLNSScheduler.tardiness_val := 0;
           CPLNSScheduler.deviation_val := 0 |}];
     CPLNSScheduler.objective := 10000 |}.

(** Scenario 1 with a second meeting before the working hours, from
    08:00 to 08:30. *)
Definition meeting_8_830 : ScheduleMeeting :=
  {| meeting_id := "meeting-2"; meeting_start := on_day 8 0;
     meeting_end := on_day 8 30 |}.

Definition request_early_meeting : ScheduleRequest :=
  {| tasks := tasks request_meeting_deadline;
     meetings := [meeting_10_11; meeting_8_830];
     previous_assignments := None;
     neighborhood_window := None |}.

(** Scenario 1 with a second meeting from 10:30 to 11:30, which overlaps
    the first one. *)
Definition meeting_1030_1130 : ScheduleMeeting :=
  {| meeting_id := "meeting-3"; meeting_start := on_day 10 30;
     meeting_end := on_day 11 30 |}.

Definition request_overlapping_meetings : ScheduleRequest :=
  {| tasks := tasks request_meeting_deadline;
     meetings := [meeting_10_11; meeting_1030_1130];
     previous_assignments := None;
     neighborhood_window := None |}.

(** A task of 90 minutes that has to end one hour after its earliest
    start, beside a task that fits. *)
Definition request_tight : ScheduleRequest :=
  {| tasks := [plain_task "task-a" 90 (on_day 9 0) (on_day 10 0) 5;
               plain_task "task-b" 60 (on_day 9 0) (on_day 12 0) 3];
     meetings := [];
     previous_assignments := None;
     neighborhood_window := None |}.

(** The result of the squeaky-wheel scheduler on [request_tight]. *)
Definition result_tight_swo : ScheduleResult :=
  {| assignments :=
       [{| assigned_task_id := "task-b"; assigned_start := on_day 9 0;
           assigned_end := on_day 10 0; deviation_minutes := 0;
           tardiness_minutes := 0 |}];
     unscheduled_tasks := ["task-a"%string];
     objective_value := Some 10000 |}.

(** A task whose fixed start, 16:30, leaves less than its 60 minutes
    before its deadline, beside a task that fits. *)
Definition request_fixed_too_late : ScheduleRequest :=
  {| tasks := [{| task_id := "task-a"; duration_minutes := 60;
                  earliest_start := on_day 9 0; due := on_day 17 0;
                  priority := 5; preferred_windows := None;
                  fixed_start := Some (on_day 16 30) |};
               plain_task "task-b" 60 (on_day 9 0) (on_day 12 0) 3];
     meetings := [];
     previous_assignments := None;
     neighborhood_window := None |}.

(** A task without its fixed start and its preferred windows, and a
    request whose tasks are such and that has no neighborhood window. *)
Definition without_pins (tk : ScheduleTask) : ScheduleTask :=
  {| task_id := task_id tk;
     duration_minutes := duration_minutes tk;
     earliest_start := earliest_start tk;
     due := due tk;
     priority := priority tk;
     preferred_windows := None;
     fixed_start := None |}.

Definition request_without_pins (request : ScheduleRequest) : ScheduleRequest :=
  {| tasks := map without_pins (tasks request);
     meetings := meetings request;
     previous_assignments := previous_assignments request;
     neighborhood_window := None |}.

(** The same in a segment info and in the state of the loop of
    [SWOScheduler.schedule]. *)
Definition info_without_pins (info : SWOScheduler._SegmentInfo)
    : SWOScheduler._SegmentInfo :=
  {| SWOScheduler.task := without_pins (SWOScheduler.task info);
     SWOScheduler.duration_slots := SWOScheduler.duration_slots info;
     SWOScheduler.earliest_slot := SWOScheduler.earliest_slot info;
     SWOScheduler.latest_start_slot := SWOScheduler.latest_start_slot info;
     SWOScheduler.due_slot := SWOScheduler.due_slot info;
     SWOScheduler.previous_start_slot := SWOScheduler.previous_start_slot info |}.

Definition infos_without_pins (segment_infos : dict SWOScheduler._SegmentInfo)
    : dict SWOScheduler._SegmentInfo :=
  map (fun kv => (fst kv, info_without_pins (snd kv))) segment_infos.

Definition state_without_pins (st : SWOScheduler.loop_state)
    : SWOScheduler.loop_state :=
  {| SWOScheduler.order := map without_pins (SWOScheduler.order st);
     SWOScheduler.penalties := SWOScheduler.penalties st;
     SWOScheduler.best_result := SWOScheduler.best_result st;
     SWOScheduler.best_unscheduled := SWOScheduler.best_unscheduled st;
     SWOScheduler.best_objective := SWOScheduler.best_objective st |}.

(** * Properties *)

(** ** Segmentation *)

Lemma segment_chunk_cases (remaining : Z) :
  15 <= remaining ->
  15 <= segment_chunk remaining <= 120
  /\ (remaining - segment_chunk remaining = 0
      \/ 15 <= remaining - segment_chunk remaining).
Proof.
  intros Hr. unfold segment_chunk, MAX_BLOCK_MINUTES, MIN_BLOCK_MINUTES.
  destruct (0 <? remaining - Z.min 120 remaining) eqn:E1;
    destruct (remaining - Z.min 120 remaining <? 15) eqn:E2;
    cbn [andb]; lia.
Qed.

(** The loop keeps the invariant "nothing or at least one minimal block
    remains", and under it the chunks add up to what remained. *)
Lemma segment_loop_spec (remaining : Z) :
  remaining = 0 \/ 15 <= remaining ->
  Forall (fun c => 15 <= c <= 120) (segment_loop remaining)
  /\ sumZ (segment_loop remaining) = remaining.
Proof.
  funelim (segment_loop remaining); intros Hinv.
  - assert (Hr : 15 <= remaining) by lia.
    destruct (segment_chunk_cases remaining Hr) as [Hc Hrest].
    match goal with
    | IH : _ -> Forall _ (segment_loop _) /\ _ |- _ =>
        destruct (IH Hrest) as [IHall IHsum]
    end.
    split.
    + constructor; assumption.
    + cbn [sumZ fold_right]. fold (sumZ (segment_loop (remaining - segment_chunk remaining))).
      lia.
  - split; [constructor | cbn; lia].
Qed.

(** C2: for a positive [total_minutes], every chunk of
    [_segment_duration total_minutes] lies in [15, 120], the chunks sum
    to [max(total_minutes, 15)], and to [total_minutes] itself when it is
    at least 15. *)
Theorem segment_duration_chunks_and_sum (total_minutes : Z) :
  0 < total_minutes ->
  Forall (fun c => 15 <= c <= 120) (_segment_duration total_minutes)
  /\ sumZ (_segment_duration total_minutes) = Z.max total_minutes 15
  /\ (15 <= total_minutes ->
      sumZ (_segment_duration total_minutes) = total_minutes).
Proof.
  intros _. unfold _segment_duration, MIN_BLOCK_MINUTES.
  destruct (segment_loop_spec (Z.max total_minutes 15)) as [Hall Hsum];
    [lia |].
  repeat split; [assumption | assumption | lia].
Qed.

Lemma segment_duration_chunks_and_sum_witness :
  Forall (fun c => 15 <= c <= 120) (_segment_duration 250)
  /\ sumZ (_segment_duration 250) = Z.max 250 15
  /\ (15 <= 250 -> sumZ (_segment_duration 250) = 250).
Proof. apply (segment_duration_chunks_and_sum 250). lia. Defined.

(** ** Lists, ranges and dictionaries *)

Lemma range_nil (lo hi : Z) : hi <= lo -> range lo hi = [].
Proof.
  intros H. unfold range. replace (Z.to_nat (hi - lo)) with 0%nat by lia.
  reflexivity.
Qed.

Lemma range_cons (lo hi : Z) :
  lo < hi -> range lo hi = lo :: range (lo + 1) hi.
Proof.
  intros H. unfold range.
  replace (Z.to_nat (hi - lo)) with (S (Z.to_nat (hi - (lo + 1)))) by lia.
  cbn [seq map]. f_equal; [lia |].
  rewrite <- seq_shift, map_map. apply map_ext. intros i. lia.
Qed.

Lemma in_range (lo hi i : Z) : In i (range lo hi) <-> lo <= i < hi.
Proof.
  unfold range. rewrite in_map_iff. split.
  - intros [n [<- Hn]]. apply in_seq in Hn. lia.
  - intros Hi. exists (Z.to_nat (i - lo)). split; [lia |].
    apply in_seq. lia.
Qed.

Lemma len_nonneg {A} (l : list A) : 0 <= len l.
Proof. unfold len. lia. Qed.

Lemma py_index_nonneg (n i : Z) :
  0 <= i -> py_index n i = if i <? n then Some (Z.to_nat i) else None.
Proof.
  intros Hi. unfold py_index. destruct (i <? 0) eqn:E; [lia |].
  destruct (0 <=? i) eqn:E2; [reflexivity | lia].
Qed.

Lemma list_get_nonneg {A} (l : list A) (i : Z) :
  0 <= i -> list_get l i = nth_error l (Z.to_nat i).
Proof.
  intros Hi. unfold list_get. rewrite py_index_nonneg by assumption.
  destruct (i <? len l) eqn:E; [reflexivity |].
  cbn. symmetry. apply nth_error_None. unfold len in E. lia.
Qed.

Lemma list_get_range {A} (l : list A) (i : Z) (x : A) :
  list_get l i = Some x -> - len l <= i < len l.
Proof.
  unfold list_get, py_index.
  destruct (i <? 0) eqn:E;
    match goal with
    | |- context [if ?c then _ else _] => destruct c eqn:Ec
    end; cbn; try discriminate; lia.
Qed.

Lemma list_get_defined {A} (l : list A) (i : Z) :
  0 <= i < len l -> exists x, list_get l i = Some x.
Proof.
  intros Hi. rewrite list_get_nonneg by lia.
  destruct (nth_error l (Z.to_nat i)) eqn:N; [eauto |].
  apply nth_error_None in N. unfold len in Hi. lia.
Qed.

Lemma list_set_nat_spec {A} (l : list A) (n : nat) (v : A) (l' : list A) :
  list_set_nat l n v = Some l' ->
  List.length l' = List.length l
  /\ forall m, nth_error l' m = if Nat.eqb m n then Some v else nth_error l m.
Proof.
  revert n l'. induction l as [| x r IH]; intros n l' H; [discriminate |].
  destruct n as [| n'].
  - injection H as <-. split; [reflexivity |].
    intros [| m]; reflexivity.
  - cbn in H. destruct (list_set_nat r n' v) as [r' |] eqn:E; [| discriminate].
    injection H as <-. destruct (IH _ _ E) as [Hlen Hnth].
    split; [cbn; congruence |].
    intros [| m]; [reflexivity | cbn; apply Hnth].
Qed.

Lemma list_set_nat_defined {A} (l : list A) (n : nat) (v : A) :
  (n < List.length l)%nat -> exists l', list_set_nat l n v = Some l'.
Proof.
  revert n. induction l as [| x r IH]; intros n Hn; [cbn in Hn; lia |].
  destruct n as [| n']; [cbn; eauto |].
  cbn in Hn. destruct (IH n') as [r' E]; [lia |].
  cbn. rewrite E. eauto.
Qed.

Lemma list_set_spec {A} (l : list A) (i : Z) (v : A) (l' : list A) :
  0 <= i ->
  list_set l i v = Some l' ->
  len l' = len l
  /\ forall j, 0 <= j ->
               list_get l' j = if j =? i then Some v else list_get l j.
Proof.
  intros Hi. unfold list_set. rewrite py_index_nonneg by assumption.
  destruct (i <? len l); [| discriminate]. cbn [obind].
  intros H. apply list_set_nat_spec in H. destruct H as [Hlen Hnth].
  split; [unfold len; lia |]. intros j Hj.
  rewrite !list_get_nonneg by assumption. rewrite Hnth.
  destruct (j =? i) eqn:E.
  - replace (Z.to_nat j =? Z.to_nat i)%nat with true; [reflexivity |].
    symmetry. apply Nat.eqb_eq. lia.
  - replace (Z.to_nat j =? Z.to_nat i)%nat with false; [reflexivity |].
    symmetry. apply Nat.eqb_neq. lia.
Qed.

Lemma list_set_defined {A} (l : list A) (i : Z) (v : A) :
  0 <= i < len l -> exists l', list_set l i v = Some l'.
Proof.
  intros Hi. unfold list_set. rewrite py_index_nonneg by lia.
  destruct (i <? len l) eqn:E; [| lia]. cbn [obind].
  apply list_set_nat_defined. unfold len in Hi. lia.
Qed.

Lemma len_repeat {A} (x : A) (n : Z) : 0 <= n -> len (repeat x (Z.to_nat n)) = n.
Proof. intros H. unfold len. rewrite repeat_length. lia. Qed.

Lemma list_get_repeat {A} (x : A) (n : nat) (i : Z) (y : A) :
  list_get (repeat x n) i = Some y -> y = x.
Proof.
  unfold list_get. destruct (py_index _ i); [| discriminate]. cbn [obind].
  intros H. apply nth_error_In in H. apply repeat_spec in H. assumption.
Qed.

(** Dictionaries. *)

Lemma dict_get_set_same {V} (d : dict V) (k : string) (v : V) :
  dict_get (dict_set d k v) k = Some v.
Proof.
  induction d as [| [k' v'] r IH]; cbn.
  - rewrite String.eqb_refl. reflexivity.
  - destruct (String.eqb k' k) eqn:E; cbn; rewrite E; [reflexivity | exact IH].
Qed.

Lemma dict_get_set_other {V} (d : dict V) (k k2 : string) (v : V) :
  k <> k2 -> dict_get (dict_set d k v) k2 = dict_get d k2.
Proof.
  intros Hne. induction d as [| [k' v'] r IH]; cbn.
  - destruct (String.eqb k k2) eqn:E; [| reflexivity].
    apply String.eqb_eq in E. contradiction.
  - destruct (String.eqb k' k) eqn:E; cbn.
    + apply String.eqb_eq in E. subst k'.
      destruct (String.eqb k k2) eqn:E2; [| reflexivity].
      apply String.eqb_eq in E2. contradiction.
    + rewrite IH. reflexivity.
Qed.

Lemma dict_get_set {V} (d : dict V) (k k2 : string) (v : V) :
  dict_get (dict_set d k v) k2 = if String.eqb k k2 then Some v else dict_get d k2.
Proof.
  destruct (String.eqb k k2) eqn:E.
  - apply String.eqb_eq in E. subst. apply dict_get_set_same.
  - apply String.eqb_neq in E. apply dict_get_set_other. assumption.
Qed.

(** An entry of [dict_set d k v] is the new entry or an old one. *)
Lemma in_dict_set {V} (d : dict V) (k : string) (v : V) (e : string * V) :
  In e (dict_set d k v) -> e = (k, v) \/ In e d.
Proof.
  induction d as [| [k' v'] r IH]; cbn.
  - intros [<- | []]. left. reflexivity.
  - destruct (String.eqb k' k) eqn:E.
    + apply String.eqb_eq in E. subst k'. intros [<- | Hin]; auto.
    + intros [<- | Hin]; auto. destruct (IH Hin); auto.
Qed.

Lemma dict_get_in {V} (d : dict V) (k : string) (v : V) :
  dict_get d k = Some v -> In (k, v) d.
Proof.
  induction d as [| [k' v'] r IH]; cbn; [discriminate |].
  destruct (String.eqb k' k) eqn:E.
  - apply String.eqb_eq in E. subst k'. intros [= <-]. left. reflexivity.
  - intros H. right. apply IH. assumption.
Qed.

Lemma in_dict_get {V} (d : dict V) (k : string) (v : V) :
  In (k, v) d -> exists v', dict_get d k = Some v'.
Proof.
  induction d as [| [k' v'] r IH]; cbn; [intros [] |].
  destruct (String.eqb k' k) eqn:E; [eauto |].
  intros [H | H]; [| auto].
  injection H as -> _. rewrite String.eqb_refl in E. discriminate.
Qed.

Lemma dict_keys_set {V} (d : dict V) (k : string) (v : V) (k2 : string) :
  In k2 (dict_keys (dict_set d k v)) <-> k2 = k \/ In k2 (dict_keys d).
Proof.
  unfold dict_keys. induction d as [| [k' v'] r IH]; cbn.
  - intuition auto.
  - destruct (String.eqb k' k) eqn:E; cbn.
    + apply String.eqb_eq in E. subst k'. intuition auto.
    + rewrite IH. intuition auto.
Qed.

Lemma dict_get_keys {V} (d : dict V) (k : string) :
  In k (dict_keys d) <-> exists v, dict_get d k = Some v.
Proof.
  unfold dict_keys. induction d as [| [k' v'] r IH]; cbn.
  - split; [intros [] | intros [v H]; discriminate].
  - destruct (String.eqb k' k) eqn:E.
    + apply String.eqb_eq in E. subst k'. split; eauto.
    + apply String.eqb_neq in E. rewrite <- IH. intuition auto.
Qed.

(** Pairwise properties of the entries survive an assignment when the
    new entry is related to every old one. *)
Lemma ForallOrdPairs_dict_set {V} (R : string * V -> string * V -> Prop)
    (d : dict V) (k : string) (v : V) :
  (forall a b, R a b -> R b a) ->
  ForallOrdPairs R d ->
  Forall (fun e => R e (k, v)) d ->
  ForallOrdPairs R (dict_set d k v).
Proof.
  intros Hsym Hd Hnew. induction Hd as [| [k' v'] r Hhd Htl IH]; cbn.
  - repeat constructor.
  - inversion Hnew as [| ? ? Hx Hr]; subst.
    destruct (String.eqb k' k) eqn:E.
    + apply String.eqb_eq in E. subst k'. constructor; [| assumption].
      rewrite Forall_forall in *. intros e He. apply Hsym. apply Hr. assumption.
    + constructor; [| apply IH; assumption].
      rewrite Forall_forall in *. intros e He.
      destruct (in_dict_set _ _ _ _ He) as [-> | Hin]; auto.
Qed.

(** The stable sort permutes its argument. *)
Lemma insert_by_perm {A} (le : A -> A -> bool) (x : A) (l : list A) :
  Permutation (x :: l) (insert_by le x l).
Proof.
  induction l as [| y r IH]; cbn; [reflexivity |].
  destruct (le x y); [reflexivity |].
  rewrite perm_swap. constructor. assumption.
Qed.

Lemma sorted_perm {A} (le : A -> A -> bool) (l : list A) :
  Permutation l (sorted le l).
Proof.
  induction l as [| x r IH]; cbn; [reflexivity |].
  rewrite <- insert_by_perm. constructor. assumption.
Qed.

Lemma ForallOrdPairs_perm {A} (R : A -> A -> Prop) (l l' : list A) :
  (forall a b, R a b -> R b a) ->
  Permutation l l' -> ForallOrdPairs R l -> ForallOrdPairs R l'.
Proof.
  intros Hsym Hp. induction Hp as [| x l l' Hp IH | x y l | l1 l2 l3 _ IH1 _ IH2];
    intros H.
  - assumption.
  - inversion H as [| ? ? Hx Hl]; subst. constructor; [| auto].
    rewrite Forall_forall in *. intros e He. apply Hx.
    apply Permutation_sym in Hp. eapply Permutation_in; eassumption.
  - inversion H as [| ? ? Hy Hl]; subst.
    inversion Hl as [| ? ? Hx Hl']; subst.
    inversion Hy as [| ? ? Hyx Hyl]; subst.
    constructor; [constructor; [apply Hsym; assumption | assumption] |].
    constructor; assumption.
  - auto.
Qed.

Lemma ForallOrdPairs_impl {A} (R1 R2 : A -> A -> Prop) (l : list A) :
  (forall a b, R1 a b -> R2 a b) -> ForallOrdPairs R1 l -> ForallOrdPairs R2 l.
Proof.
  intros Himp. induction 1 as [| x r Hx Hr IH]; constructor; [| assumption].
  rewrite Forall_forall in *. auto.
Qed.

Lemma ForallOrdPairs_map {A B} (f : A -> B) (R : B -> B -> Prop) (l : list A) :
  ForallOrdPairs (fun a b => R (f a) (f b)) l -> ForallOrdPairs R (map f l).
Proof.
  induction 1 as [| x r Hx Hr IH]; cbn; constructor; [| assumption].
  rewrite Forall_forall in *. intros e He. apply in_map_iff in He.
  destruct He as [a [<- Ha]]. auto.
Qed.

(** ** The slot grid *)

Lemma cdiv_spec (a b : Z) : 0 < b -> a <= cdiv a b * b < a + b.
Proof.
  intros Hb. unfold cdiv.
  pose proof (Z.div_mod (- a) b ltac:(lia)) as Hdm.
  pose proof (Z.mod_pos_bound (- a) b Hb) as Hm.
  nia.
Qed.

Lemma cdiv_le (a b c : Z) : 0 < b -> a <= c * b -> cdiv a b <= c.
Proof.
  intros Hb H. pose proof (cdiv_spec a b Hb). nia.
Qed.

Lemma fdiv_spec (a b : Z) : 0 < b -> a / b * b <= a < (a / b + 1) * b.
Proof.
  intros Hb. pose proof (Z.div_mod a b ltac:(lia)) as Hdm.
  pose proof (Z.mod_pos_bound a b Hb) as Hm. nia.
Qed.

Section SlotGrid.

Variable ix : _TimeIndexer.
Hypothesis granularity_pos : 0 < granularity ix.

Lemma slot_width_pos : 0 < slot_width ix.
Proof. unfold slot_width, US_PER_MINUTE. lia. Qed.

Lemma to_datetime_eq (slot : Z) :
  to_datetime ix slot = base ix + slot * slot_width ix.
Proof. unfold to_datetime, timedelta_minutes, slot_width. lia. Qed.

Lemma to_datetime_le (s1 s2 : Z) :
  s1 <= s2 <-> to_datetime ix s1 <= to_datetime ix s2.
Proof. rewrite !to_datetime_eq. pose proof slot_width_pos. nia. Qed.

Lemma to_datetime_lt (s1 s2 : Z) :
  s1 < s2 <-> to_datetime ix s1 < to_datetime ix s2.
Proof. rewrite !to_datetime_eq. pose proof slot_width_pos. nia. Qed.


Lemma to_slot_spec (t : datetime) :
  to_datetime ix (to_slot ix t) <= t < to_datetime ix (to_slot ix t + 1).
Proof.
  rewrite !to_datetime_eq. unfold to_slot. fold (slot_width ix).
  pose proof (fdiv_spec (t - base ix) (slot_width ix) slot_width_pos). lia.
Qed.

Lemma to_slot_ceiling_spec (t : datetime) :
  t <= to_datetime ix (to_slot_ceiling ix t) < t + slot_width ix.
Proof.
  rewrite !to_datetime_eq. unfold to_slot_ceiling. fold (slot_width ix).
  pose proof (cdiv_spec (t - base ix) (slot_width ix) slot_width_pos). lia.
Qed.

Lemma to_slot_ceiling_nonneg (t : datetime) :
  base ix <= t -> 0 <= to_slot_ceiling ix t.
Proof.
  intros H. pose proof (to_slot_ceiling_spec t) as Hs.
  rewrite to_datetime_eq in Hs. pose proof slot_width_pos. nia.
Qed.

Lemma to_slot_nonneg (t : datetime) : base ix <= t -> 0 <= to_slot ix t.
Proof.
  intros H. pose proof (to_slot_spec t) as Hs.
  rewrite !to_datetime_eq in Hs. pose proof slot_width_pos. nia.
Qed.

Lemma to_slot_le_ceiling (t : datetime) : to_slot ix t <= to_slot_ceiling ix t.
Proof.
  pose proof (to_slot_spec t) as H1. pose proof (to_slot_ceiling_spec t) as H2.
  apply to_datetime_le. lia.
Qed.

Lemma to_slot_ceiling_mono (t1 t2 : datetime) :
  t1 <= t2 -> to_slot_ceiling ix t1 <= to_slot_ceiling ix t2.
Proof.
  intros H. pose proof (to_slot_ceiling_spec t1) as H1.
  pose proof (to_slot_ceiling_spec t2) as H2.
  rewrite !to_datetime_eq in *. pose proof slot_width_pos. nia.
Qed.

Lemma duration_to_slots_pos (minutes : Z) : 1 <= duration_to_slots ix minutes.
Proof. unfold duration_to_slots. lia. Qed.

Lemma duration_to_slots_covers (minutes : Z) :
  minutes <= duration_to_slots ix minutes * granularity ix.
Proof.
  unfold duration_to_slots.
  pose proof (cdiv_spec minutes (granularity ix) granularity_pos). nia.
Qed.

End SlotGrid.

Lemma request_indexer_gran (g : Z) (request : ScheduleRequest) :
  granularity (request_indexer g request) = g.
Proof. unfold request_indexer. destruct (tasks request); reflexivity. Qed.

Lemma request_indexer_pos (g : Z) (request : ScheduleRequest) :
  0 < g -> 0 < granularity (request_indexer g request).
Proof. rewrite request_indexer_gran. auto. Qed.

(** ** Minimum and maximum of a list *)

Lemma list_min_le (x : Z) (l : list Z) :
  list_min x l <= x /\ Forall (fun y => list_min x l <= y) l.
Proof.
  unfold list_min. revert x. induction l as [| y r IH]; intros x; cbn.
  - split; [lia | constructor].
  - destruct (IH (Z.min x y)) as [H1 H2]. split; [lia |].
    constructor; [lia | assumption].
Qed.

Lemma list_max_ge (x : Z) (l : list Z) :
  x <= list_max x l /\ Forall (fun y => y <= list_max x l) l.
Proof.
  unfold list_max. revert x. induction l as [| y r IH]; intros x; cbn.
  - split; [lia | constructor].
  - destruct (IH (Z.max x y)) as [H1 H2]. split; [lia |].
    constructor; [lia | assumption].
Qed.

Lemma list_max_default_ge (l : list Z) (d : Z) :
  Forall (fun y => y <= list_max_default l d) l.
Proof.
  destruct l as [| x r]; cbn; [constructor |].
  destruct (list_max_ge x r). constructor; assumption.
Qed.

(** The base is at or before every earliest start and meeting start,
    and lies on a whole minute that is a multiple of the granularity
    within its hour. *)
Lemma base_start_of_le (g : Z) (t0 : ScheduleTask) (ts : list ScheduleTask)
    (ms : list ScheduleMeeting) :
  0 < g ->
  Forall (fun tk => base_start_of g t0 ts ms <= earliest_start tk) (t0 :: ts)
  /\ Forall (fun m => base_start_of g t0 ts ms <= meeting_start m) ms.
Proof.
  intros Hg. unfold base_start_of.
  set (cands := map earliest_start ts ++
                match ms with [] => [] | _ => map meeting_start ms end).
  destruct (list_min_le (earliest_start t0) cands) as [H0 Hall].
  set (m := list_min (earliest_start t0) cands) in *.
  assert (Hb : forall b,
            b = (if dt_minute (replace_second_zero m) mod g =? 0
                 then replace_second_zero m
                 else replace_second_zero m
                      - timedelta_minutes (dt_minute (replace_second_zero m) mod g)) ->
            b <= m).
  { intros b ->. unfold replace_second_zero, timedelta_minutes.
    pose proof (Z.mod_pos_bound m US_PER_MINUTE ltac:(unfold US_PER_MINUTE; lia)).
    pose proof (Z.mod_pos_bound (dt_minute (m - m mod US_PER_MINUTE)) g Hg).
    destruct (_ =? 0); unfold US_PER_MINUTE in *; nia. }
  specialize (Hb _ eq_refl).
  rewrite Forall_forall in Hall.
  split.
  - constructor; [lia |]. rewrite Forall_forall. intros tk Htk.
    assert (m <= earliest_start tk); [| lia].
    apply Hall. unfold cands. apply in_or_app. left. apply in_map. assumption.
  - rewrite Forall_forall. intros mt Hmt.
    assert (m <= meeting_start mt); [| lia].
    apply Hall. unfold cands. apply in_or_app. right.
    destruct ms; [contradiction | apply in_map; assumption].
Qed.

(** ** The squeaky-wheel construction pass *)

Section FindSlot.

Import SWOScheduler.

Variable info : _SegmentInfo.
Variable occ : list bool.

Lemma all_not_occupied_true (idxs : list Z) :
  all_not_occupied occ idxs = Some true <-> Forall (free occ) idxs.
Proof.
  induction idxs as [| i r IH]; cbn.
  - split; [constructor | reflexivity].
  - unfold obind. destruct (list_get occ i) as [[|] |] eqn:E; split; intros H;
      try discriminate.
    + inversion H as [| ? ? Hi _]; subst. unfold free in Hi. congruence.
    + constructor; [exact E | apply IH; assumption].
    + inversion H; subst. apply IH. assumption.
    + inversion H as [| ? ? Hi _]; subst. unfold free in Hi. congruence.
Qed.

Lemma all_not_occupied_defined (idxs : list Z) :
  (forall i, In i idxs -> 0 <= i < len occ) ->
  exists b, all_not_occupied occ idxs = Some b.
Proof.
  induction idxs as [| i r IH]; intros Hin; cbn; [eauto |].
  destruct (list_get_defined occ i) as [b Hb]; [apply Hin; left; reflexivity |].
  rewrite Hb. cbn. destruct b; [eauto |].
  apply IH. intros j Hj. apply Hin. right. assumption.
Qed.

Local Abbreviation accepted := (accepted_at info occ).

Lemma find_slot_loop_spec (latest_start : Z) (fuel : nat) (slot : Z) :
  0 <= slot ->
  latest_start + duration_slots info <= len occ ->
  (Z.to_nat (latest_start - slot + 1) <= fuel)%nat ->
  (exists s, find_slot_loop info occ latest_start slot fuel = Some (Some s)
             /\ slot <= s <= latest_start /\ accepted s
             /\ forall s', slot <= s' < s -> ~ accepted s')
  \/ (find_slot_loop info occ latest_start slot fuel = Some None
      /\ forall s', slot <= s' <= latest_start -> ~ accepted s').
Proof.
  revert slot. induction fuel as [| fuel IH]; intros slot Hslot Hlen Hfuel.
  - right. split; [reflexivity |]. intros s' Hs'. lia.
  - cbn [find_slot_loop]. destruct (slot <=? latest_start) eqn:Ele.
    2:{ right. split; [reflexivity |]. intros s' Hs'. lia. }
    apply Z.leb_le in Ele.
    assert (Hnext :
      ~ accepted slot ->
      (exists s, find_slot_loop info occ latest_start (slot + 1) fuel = Some (Some s)
                 /\ slot <= s <= latest_start /\ accepted s
                 /\ forall s', slot <= s' < s -> ~ accepted s')
      \/ (find_slot_loop info occ latest_start (slot + 1) fuel = Some None
          /\ forall s', slot <= s' <= latest_start -> ~ accepted s')).
    { intros Hno.
      destruct (IH (slot + 1)) as [[s [E [Hr [Hacc Hmin]]]] | [E Hnone]];
        [lia | lia | lia | left | right].
      - exists s. split; [assumption |]. split; [lia |].
        split; [assumption |].
        intros s' Hs'. destruct (Z.eq_dec s' slot) as [-> | Hne];
          [assumption | apply Hmin; lia].
      - split; [assumption |]. intros s' Hs'.
        destruct (Z.eq_dec s' slot) as [-> | Hne];
          [assumption | apply Hnone; lia]. }
    destruct (slot + duration_slots info >? due_slot info) eqn:Edue.
    { apply Hnext. intros [Hd _]. lia. }
    destruct (all_not_occupied_defined
                (range slot (slot + duration_slots info))) as [b Hb].
    { intros i Hi. apply in_range in Hi. lia. }
    rewrite Hb. cbn [obind]. destruct b.
    + left. exists slot. split; [reflexivity |].
      split; [lia |]. split.
      * split; [lia | apply all_not_occupied_true; assumption].
      * intros s' Hs'. lia.
    + apply Hnext. intros [_ Hfree].
      apply all_not_occupied_true in Hfree. congruence.
Qed.

Hypothesis earliest_nonneg : 0 <= earliest_slot info.
Hypothesis duration_pos : 1 <= duration_slots info.

Lemma accepted_fits (slot : Z) :
  earliest_slot info <= slot <= latest_start_slot info ->
  (accepted slot <-> fits info occ slot).
Proof.
  intros Hr. unfold accepted, fits. rewrite Forall_forall. split.
  - intros [Hd Hf]. repeat split; try lia.
    intros idx Hidx. apply Hf. apply in_range. assumption.
  - intros [_ [Hd Hf]]. split; [assumption |].
    intros idx Hidx. apply Hf. apply in_range. assumption.
Qed.

(** A fitting slot leaves room for the task before the horizon. *)
Lemma fits_in_horizon (slot : Z) :
  fits info occ slot -> slot + duration_slots info <= len occ.
Proof.
  intros [_ [_ Hf]].
  assert (Hlast : free occ (slot + duration_slots info - 1)) by (apply Hf; lia).
  apply list_get_range in Hlast. lia.
Qed.

(** [_find_slot] returns the least fitting slot, or [None] when no slot
    fits; it never fails on an index. *)
Lemma find_slot_spec (horizon_slots : Z) :
  len occ = horizon_slots ->
  (exists s, _find_slot info occ horizon_slots = Some (Some s)
             /\ least_fit info occ s)
  \/ (_find_slot info occ horizon_slots = Some None
      /\ forall s, ~ fits info occ s).
Proof.
  intros Hlen. unfold _find_slot.
  set (latest := Z.min (latest_start_slot info) (horizon_slots - duration_slots info)).
  destruct (find_slot_loop_spec latest
              (Z.to_nat (latest - earliest_slot info + 1)) (earliest_slot info))
    as [[s [E [Hr [Hacc Hmin]]]] | [E Hnone]];
    [assumption | lia | lia | left | right].
  - exists s. split; [assumption |]. split.
    + apply accepted_fits; [lia | assumption].
    + intros s' Hs'. destruct (Z.le_gt_cases s s') as [| Hlt]; [assumption |].
      exfalso. apply (Hmin s').
      * destruct Hs' as [? _]. lia.
      * apply accepted_fits; [apply Hs' | assumption].
  - split; [assumption |]. intros s Hs.
    pose proof (fits_in_horizon s Hs) as Hh.
    apply (Hnone s).
    + destruct Hs as [? _]. lia.
    + apply accepted_fits; [apply Hs | assumption].
Qed.

End FindSlot.

Lemma mark_occupied_spec (n : nat) (occ : list bool) (lo hi : Z) :
  Z.to_nat (hi - lo) = n ->
  0 <= lo -> hi <= len occ ->
  exists occ', SWOScheduler.mark_occupied occ (range lo hi) = Some occ'
               /\ marked occ occ' lo hi.
Proof.
  revert occ lo. induction n as [| n IH]; intros occ lo Hn Hlo Hhi.
  - rewrite range_nil by lia. exists occ. split; [reflexivity |].
    split; [reflexivity |]. intros idx _.
    destruct (lo <=? idx) eqn:E1; destruct (idx <? hi) eqn:E2; cbn; try reflexivity.
    lia.
  - rewrite range_cons by lia. cbn [SWOScheduler.mark_occupied].
    destruct (list_set_defined occ lo true) as [occ1 H1]; [lia |].
    rewrite H1. cbn [obind].
    destruct (list_set_spec _ _ _ _ Hlo H1) as [Hlen1 Hget1].
    destruct (IH occ1 (lo + 1)) as [occ' [H' [Hlen' Hget']]]; [lia | lia | lia |].
    exists occ'. split; [assumption |]. split; [congruence |].
    intros idx Hidx. rewrite Hget', Hget1 by assumption.
    destruct (lo + 1 <=? idx) eqn:E1; destruct (idx <? hi) eqn:E2;
      destruct (lo <=? idx) eqn:E3; destruct (idx =? lo) eqn:E4;
      cbn; try reflexivity; lia.
Qed.

Section ConstructionPass.

Import SWOScheduler.

Variable segment_infos : dict _SegmentInfo.
Variable horizon_slots : Z.
Variable base_occupancy : list bool.

Hypothesis infos_wf : infos_ok segment_infos.
Hypothesis base_len : len base_occupancy = horizon_slots.

Local Abbreviation inv := (pass_inv segment_infos horizon_slots base_occupancy).

Lemma pass_inv_init :
  inv {| occupancy := base_occupancy; pass_assignments := [];
         pass_unscheduled := [] |}.
Proof.
  constructor; cbn; [assumption | auto | constructor | constructor].
Qed.

(** A slot that is free during the pass was free in the base occupancy. *)
Lemma free_in_base (st : pass_state) (idx : Z) :
  inv st -> 0 <= idx -> free (occupancy st) idx -> free base_occupancy idx.
Proof.
  intros Hinv Hidx Hfree. unfold free in *.
  pose proof (list_get_range _ _ _ Hfree) as Hr.
  rewrite (inv_len _ _ _ _ Hinv), <- base_len in Hr.
  destruct (list_get_defined base_occupancy idx ltac:(lia)) as [[|] Hb];
    [| assumption].
  apply (inv_base _ _ _ _ Hinv) in Hb; [congruence | assumption].
Qed.

Lemma fits_in_base (st : pass_state) (info : _SegmentInfo) (s : Z) :
  inv st -> 0 <= earliest_slot info ->
  fits info (occupancy st) s -> fits info base_occupancy s.
Proof.
  intros Hinv Hearly [Hr [Hd Hf]]. repeat split; try lia.
  intros idx Hidx. eapply free_in_base; eauto. lia.
Qed.

Lemma construct_step_spec (st : pass_state) (tk : ScheduleTask)
    (info : _SegmentInfo) :
  inv st ->
  dict_get segment_infos (task_id tk) = Some info ->
  exists st', construct_step segment_infos horizon_slots st tk = Some st'
              /\ inv st' /\ step_outcome info tk st st'.
Proof.
  intros Hinv Hinfo. unfold construct_step. rewrite Hinfo. cbn [obind].
  destruct (infos_wf _ _ Hinfo) as [Hearly Hdur].
  destruct (find_slot_spec info (occupancy st) Hearly Hdur horizon_slots
              (inv_len _ _ _ _ Hinv))
    as [[s [E Hleast]] | [E Hnone]]; rewrite E; cbn [obind].
  - pose proof Hleast as [Hfit _].
    pose proof (fits_in_horizon info (occupancy st) Hdur s Hfit) as Hroom.
    destruct (mark_occupied_spec _ (occupancy st) s (s + duration_slots info)
                eq_refl) as [occ' [Hm Hmarked]]; [destruct Hfit; lia | lia |].
    rewrite Hm. cbn [obind]. eexists. split; [reflexivity |].
    destruct Hmarked as [Hlen' Hget'].
    assert (Hkeep : forall idx, 0 <= idx ->
                                list_get (occupancy st) idx = Some true ->
                                list_get occ' idx = Some true).
    { intros idx Hidx H. rewrite Hget' by assumption. destruct (_ && _); auto. }
    split;
      [| left; exists s; cbn; split; [exact Hleast |]; split; [reflexivity |];
         split; [split; assumption | reflexivity]].
    constructor; cbn.
    + rewrite Hlen'. apply (inv_len _ _ _ _ Hinv).
    + intros idx Hidx H. apply Hkeep; [assumption |].
      apply (inv_base _ _ _ _ Hinv); assumption.
    + rewrite Forall_forall. intros e He.
      destruct (in_dict_set _ _ _ _ He) as [-> | Hold].
      * exists info. cbn. split; [assumption |].
        split; [eapply fits_in_base; eauto |].
        intros idx Hidx. rewrite Hget' by (destruct Hfit; lia).
        replace ((s <=? idx) && (idx <? s + duration_slots info)) with true;
          [reflexivity |].
        symmetry. apply andb_true_iff. split; [apply Z.leb_le | apply Z.ltb_lt]; lia.
      * pose proof (inv_entries _ _ _ _ Hinv) as Hent.
        rewrite Forall_forall in Hent.
        destruct (Hent e Hold) as [i [Hi [Hfi Hocc]]].
        exists i. repeat split; try apply Hfi; auto.
        intros idx Hidx. apply Hkeep; [| auto].
        destruct (infos_wf _ _ Hi). destruct Hfi. lia.
    + apply ForallOrdPairs_dict_set.
      * intros a b Hab i1 i2 H1 H2. destruct (Hab i2 i1 H2 H1); auto.
      * apply (inv_apart _ _ _ _ Hinv).
      * pose proof (inv_entries _ _ _ _ Hinv) as Hent.
        rewrite Forall_forall in *. intros e He i1 i2 H1 H2. cbn in *.
        destruct (Hent e He) as [i [Hi [Hfi Hocc]]].
        assert (i = i1) by congruence. subst i.
        assert (i2 = info) by congruence. subst i2.
        destruct (infos_wf _ _ H1) as [_ Hd1].
        destruct (Z.le_gt_cases (snd e + duration_slots i1) s) as [| H3];
          [left; assumption |].
        destruct (Z.le_gt_cases (s + duration_slots info) (snd e)) as [| H4];
          [right; assumption |].
        exfalso.
        (* the later of the two starts lies in both intervals *)
        pose proof (Hocc (Z.max s (snd e)) ltac:(lia)) as Htaken.
        destruct Hfit as [_ [_ Hfree]].
        pose proof (Hfree (Z.max s (snd e)) ltac:(lia)) as Hfr.
        unfold free in Hfr. congruence.
  - eexists. split; [reflexivity |]. split.
    + destruct Hinv. constructor; cbn; assumption.
    + right. cbn. auto.
Qed.

Lemma construct_loop_app (pre post : list ScheduleTask) (st : pass_state) :
  construct_loop segment_infos horizon_slots (pre ++ post) st
  = (st1 <- construct_loop segment_infos horizon_slots pre st ;;
     construct_loop segment_infos horizon_slots post st1).
Proof.
  revert st. induction pre as [| tk r IH]; intros st; cbn; [reflexivity |].
  destruct (construct_step segment_infos horizon_slots st tk); cbn; auto.
Qed.

(** The pass runs to its end and keeps the invariant. *)
Lemma construct_loop_inv (order : list ScheduleTask) (st : pass_state) :
  inv st ->
  (forall tk, In tk order ->
              exists info, dict_get segment_infos (task_id tk) = Some info) ->
  exists st', construct_loop segment_infos horizon_slots order st = Some st'
              /\ inv st'.
Proof.
  revert st. induction order as [| tk r IH]; intros st Hinv Hinfos; cbn.
  - eauto.
  - destruct (Hinfos tk (or_introl eq_refl)) as [info Hinfo].
    destruct (construct_step_spec st tk info Hinv Hinfo) as [st1 [E [Hinv1 _]]].
    rewrite E. cbn. apply IH; [assumption |].
    intros tk' Htk'. apply Hinfos. right. assumption.
Qed.

End ConstructionPass.

(** ** The result of one construction pass *)

Section PassResult.

Import SWOScheduler.

Variable segment_infos : dict _SegmentInfo.
Variable horizon_slots : Z.
Variable base_occupancy : list bool.
Variable indexer : _TimeIndexer.

Hypothesis infos_wf : infos_ok segment_infos.
Hypothesis base_len : len base_occupancy = horizon_slots.
Hypothesis granularity_pos : 0 < granularity indexer.

Local Abbreviation from_entry :=
  (from_entry_of segment_infos base_occupancy indexer).

Lemma assigned_list_spec (occ : list bool) (items : dict Z) :
  Forall (entry_ok segment_infos base_occupancy occ) items ->
  ForallOrdPairs (entries_apart segment_infos) items ->
  exists l, assigned_list segment_infos indexer items = Some l
            /\ Forall (from_entry items) l
            /\ non_overlapping l.
Proof.
  intros Hent Hapart. induction Hapart as [| e r Hhd Htl IH].
  - exists []. repeat split; constructor.
  - inversion Hent as [| ? ? He Hr]; subst.
    destruct (IH Hr) as [l [El [Hfrom Hno]]].
    destruct He as [info [Hinfo [Hfit _]]].
    cbn [assigned_list]. unfold assigned_of at 1. destruct e as [k s].
    cbn [fst snd] in *. rewrite Hinfo. cbn [obind]. rewrite El. cbn [obind].
    eexists. split; [reflexivity |]. split; [| constructor; [| assumption]].
    + constructor.
      * exists (k, s), info. cbn. auto.
      * rewrite Forall_forall in *. intros a Ha.
        destruct (Hfrom a Ha) as [e' [i' [Hin' H']]].
        exists e', i'. split; [right; assumption | assumption].
    + rewrite Forall_forall in *. intros a Ha.
      destruct (Hfrom a Ha) as [e' [i' [Hin' [Hi' [_ ->]]]]].
      specialize (Hhd e' Hin' info i' Hinfo Hi'). cbn [fst snd] in Hhd.
      unfold assigned_disjoint, disjoint, make_assigned.
      cbn [assigned_start assigned_end].
      destruct Hhd as [H | H]; [left | right];
        apply (proj1 (to_datetime_le indexer granularity_pos _ _)); assumption.
Qed.

Lemma assigned_disjoint_sym (a b : AssignedTask) :
  assigned_disjoint a b -> assigned_disjoint b a.
Proof. unfold assigned_disjoint, disjoint. tauto. Qed.

(** A pass over tasks that all have a segment info runs to its end,
    and its result has pairwise non-overlapping assignments, each made
    from a fitting start slot. *)
Lemma pass_result_spec (order : list ScheduleTask) :
  (forall tk, In tk order ->
              exists info, dict_get segment_infos (task_id tk) = Some info) ->
  exists asg uns res,
    _construct_schedule order segment_infos base_occupancy horizon_slots
    = Some (asg, uns)
    /\ _build_result asg uns segment_infos indexer = Some res
    /\ unscheduled_tasks res = uns
    /\ non_overlapping (assignments res)
    /\ Forall (from_entry asg) (assignments res).
Proof.
  intros Hinfos. unfold _construct_schedule.
  destruct (construct_loop_inv segment_infos horizon_slots base_occupancy
              infos_wf base_len order _
              (pass_inv_init segment_infos horizon_slots base_occupancy base_len)
              Hinfos) as [st [E Hinv]].
  rewrite E. cbn [obind].
  destruct (assigned_list_spec (occupancy st) (pass_assignments st)
              (inv_entries _ _ _ _ Hinv) (inv_apart _ _ _ _ Hinv))
    as [l [El [Hfrom Hno]]].
  exists (pass_assignments st), (pass_unscheduled st).
  unfold _build_result. rewrite El. cbn [obind].
  eexists. split; [reflexivity |]. split; [reflexivity |].
  cbn [assignments unscheduled_tasks]. split; [reflexivity |]. split.
  - eapply ForallOrdPairs_perm;
      [exact assigned_disjoint_sym | apply sorted_perm | exact Hno].
  - rewrite Forall_forall in *. intros a Ha. apply Hfrom.
    eapply Permutation_in; [apply Permutation_sym, sorted_perm | exact Ha].
Qed.

End PassResult.

(** ** The base occupancy *)

Section BaseOccupancy.

Import SWOScheduler.

Variable self : t.
Variable ix : _TimeIndexer.

Lemma block_hours_loop_spec (slots : list Z) (occ : list bool) :
  (forall i, In i slots -> 0 <= i < len occ) ->
  exists occ', block_hours_loop self ix slots occ = Some occ'
               /\ len occ' = len occ
               /\ (forall idx, 0 <= idx -> list_get occ idx = Some true ->
                               list_get occ' idx = Some true)
               /\ (forall idx, In idx slots ->
                               outside_working_hours self (to_datetime ix idx) = true ->
                               list_get occ' idx = Some true).
Proof.
  revert occ. induction slots as [| i r IH]; intros occ Hin; cbn.
  - exists occ. repeat split; auto. intros idx [].
  - pose proof (Hin i (or_introl eq_refl)) as Hi.
    destruct (outside_working_hours self (to_datetime ix i)) eqn:Eout.
    + destruct (list_set_defined occ i true) as [occ1 E1]; [assumption |].
      rewrite E1. cbn [obind].
      destruct (list_set_spec _ _ _ _ (proj1 Hi) E1) as [Hlen1 Hget1].
      destruct (IH occ1) as [occ' [E' [Hlen' [Hkeep Hout]]]].
      { intros j Hj. rewrite Hlen1. apply Hin. right. assumption. }
      exists occ'. split; [assumption |]. split; [congruence |]. split.
      * intros idx Hidx H. apply Hkeep; [assumption |]. rewrite Hget1 by assumption.
        destruct (idx =? i); [reflexivity | assumption].
      * intros idx [<- | Hidx] Ho.
        -- apply Hkeep; [lia |]. rewrite Hget1, Z.eqb_refl by lia. reflexivity.
        -- apply Hout; assumption.
    + destruct (IH occ) as [occ' [E' [Hlen' [Hkeep Hout]]]].
      { intros j Hj. apply Hin. right. assumption. }
      exists occ'. repeat split; auto.
      intros idx [<- | Hidx] Ho; [congruence | apply Hout; assumption].
Qed.

Lemma outside_working_hours_whole_day (dt : datetime) :
  working_day_start_hour self <= 0 -> 24 <= working_day_end_hour self ->
  outside_working_hours self dt = false.
Proof.
  intros Hs He. unfold outside_working_hours, dt_hour, dt_minute.
  pose proof (Z.mod_pos_bound (dt / US_PER_HOUR) 24 ltac:(lia)).
  pose proof (Z.mod_pos_bound (dt / US_PER_MINUTE) 60 ltac:(lia)).
  apply orb_false_iff. split; [apply Z.ltb_ge; lia |].
  rewrite Z.geb_leb. apply Z.leb_gt. lia.
Qed.

Lemma block_hours_spec (horizon_slots : Z) (occ : list bool) :
  len occ = horizon_slots ->
  exists occ', block_hours self ix horizon_slots occ = Some occ'
               /\ len occ' = len occ
               /\ (forall idx, 0 <= idx < horizon_slots ->
                               outside_working_hours self (to_datetime ix idx) = true ->
                               list_get occ' idx = Some true).
Proof.
  intros Hlen. unfold block_hours.
  destruct ((working_day_start_hour self >? 0)
            || (working_day_end_hour self <? 24)) eqn:Eg.
  - destruct (block_hours_loop_spec (range 0 horizon_slots) occ)
      as [occ' [E [Hl [_ Hout]]]].
    { intros i Hi. apply in_range in Hi. lia. }
    exists occ'. repeat split; auto.
    intros idx Hidx. apply Hout. apply in_range. assumption.
  - apply orb_false_iff in Eg. destruct Eg as [E1 E2].
    exists occ. repeat split; auto. intros idx _ Ho.
    rewrite outside_working_hours_whole_day in Ho; [discriminate | lia | lia].
Qed.

Lemma block_meetings_spec (horizon_slots : Z) (ms : list ScheduleMeeting)
    (occ : list bool) :
  len occ = horizon_slots ->
  exists occ', block_meetings ix horizon_slots ms occ = Some occ'
               /\ len occ' = len occ
               /\ (forall idx, 0 <= idx -> list_get occ idx = Some true ->
                               list_get occ' idx = Some true)
               /\ (forall m idx, In m ms -> 0 <= idx < horizon_slots ->
                                 to_slot ix (meeting_start m) <= idx
                                             < to_slot_ceiling ix (meeting_end m) ->
                                 list_get occ' idx = Some true).
Proof.
  revert occ. induction ms as [| m r IH]; intros occ Hlen; cbn.
  - exists occ. repeat split; auto. intros m idx [].
  - destruct (mark_occupied_spec _ occ
                (Z.max 0 (to_slot ix (meeting_start m)))
                (Z.min horizon_slots (to_slot_ceiling ix (meeting_end m)))
                eq_refl) as [occ1 [E1 [Hlen1 Hget1]]]; [lia | lia |].
    rewrite E1. cbn [obind].
    destruct (IH occ1) as [occ' [E' [Hlen' [Hkeep Hm]]]]; [congruence |].
    exists occ'. split; [assumption |]. split; [congruence |]. split.
    + intros idx Hidx H. apply Hkeep; [assumption |].
      rewrite Hget1 by assumption. destruct (_ && _); auto.
    + intros m' idx [<- | Hin] Hidx Hr.
      * apply Hkeep; [lia |]. rewrite Hget1 by lia.
        replace ((Z.max 0 (to_slot ix (meeting_start m)) <=? idx)
                 && (idx <? Z.min horizon_slots
                              (to_slot_ceiling ix (meeting_end m))))
          with true; [reflexivity |].
        symmetry. apply andb_true_iff.
        split; [apply Z.leb_le | apply Z.ltb_lt]; lia.
      * apply Hm with m'; assumption.
Qed.

Lemma base_occupancy_of_spec (horizon_slots : Z) (ms : list ScheduleMeeting) :
  0 <= horizon_slots ->
  exists occ, base_occupancy_of self ix horizon_slots ms = Some occ
              /\ base_ok self ix horizon_slots ms occ.
Proof.
  intros Hh. unfold base_occupancy_of.
  destruct (block_hours_spec horizon_slots
              (repeat false (Z.to_nat horizon_slots)) (len_repeat _ _ Hh))
    as [occ1 [E1 [Hlen1 Hout]]].
  rewrite E1. cbn [obind]. rewrite len_repeat in Hlen1 by assumption.
  destruct (block_meetings_spec horizon_slots ms occ1 Hlen1)
    as [occ [E [Hlen [Hkeep Hm]]]].
  exists occ. split; [assumption |]. split; [congruence |]. split.
  - intros idx Hidx Ho. apply Hkeep; [lia |]. apply Hout; assumption.
  - assumption.
Qed.

End BaseOccupancy.

(** ** The iteration loop of the squeaky-wheel scheduler *)

Lemma construct_step_covers (segment_infos : dict SWOScheduler._SegmentInfo)
    (horizon_slots : Z) (st st' : SWOScheduler.pass_state) (tk : ScheduleTask) :
  SWOScheduler.construct_step segment_infos horizon_slots st tk = Some st' ->
  covered st' (task_id tk) /\ forall k, covered st k -> covered st' k.
Proof.
  unfold SWOScheduler.construct_step, covered.
  destruct (dict_get segment_infos (task_id tk)) as [info |]; [| discriminate].
  cbn [obind].
  destruct (SWOScheduler._find_slot info (SWOScheduler.occupancy st) horizon_slots)
    as [[s |] |]; cbn [obind]; [| | discriminate].
  - destruct (SWOScheduler.mark_occupied _ _) as [occ' |]; [| discriminate].
    cbn [obind]. intros [= <-]. cbn. split.
    + left. apply dict_keys_set. left. reflexivity.
    + intros k [H | H]; [left; apply dict_keys_set; right; assumption | right; assumption].
  - intros [= <-]. cbn. split.
    + right. apply in_or_app. right. left. reflexivity.
    + intros k [H | H]; [left; assumption | right; apply in_or_app; left; assumption].
Qed.

Lemma construct_loop_covers (segment_infos : dict SWOScheduler._SegmentInfo)
    (horizon_slots : Z) (order : list ScheduleTask)
    (st st' : SWOScheduler.pass_state) :
  SWOScheduler.construct_loop segment_infos horizon_slots order st = Some st' ->
  forall k, In k (map task_id order) \/ covered st k -> covered st' k.
Proof.
  revert st. induction order as [| tk r IH]; intros st; cbn.
  - intros [= <-] k [[] | H]. assumption.
  - destruct (SWOScheduler.construct_step segment_infos horizon_slots st tk)
      as [st1 |] eqn:E; [| discriminate].
    cbn [obind]. intros Hloop k Hk.
    destruct (construct_step_covers _ _ _ _ _ E) as [Hnew Hold].
    apply (IH st1 Hloop). destruct Hk as [[<- | Hk] | Hk]; auto.
Qed.

Lemma infos_loop_keys (ix : _TimeIndexer) (hz : Z)
    (previous : dict (datetime * datetime)) (ts : list ScheduleTask)
    (acc : dict SWOScheduler._SegmentInfo) (k : string) :
  In k (dict_keys (SWOScheduler.infos_loop ix hz previous ts acc))
  <-> In k (map task_id ts) \/ In k (dict_keys acc).
Proof.
  revert acc. induction ts as [| tk r IH]; intros acc;
    cbn [SWOScheduler.infos_loop map].
  - cbn. tauto.
  - rewrite IH, dict_keys_set. cbn. intuition auto.
Qed.

Lemma infos_loop_get (ix : _TimeIndexer) (hz : Z)
    (previous : dict (datetime * datetime)) (ts : list ScheduleTask)
    (acc : dict SWOScheduler._SegmentInfo) (k : string)
    (info : SWOScheduler._SegmentInfo) :
  dict_get (SWOScheduler.infos_loop ix hz previous ts acc) k = Some info ->
  (exists tk, In tk ts /\ task_id tk = k
              /\ info = SWOScheduler.segment_info_of ix hz previous tk)
  \/ dict_get acc k = Some info.
Proof.
  revert acc. induction ts as [| tk r IH]; intros acc; cbn; [auto |].
  intros H. destruct (IH _ H) as [[tk' [Hin [Hid Hinfo]]] | Hacc].
  - left. exists tk'. auto.
  - rewrite dict_get_set in Hacc. destruct (String.eqb (task_id tk) k) eqn:E.
    + apply String.eqb_eq in E. injection Hacc as <-. left. exists tk. auto.
    + right. assumption.
Qed.

Lemma initial_penalties_keys (ts : list ScheduleTask) (acc : dict Q) (k : string) :
  In k (dict_keys (SWOScheduler.initial_penalties ts acc))
  <-> In k (map task_id ts) \/ In k (dict_keys acc).
Proof.
  revert acc. induction ts as [| tk r IH]; intros acc;
    cbn [SWOScheduler.initial_penalties map].
  - cbn. tauto.
  - rewrite IH, dict_keys_set. cbn. intuition auto.
Qed.

Lemma existsb_eqb_in (k : string) (l : list string) :
  existsb (String.eqb k) l = true <-> In k l.
Proof.
  rewrite existsb_exists. split.
  - intros [x [Hin E]]. apply String.eqb_eq in E. subst. assumption.
  - intros H. exists k. split; [assumption | apply String.eqb_refl].
Qed.

Lemma penalties_loop_spec (self : SWOScheduler.t) (asg : dict Z)
    (uns : list string) (items : dict SWOScheduler._SegmentInfo) (acc : dict Q) :
  (forall k, In k (dict_keys items) -> In k (dict_keys asg) \/ In k uns) ->
  exists d, SWOScheduler.penalties_loop self asg uns items acc = Some d
            /\ forall k, In k (dict_keys d)
                         <-> In k (dict_keys items) \/ In k (dict_keys acc).
Proof.
  revert acc. induction items as [| [tid info] r IH]; intros acc Hcov;
    cbn [SWOScheduler.penalties_loop].
  - exists acc. split; [reflexivity | cbn; tauto].
  - assert (Hp : exists p, SWOScheduler.penalty_of self asg uns tid info = Some p).
    { unfold SWOScheduler.penalty_of.
      destruct (existsb (String.eqb tid) uns) eqn:E; [eauto |].
      destruct (Hcov tid) as [Hk | Hu]; [left; reflexivity | |].
      - apply dict_get_keys in Hk. destruct Hk as [s Hs]. rewrite Hs. cbn. eauto.
      - apply existsb_eqb_in in Hu. congruence. }
    destruct Hp as [p Ep]. rewrite Ep. cbn [obind].
    destruct (IH (dict_set acc tid p)) as [d [Ed Hd]].
    { intros k Hk. apply Hcov. right. assumption. }
    exists d. split; [assumption |]. intros k. rewrite Hd, dict_keys_set.
    unfold dict_keys. cbn. intuition auto.
Qed.

Lemma any_changed_defined (new_penalties penalties : dict Q)
    (order : list ScheduleTask) :
  (forall tk, In tk order -> In (task_id tk) (dict_keys new_penalties)
                             /\ In (task_id tk) (dict_keys penalties)) ->
  exists b, SWOScheduler.any_changed new_penalties penalties order = Some b.
Proof.
  induction order as [| tk r IH]; intros Hk; cbn; [eauto |].
  destruct (Hk tk (or_introl eq_refl)) as [Hn Ho].
  apply dict_get_keys in Hn, Ho. destruct Hn as [n ->], Ho as [o ->]. cbn [obind].
  destruct (negb _); [eauto |]. apply IH. intros tk' H. apply Hk. right. assumption.
Qed.

Lemma reorder_keys_defined (penalties : dict Q) (order : list ScheduleTask) :
  (forall tk, In tk order -> In (task_id tk) (dict_keys penalties)) ->
  exists keyed, SWOScheduler.reorder_keys penalties order = Some keyed
                /\ map snd keyed = order.
Proof.
  induction order as [| tk r IH]; intros Hk; cbn; [exists []; auto |].
  pose proof (Hk tk (or_introl eq_refl)) as Hp.
  apply dict_get_keys in Hp. destruct Hp as [p ->]. cbn [obind].
  destruct IH as [keyed [-> Hm]]; [intros tk' H; apply Hk; right; assumption |].
  cbn [obind]. eexists. split; [reflexivity |]. cbn. congruence.
Qed.

Section SWOLoop.

Import SWOScheduler.

Variable self : t.
Variable segment_infos : dict _SegmentInfo.
Variable base_occupancy : list bool.
Variable horizon_slots : Z.
Variable indexer : _TimeIndexer.
Variable all_tasks : list ScheduleTask.

Hypothesis infos_wf : infos_ok segment_infos.
Hypothesis base_len : len base_occupancy = horizon_slots.
Hypothesis granularity_pos : 0 < granularity indexer.
Hypothesis infos_keys :
  forall k, In k (dict_keys segment_infos) <-> In k (map task_id all_tasks).

Local Abbreviation inv :=
  (loop_inv segment_infos base_occupancy horizon_slots indexer all_tasks).

Lemma order_has_infos (order : list ScheduleTask) :
  Permutation all_tasks order ->
  forall tk, In tk order ->
             exists info, dict_get segment_infos (task_id tk) = Some info.
Proof.
  intros Hperm tk Htk. apply dict_get_keys, infos_keys, in_map.
  eapply Permutation_in; [apply Permutation_sym; exact Hperm | exact Htk].
Qed.

(** The loop never fails, and its best result is the result of a
    construction pass. *)
Lemma iterations_spec (n : nat) (st : loop_state) :
  inv st ->
  exists st', iterations self segment_infos base_occupancy horizon_slots
                indexer n st = Some st'
              /\ inv st'
              /\ (n <> O -> best_result st' <> None).
Proof.
  revert st. induction n as [| n IH]; intros st Hinv.
  - exists st. split; [reflexivity |]. split; [assumption | congruence].
  - destruct Hinv as [Hperm [Hpen Hbest]].
    pose proof (order_has_infos (order st) Hperm) as Hinfos.
    destruct (pass_result_spec segment_infos horizon_slots base_occupancy
                indexer infos_wf base_len granularity_pos (order st) Hinfos)
      as [asg [uns [res [E1 [E2 _]]]]].
    cbn [iterations]. rewrite E1. cbn [obind]. rewrite E2. cbn [obind].
    (* every task id has a start slot or is unscheduled *)
    assert (Hcov : forall k, In k (dict_keys segment_infos) ->
                             In k (dict_keys asg) \/ In k uns).
    { intros k Hk. unfold _construct_schedule in E1.
      destruct (construct_loop segment_infos horizon_slots (order st) _)
        as [pst |] eqn:Eloop; [| discriminate].
      cbn [obind] in E1. injection E1 as <- <-.
      apply (construct_loop_covers _ _ _ _ _ Eloop). left.
      apply infos_keys in Hk. apply in_map_iff in Hk.
      destruct Hk as [tk [<- Htk]]. apply in_map.
      eapply Permutation_in; eassumption. }
    unfold _evaluate_penalties.
    destruct (penalties_loop_spec self asg uns segment_infos [] Hcov)
      as [newp [Ep Hkeys]].
    rewrite Ep. cbn [obind].
    assert (Hnewp : forall tk, In tk all_tasks ->
                               In (task_id tk) (dict_keys newp)).
    { intros tk Htk. apply Hkeys. left. apply infos_keys, in_map. assumption. }
    assert (Horder : forall tk, In tk (order st) -> In tk all_tasks).
    { intros tk Htk.
      eapply Permutation_in; [apply Permutation_sym; exact Hperm | exact Htk]. }
    destruct (any_changed_defined newp (penalties st) (order st))
      as [changed Ec]; [intros tk Htk; split; auto |].
    rewrite Ec. cbn [obind].
    destruct (reorder_keys_defined newp (order st)) as [keyed [Ek Hsnd]];
      [intros tk Htk; auto |].
    rewrite Ek. cbn [obind].
    assert (Hnew_order : Permutation all_tasks (map snd (sorted reorder_le keyed))).
    { rewrite Hperm, <- Hsnd. apply Permutation_map, sorted_perm. }
    set (better := _ || _ || _).
    assert (Hbest' : match (if better then Some res else best_result st) with
                     | Some r => is_pass_result segment_infos base_occupancy
                                   horizon_slots indexer all_tasks r
                     | None => True
                     end).
    { destruct better; [| assumption]. exists (order st), asg, uns. auto. }
    assert (Hsome : (if better then Some res else best_result st) <> None).
    { subst better. destruct (best_result st); cbn; try congruence.
      match goal with |- (if ?b then _ else _) <> _ => destruct b end;
        congruence. }
    destruct (negb changed || _).
    + eexists. split; [reflexivity |]. cbn.
      split; [| intros _; assumption].
      split; [assumption |]. split; assumption.
    + destruct (IH {| order := map snd (sorted reorder_le keyed);
                      penalties := newp;
                      best_result := if better then Some res else best_result st;
                      best_unscheduled :=
                        if better then Some (len uns) else best_unscheduled st;
                      best_objective :=
                        if better then Some (len uns * unscheduled_penalty self)
                        else best_objective st |})
        as [st' [E' [Hinv' Hn']]].
      { split; [assumption |]. split; assumption. }
      cbn in E' |- *. exists st'. split; [exact E' |].
      split; [assumption |]. intros _.
      destruct n; [| apply Hn'; congruence].
      cbn in E'. injection E' as <-. assumption.
Qed.

End SWOLoop.

(** ** The squeaky-wheel scheduler as a whole *)

Lemma horizon_slots_of_ge (ix : _TimeIndexer) (ts : list ScheduleTask)
    (ms : list ScheduleMeeting) :
  0 < granularity ix ->
  10 <= horizon_slots_of ix ts ms
  /\ Forall (fun tk => to_slot_ceiling ix (due tk) + 10 <= horizon_slots_of ix ts ms) ts
  /\ Forall (fun m => to_slot_ceiling ix (meeting_end m) + 10
                      <= horizon_slots_of ix ts ms) ms.
Proof.
  intros Hg. unfold horizon_slots_of.
  set (c := Z.max (list_max_default (map due ts) (base ix))
                  (list_max_default (map meeting_end ms) (base ix))).
  assert (Hts : Forall (fun tk => due tk <= c) ts).
  { pose proof (list_max_default_ge (map due ts) (base ix)) as H.
    rewrite Forall_forall in *. intros tk Htk.
    specialize (H (due tk) (in_map due _ _ Htk)). subst c. lia. }
  assert (Hms : Forall (fun m => meeting_end m <= c) ms).
  { pose proof (list_max_default_ge (map meeting_end ms) (base ix)) as H.
    rewrite Forall_forall in *. intros m Hm.
    specialize (H (meeting_end m) (in_map meeting_end _ _ Hm)). subst c. lia. }
  split; [lia |]. split.
  - rewrite Forall_forall in *. intros tk Htk.
    pose proof (to_slot_ceiling_mono ix Hg _ _ (Hts tk Htk)). lia.
  - rewrite Forall_forall in *. intros m Hm.
    pose proof (to_slot_ceiling_mono ix Hg _ _ (Hms m Hm)). lia.
Qed.

Section SWOSchedule.

Import SWOScheduler.

Variable self : t.
Variable request : ScheduleRequest.

Hypothesis granularity_pos : 0 < granularity_minutes self.

Local Abbreviation ix := (request_indexer (granularity_minutes self) request).
Local Abbreviation hz := (request_horizon (granularity_minutes self) request).
Local Abbreviation infos :=
  (infos_loop ix hz (previous_of request) (tasks request) []).

Lemma request_indexer_granularity : granularity ix = granularity_minutes self.
Proof. unfold request_indexer. destruct (tasks request); reflexivity. Qed.

Lemma request_base_le (tk : ScheduleTask) :
  In tk (tasks request) -> base ix <= earliest_start tk.
Proof.
  unfold request_indexer. destruct (tasks request) as [| t0 ts] eqn:E;
    [intros [] |].
  intros Hin. cbn [base].
  destruct (base_start_of_le (granularity_minutes self) t0 ts
              (meetings request) granularity_pos) as [H _].
  rewrite Forall_forall in H. apply H. assumption.
Qed.

Lemma request_base_le_meeting (m : ScheduleMeeting) :
  In m (meetings request) -> tasks request <> [] ->
  base ix <= meeting_start m.
Proof.
  unfold request_indexer. destruct (tasks request) as [| t0 ts] eqn:E;
    [congruence |].
  intros Hin _. cbn [base].
  destruct (base_start_of_le (granularity_minutes self) t0 ts
              (meetings request) granularity_pos) as [_ H].
  rewrite Forall_forall in H. apply H. assumption.
Qed.

Lemma swo_infos_ok : infos_ok infos.
Proof.
  intros k info Hget.
  destruct (infos_loop_get _ _ _ _ _ _ _ Hget) as [[tk [Hin [_ ->]]] | H];
    [| discriminate].
  cbn [segment_info_of earliest_slot duration_slots]. split.
  - apply to_slot_ceiling_nonneg;
      [rewrite request_indexer_granularity; assumption
      | apply request_base_le; assumption].
  - apply duration_to_slots_pos.
Qed.

Lemma swo_infos_keys (k : string) :
  In k (dict_keys infos) <-> In k (map task_id (tasks request)).
Proof. rewrite infos_loop_keys. cbn. tauto. Qed.

(** [schedule] returns a result; its assignments are those of one
    construction pass over a permutation of the tasks, or there are
    none. *)
Lemma swo_schedule_spec :
  tasks request <> [] ->
  exists occ res,
    base_occupancy_of self ix hz (meetings request) = Some occ
    /\ base_ok self ix hz (meetings request) occ
    /\ schedule self request = Some res
    /\ (assignments res = []
        \/ exists r, is_pass_result infos occ hz ix (tasks request) r
                     /\ assignments res = assignments r
                     /\ unscheduled_tasks res = unscheduled_tasks r).
Proof.
  intros Hne.
  pose proof request_indexer_granularity as Hgran.
  pose proof swo_infos_ok as Hok. pose proof swo_infos_keys as Hkeys.
  unfold schedule, request_horizon, request_indexer in *.
  destruct (tasks request) as [| t0 ts] eqn:Et; [congruence |].
  fold (indexer_of self t0 ts (meetings request)) in *.
  set (ixv := indexer_of self t0 ts (meetings request)) in *.
  set (hzv := horizon_slots_of ixv (t0 :: ts) (meetings request)) in *.
  assert (Hg : 0 < granularity ixv) by (rewrite Hgran; assumption).
  destruct (horizon_slots_of_ge ixv (t0 :: ts) (meetings request) Hg)
    as [Hhz _].
  destruct (base_occupancy_of_spec self ixv hzv (meetings request))
    as [occ [Eocc Hbase]]; [fold hzv in Hhz; lia |].
  exists occ. rewrite Eocc. cbn [obind].
  destruct (iterations_spec self _ occ hzv ixv (t0 :: ts) Hok
              (proj1 Hbase) Hg Hkeys (Z.to_nat (max_iterations self))
              {| order := sorted initial_le (t0 :: ts);
                 penalties := initial_penalties (t0 :: ts) [];
                 best_result := None;
                 best_unscheduled := None;
                 best_objective := None |})
    as [st [Est [[_ [_ Hbest]] _]]].
  { split; [apply sorted_perm |]. split; [| exact I].
    intros tk Htk. apply initial_penalties_keys. left. apply in_map. assumption. }
  rewrite Est. cbn [obind]. eexists. split; [reflexivity |].
  split; [assumption |]. split; [reflexivity |].
  cbn [assignments unscheduled_tasks].
  destruct (best_result st) as [r |]; [right | left; reflexivity].
  exists r. auto.
Qed.

(** Every assignment of the result is the assignment of a task of the
    request at a start slot that fits the base occupancy, and the
    assignments do not overlap. *)
Lemma swo_result_spec (res : ScheduleResult) :
  schedule self request = Some res ->
  tasks request <> [] ->
  exists occ,
    base_ok self ix hz (meetings request) occ
    /\ non_overlapping (assignments res)
    /\ Forall (fun a => exists tk, In tk (tasks request)
                                   /\ swo_assignment_of self request occ tk a)
              (assignments res).
Proof.
  intros Hres Hne.
  destruct (swo_schedule_spec Hne) as [occ [res' [_ [Hbase [E Hcases]]]]].
  assert (res' = res) by congruence. subst res'.
  exists occ. split; [assumption |].
  destruct Hcases as [Hnil | [r [[order [asg [uns [Hperm [E1 E2]]]]] [Ha _]]]].
  - rewrite Hnil. split; constructor.
  - rewrite Ha.
    assert (Hg : 0 < granularity ix)
      by (rewrite request_indexer_granularity; assumption).
    destruct (pass_result_spec infos hz occ ix swo_infos_ok (proj1 Hbase) Hg
                order) as [asg' [uns' [r' [E1' [E2' [_ [Hno Hfrom]]]]]]].
    { intros tk Htk. apply dict_get_keys, swo_infos_keys, in_map.
      eapply Permutation_in; [apply Permutation_sym; exact Hperm | exact Htk]. }
    assert (asg' = asg /\ uns' = uns) as [-> ->]
        by (split; congruence).
    assert (r' = r) by congruence. subst r'.
    split; [assumption |].
    rewrite Forall_forall in *. intros a Ha'.
    destruct (Hfrom a Ha') as [e [info [_ [Hinfo [Hfit ->]]]]].
    destruct (infos_loop_get _ _ _ _ _ _ _ Hinfo) as [[tk [Hin [Hid ->]]] | H];
      [| discriminate].
    exists tk. split; [assumption |]. exists (snd e). rewrite Hid. auto.
Qed.

End SWOSchedule.

(** ** The CP/LNS scheduler: decoding a solution *)

Section CPDecode.

Import CPLNSScheduler.

Lemma vars_of_get_other (ts : list ScheduleTask) (vs : list task_values)
    (acc : dict task_values) (k : string) :
  ~ In k (map task_id ts) ->
  dict_get (vars_of ts vs acc) k = dict_get acc k.
Proof.
  revert vs acc. induction ts as [| tk r IH]; intros vs acc Hk; [reflexivity |].
  destruct vs as [| v vs']; [reflexivity |]. cbn [vars_of].
  rewrite IH by (intros H; apply Hk; right; assumption).
  apply dict_get_set_other. intros Heq. apply Hk. left. exact Heq.
Qed.

(** With distinct task ids, the dictionaries hold for every task the
    values of its own variables. *)
Lemma vars_of_get (ts : list ScheduleTask) (vs : list task_values)
    (acc : dict task_values) (tk : ScheduleTask) (v : task_values) :
  NoDup (map task_id ts) ->
  In (tk, v) (combine ts vs) ->
  dict_get (vars_of ts vs acc) (task_id tk) = Some v.
Proof.
  revert vs acc. induction ts as [| tk0 r IH]; intros vs acc Hnd Hin;
    [contradiction |].
  destruct vs as [| v0 vs']; [contradiction |].
  inversion Hnd as [| ? ? Hnotin Hnd']; subst. cbn [vars_of].
  destruct Hin as [Heq | Hin].
  - injection Heq as <- <-. rewrite vars_of_get_other by assumption.
    apply dict_get_set_same.
  - apply IH; assumption.
Qed.

Lemma decode_spec (self : t) (ix : _TimeIndexer) (vars : dict task_values)
    (ts : list ScheduleTask) (vs : list task_values) :
  List.length vs = List.length ts ->
  (forall tk v, In (tk, v) (combine ts vs) ->
                dict_get vars (task_id tk) = Some v) ->
  decode self ix vars ts
  = Some (map (fun tv => make_assigned self ix (fst tv) (snd tv))
              (present_pairs ts vs),
          map (fun tv => task_id (fst tv)) (absent_pairs ts vs)).
Proof.
  revert vs. induction ts as [| tk r IH]; intros vs Hlen Hget.
  - destruct vs; reflexivity.
  - destruct vs as [| v vs']; [discriminate |].
    cbn [decode]. rewrite (Hget tk v) by (left; reflexivity). cbn [obind].
    rewrite (IH vs') by
      (try (cbn in Hlen; lia); intros tk' v' H; apply Hget; right; assumption).
    cbn [obind]. unfold present_pairs, absent_pairs.
    cbn [combine filter snd fst]. destruct (presence_val v); reflexivity.
Qed.

Lemma no_overlap_app (l1 l2 : list (Z * Z)) :
  no_overlap (l1 ++ l2) = true ->
  no_overlap l1 = true
  /\ forall a b, In a l1 -> In b l2 -> disjointb a b = true.
Proof.
  induction l1 as [| x r IH]; cbn; [intros _; split; [reflexivity | intros ? ? []] |].
  intros H. apply andb_true_iff in H. destruct H as [Hx Hr].
  rewrite forallb_app in Hx. apply andb_true_iff in Hx. destruct Hx as [Hx1 Hx2].
  destruct (IH Hr) as [Hr1 Hr2]. split.
  - rewrite Hx1, Hr1. reflexivity.
  - intros a b [<- | Ha] Hb; [| auto].
    rewrite forallb_forall in Hx2. auto.
Qed.

Lemma no_overlap_pairs (l : list (Z * Z)) :
  no_overlap l = true ->
  ForallOrdPairs (fun a b => disjointb a b = true) l.
Proof.
  induction l as [| x r IH]; cbn; [constructor |].
  intros H. apply andb_true_iff in H. destruct H as [Hx Hr].
  constructor; [| auto]. apply Forall_forall. apply forallb_forall. assumption.
Qed.

Lemma ForallOrdPairs_unmap {A B} (f : A -> B) (R : B -> B -> Prop) (l : list A) :
  ForallOrdPairs R (map f l) -> ForallOrdPairs (fun a b => R (f a) (f b)) l.
Proof.
  induction l as [| x r IH]; cbn; intros H; [constructor |].
  inversion H as [| ? ? Hx Hr]; subst. constructor; [| auto].
  rewrite Forall_forall in *. intros a Ha. apply Hx. apply in_map. assumption.
Qed.

Lemma present_pairs_values (ts : list ScheduleTask) (vs : list task_values) :
  List.length vs = List.length ts ->
  map snd (present_pairs ts vs) = filter presence_val vs.
Proof.
  revert vs. induction ts as [| tk r IH]; intros vs Hlen.
  - destruct vs; [reflexivity | discriminate].
  - destruct vs as [| v vs']; [discriminate |].
    unfold present_pairs in *. cbn [combine filter snd].
    destruct (presence_val v); cbn [map snd]; rewrite IH by (cbn in Hlen; lia);
      reflexivity.
Qed.

End CPDecode.

Lemma combine_defined {A B} (l1 : list A) (l2 : list B) (x : A) :
  List.length l2 = List.length l1 -> In x l1 -> exists y, In (x, y) (combine l1 l2).
Proof.
  revert l2. induction l1 as [| a r IH]; intros l2 Hlen Hin; [contradiction |].
  destruct l2 as [| b r2]; [discriminate |].
  destruct Hin as [<- | Hin]; [exists b; left; reflexivity |].
  destruct (IH r2) as [y Hy]; [cbn in Hlen; lia | assumption |].
  exists y. right. assumption.
Qed.

(** With distinct ids, a task id names one task and one valuation. *)
Lemma combine_unique_id {B} (ts : list ScheduleTask) (vs : list B)
    (tk tk' : ScheduleTask) (v v' : B) :
  NoDup (map task_id ts) ->
  In (tk, v) (combine ts vs) -> In (tk', v') (combine ts vs) ->
  task_id tk = task_id tk' -> tk = tk' /\ v = v'.
Proof.
  revert vs. induction ts as [| t0 r IH]; intros vs Hnd H1 H2 Hid; [contradiction |].
  destruct vs as [| v0 vs']; [contradiction |].
  inversion Hnd as [| ? ? Hnotin Hnd']; subst.
  destruct H1 as [E1 | H1], H2 as [E2 | H2].
  - split; congruence.
  - injection E1 as <- <-. exfalso. apply Hnotin. rewrite Hid.
    apply in_map. apply in_combine_l in H2. assumption.
  - injection E2 as <- <-. exfalso. apply Hnotin. rewrite <- Hid.
    apply in_map. apply in_combine_l in H1. assumption.
  - apply (IH vs'); assumption.
Qed.

(** What it means for a valuation to satisfy the model. *)
Lemma model_satisfied_spec (self : CPLNSScheduler.t)
    (request : ScheduleRequest) (vs : list CPLNSScheduler.task_values) :
  CPLNSScheduler.model_satisfied self request vs = true ->
  exists fixed,
    CPLNSScheduler.fixed_intervals self
      (request_indexer (CPLNSScheduler.granularity_minutes self) request)
      (request_horizon (CPLNSScheduler.granularity_minutes self) request)
      (meetings request) = Some fixed
    /\ List.length vs = List.length (tasks request)
    /\ (forall tk v, In (tk, v) (combine (tasks request) vs) ->
                     cp_task_ok self request tk v)
    /\ CPLNSScheduler.no_overlap (CPLNSScheduler.task_intervals vs ++ fixed)
       = true.
Proof.
  intros Hmodel.
  unfold CPLNSScheduler.model_satisfied in Hmodel. unfold cp_task_ok, request_horizon,
    request_indexer.
  destruct (tasks request) as [| t0 ts] eqn:Et; [discriminate |].
  fold (CPLNSScheduler.indexer_of self t0 ts (meetings request)).
  destruct (CPLNSScheduler.fixed_intervals self _ _ (meetings request))
    as [fixed |];
    [| discriminate].
  apply andb_true_iff in Hmodel. destruct Hmodel as [Hmodel Hno].
  apply andb_true_iff in Hmodel. destruct Hmodel as [Hlen Hall].
  exists fixed. split; [reflexivity |]. split; [apply Nat.eqb_eq; assumption |].
  split; [| assumption].
  intros tk v Hin. rewrite forallb_forall in Hall. apply (Hall (tk, v) Hin).
Qed.

Section CPSchedule.

Import CPLNSScheduler.

Variable self : t.
Variable request : ScheduleRequest.
Variable response : solver_response.

Hypothesis granularity_pos : 0 < granularity_minutes self.
Hypothesis ids_distinct : NoDup (map task_id (tasks request)).
Hypothesis contract : response_ok self request response = true.

Local Abbreviation ix := (request_indexer (granularity_minutes self) request).
Local Abbreviation hz := (request_horizon (granularity_minutes self) request).

Lemma cp_indexer_granularity : granularity ix = granularity_minutes self.
Proof. unfold request_indexer. destruct (tasks request); reflexivity. Qed.

(** What the contract gives for a response that carries a solution. *)
Lemma cp_solution_spec :
  is_solution (status response) = true ->
  exists fixed,
    fixed_intervals self ix hz (meetings request) = Some fixed
    /\ List.length (values response) = List.length (tasks request)
    /\ (forall tk v, In (tk, v) (combine (tasks request) (values response)) ->
                     cp_task_ok self request tk v)
    /\ no_overlap (task_intervals (values response) ++ fixed) = true.
Proof.
  intros Hsol. unfold response_ok in contract. rewrite Hsol in contract.
  apply andb_true_iff in contract. destruct contract as [Hmodel _].
  apply model_satisfied_spec. assumption.
Qed.

(** The result of [schedule] on a response that carries a solution:
    the present tasks are assigned, the absent ones are unscheduled,
    and the assignments do not overlap. *)
Lemma cp_result_spec (res : ScheduleResult) :
  schedule self request response = Some res ->
  is_solution (status response) = true ->
  tasks request <> [] ->
  exists fixed,
    fixed_intervals self ix hz (meetings request) = Some fixed
    /\ Permutation
         (map (fun tv => make_assigned self ix (fst tv) (snd tv))
              (present_pairs (tasks request) (values response)))
         (assignments res)
    /\ unscheduled_tasks res
       = map (fun tv => task_id (fst tv))
             (absent_pairs (tasks request) (values response))
    /\ non_overlapping (assignments res)
    /\ Forall (fun a => exists tk,
                   In tk (tasks request)
                   /\ cp_assignment_of self request response fixed tk a)
              (assignments res).
Proof.
  intros Hres Hsol Hne.
  destruct (cp_solution_spec Hsol) as [fixed [Efix [Hlen [Hall Hno]]]].
  exists fixed. split; [assumption |].
  pose proof cp_indexer_granularity as Hgran.
  unfold schedule in Hres.
  unfold cp_assignment_of, cp_task_ok, request_horizon, request_indexer in *.
  destruct (tasks request) as [| t0 ts] eqn:Et; [congruence |].
  fold (indexer_of self t0 ts (meetings request)) in *.
  set (ixv := indexer_of self t0 ts (meetings request)) in *.
  rewrite Efix in Hres. cbn [obind] in Hres. rewrite Hsol in Hres.
  cbn [negb] in Hres.
  rewrite (decode_spec self ixv _ (t0 :: ts) (values response) Hlen) in Hres
    by (intros tk v Hin; apply vars_of_get; assumption).
  cbn [obind] in Hres. injection Hres as <-. cbn [assignments unscheduled_tasks].
  split; [apply sorted_perm |]. split; [reflexivity |].
  destruct (no_overlap_app _ _ Hno) as [Htasks Hfixed].
  assert (Hg : 0 < granularity ixv) by (rewrite Hgran; assumption).
  split.
  - eapply ForallOrdPairs_perm;
      [exact assigned_disjoint_sym | apply sorted_perm |].
    apply ForallOrdPairs_map.
    apply no_overlap_pairs in Htasks. unfold task_intervals in Htasks.
    rewrite <- (present_pairs_values (t0 :: ts)) in Htasks by assumption.
    rewrite map_map in Htasks. apply ForallOrdPairs_unmap in Htasks.
    eapply ForallOrdPairs_impl; [| exact Htasks].
    intros [tk1 v1] [tk2 v2] Hd. cbn [snd fst] in Hd |- *.
    unfold assigned_disjoint, disjoint, make_assigned.
    cbn [assigned_start assigned_end].
    unfold disjointb in Hd. cbn [fst snd] in Hd.
    apply orb_true_iff in Hd.
    destruct Hd as [H | H]; apply Z.leb_le in H; [left | right];
      apply (proj1 (to_datetime_le ixv Hg _ _)); assumption.
  - rewrite Forall_forall. intros a Ha.
    eapply Permutation_in in Ha; [| apply Permutation_sym, sorted_perm].
    apply in_map_iff in Ha. destruct Ha as [[tk v] [<- Hin]].
    unfold present_pairs in Hin. apply filter_In in Hin.
    destruct Hin as [Hin Hpres]. cbn [fst snd] in *.
    exists tk. split; [apply in_combine_l in Hin; assumption |].
    exists v. split; [assumption |]. split; [assumption |].
    split; [apply Hall; assumption |]. split; [| reflexivity].
    intros iv Hiv. apply Hfixed; [| assumption].
    unfold task_intervals. apply in_map_iff. exists v. split; [reflexivity |].
    apply filter_In. split; [| assumption].
    apply in_combine_r in Hin. assumption.
Qed.

(** A task that the model forces to be present is assigned and not
    unscheduled, and its assignment starts at the slot of its start
    variable. *)
Lemma cp_present_assigned (res : ScheduleResult) (tk : ScheduleTask)
    (v : task_values) :
  schedule self request response = Some res ->
  is_solution (status response) = true ->
  In (tk, v) (combine (tasks request) (values response)) ->
  presence_val v = true ->
  In (make_assigned self ix tk v) (assignments res)
  /\ ~ In (task_id tk) (unscheduled_tasks res)
  /\ forall a, In a (assignments res) -> assigned_task_id a = task_id tk ->
               a = make_assigned self ix tk v.
Proof.
  intros Hres Hsol Hin Hpres.
  assert (Hne : tasks request <> []).
  { intros E. rewrite E in Hin. contradiction. }
  destruct (cp_result_spec res Hres Hsol Hne)
    as [fixed [_ [Hperm [Huns [_ Hall]]]]].
  split; [| split].
  - eapply Permutation_in; [exact Hperm |].
    apply in_map_iff. exists (tk, v). split; [reflexivity |].
    apply filter_In. auto.
  - rewrite Huns. intros H. apply in_map_iff in H.
    destruct H as [[tk' v'] [Hid H']]. apply filter_In in H'.
    destruct H' as [Hin' Habs]. cbn [fst snd] in *.
    destruct (combine_unique_id _ _ _ _ _ _ ids_distinct Hin Hin'
                (eq_sym Hid)) as [_ <-].
    rewrite Hpres in Habs. discriminate.
  - intros a Ha Hid. rewrite Forall_forall in Hall.
    destruct (Hall a Ha) as [tk' [_ [v' [Hin' [_ [_ [_ ->]]]]]]].
    cbn [make_assigned assigned_task_id] in Hid.
    destruct (combine_unique_id _ _ _ _ _ _ ids_distinct Hin Hin'
                (eq_sym Hid)) as [<- <-].
    reflexivity.
Qed.

End CPSchedule.

(** * The claims *)

(** ** Empty input *)

(** C7: for a request without tasks both schedulers return the result
    with no assignments, no unscheduled tasks and objective value 0. *)
Theorem empty_request_empty_result (swo : SWOScheduler.t)
    (cp : CPLNSScheduler.t) (request : ScheduleRequest)
    (response : CPLNSScheduler.solver_response) :
  tasks request = [] ->
  SWOScheduler.schedule swo request = Some empty_result
  /\ CPLNSScheduler.schedule cp request response = Some empty_result.
Proof.
  intros Hnil. unfold SWOScheduler.schedule, CPLNSScheduler.schedule.
  rewrite Hnil. split; reflexivity.
Qed.

(** ** The construction pass *)

(** One turn of a construction pass, for any dictionary of segment
    infos that has an entry for every task of the order. *)
Lemma construct_pass_spec
    (segment_infos : dict SWOScheduler._SegmentInfo)
    (base_occupancy : list bool) (horizon_slots : Z)
    (pre post : list ScheduleTask) (tk : ScheduleTask) :
  infos_ok segment_infos ->
  (forall x, In x (pre ++ tk :: post) ->
             exists info, dict_get segment_infos (task_id x) = Some info) ->
  len base_occupancy = horizon_slots ->
  exists st st' st_end info,
    SWOScheduler.construct_loop segment_infos horizon_slots pre
      (initial_pass_state base_occupancy) = Some st
    /\ dict_get segment_infos (task_id tk) = Some info
    /\ SWOScheduler.construct_step segment_infos horizon_slots st tk = Some st'
    /\ step_outcome info tk st st'
    /\ SWOScheduler.construct_loop segment_infos horizon_slots post st'
       = Some st_end
    /\ SWOScheduler._construct_schedule (pre ++ tk :: post) segment_infos
         base_occupancy horizon_slots
       = Some (SWOScheduler.pass_assignments st_end,
               SWOScheduler.pass_unscheduled st_end).
Proof.
  intros Hok Hinfos Hlen.
  destruct (construct_loop_inv segment_infos horizon_slots base_occupancy
              Hok Hlen pre (initial_pass_state base_occupancy)
              (pass_inv_init segment_infos horizon_slots base_occupancy Hlen))
    as [st [Epre Hinv]].
  { intros tk' H. apply Hinfos. apply in_or_app. left. assumption. }
  destruct (Hinfos tk) as [info Hinfo];
    [apply in_or_app; right; left; reflexivity |].
  destruct (construct_step_spec segment_infos horizon_slots base_occupancy
              Hok Hlen st tk info Hinv Hinfo) as [st' [Estep [Hinv' Hout]]].
  destruct (construct_loop_inv segment_infos horizon_slots base_occupancy
              Hok Hlen post st' Hinv') as [st_end [Epost _]].
  { intros tk' H. apply Hinfos. apply in_or_app. right. right. assumption. }
  exists st, st', st_end, info. repeat (split; [assumption |]).
  unfold SWOScheduler._construct_schedule.
  fold (initial_pass_state base_occupancy).
  rewrite construct_loop_app, Epre. cbn [obind SWOScheduler.construct_loop].
  rewrite Estep. cbn [obind]. rewrite Epost. reflexivity.
Qed.

(** C6: in a construction pass of [SWOScheduler.schedule] over an order
    [pre ++ tk :: post] of the tasks of the request, the pass reaches
    [tk] in some state [st]; the task gets the least start slot in
    [earliest_slot, latest_start_slot] that ends by [due_slot] and covers
    free slots of the occupancy of [st] only, and these slots become
    taken; when no such slot exists, the task is appended to the
    unscheduled ones and the occupancy and the assignments stay as they
    are.  The pass then runs on to its end. *)
Theorem construct_pass_assigns_least_fit (self : SWOScheduler.t)
    (request : ScheduleRequest) (pre post : list ScheduleTask)
    (tk : ScheduleTask) :
  0 < SWOScheduler.granularity_minutes self ->
  Permutation (tasks request) (pre ++ tk :: post) ->
  let g := SWOScheduler.granularity_minutes self in
  let ix := request_indexer g request in
  let hz := request_horizon g request in
  let segment_infos :=
    SWOScheduler.infos_loop ix hz (previous_of request) (tasks request) [] in
  exists base_occupancy st st' st_end info,
    SWOScheduler.base_occupancy_of self ix hz (meetings request)
    = Some base_occupancy
    /\ SWOScheduler.construct_loop segment_infos hz pre
         (initial_pass_state base_occupancy) = Some st
    /\ dict_get segment_infos (task_id tk) = Some info
    /\ SWOScheduler.construct_step segment_infos hz st tk = Some st'
    /\ step_outcome info tk st st'
    /\ SWOScheduler.construct_loop segment_infos hz post st' = Some st_end
    /\ SWOScheduler._construct_schedule (pre ++ tk :: post) segment_infos
         base_occupancy hz
       = Some (SWOScheduler.pass_assignments st_end,
               SWOScheduler.pass_unscheduled st_end).
Proof.
  intros Hg Hperm g ix hz segment_infos.
  assert (Hix : 0 < granularity ix) by (apply request_indexer_pos; assumption).
  destruct (horizon_slots_of_ge ix (tasks request) (meetings request) Hix)
    as [Hhz _].
  destruct (SWOScheduler.base_occupancy_of self ix hz (meetings request))
    as [occ |] eqn:Eocc.
  2:{ destruct (base_occupancy_of_spec self ix hz (meetings request))
        as [occ [E _]]; [unfold hz, request_horizon; fold ix; lia | congruence]. }
  destruct (base_occupancy_of_spec self ix hz (meetings request))
    as [occ' [E [Hlen _]]]; [unfold hz, request_horizon; fold ix; lia |].
  assert (occ' = occ) by congruence. subst occ'.
  destruct (construct_pass_spec segment_infos occ hz pre post tk)
    as [st [st' [st_end [info H]]]].
  - apply swo_infos_ok. assumption.
  - intros x Hx. apply dict_get_keys, swo_infos_keys, in_map.
    eapply Permutation_in; [apply Permutation_sym; exact Hperm | exact Hx].
  - assumption.
  - exists occ, st, st', st_end, info. split; [reflexivity | exact H].
Qed.

Lemma construct_pass_assigns_least_fit_witness :
  let tk_a := plain_task "task-a" 90 (on_day 9 0) (on_day 17 0) 5 in
  let tk_b := plain_task "task-b" 60 (on_day 9 0) (on_day 12 0) 10 in
  let ix := request_indexer 15 request_meeting_deadline in
  let hz := request_horizon 15 request_meeting_deadline in
  let segment_infos :=
    SWOScheduler.infos_loop ix hz (previous_of request_meeting_deadline)
      (tasks request_meeting_deadline) [] in
  exists base_occupancy st st' st_end info,
    SWOScheduler.base_occupancy_of SWOScheduler.default ix hz
      (meetings request_meeting_deadline) = Some base_occupancy
    /\ SWOScheduler.construct_loop segment_infos hz [tk_b]
         (initial_pass_state base_occupancy) = Some st
    /\ dict_get segment_infos (task_id tk_a) = Some info
    /\ SWOScheduler.construct_step segment_infos hz st tk_a = Some st'
    /\ step_outcome info tk_a st st'
    /\ SWOScheduler.construct_loop segment_infos hz [] st' = Some st_end
    /\ SWOScheduler._construct_schedule ([tk_b] ++ tk_a :: []) segment_infos
         base_occupancy hz
       = Some (SWOScheduler.pass_assignments st_end,
               SWOScheduler.pass_unscheduled st_end).
Proof.
  intros tk_a tk_b.
  apply (construct_pass_assigns_least_fit SWOScheduler.default
           request_meeting_deadline [tk_b] [] tk_a).
  - cbn. lia.
  - apply perm_swap.
Defined.

Lemma empty_request_empty_result_witness :
  SWOScheduler.schedule SWOScheduler.default request_no_tasks = Some empty_result
  /\ CPLNSScheduler.schedule CPLNSScheduler.default request_no_tasks
       response_meeting_deadline = Some empty_result.
Proof.
  apply (empty_request_empty_result SWOScheduler.default CPLNSScheduler.default
           request_no_tasks response_meeting_deadline).
  reflexivity.
Defined.

(** ** Non-overlap *)

(** C1: the assignments of a result returned by either scheduler are
    pairwise non-overlapping, for every request with distinct task ids
    (and a positive granularity; for the CP scheduler, a response that
    honours the solver's contract). *)
Theorem assignments_non_overlapping (swo : SWOScheduler.t)
    (cp : CPLNSScheduler.t) (request : ScheduleRequest)
    (response : CPLNSScheduler.solver_response) (res : ScheduleResult) :
  0 < SWOScheduler.granularity_minutes swo ->
  0 < CPLNSScheduler.granularity_minutes cp ->
  NoDup (map task_id (tasks request)) ->
  CPLNSScheduler.response_ok cp request response = true ->
  SWOScheduler.schedule swo request = Some res
  \/ CPLNSScheduler.schedule cp request response = Some res ->
  non_overlapping (assignments res).
Proof.
  intros Hswo Hcp Hnd Hok Hres.
  destruct (tasks request) as [| t0 ts] eqn:Et.
  { unfold SWOScheduler.schedule, CPLNSScheduler.schedule in Hres.
    rewrite Et in Hres.
    destruct Hres as [Hres | Hres]; injection Hres as <-; constructor. }
  assert (Hne : tasks request <> []) by congruence.
  rewrite <- Et in Hnd. clear Et.
  destruct Hres as [Hres | Hres].
  - destruct (swo_result_spec swo request Hswo res Hres Hne) as [occ [_ [H _]]].
    exact H.
  - destruct (CPLNSScheduler.is_solution (CPLNSScheduler.status response)) eqn:Es.
    + destruct (cp_result_spec cp request response Hcp Hnd Hok res Hres Es Hne)
        as [fixed [_ [_ [_ [H _]]]]].
      exact H.
    + unfold CPLNSScheduler.schedule in Hres.
      destruct (tasks request); [congruence |].
      destruct (CPLNSScheduler.fixed_intervals _ _ _ _); [| discriminate].
      cbn [obind] in Hres. rewrite Es in Hres. cbn [negb] in Hres.
      injection Hres as <-. constructor.
Qed.

Ltac distinct_ids :=
  repeat (apply NoDup_cons; [cbn; intuition discriminate |]); apply NoDup_nil.

Lemma assignments_non_overlapping_witness :
  non_overlapping (assignments (result_meeting_deadline (Some 0)))
  /\ non_overlapping (assignments (result_meeting_deadline (Some 120))).
Proof.
  split;
    apply (assignments_non_overlapping SWOScheduler.default
             CPLNSScheduler.default request_meeting_deadline
             response_meeting_deadline);
    [ cbn; lia | cbn; lia | distinct_ids | vm_compute; reflexivity
    | left; vm_compute; reflexivity
    | cbn; lia | cbn; lia | distinct_ids | vm_compute; reflexivity
    | right; vm_compute; reflexivity ].
Defined.

(** ** Assignments of the squeaky-wheel scheduler *)

Section SWOAssignment.

Import SWOScheduler.

Variable self : t.
Variable request : ScheduleRequest.
Variable occ : list bool.
Variable tk : ScheduleTask.
Variable a : AssignedTask.

Hypothesis granularity_pos : 0 < granularity_minutes self.
Hypothesis origin : swo_assignment_of self request occ tk a.

Local Abbreviation ix := (request_indexer (granularity_minutes self) request).

Local Abbreviation ix_pos := (request_indexer_pos _ request granularity_pos).

(** The slots of the assignment. *)
Lemma swo_assignment_slots :
  exists s,
    assigned_task_id a = task_id tk
    /\ assigned_start a = to_datetime ix s
    /\ assigned_end a
       = to_datetime ix (s + duration_to_slots ix (duration_minutes tk))
    /\ to_slot_ceiling ix (earliest_start tk) <= s
    /\ s + duration_to_slots ix (duration_minutes tk)
       <= to_slot_ceiling ix (due tk)
    /\ (forall idx,
           s <= idx < s + duration_to_slots ix (duration_minutes tk) ->
           free occ idx)
    /\ tardiness_minutes a
       = if assigned_end a >? due tk
         then Z.quot (assigned_end a - due tk) US_PER_MINUTE
         else 0.
Proof.
  destruct origin as [s [[Hr [Hd Hf]] ->]]. exists s.
  cbn [segment_info_of earliest_slot duration_slots due_slot
       latest_start_slot] in *.
  repeat split; try assumption; try reflexivity; lia.
Qed.


Lemma swo_end_by_due_slot :
  assigned_end a <= to_datetime ix (to_slot_ceiling ix (due tk))
  /\ assigned_end a - due tk < slot_width ix.
Proof.
  destruct swo_assignment_slots as [s [_ [_ [-> [_ [Hs _]]]]]].
  pose proof (to_slot_ceiling_spec ix ix_pos (due tk)) as Hc.
  apply (to_datetime_le ix ix_pos) in Hs. lia.
Qed.

(** The tardiness is the lateness in whole minutes, rounded down. *)
Lemma swo_tardiness_floor :
  tardiness_minutes a = Z.max 0 ((assigned_end a - due tk) / US_PER_MINUTE).
Proof.
  destruct swo_assignment_slots as [s [_ [_ [_ [_ [_ [_ ->]]]]]]].
  assert (Hus : 0 < US_PER_MINUTE) by (unfold US_PER_MINUTE; lia).
  destruct (assigned_end a >? due tk) eqn:E.
  - rewrite Z.quot_div_nonneg by lia.
    pose proof (Z.div_pos (assigned_end a - due tk) US_PER_MINUTE
                  ltac:(lia) Hus). lia.
  - assert ((assigned_end a - due tk) / US_PER_MINUTE <= 0); [| lia].
    apply Z.div_le_upper_bound; lia.
Qed.

Lemma swo_tardiness_bound :
  0 <= tardiness_minutes a < granularity_minutes self.
Proof.
  rewrite swo_tardiness_floor. destruct swo_end_by_due_slot as [_ Hlt].
  unfold slot_width in Hlt. rewrite request_indexer_granularity in Hlt.
  split; [lia |].
  assert ((assigned_end a - due tk) / US_PER_MINUTE < granularity_minutes self);
    [| lia].
  apply Z.div_lt_upper_bound; [unfold US_PER_MINUTE; lia | assumption].
Qed.

End SWOAssignment.

(** C10: for a request with tasks, every assignment that
    [SWOScheduler.schedule] returns belongs to a task of the request and
    ends on a slot at or before the slot-rounded deadline
    [to_slot_ceiling(task.due)]; its tardiness is therefore below the
    granularity. *)
Theorem swo_assignment_ends_by_due_slot (self : SWOScheduler.t)
    (request : ScheduleRequest) (res : ScheduleResult) :
  0 < SWOScheduler.granularity_minutes self ->
  tasks request <> [] ->
  SWOScheduler.schedule self request = Some res ->
  Forall
    (fun a =>
       exists tk end_slot,
         In tk (tasks request)
         /\ task_id tk = assigned_task_id a
         /\ assigned_end a
            = to_datetime
                (request_indexer (SWOScheduler.granularity_minutes self) request)
                end_slot
         /\ end_slot
            <= to_slot_ceiling
                 (request_indexer (SWOScheduler.granularity_minutes self) request)
                 (due tk)
         /\ 0 <= tardiness_minutes a < SWOScheduler.granularity_minutes self)
    (assignments res).
Proof.
  intros Hg Hne Hres.
  destruct (swo_result_spec self request Hg res Hres Hne) as [occ [_ [_ Hall]]].
  eapply Forall_impl; [| exact Hall]. cbn beta.
  intros a [tk [Hin Horigin]].
  destruct (swo_assignment_slots self request occ tk a Horigin)
    as [s [Hid [_ [Hend [_ [Hdue _]]]]]].
  exists tk, (s + duration_to_slots
                    (request_indexer (SWOScheduler.granularity_minutes self) request)
                    (duration_minutes tk)).
  split; [assumption |]. split; [congruence |]. split; [assumption |].
  split; [assumption |].
  apply (swo_tardiness_bound self request occ tk a Hg Horigin).
Qed.

Lemma swo_assignment_ends_by_due_slot_witness :
  Forall
    (fun a =>
       exists tk end_slot,
         In tk (tasks request_meeting_deadline)
         /\ task_id tk = assigned_task_id a
         /\ assigned_end a
            = to_datetime (request_indexer 15 request_meeting_deadline) end_slot
         /\ end_slot
            <= to_slot_ceiling (request_indexer 15 request_meeting_deadline)
                 (due tk)
         /\ 0 <= tardiness_minutes a < 15)
    (assignments (result_meeting_deadline (Some 0))).
Proof.
  apply (swo_assignment_ends_by_due_slot SWOScheduler.default
           request_meeting_deadline (result_meeting_deadline (Some 0))).
  - cbn. lia.
  - discriminate.
  - vm_compute. reflexivity.
Defined.

(** ** Remap *)

Lemma insert_by_sorted (x : string) (l : list string) :
  Sorted string_le l -> Sorted string_le (insert_by String.leb x l).
Proof.
  induction 1 as [| y r Hr IH Hhd]; cbn.
  - repeat constructor.
  - destruct (String.leb x y) eqn:E.
    + constructor; [constructor; assumption | constructor; exact E].
    + constructor; [assumption |].
      assert (Hyx : string_le y x).
      { destruct (String.leb_total x y) as [H | H]; [congruence | exact H]. }
      destruct r as [| z r']; cbn.
      * constructor. exact Hyx.
      * destruct (String.leb x z); constructor;
          [exact Hyx | inversion Hhd; assumption].
Qed.

Lemma sorted_is_sorted (l : list string) : Sorted string_le (sorted String.leb l).
Proof.
  induction l as [| x r IH]; [constructor |].
  change (sorted String.leb (x :: r))
    with (insert_by String.leb x (sorted String.leb r)).
  apply insert_by_sorted, IH.
Qed.

Lemma sorted_fixed (l : list string) :
  Sorted string_le l -> sorted String.leb l = l.
Proof.
  induction 1 as [| y r Hr IH Hhd]; [reflexivity |].
  change (sorted String.leb (y :: r))
    with (insert_by String.leb y (sorted String.leb r)).
  rewrite IH. destruct Hhd as [| z r' Hyz]; cbn; [reflexivity |].
  unfold string_le in Hyz. rewrite Hyz. reflexivity.
Qed.

Lemma sorted_set_spec (l : list string) :
  Sorted string_le (sorted_set l)
  /\ NoDup (sorted_set l)
  /\ forall x, In x (sorted_set l) <-> In x l.
Proof.
  unfold sorted_set. split; [apply sorted_is_sorted |]. split.
  - eapply Permutation_NoDup; [apply sorted_perm | apply NoDup_nodup].
  - intros x. rewrite <- (nodup_In string_dec l x). split; intros H.
    + eapply Permutation_in; [apply Permutation_sym, sorted_perm | exact H].
    + eapply Permutation_in; [apply sorted_perm | exact H].
Qed.

Lemma sorted_set_fixed (l : list string) :
  Sorted string_le l -> NoDup l -> sorted_set l = l.
Proof.
  intros Hs Hnd. unfold sorted_set.
  rewrite nodup_fixed_point by assumption. apply sorted_fixed. assumption.
Qed.

(** Under [roots_fixed], remapping a remapped result changes nothing. *)
Lemma remap_idempotent (result : ScheduleResult) (mapping : dict string) :
  roots_fixed mapping ->
  _remap_schedule_result (_remap_schedule_result result mapping) mapping
  = _remap_schedule_result result mapping.
Proof.
  intros Hfix. unfold _remap_schedule_result.
  cbn [assignments unscheduled_tasks objective_value]. f_equal.
  - rewrite map_map. apply map_ext. intros a. cbn. rewrite Hfix. reflexivity.
  - set (l := map (root_id mapping) (unscheduled_tasks result)).
    destruct (sorted_set_spec l) as [Hs [Hnd Hin]].
    assert (Hmap : map (root_id mapping) (sorted_set l) = sorted_set l).
    { rewrite <- (map_id (sorted_set l)) at 2. apply map_ext_in.
      intros x Hx. apply Hin in Hx. unfold l in Hx. apply in_map_iff in Hx.
      destruct Hx as [y [<- _]]. apply Hfix. }
    rewrite Hmap. apply sorted_set_fixed; assumption.
Qed.

Lemma mapping_inv_roots_fixed (mapping : dict string) :
  mapping_inv mapping -> roots_fixed mapping.
Proof.
  intros Hinv k. unfold root_id, dict_get_default.
  destruct (dict_get mapping k) as [v |] eqn:E.
  - destruct (Hinv k v E) as [_ [Hv _]]. rewrite Hv. reflexivity.
  - rewrite E. reflexivity.
Qed.

Lemma uuid_text_append (a b : string) :
  uuid_text (a ++ b) = uuid_text a && uuid_text b.
Proof.
  induction a as [| c r IH]; cbn; [reflexivity |].
  rewrite IH. apply andb_assoc.
Qed.

Lemma schedule_id_not_uuid (root : string) (index : nat) :
  uuid_text (schedule_id_of root (S index)) = false.
Proof.
  unfold schedule_id_of. rewrite uuid_text_append.
  apply andb_false_iff. right. reflexivity.
Qed.

(** Two segment ids over UUID roots agree only on the same root. *)
Lemma uuid_prefix_unique (a b x y : string) :
  uuid_text a = true -> uuid_text b = true ->
  (a ++ String ":" x)%string = (b ++ String ":" y)%string -> a = b.
Proof.
  revert b. induction a as [| c r IH]; intros b Ha Hb E.
  - destruct b as [| d b']; [reflexivity |]. cbn in E. injection E as <- _.
    cbn in Hb. discriminate.
  - destruct b as [| d b']; cbn in E.
    + injection E as -> _. cbn in Ha. discriminate.
    + injection E as <- E. cbn in Ha, Hb.
      apply andb_true_iff in Ha, Hb. f_equal. apply IH; tauto.
Qed.

Lemma schedule_id_root_unique (root root' : string) (i j : nat) :
  uuid_text root = true -> uuid_text root' = true ->
  schedule_id_of root i = schedule_id_of root' j -> root = root'.
Proof.
  intros Hr Hr' E. destruct i as [| i], j as [| j].
  - exact E.
  - change (schedule_id_of root 0) with root in E.
    rewrite E, schedule_id_not_uuid in Hr. discriminate.
  - change (schedule_id_of root' 0) with root' in E.
    rewrite <- E, schedule_id_not_uuid in Hr'. discriminate.
  - unfold schedule_id_of in E. eapply uuid_prefix_unique; eassumption.
Qed.

(** One segment more in the mapping. *)
Lemma mapping_step (m : dict string) (root : string) (i : nat) :
  mapping_inv m ->
  uuid_text root = true ->
  i = O \/ dict_get m root = Some root ->
  let m' := dict_set m (schedule_id_of root i) root in
  mapping_inv m' /\ mapping_extends m m'
  /\ dict_get m' (schedule_id_of root i) = Some root
  /\ dict_get m' root = Some root.
Proof.
  intros Hinv Hroot Hfirst m'.
  assert (Hext : mapping_extends m m').
  { intros k v Hk. unfold m'. rewrite dict_get_set.
    destruct (String.eqb (schedule_id_of root i) k) eqn:E; [| assumption].
    apply String.eqb_eq in E. destruct (Hinv k v Hk) as [Hv [_ [j Hj]]].
    f_equal. apply (schedule_id_root_unique root v i j); congruence. }
  assert (Hself : dict_get m' root = Some root).
  { destruct Hfirst as [-> | H]; [apply dict_get_set_same | apply Hext, H]. }
  split; [| split; [assumption | split; [apply dict_get_set_same | assumption]]].
  intros k v Hk. unfold m' in Hk. rewrite dict_get_set in Hk.
  destruct (String.eqb (schedule_id_of root i) k) eqn:E.
  - apply String.eqb_eq in E. injection Hk as <-.
    split; [assumption |]. split; [assumption |]. exists i. congruence.
  - destruct (Hinv k v Hk) as [Hv [Hvv Hi]].
    split; [assumption |]. split; [apply Hext; assumption | assumption].
Qed.

Lemma expand_segments_mapping (tk : Task)
    (previous_segments : list (datetime * datetime)) (segments : list Z)
    (acc : expansion) (index : nat) :
  mapping_inv (schedule_mapping acc) ->
  uuid_text (task_row_id tk) = true ->
  index = O \/ dict_get (schedule_mapping acc) (task_row_id tk)
               = Some (task_row_id tk) ->
  let m' := schedule_mapping
              (expand_segments tk previous_segments acc index segments) in
  mapping_inv m' /\ mapping_extends (schedule_mapping acc) m'
  /\ forall j, (j < List.length segments)%nat ->
               dict_get m' (schedule_id_of (task_row_id tk) (index + j))
               = Some (task_row_id tk).
Proof.
  revert acc index. induction segments as [| d r IH]; intros acc index Hinv Hu Hfirst.
  - cbn. split; [assumption |]. split; [intros k v H; exact H |].
    intros j Hj. lia.
  - cbn [expand_segments].
    destruct (mapping_step (schedule_mapping acc) (task_row_id tk) index
                Hinv Hu Hfirst) as [Hinv1 [Hext1 [Hsid Hself]]].
    destruct (IH (expand_segment tk previous_segments acc index d) (S index))
      as [Hinv' [Hext' Hget']]; [exact Hinv1 | exact Hu | right; exact Hself |].
    cbn zeta. split; [assumption |]. split.
    + intros k v H. apply Hext'. apply Hext1. assumption.
    + intros [| j] Hj.
      * rewrite Nat.add_0_r. apply Hext'. exact Hsid.
      * replace (index + S j)%nat with (S index + j)%nat by lia.
        apply Hget'. cbn in Hj. lia.
Qed.

Lemma expand_tasks_mapping
    (previous : dict (list (datetime * datetime))) (rows : list Task)
    (acc : expansion) :
  mapping_inv (schedule_mapping acc) ->
  uuid_ids rows = true ->
  let m' := schedule_mapping (expand_tasks previous rows acc) in
  mapping_inv m' /\ mapping_extends (schedule_mapping acc) m'
  /\ forall tk j,
       In tk rows ->
       (j < List.length (_segment_duration (task_row_duration_minutes tk)))%nat ->
       dict_get m' (schedule_id_of (task_row_id tk) j) = Some (task_row_id tk).
Proof.
  revert acc. induction rows as [| tk r IH]; intros acc Hinv Hu.
  - cbn. split; [assumption |]. split; [intros k v H; exact H |].
    intros tk j [].
  - cbn [expand_tasks]. cbn in Hu. apply andb_true_iff in Hu.
    destruct Hu as [Hu Hur].
    destruct (expand_segments_mapping tk
                (dict_get_default previous (task_row_id tk) [])
                (_segment_duration (task_row_duration_minutes tk)) acc 0%nat
                Hinv Hu (or_introl eq_refl)) as [Hinv1 [Hext1 Hget1]].
    destruct (IH _ Hinv1 Hur) as [Hinv' [Hext' Hget']].
    cbn zeta. split; [assumption |]. split.
    + intros k v H. apply Hext'. apply Hext1. assumption.
    + intros tk' j [<- | Hin] Hj.
      * apply Hext'. apply (Hget1 j Hj).
      * apply Hget'; assumption.
Qed.

(** C9: with the mapping that the service builds for task rows with
    UUID ids, the remap step replaces the id of every assignment by its
    root id and keeps the rest of the assignment, the root of every
    segment id of a row being the id of the row; the unscheduled ids of
    the remapped result are sorted, without repetition, and are exactly
    the roots of the unscheduled segment ids; and remapping the remapped
    result again with the same mapping changes nothing. *)
Theorem remap_roots_sorted_idempotent
    (previous : dict (list (datetime * datetime))) (rows : list Task)
    (result : ScheduleResult) :
  uuid_ids rows = true ->
  let mapping := schedule_mapping (expand_tasks previous rows empty_expansion) in
  let remapped := _remap_schedule_result result mapping in
  (forall tk j,
      In tk rows ->
      (j < List.length (_segment_duration (task_row_duration_minutes tk)))%nat ->
      root_id mapping (schedule_id_of (task_row_id tk) j) = task_row_id tk)
  /\ Forall2 (fun a a' =>
                assigned_task_id a' = root_id mapping (assigned_task_id a)
                /\ assigned_start a' = assigned_start a
                /\ assigned_end a' = assigned_end a
                /\ deviation_minutes a' = deviation_minutes a
                /\ tardiness_minutes a' = tardiness_minutes a)
             (assignments result) (assignments remapped)
  /\ Sorted string_le (unscheduled_tasks remapped)
  /\ NoDup (unscheduled_tasks remapped)
  /\ (forall r, In r (unscheduled_tasks remapped)
                <-> exists seg, In seg (unscheduled_tasks result)
                                /\ r = root_id mapping seg)
  /\ objective_value remapped = objective_value result
  /\ _remap_schedule_result remapped mapping = remapped.
Proof.
  intros Hu mapping remapped.
  destruct (expand_tasks_mapping previous rows empty_expansion) as [Hinv [_ Hget]];
    [intros k v H; discriminate | assumption |].
  fold mapping in Hinv, Hget.
  split.
  { intros tk j Hin Hj. unfold root_id, dict_get_default.
    rewrite (Hget tk j Hin Hj). reflexivity. }
  split.
  { unfold remapped, _remap_schedule_result. cbn [assignments].
    induction (assignments result) as [| a r IH]; cbn; constructor; auto. }
  destruct (sorted_set_spec (map (root_id mapping) (unscheduled_tasks result)))
    as [Hs [Hnd Hin]].
  split; [exact Hs |]. split; [exact Hnd |]. split.
  { intros r. unfold remapped, _remap_schedule_result. cbn [unscheduled_tasks].
    rewrite Hin, in_map_iff. split; intros [seg [H1 H2]]; exists seg; auto. }
  split; [reflexivity |].
  apply remap_idempotent, mapping_inv_roots_fixed, Hinv.
Qed.

Lemma remap_roots_sorted_idempotent_witness :
  let mapping := schedule_mapping (expand_tasks [] example_rows empty_expansion) in
  let remapped := _remap_schedule_result example_segment_result mapping in
  (forall tk j,
      In tk example_rows ->
      (j < List.length (_segment_duration (task_row_duration_minutes tk)))%nat ->
      root_id mapping (schedule_id_of (task_row_id tk) j) = task_row_id tk)
  /\ Forall2 (fun a a' =>
                assigned_task_id a' = root_id mapping (assigned_task_id a)
                /\ assigned_start a' = assigned_start a
                /\ assigned_end a' = assigned_end a
                /\ deviation_minutes a' = deviation_minutes a
                /\ tardiness_minutes a' = tardiness_minutes a)
             (assignments example_segment_result) (assignments remapped)
  /\ Sorted string_le (unscheduled_tasks remapped)
  /\ NoDup (unscheduled_tasks remapped)
  /\ (forall r, In r (unscheduled_tasks remapped)
                <-> exists seg, In seg (unscheduled_tasks example_segment_result)
                                /\ r = root_id mapping seg)
  /\ objective_value remapped = objective_value example_segment_result
  /\ _remap_schedule_result remapped mapping = remapped.
Proof.
  apply (remap_roots_sorted_idempotent [] example_rows example_segment_result).
  reflexivity.
Defined.

(** ** The constraints of one task *)

Ltac split_andb :=
  repeat match goal with
         | H : _ && _ = true |- _ =>
             apply andb_true_iff in H; destruct H
         end.

Ltac to_Z :=
  repeat match goal with
         | H : (_ <=? _) = true |- _ => apply Z.leb_le in H
         | H : (_ <? _) = true |- _ => apply Z.ltb_lt in H
         | H : (_ =? _) = true |- _ => apply Z.eqb_eq in H
         | H : (_ >=? _) = true |- _ => rewrite Z.geb_leb in H; apply Z.leb_le in H
         | H : (_ >? _) = true |- _ => rewrite Z.gtb_ltb in H; apply Z.ltb_lt in H
         end.

Section TaskConstraints.

Import CPLNSScheduler.

Variable ix : _TimeIndexer.
Variable horizon_slots : Z.
Variable previous : dict (datetime * datetime).
Variable window_slot_range : option (Z * Z).
Variable tk : ScheduleTask.
Variable v : task_values.

Hypothesis holds :
  task_constraints ix horizon_slots previous window_slot_range tk v = true.

(** A pinned task starts at its pinned slot and is present. *)
Lemma task_constraints_pinned (p : Z) :
  pinned_slot ix previous window_slot_range tk = Some p ->
  start_val v = p /\ presence_val v = true.
Proof.
  pose proof holds as H. unfold task_constraints in H. cbv zeta in H.
  unfold pinned_slot. split_andb.
  destruct (fixed_start tk) as [fs |].
  - intros [= <-]. split_andb. to_Z. auto.
  - destruct window_slot_range as [[w_lo w_hi] |]; [| discriminate].
    destruct (dict_get previous (task_id tk)) as [pa |]; [| discriminate].
    cbv zeta. destruct (negb _); [| discriminate].
    intros [= <-]. split_andb. to_Z. auto.
Qed.

(** A task without previous assignment and without fixed start is
    present. *)
Lemma task_constraints_new_present :
  dict_get previous (task_id tk) = None -> fixed_start tk = None ->
  presence_val v = true.
Proof.
  pose proof holds as H. unfold task_constraints in H. cbv zeta in H.
  intros Hp Hf. split_andb. rewrite Hp, Hf in *. assumption.
Qed.

(** The bounds of the variables. *)
Lemma task_constraints_domains :
  Z.max 0 (to_slot ix (earliest_start tk)) <= start_val v
  /\ end_val v <= horizon_slots
  /\ 0 <= tardiness_val v <= horizon_slots
  /\ 0 <= deviation_val v <= horizon_slots.
Proof.
  pose proof holds as H. unfold task_constraints, in_domain in H.
  cbv zeta in H. split_andb. to_Z. lia.
Qed.

(** The interval of a present task. *)
Lemma task_constraints_present :
  presence_val v = true ->
  start_val v + duration_to_slots ix (duration_minutes tk) = end_val v
  /\ end_val v <= to_slot_ceiling ix (due tk)
  /\ end_val v - to_slot_ceiling ix (due tk) <= tardiness_val v.
Proof.
  pose proof holds as H. unfold task_constraints, in_domain in H.
  cbv zeta in H. intros Hp. rewrite Hp in H. cbn [implb negb] in H.
  split_andb. to_Z. lia.
Qed.

End TaskConstraints.

(** ** Pinned tasks in the CP scheduler *)

Section CPPinned.

Import CPLNSScheduler.

Variable self : t.
Variable request : ScheduleRequest.
Variable response : solver_response.
Variable res : ScheduleResult.

Hypothesis granularity_pos : 0 < granularity_minutes self.
Hypothesis ids_distinct : NoDup (map task_id (tasks request)).
Hypothesis contract : response_ok self request response = true.
Hypothesis solved : is_solution (status response) = true.
Hypothesis returned : schedule self request response = Some res.

Local Abbreviation ix := (request_indexer (granularity_minutes self) request).

(** A task whose start the model pins to the slot [p] is assigned at
    that slot and is not unscheduled. *)
Lemma cp_pinned_assigned (tk : ScheduleTask) (p : Z) :
  In tk (tasks request) ->
  pinned_slot ix (previous_of request)
    (window_slot_range_of ix (neighborhood_window request)) tk = Some p ->
  (exists a, In a (assignments res)
             /\ assigned_task_id a = task_id tk
             /\ assigned_start a = to_datetime ix p)
  /\ ~ In (task_id tk) (unscheduled_tasks res).
Proof.
  intros Hin Hpin.
  destruct (cp_solution_spec self request response contract solved)
    as [fixed [_ [Hlen [Hall _]]]].
  destruct (combine_defined _ _ tk Hlen Hin) as [v Hv].
  pose proof (Hall tk v Hv) as Hok. unfold cp_task_ok in Hok.
  destruct (task_constraints_pinned _ _ _ _ _ _ Hok p Hpin) as [Hstart Hpres].
  destruct (cp_present_assigned self request response granularity_pos
              ids_distinct contract res tk v returned solved Hv Hpres)
    as [Ha [Hu _]].
  split; [| assumption].
  exists (make_assigned self ix tk v). split; [assumption |].
  split; [reflexivity |]. cbn [make_assigned assigned_start]. congruence.
Qed.

End CPPinned.

(** C8 (amended): in the CP scheduler, whenever the solver returns a
    solution, every task with a [fixed_start] is assigned at the slot
    [to_slot(fixed_start)] and is not among the unscheduled tasks. *)
Theorem cp_fixed_start_pins (self : CPLNSScheduler.t)
    (request : ScheduleRequest) (response : CPLNSScheduler.solver_response)
    (res : ScheduleResult) :
  0 < CPLNSScheduler.granularity_minutes self ->
  NoDup (map task_id (tasks request)) ->
  CPLNSScheduler.response_ok self request response = true ->
  CPLNSScheduler.is_solution (CPLNSScheduler.status response) = true ->
  CPLNSScheduler.schedule self request response = Some res ->
  pinned_by_fixed_start
    (request_indexer (CPLNSScheduler.granularity_minutes self) request)
    request res.
Proof.
  intros Hg Hnd Hok Hsol Hres tk fs Hin Hfs.
  apply (cp_pinned_assigned self request response res Hg Hnd Hok Hsol Hres tk);
    [assumption |].
  unfold pinned_slot. rewrite Hfs. reflexivity.
Qed.

(** C5 (amended): in the CP scheduler, whenever the solver returns a
    solution, every task that the neighbourhood window freezes is
    assigned at the slot of its previous start, that is at its previous
    start rounded down to the slot grid, and is not among the
    unscheduled tasks. *)
Theorem cp_freezes_outside_neighborhood (self : CPLNSScheduler.t)
    (request : ScheduleRequest) (response : CPLNSScheduler.solver_response)
    (res : ScheduleResult) :
  0 < CPLNSScheduler.granularity_minutes self ->
  NoDup (map task_id (tasks request)) ->
  CPLNSScheduler.response_ok self request response = true ->
  CPLNSScheduler.is_solution (CPLNSScheduler.status response) = true ->
  CPLNSScheduler.schedule self request response = Some res ->
  let ix := request_indexer (CPLNSScheduler.granularity_minutes self) request in
  frozen_tasks_start_at ix request res
    (fun prev => to_datetime ix (to_slot ix (fst prev))).
Proof.
  intros Hg Hnd Hok Hsol Hres ix tk prev Hin [w [Hw [Hprev [Hfs Hout]]]].
  apply (cp_pinned_assigned self request response res Hg Hnd Hok Hsol Hres tk);
    [assumption |].
  fold ix. unfold pinned_slot, CPLNSScheduler.window_slot_range_of.
  rewrite Hfs, Hw, Hprev. destruct w as [w_start w_end]. cbn [fst snd] in *.
  cbv zeta.
  replace ((to_slot ix w_start <=? to_slot ix (fst prev))
           && (to_slot ix (fst prev) <=? to_slot_ceiling ix w_end))
    with false; [reflexivity |].
  symmetry. apply andb_false_iff.
  destruct (Z.leb_spec (to_slot ix w_start) (to_slot ix (fst prev)));
    [| left; reflexivity].
  right. apply Z.leb_gt. lia.
Qed.

Lemma cp_fixed_start_pins_witness :
  pinned_by_fixed_start (request_indexer 5 request_fixed_start)
    request_fixed_start
    (one_assignment "task-a" (on_day 10 0) (on_day 11 0) (Some 60)).
Proof.
  apply (cp_fixed_start_pins CPLNSScheduler.default request_fixed_start
           response_fixed_start);
    [ cbn; lia | distinct_ids | vm_compute; reflexivity | reflexivity
    | vm_compute; reflexivity ].
Defined.

(** C8 as the specification words it fails for the squeaky-wheel
    scheduler, which does not read [fixed_start]: the task fixed at
    10:00 is placed at 09:00, its earliest start. *)
Lemma swo_ignores_fixed_start :
  SWOScheduler.schedule SWOScheduler.default request_fixed_start
  = Some (one_assignment "task-a" (on_day 9 0) (on_day 10 0) (Some 0))
  /\ ~ pinned_by_fixed_start (request_indexer 15 request_fixed_start)
         request_fixed_start
         (one_assignment "task-a" (on_day 9 0) (on_day 10 0) (Some 0)).
Proof.
  split; [vm_compute; reflexivity |].
  intros H.
  destruct (H task_fixed_at_10 (on_day 10 0) (or_introl eq_refl) eq_refl)
    as [[a [Hin [_ Hstart]]] _].
  destruct Hin as [<- | []]. vm_compute in Hstart. discriminate.
Qed.

Lemma cp_freezes_outside_neighborhood_witness :
  let ix := request_indexer 5 request_lns in
  frozen_tasks_start_at ix request_lns result_lns
    (fun prev => to_datetime ix (to_slot ix (fst prev))).
Proof.
  apply (cp_freezes_outside_neighborhood CPLNSScheduler.default request_lns
           response_lns result_lns);
    [ cbn; lia | distinct_ids | vm_compute; reflexivity | reflexivity
    | vm_compute; reflexivity ].
Defined.

(** The model of [request_frozen_conflict] has no solution: the frozen
    task must lie on the slots of the meeting. *)
Lemma frozen_conflict_infeasible (vs : list CPLNSScheduler.task_values) :
  CPLNSScheduler.model_satisfied CPLNSScheduler.default
    request_frozen_conflict vs = false.
Proof.
  destruct (CPLNSScheduler.model_satisfied _ _ vs) eqn:E; [exfalso | reflexivity].
  destruct (model_satisfied_spec _ _ _ E) as [fixed [Efix [Hlen [Hall Hno]]]].
  vm_compute in Efix. injection Efix as <-.
  cbn in Hlen. destruct vs as [| v [| ? ?]]; try discriminate.
  specialize (Hall _ v (or_introl eq_refl)). unfold cp_task_ok in Hall.
  destruct (task_constraints_pinned _ _ _ _ _ _ Hall 12) as [Hs Hp];
    [vm_compute; reflexivity |].
  destruct (task_constraints_present _ _ _ _ _ _ Hall Hp) as [He _].
  assert (Hd : duration_to_slots
                 (request_indexer
                    (CPLNSScheduler.granularity_minutes CPLNSScheduler.default)
                    request_frozen_conflict)
                 (duration_minutes
                    (plain_task "task-a" 60 (on_day 9 0) (on_day 17 0) 5)) = 12)
    by (vm_compute; reflexivity).
  rewrite Hd in He.
  unfold CPLNSScheduler.task_intervals in Hno. cbn [filter] in Hno.
  rewrite Hp in Hno. cbn [map app CPLNSScheduler.no_overlap forallb] in Hno.
  unfold CPLNSScheduler.disjointb in Hno at 1. cbn [fst snd] in Hno.
  apply andb_true_iff in Hno. destruct Hno as [Hno _].
  apply andb_true_iff in Hno. destruct Hno as [Hno _].
  apply orb_true_iff in Hno. destruct Hno as [H | H]; apply Z.leb_le in H; lia.
Qed.

(** C5 as the specification words it fails in two ways.  When a meeting
    has taken the previous slot of a frozen task, the model has no
    solution and the task is returned unscheduled; and a previous start
    off the slot grid (09:02 at 5 minutes per slot) is kept only up to
    its slot (09:00). *)
Lemma frozen_task_not_kept_exactly :
  (let ix := request_indexer 5 request_frozen_conflict in
   (forall vs, CPLNSScheduler.model_satisfied CPLNSScheduler.default
                 request_frozen_conflict vs = false)
   /\ CPLNSScheduler.response_ok CPLNSScheduler.default
        request_frozen_conflict response_infeasible = true
   /\ CPLNSScheduler.schedule CPLNSScheduler.default
        request_frozen_conflict response_infeasible
      = Some (result_all_unscheduled ["task-a"%string])
   /\ ~ frozen_tasks_start_at ix request_frozen_conflict
          (result_all_unscheduled ["task-a"%string]) fst)
  /\
  (let ix := request_indexer 5 request_frozen_off_grid in
   CPLNSScheduler.response_ok CPLNSScheduler.default
     request_frozen_off_grid response_frozen_off_grid = true
   /\ CPLNSScheduler.schedule CPLNSScheduler.default
        request_frozen_off_grid response_frozen_off_grid
      = Some (one_assignment "task-a" (on_day 9 0) (on_day 10 0) (Some 0))
   /\ ~ frozen_tasks_start_at ix request_frozen_off_grid
          (one_assignment "task-a" (on_day 9 0) (on_day 10 0) (Some 0)) fst).
Proof.
  split; cbv zeta.
  - split; [exact frozen_conflict_infeasible |].
    split; [vm_compute; reflexivity |]. split; [vm_compute; reflexivity |].
    intros H.
    destruct (H (plain_task "task-a" 60 (on_day 9 0) (on_day 17 0) 5)
                (on_day 10 0, on_day 11 0) (or_introl eq_refl))
      as [[a [[] _]] _].
    exists (on_day 12 0, on_day 13 0).
    repeat (split; [reflexivity |]). vm_compute. intros [Hc _]. apply Hc. reflexivity.
  - split; [vm_compute; reflexivity |]. split; [vm_compute; reflexivity |].
    intros H.
    destruct (H (plain_task "task-a" 60 (on_day 9 0) (on_day 17 0) 5)
                (on_day 9 2, on_day 10 2) (or_introl eq_refl))
      as [[a [Hin [_ Hstart]]] _].
    + exists (on_day 12 0, on_day 13 0).
      repeat (split; [reflexivity |]). vm_compute. intros [Hc _]. apply Hc. reflexivity.
    + destruct Hin as [<- | []]. vm_compute in Hstart. discriminate.
Qed.

(** ** Timing of the assignments *)

Lemma non_solution_no_assignments (self : CPLNSScheduler.t)
    (request : ScheduleRequest) (response : CPLNSScheduler.solver_response)
    (res : ScheduleResult) :
  CPLNSScheduler.schedule self request response = Some res ->
  tasks request = []
  \/ CPLNSScheduler.is_solution (CPLNSScheduler.status response) = false ->
  assignments res = [].
Proof.
  unfold CPLNSScheduler.schedule. intros Hres Hcase.
  destruct (tasks request) as [| t0 ts].
  - injection Hres as <-. reflexivity.
  - destruct Hcase as [H | H]; [discriminate |].
    destruct (CPLNSScheduler.fixed_intervals _ _ _ _); [| discriminate].
    cbn [obind] in Hres. rewrite H in Hres. cbn [negb] in Hres.
    injection Hres as <-. reflexivity.
Qed.




(** ** Hours and the slot grid *)


Lemma dt_hour_range (t : datetime) : 0 <= dt_hour t < 24.
Proof. unfold dt_hour. apply Z.mod_pos_bound. lia. Qed.




(** ** What an assignment of the squeaky-wheel scheduler avoids *)

Section SWOAvoids.

Import SWOScheduler.

Variable self : t.
Variable request : ScheduleRequest.
Variable occ : list bool.
Variable tk : ScheduleTask.
Variable a : AssignedTask.

Hypothesis granularity_pos : 0 < granularity_minutes self.
Hypothesis task_given : In tk (tasks request).
Hypothesis origin : swo_assignment_of self request occ tk a.

Local Abbreviation ix := (request_indexer (granularity_minutes self) request).
Local Abbreviation hz := (request_horizon (granularity_minutes self) request).

Hypothesis occ_ok : base_ok self ix hz (meetings request) occ.

Local Abbreviation ix_pos := (request_indexer_pos _ request granularity_pos).




End SWOAvoids.

(** ** The blocks outside the working hours in the CP model *)

Lemma dt_hour_in_day (current_day t : datetime) :
  current_day mod US_PER_DAY = 0 ->
  current_day <= t < current_day + US_PER_DAY ->
  dt_hour t = (t - current_day) / US_PER_HOUR
  /\ US_PER_HOUR * dt_hour t <= t - current_day
     < US_PER_HOUR * dt_hour t + US_PER_HOUR.
Proof.
  intros Hmid Ht.
  assert (Hh : 0 < US_PER_HOUR) by (unfold US_PER_HOUR, US_PER_MINUTE; lia).
  assert (Hday : US_PER_DAY = 24 * US_PER_HOUR) by reflexivity.
  pose proof (Z.div_mod current_day US_PER_DAY ltac:(lia)) as Hdm.
  rewrite Hmid in Hdm.
  set (k := current_day / US_PER_DAY) in *.
  assert (Heq : dt_hour t = (t - current_day) / US_PER_HOUR).
  { unfold dt_hour.
    replace t with ((t - current_day) + (24 * k) * US_PER_HOUR) at 1 by lia.
    rewrite Z.div_add by lia.
    rewrite (Z.mul_comm 24 k), Z_mod_plus_full. apply Z.mod_small. split.
    - apply Z.div_pos; lia.
    - apply Z.div_lt_upper_bound; lia. }
  split; [exact Heq |]. rewrite Heq.
  pose proof (fdiv_spec (t - current_day) US_PER_HOUR Hh). lia.
Qed.

Section WorkingBlocks.

Import CPLNSScheduler.

Variable self : t.
Variable ix : _TimeIndexer.
Variable horizon_slots : Z.

Hypothesis granularity_pos : 0 < granularity ix.

Lemma add_block_interval_keeps (intervals : list (Z * Z))
    (start_dt end_dt : datetime) (iv : Z * Z) :
  In iv intervals ->
  In iv (add_block_interval ix horizon_slots intervals start_dt end_dt).
Proof.
  intros H. unfold add_block_interval. destruct (_ <=? _); [assumption |].
  apply in_or_app. left. assumption.
Qed.

Lemma add_block_interval_covers (intervals : list (Z * Z))
    (start_dt end_dt t : datetime) :
  base ix <= t < to_datetime ix horizon_slots ->
  start_dt <= t < end_dt ->
  covered_by ix (add_block_interval ix horizon_slots intervals start_dt end_dt) t.
Proof.
  intros Hh Ht. unfold add_block_interval.
  set (start_slot := Z.max 0 (to_slot ix start_dt)).
  set (end_slot := Z.min horizon_slots (to_slot_ceiling ix end_dt)).
  pose proof (to_slot_spec ix granularity_pos start_dt) as Hs.
  pose proof (to_slot_ceiling_spec ix granularity_pos end_dt) as He.
  assert (Hlo : to_datetime ix start_slot <= t).
  { unfold start_slot. destruct (Z.max_spec 0 (to_slot ix start_dt))
      as [[_ ->] | [_ ->]]; [lia |].
    rewrite to_datetime_eq by assumption. lia. }
  assert (Hhi : t < to_datetime ix end_slot).
  { unfold end_slot.
    destruct (Z.min_spec horizon_slots (to_slot_ceiling ix end_dt))
      as [[_ ->] | [_ ->]]; lia. }
  assert (Hlt : start_slot < end_slot)
    by (apply (to_datetime_lt ix granularity_pos); lia).
  destruct (end_slot <=? start_slot) eqn:E; [apply Z.leb_le in E; lia |].
  exists start_slot, end_slot. split; [| lia].
  apply in_or_app. right. left. f_equal. lia.
Qed.

Lemma day_loop_covers (horizon_end_dt : datetime) (fuel : nat)
    (current_day : datetime) (intervals fixed : list (Z * Z)) :
  horizon_end_dt = to_datetime ix horizon_slots ->
  current_day mod US_PER_DAY = 0 ->
  day_loop self ix horizon_slots horizon_end_dt fuel current_day intervals
  = Some fixed ->
  (forall iv, In iv intervals -> In iv fixed)
  /\ forall t,
       current_day <= t < horizon_end_dt ->
       t < current_day + Z.of_nat fuel * US_PER_DAY ->
       base ix <= t ->
       ~ working (working_day_start_hour self) (working_day_end_hour self) t ->
       covered_by ix fixed t.
Proof.
  intros Hend. revert current_day intervals.
  induction fuel as [| fuel IH]; intros current_day intervals Hmid Hloop.
  - cbn in Hloop. injection Hloop as <-. split; [auto |]. intros t Ht Hf. lia.
  - cbn [day_loop] in Hloop. destruct (current_day <? horizon_end_dt) eqn:Elt.
    2:{ injection Hloop as <-. split; [auto |].
        intros t Ht. apply Z.ltb_ge in Elt. lia. }
    unfold replace_hour_checked in Hloop.
    destruct ((0 <=? working_day_start_hour self)
              && (working_day_start_hour self <=? 23)); [| discriminate].
    cbn [obind] in Hloop.
    destruct ((0 <=? working_day_end_hour self)
              && (working_day_end_hour self <=? 23)); [| discriminate].
    cbn [obind] in Hloop.
    assert (Hnext : (current_day + timedelta_days 1) mod US_PER_DAY = 0).
    { unfold timedelta_days. rewrite Z_mod_plus_full. assumption. }
    destruct (IH _ _ Hnext Hloop) as [Hkeep Hcov].
    split.
    + intros iv Hiv. apply Hkeep. do 2 apply add_block_interval_keeps.
      assumption.
    + intros t Ht Hfuel Hbase Hnw.
      destruct (Z.lt_ge_cases t (current_day + timedelta_days 1)) as [Hday | Hday].
      * unfold timedelta_days in Hday. rewrite Z.mul_1_l in Hday.
        destruct (dt_hour_in_day current_day t Hmid ltac:(lia)) as [_ Hhour].
        unfold working in Hnw. unfold replace_hour in *. rewrite Hmid in *.
        assert (Hcases : dt_hour t < working_day_start_hour self
                         \/ working_day_end_hour self <= dt_hour t) by lia.
        assert (Hh : 0 < US_PER_HOUR) by (unfold US_PER_HOUR, US_PER_MINUTE; lia).
        destruct Hcases as [Hearly | Hlate].
        -- destruct (add_block_interval_covers intervals current_day
                       (current_day - 0 + working_day_start_hour self * US_PER_HOUR)
                       t) as [lo [hi [Hin Hr]]]; [lia | nia |].
           exists lo, hi. split; [| assumption].
           apply Hkeep. apply add_block_interval_keeps. assumption.
        -- destruct (add_block_interval_covers
                       (add_block_interval ix horizon_slots intervals current_day
                          (current_day - 0
                           + working_day_start_hour self * US_PER_HOUR))
                       (current_day - 0 + working_day_end_hour self * US_PER_HOUR)
                       (current_day + timedelta_days 1) t)
             as [lo [hi [Hin Hr]]];
             [lia | unfold timedelta_days; nia |].
           exists lo, hi. split; [| assumption]. apply Hkeep. assumption.
      * apply Hcov; [lia | | assumption | assumption].
        unfold timedelta_days in *. lia.
Qed.

(** Every instant of the horizon outside the working hours lies in a
    fixed interval of the model, and so does the interval of every
    meeting. *)
Lemma fixed_intervals_cover (ms : list ScheduleMeeting) (fixed : list (Z * Z)) :
  fixed_intervals self ix horizon_slots ms = Some fixed ->
  (forall m, In m ms -> In (meeting_interval ix m) fixed)
  /\ forall t,
       base ix <= t < to_datetime ix horizon_slots ->
       ~ working (working_day_start_hour self) (working_day_end_hour self) t ->
       covered_by ix fixed t.
Proof.
  unfold fixed_intervals.
  destruct ((working_day_start_hour self >? 0)
            || (working_day_end_hour self <? 24)) eqn:Eg.
  - set (day0 := replace_hour (base ix) 0).
    assert (Hus : 0 < US_PER_DAY)
      by (unfold US_PER_DAY, US_PER_HOUR, US_PER_MINUTE; lia).
    pose proof (Z.mod_pos_bound (base ix) US_PER_DAY Hus) as Hm.
    assert (Hday0 : day0 = base ix - base ix mod US_PER_DAY)
      by (unfold day0, replace_hour; lia).
    assert (Hle : (day0 >? base ix) = false).
    { rewrite Z.gtb_ltb. apply Z.ltb_ge. lia. }
    rewrite Hle. intros Hloop.
    assert (Hmid : day0 mod US_PER_DAY = 0).
    { rewrite Hday0. pose proof (Z.div_mod (base ix) US_PER_DAY ltac:(lia)).
      replace (base ix - base ix mod US_PER_DAY)
        with (base ix / US_PER_DAY * US_PER_DAY) by lia.
      apply Z_mod_mult. }
    destruct (day_loop_covers _ _ _ _ _ eq_refl Hmid Hloop) as [Hkeep Hcov].
    split.
    + intros m Hin. apply Hkeep. apply in_map. assumption.
    + intros t Ht Hnw. apply Hcov; [lia | | lia | assumption].
      set (span := to_datetime ix horizon_slots - day0) in *.
      pose proof (fdiv_spec span US_PER_DAY Hus) as Hspan.
      assert (0 <= span) by (unfold span; lia).
      assert (0 <= span / US_PER_DAY) by (apply Z.div_pos; lia).
      rewrite Z2Nat.id by lia. unfold span in *. lia.
  - intros [= <-]. apply orb_false_iff in Eg. destruct Eg as [E1 E2].
    rewrite Z.gtb_ltb in E1. apply Z.ltb_ge in E1. apply Z.ltb_ge in E2.
    split; [intros m Hin; apply in_map; assumption |].
    intros t _ Hnw. exfalso. apply Hnw. unfold working.
    pose proof (dt_hour_range t). lia.
Qed.

End WorkingBlocks.

(** ** What an assignment of the CP scheduler avoids *)

Section CPAvoids.

Import CPLNSScheduler.

Variable self : t.
Variable request : ScheduleRequest.
Variable response : solver_response.
Variable fixed : list (Z * Z).
Variable tk : ScheduleTask.
Variable a : AssignedTask.

Hypothesis granularity_pos : 0 < granularity_minutes self.

Local Abbreviation ix := (request_indexer (granularity_minutes self) request).
Local Abbreviation hz := (request_horizon (granularity_minutes self) request).

Hypothesis fixed_built :
  fixed_intervals self ix hz (meetings request) = Some fixed.
Hypothesis origin : cp_assignment_of self request response fixed tk a.

Local Abbreviation ix_pos := (request_indexer_pos _ request granularity_pos).





End CPAvoids.

(** ** Length of the assignments, meetings and working hours *)




(** * Further properties of the code *)

(** ** The time indexer *)

Lemma cdiv_unique (a b q : Z) : 0 < b -> a <= q * b < a + b -> cdiv a b = q.
Proof.
  intros Hb H. pose proof (cdiv_spec a b Hb). nia.
Qed.

(** ** Floats: rounding *)

Section FloatRounding.
Local Open Scope Q_scope.

Lemma pow2_pos (e : Z) : 0 < 2 ^ e.
Proof. apply Qpower_0_lt. reflexivity. Qed.

Lemma pow2_add (a b : Z) : 2 ^ (a + b) == 2 ^ a * 2 ^ b.
Proof. apply Qpower_plus. discriminate. Qed.

Lemma pow2_of_Z (e : Z) : (0 <= e)%Z -> 2 ^ e == inject_Z (2 ^ e).
Proof. intros He. symmetry. apply (Zpower_Qpower 2 e He). Qed.

Lemma Qfloor_unique (x : Q) (n : Z) :
  inject_Z n <= x -> x < inject_Z (n + 1) -> Qfloor x = n.
Proof.
  intros Hlo Hhi.
  pose proof (Qfloor_le x) as H1. pose proof (Qlt_floor x) as H2.
  assert (H3 : (n < Qfloor x + 1)%Z).
  { rewrite Zlt_Qlt. eapply Qle_lt_trans; eassumption. }
  assert (H4 : (Qfloor x < n + 1)%Z).
  { rewrite Zlt_Qlt. eapply Qle_lt_trans; eassumption. }
  lia.
Qed.

Lemma Qceiling_unique (x : Q) (n : Z) :
  inject_Z (n - 1) < x -> x <= inject_Z n -> Qceiling x = n.
Proof.
  intros Hlo Hhi.
  pose proof (Qle_ceiling x) as H1. pose proof (Qceiling_lt x) as H2.
  assert (H3 : (n - 1 < Qceiling x)%Z).
  { rewrite Zlt_Qlt. eapply Qlt_le_trans; eassumption. }
  assert (H4 : (Qceiling x - 1 < n)%Z).
  { rewrite Zlt_Qlt. eapply Qlt_le_trans; eassumption. }
  lia.
Qed.

(** [binade] gives the power of two at or below a positive rational. *)
Lemma binade_spec (x : Q) :
  0 < x -> 2 ^ binade x <= x /\ x < 2 ^ (binade x + 1).
Proof.
  intros Hx. destruct x as [n d]. unfold binade. cbn [Qnum Qden].
  assert (Hn : (0 < n)%Z).
  { unfold Qlt in Hx. cbn in Hx. lia. }
  set (a := Z.log2 n). set (b := Z.log2 (Z.pos d)).
  destruct (Z.log2_spec n Hn) as [Ha1 Ha2]. fold a in Ha1, Ha2.
  destruct (Z.log2_spec (Z.pos d) ltac:(lia)) as [Hb1 Hb2].
  fold b in Hb1, Hb2.
  assert (Ha0 : (0 <= a)%Z) by apply Z.log2_nonneg.
  assert (Hb0 : (0 <= b)%Z) by apply Z.log2_nonneg.
  assert (Hxd : (n # d) * inject_Z (Z.pos d) == inject_Z n).
  { unfold Qeq, Qmult, inject_Z. cbn. lia. }
  assert (Hupper : forall k, (k = a - b)%Z -> (n # d) < 2 ^ (k + 1)).
  { intros k ->.
    replace (a - b + 1)%Z with ((a + 1) + - b)%Z by lia.
    rewrite pow2_add, Qpower_opp.
    apply Qlt_shift_div_l; [apply pow2_pos |].
    apply Qle_lt_trans with (inject_Z n).
    - rewrite <- Hxd. apply Qmult_le_l; [exact Hx |].
      rewrite pow2_of_Z by lia. rewrite <- Zle_Qle. exact Hb1.
    - rewrite pow2_of_Z by lia. rewrite <- Zlt_Qlt.
      replace (a + 1)%Z with (Z.succ a) by lia. exact Ha2. }
  assert (Hlower : forall k, (k = a - b)%Z -> 2 ^ (k - 1) <= (n # d)).
  { intros k ->.
    replace (a - b - 1)%Z with (a + - (b + 1))%Z by lia.
    rewrite pow2_add, Qpower_opp.
    apply Qle_shift_div_r; [apply pow2_pos |].
    apply Qle_trans with (inject_Z n).
    - rewrite pow2_of_Z by lia. rewrite <- Zle_Qle. exact Ha1.
    - rewrite <- Hxd. apply Qmult_le_l; [exact Hx |].
      rewrite pow2_of_Z by lia. rewrite <- Zle_Qle.
      replace (b + 1)%Z with (Z.succ b) by lia. lia. }
  destruct (Qle_bool (2 ^ (a - b)) (n # d)) eqn:E.
  - apply Qle_bool_iff in E. split; [exact E |]. apply Hupper. reflexivity.
  - split; [apply Hlower; reflexivity |].
    replace (a - b - 1 + 1)%Z with (a - b)%Z by lia.
    apply Qnot_le_lt. intros H. apply Qle_bool_iff in H. congruence.
Qed.

(** [round_half_even] is within a half of its argument, and exact on
    an integer. *)
Lemma round_half_even_spec (x : Q) :
  x - (1 # 2) <= inject_Z (round_half_even x)
  /\ inject_Z (round_half_even x) <= x + (1 # 2).
Proof.
  unfold round_half_even.
  pose proof (Qfloor_le x) as H1. pose proof (Qlt_floor x) as H2.
  rewrite inject_Z_plus in H2. change (inject_Z 1) with 1 in H2.
  destruct (Qcompare_spec (x - inject_Z (Qfloor x)) (1 # 2)) as [E | E | E].
  - destruct (Z.even (Qfloor x)); [split; lra |].
    rewrite inject_Z_plus. change (inject_Z 1) with 1. split; lra.
  - split; lra.
  - rewrite inject_Z_plus. change (inject_Z 1) with 1. split; lra.
Qed.

Lemma round_half_even_exact (x : Q) (k : Z) :
  x == inject_Z k -> round_half_even x = k.
Proof.
  intros E. unfold round_half_even.
  assert (Hf : Qfloor x = k) by (rewrite E; apply Qfloor_Z).
  rewrite Hf.
  destruct (Qcompare_spec (x - inject_Z k) (1 # 2)) as [H | H | H];
    [exfalso; lra | reflexivity | exfalso; lra].
Qed.

(** The exponent of a number of at least [2^k]. *)
Lemma binade_ge (x : Q) (k : Z) : 2 ^ k <= x -> (k <= binade x)%Z.
Proof.
  intros Hk.
  assert (Hx : 0 < x) by (eapply Qlt_le_trans; [apply pow2_pos | exact Hk]).
  destruct (binade_spec x Hx) as [_ Hhi].
  assert (H : (k < binade x + 1)%Z).
  { apply (Qpower_lt_compat_l_inv 2); [| reflexivity].
    eapply Qle_lt_trans; eassumption. }
  lia.
Qed.

(** A rounding moves a number that is not subnormal by at most the unit
    roundoff times the number. *)
Lemma float_round_close (x : Q) :
  x == 0 \/ 2 ^ (-1022) <= Qabs x ->
  Qabs (float_round x - x) <= Qabs x * unit_roundoff.
Proof.
  intros Hnormal.
  unfold float_round. destruct (Qeq_bool x 0) eqn:E0.
  - apply Qeq_bool_eq in E0. rewrite E0. cbn. discriminate.
  - apply Qeq_bool_neq in E0.
    destruct Hnormal as [H0 | Hnormal]; [contradiction |].
    assert (Hpos : 0 < Qabs x).
    { eapply Qlt_le_trans; [apply pow2_pos | exact Hnormal]. }
    rewrite Z.max_l by (apply binade_ge; exact Hnormal).
    set (e := binade (Qabs x)).
    destruct (binade_spec (Qabs x) Hpos) as [Hlo _]. fold e in Hlo.
    set (U := 2 ^ (e - 52)).
    assert (HU : 0 < U) by apply pow2_pos.
    assert (HT : 2 ^ e == U * 4503599627370496).
    { unfold U. replace e with ((e - 52) + 52)%Z at 1 by lia.
      rewrite pow2_add. reflexivity. }
    destruct (round_half_even_spec (x / U)) as [Hz1 Hz2].
    set (z := inject_Z (round_half_even (x / U))) in *.
    assert (Hy : x / U * U == x) by (field; lra).
    assert (Hw1 : (z - x / U) * U <= (1 # 2) * U).
    { apply Qmult_le_compat_r; lra. }
    assert (Hw2 : (- (1 # 2)) * U <= (z - x / U) * U).
    { apply Qmult_le_compat_r; lra. }
    assert (Hd : z * U - x == (z - x / U) * U).
    { setoid_replace x with (x / U * U) at 1 by (symmetry; exact Hy). ring. }
    rewrite Hd. unfold unit_roundoff.
    apply Qabs_Qle_condition. split; lra.
Qed.

(** [2^-1022], the least number that is not subnormal, is small. *)
Lemma least_normal_small :
  2 ^ (-1022) <= 1 # 1000000000000000000000000000000.
Proof. apply Qle_bool_imp_le. vm_compute. reflexivity. Qed.

Lemma float_round_nonneg (x : Q) :
  x == 0 \/ (1 # 1000000000000000000000000000000) <= x ->
  x * (1 - unit_roundoff) <= float_round x
  /\ float_round x <= x * (1 + unit_roundoff).
Proof.
  intros Hx. pose proof least_normal_small as Hsmall.
  assert (Hx0 : 0 <= x) by (destruct Hx; lra).
  assert (Hnormal : x == 0 \/ 2 ^ (-1022) <= Qabs x).
  { destruct Hx as [H | H]; [left; exact H | right].
    rewrite (Qabs_pos x Hx0). lra. }
  pose proof (float_round_close x Hnormal) as H.
  rewrite (Qabs_pos x Hx0) in H. apply Qabs_Qle_condition in H.
  split; lra.
Qed.

Lemma float_round_nonpos (x : Q) :
  x == 0 \/ x <= - (1 # 1000000000000000000000000000000) ->
  x * (1 + unit_roundoff) <= float_round x
  /\ float_round x <= x * (1 - unit_roundoff).
Proof.
  intros Hx. pose proof least_normal_small as Hsmall.
  assert (Hx0 : x <= 0) by (destruct Hx; lra).
  assert (Hnormal : x == 0 \/ 2 ^ (-1022) <= Qabs x).
  { destruct Hx as [H | H]; [left; exact H | right].
    rewrite (Qabs_neg x Hx0). lra. }
  pose proof (float_round_close x Hnormal) as H.
  rewrite (Qabs_neg x Hx0) in H. apply Qabs_Qle_condition in H.
  split; lra.
Qed.

(** An integer below [2^53] in absolute value is a float. *)
Lemma float_round_exact (x : Q) (k : Z) :
  x == inject_Z k -> (Z.abs k < 2 ^ 53)%Z -> float_round x == inject_Z k.
Proof.
  intros E Hk. unfold float_round. destruct (Qeq_bool x 0) eqn:E0.
  - apply Qeq_bool_eq in E0. rewrite <- E, E0. reflexivity.
  - apply Qeq_bool_neq in E0.
    assert (Hk0 : k <> 0%Z) by (intros ->; apply E0; exact E).
    assert (Habs : Qabs x == inject_Z (Z.abs k)).
    { rewrite E. unfold inject_Z. symmetry. apply Zabs_Qabs. }
    assert (Hone : 2 ^ 0 <= Qabs x).
    { rewrite Habs. change (2 ^ 0) with (inject_Z 1). rewrite <- Zle_Qle. lia. }
    assert (Hpos : 0 < Qabs x).
    { eapply Qlt_le_trans; [apply pow2_pos | exact Hone]. }
    pose proof (binade_ge _ _ Hone) as He0.
    rewrite Z.max_l by lia.
    set (e := binade (Qabs x)) in *.
    destruct (binade_spec (Qabs x) Hpos) as [Hlo _]. fold e in Hlo.
    assert (He : (e < 53)%Z).
    { apply (Qpower_lt_compat_l_inv 2); [| reflexivity].
      eapply Qle_lt_trans; [exact Hlo |]. rewrite Habs.
      rewrite (pow2_of_Z 53) by lia. rewrite <- Zlt_Qlt. exact Hk. }
    assert (Hinv : / 2 ^ (e - 52) == inject_Z (2 ^ (52 - e))).
    { rewrite <- Qpower_opp. replace (- (e - 52))%Z with (52 - e)%Z by lia.
      apply pow2_of_Z. lia. }
    assert (Hq : x / 2 ^ (e - 52) == inject_Z (k * 2 ^ (52 - e))).
    { unfold Qdiv. rewrite Hinv, E, inject_Z_mult. reflexivity. }
    rewrite (round_half_even_exact _ _ Hq).
    rewrite inject_Z_mult, <- Hinv.
    field. pose proof (pow2_pos (e - 52)). lra.
Qed.

(** A number below [2^54] in absolute value is finite. *)
Lemma finite_defined (x : Q) :
  - 18014398509481984 < x -> x < 18014398509481984 -> finite x = Some x.
Proof.
  intros Hlo Hhi. unfold finite.
  destruct (Qle_bool (2 ^ 1024) (Qabs x)) eqn:E; [| reflexivity].
  exfalso. apply Qle_bool_iff in E.
  assert (Hbig : 18014398509481984 <= 2 ^ 1024).
  { apply Qle_bool_imp_le. vm_compute. reflexivity. }
  assert (Habs : Qabs x < 18014398509481984).
  { apply Qabs_Qlt_condition. split; assumption. }
  lra.
Qed.

End FloatRounding.

(** ** Floats: the quotients of the time indexer *)

Section FloatIndexer.
Local Open Scope Q_scope.

(** The rounding of an integer below [2^53] is exact and finite. *)
Lemma exact_rounding (x : Q) (k : Z) :
  x == inject_Z k -> (Z.abs k < 2 ^ 53)%Z ->
  finite (float_round x) = Some (float_round x)
  /\ float_round x == inject_Z k.
Proof.
  intros E Hk. pose proof (float_round_exact x k E Hk) as Hx.
  split; [| exact Hx].
  assert (H1 : (-18014398509481984 < k)%Z) by lia.
  assert (H2 : (k < 18014398509481984)%Z) by lia.
  rewrite Zlt_Qlt in H1, H2.
  apply finite_defined; rewrite Hx; assumption.
Qed.

Lemma float_of_int_exact (k : Z) :
  (Z.abs k < 2 ^ 53)%Z ->
  float_of_int k = Some (float_round (inject_Z k))
  /\ float_round (inject_Z k) == inject_Z k.
Proof. intros Hk. apply exact_rounding; [reflexivity | exact Hk]. Qed.

(** The division of a float by a non-zero integer below [2^53]. *)
Lemma float_truediv_int_defined (x : Q) (n : Z) :
  n <> 0%Z -> (Z.abs n < 2 ^ 53)%Z ->
  exists y : Q,
    y == inject_Z n
    /\ float_truediv_int x n = finite (float_round (x / y)).
Proof.
  intros Hn0 Hn. destruct (float_of_int_exact n Hn) as [E Hy].
  exists (float_round (inject_Z n)). split; [exact Hy |].
  unfold float_truediv_int. rewrite E. cbn [obind].
  destruct (Qeq_bool (float_round (inject_Z n)) 0) eqn:E0; [| reflexivity].
  exfalso. apply Qeq_bool_eq in E0. rewrite Hy in E0.
  apply Hn0. apply inject_Z_injective. exact E0.
Qed.

(** The rounded quotient [c] of [m] by [G] stays strictly between two
    neighbouring integers when [m] keeps a margin of a unit roundoff
    from their multiples of [G]. *)
Lemma float_round_between (c m G : Q) (n : Z) :
  0 < G -> c * G == m ->
  ((1 # 1000000000000000000000000000000) <= c
   /\ inject_Z n * G < m * (1 - unit_roundoff)
   /\ m * (1 + unit_roundoff) < inject_Z (n + 1) * G)
  \/ (c <= - (1 # 1000000000000000000000000000000)
      /\ inject_Z n * G < m * (1 + unit_roundoff)
      /\ m * (1 - unit_roundoff) < inject_Z (n + 1) * G) ->
  inject_Z n < float_round c /\ float_round c < inject_Z (n + 1).
Proof.
  intros HG Hc [[Hc0 [H3 H4]] | [Hc0 [H3 H4]]].
  - destruct (float_round_nonneg c (or_intror Hc0)) as [H1 H2].
    split.
    + eapply Qlt_le_trans; [| exact H1].
      apply (Qmult_lt_r _ _ G HG).
      setoid_replace (c * (1 - unit_roundoff) * G)
        with (m * (1 - unit_roundoff)) by (rewrite <- Hc; ring).
      exact H3.
    + eapply Qle_lt_trans; [exact H2 |].
      apply (Qmult_lt_r _ _ G HG).
      setoid_replace (c * (1 + unit_roundoff) * G)
        with (m * (1 + unit_roundoff)) by (rewrite <- Hc; ring).
      exact H4.
  - destruct (float_round_nonpos c (or_intror Hc0)) as [H1 H2].
    split.
    + eapply Qlt_le_trans; [| exact H1].
      apply (Qmult_lt_r _ _ G HG).
      setoid_replace (c * (1 + unit_roundoff) * G)
        with (m * (1 + unit_roundoff)) by (rewrite <- Hc; ring).
      exact H3.
    + eapply Qle_lt_trans; [exact H2 |].
      apply (Qmult_lt_r _ _ G HG).
      setoid_replace (c * (1 - unit_roundoff) * G)
        with (m * (1 - unit_roundoff)) by (rewrite <- Hc; ring).
      exact H4.
Qed.

(** A float strictly between two neighbouring integers below [2^53] is
    finite. *)
Lemma between_finite (q : Q) (n : Z) :
  (Z.abs n < 2 ^ 53)%Z ->
  inject_Z n < q -> q < inject_Z (n + 1) -> finite q = Some q.
Proof.
  intros Hn Hlo Hhi.
  assert (H1 : (-18014398509481984 < n)%Z) by lia.
  assert (H2 : (n + 1 < 18014398509481984)%Z) by lia.
  rewrite Zlt_Qlt in H1, H2.
  change (inject_Z (-18014398509481984)) with (- 18014398509481984) in H1.
  change (inject_Z 18014398509481984) with 18014398509481984 in H2.
  apply finite_defined; lra.
Qed.

(** The float quotient of [to_slot] and [to_slot_ceiling]: within
    [2^51] microseconds of the base it is the exact quotient on a grid
    instant, and lies strictly between the two neighbouring integers
    of the exact quotient elsewhere. *)
Lemma indexer_quotient (g delta : Z) :
  (0 < g < 2 ^ 53)%Z -> (Z.abs delta < 2 ^ 51)%Z ->
  exists seconds minutes q : Q,
    total_seconds delta = Some seconds
    /\ float_truediv_int seconds 60 = Some minutes
    /\ float_truediv_int minutes g = Some q
    /\ ((delta mod (60000000 * g) = 0)%Z ->
        q == inject_Z (delta / (60000000 * g)))
    /\ ((delta mod (60000000 * g) <> 0)%Z ->
        inject_Z (delta / (60000000 * g)) < q
        /\ q < inject_Z (delta / (60000000 * g) + 1)).
Proof.
  intros Hg Hdelta.
  set (D := (60000000 * g)%Z).
  set (n := (delta / D)%Z). set (r := (delta mod D)%Z).
  assert (HD : (0 < D)%Z) by (unfold D; lia).
  assert (Hdm : (delta = D * n + r)%Z) by (apply Z.div_mod; lia).
  assert (Hr : (0 <= r < D)%Z) by (apply Z.mod_pos_bound; exact HD).
  assert (Hn : (Z.abs n < 2 ^ 53)%Z) by (unfold D in *; nia).
  assert (HG : 0 < inject_Z g).
  { change 0 with (inject_Z 0). rewrite <- Zlt_Qlt. lia. }
  assert (HG2 : inject_Z g < 9007199254740992).
  { assert (H : (g < 9007199254740992)%Z) by lia.
    rewrite Zlt_Qlt in H. exact H. }
  set (a := inject_Z delta / inject_Z 1000000).
  set (s := float_round a).
  destruct (float_truediv_int_defined s 60 ltac:(lia) ltac:(cbn; lia))
    as [f60 [Hf60 E60]].
  change (inject_Z 60) with 60 in Hf60.
  set (b := s / f60) in *.
  set (m := float_round b).
  destruct (float_truediv_int_defined m g ltac:(lia) ltac:(lia))
    as [fg [Hfg Eg]].
  set (c := m / fg) in *.
  assert (Ets : total_seconds delta = finite s) by reflexivity.
  assert (Ha : a * 1000000 == inject_Z delta).
  { unfold a. change (inject_Z 1000000) with 1000000. field. }
  assert (Hb : b * 60 == s).
  { unfold b. rewrite Hf60. field. }
  assert (Hc : c * inject_Z g == m).
  { unfold c. rewrite Hfg. field. lra. }
  destruct (Z.eq_dec r 0) as [Hr0 | Hr0].
  - (* on the grid: every quotient is an integer *)
    assert (Hd : (delta = 1000000 * (60 * (g * n)))%Z) by (unfold D in Hdm; lia).
    assert (Hgn : (Z.abs (g * n) < 2 ^ 53)%Z) by nia.
    assert (H60 : (Z.abs (60 * (g * n)) < 2 ^ 53)%Z) by nia.
    destruct (exact_rounding a (60 * (g * n))) as [Fs Hs]; [| exact H60 |].
    { unfold a. rewrite Hd, inject_Z_mult.
      change (inject_Z 1000000) with 1000000. field. }
    fold s in Fs, Hs.
    destruct (exact_rounding b (g * n)) as [Fm Hm]; [| exact Hgn |].
    { unfold b. rewrite Hs, Hf60, inject_Z_mult.
      change (inject_Z 60) with 60. field. }
    fold m in Fm, Hm.
    destruct (exact_rounding c n) as [Fq Hq]; [| exact Hn |].
    { unfold c. rewrite Hm, Hfg, inject_Z_mult. field. lra. }
    exists s, m, (float_round c).
    split; [rewrite Ets; exact Fs |].
    split; [rewrite E60; exact Fm |].
    split; [rewrite Eg; exact Fq |].
    split; [intros _; exact Hq | intros H; contradiction].
  - (* off the grid: three roundings stay inside the slot *)
    assert (HA : inject_Z delta
                 == 60000000 * (inject_Z n * inject_Z g) + inject_Z r).
    { rewrite Hdm. unfold D.
      rewrite inject_Z_plus, !inject_Z_mult.
      change (inject_Z 60000000) with 60000000. ring. }
    assert (Hr1 : 1 <= inject_Z r).
    { change 1 with (inject_Z 1). rewrite <- Zle_Qle. lia. }
    assert (Hr2 : inject_Z r <= 60000000 * inject_Z g - 1).
    { assert (H : (r <= 60000000 * g + -1)%Z) by (unfold D in Hr; lia).
      rewrite Zle_Qle, inject_Z_plus, inject_Z_mult in H. exact H. }
    assert (Hbound : -2251799813685248 < inject_Z delta
                     /\ inject_Z delta < 2251799813685248).
    { assert (H1 : (-2251799813685248 < delta)%Z) by lia.
      assert (H2 : (delta < 2251799813685248)%Z) by lia.
      rewrite Zlt_Qlt in H1, H2. split; [exact H1 | exact H2]. }
    assert (Hsign : 1 <= inject_Z delta \/ inject_Z delta <= -1).
    { assert (Hd0 : delta <> 0%Z).
      { intros E. apply Hr0. unfold r. rewrite E. apply Z.mod_0_l. lia. }
      assert (H : (1 <= delta \/ delta <= -1)%Z) by lia.
      destruct H as [H | H]; rewrite Zle_Qle in H; [left | right]; exact H. }
    assert (Hq : inject_Z n < float_round c
                 /\ float_round c < inject_Z (n + 1)
                 /\ finite s = Some s /\ finite m = Some m).
    { destruct Hsign as [Hpos | Hneg].
      - assert (Ha0 : (1 # 1000000000000000000000000000000) <= a) by lra.
        destruct (float_round_nonneg a (or_intror Ha0)) as [Hs1 Hs2].
        fold s in Hs1, Hs2. unfold unit_roundoff in Hs1, Hs2.
        assert (Hb0 : (1 # 1000000000000000000000000000000) <= b) by lra.
        destruct (float_round_nonneg b (or_intror Hb0)) as [Hm1 Hm2].
        fold m in Hm1, Hm2. unfold unit_roundoff in Hm1, Hm2.
        assert (Hc0 : (1 # 1000000000000000000000000000000) <= c).
        { apply (Qmult_le_r _ _ (inject_Z g) HG). rewrite Hc. lra. }
        split; [| split; [| split; apply finite_defined; lra]];
          apply (float_round_between c m (inject_Z g) n HG Hc);
          left; (split; [exact Hc0 |]); unfold unit_roundoff;
          rewrite inject_Z_plus; change (inject_Z 1) with 1; split; lra.
      - assert (Ha0 : a <= - (1 # 1000000000000000000000000000000)) by lra.
        destruct (float_round_nonpos a (or_intror Ha0)) as [Hs1 Hs2].
        fold s in Hs1, Hs2. unfold unit_roundoff in Hs1, Hs2.
        assert (Hb0 : b <= - (1 # 1000000000000000000000000000000)) by lra.
        destruct (float_round_nonpos b (or_intror Hb0)) as [Hm1 Hm2].
        fold m in Hm1, Hm2. unfold unit_roundoff in Hm1, Hm2.
        assert (Hc0 : c <= - (1 # 1000000000000000000000000000000)).
        { apply (Qmult_le_r _ _ (inject_Z g) HG). rewrite Hc. lra. }
        split; [| split; [| split; apply finite_defined; lra]];
          apply (float_round_between c m (inject_Z g) n HG Hc);
          right; (split; [exact Hc0 |]); unfold unit_roundoff;
          rewrite inject_Z_plus; change (inject_Z 1) with 1; split; lra. }
    destruct Hq as [Hlo [Hhi [Fs Fm]]].
    exists s, m, (float_round c).
    split; [rewrite Ets; exact Fs |].
    split; [rewrite E60; exact Fm |].
    split; [rewrite Eg; apply (between_finite _ n Hn Hlo Hhi) |].
    split; [intros H; contradiction | intros _; split; assumption].
Qed.

(** One rounding: the float quotient of two integers, the dividend
    below [2^53] in absolute value. *)
Lemma int_quotient (g minutes : Z) :
  (0 < g < 2 ^ 53)%Z -> (Z.abs minutes < 2 ^ 53)%Z ->
  exists q : Q,
    int_truediv minutes g = Some q
    /\ ((minutes mod g = 0)%Z -> q == inject_Z (minutes / g))
    /\ ((minutes mod g <> 0)%Z ->
        inject_Z (minutes / g) < q /\ q < inject_Z (minutes / g + 1)).
Proof.
  intros Hg Hm.
  set (n := (minutes / g)%Z). set (r := (minutes mod g)%Z).
  assert (Hdm : (minutes = g * n + r)%Z) by (apply Z.div_mod; lia).
  assert (Hr : (0 <= r < g)%Z) by (apply Z.mod_pos_bound; lia).
  assert (Hn : (Z.abs n < 2 ^ 53)%Z) by nia.
  assert (HG : 0 < inject_Z g).
  { change 0 with (inject_Z 0). rewrite <- Zlt_Qlt. lia. }
  assert (HG2 : inject_Z g < 9007199254740992).
  { assert (H : (g < 9007199254740992)%Z) by lia.
    rewrite Zlt_Qlt in H. exact H. }
  set (c := inject_Z minutes / inject_Z g).
  assert (Eq : int_truediv minutes g = finite (float_round c)).
  { unfold int_truediv. destruct (Z.eqb_spec g 0) as [E | _]; [lia |].
    reflexivity. }
  assert (Hc : c * inject_Z g == inject_Z minutes).
  { unfold c. field. lra. }
  exists (float_round c).
  destruct (Z.eq_dec r 0) as [Hr0 | Hr0].
  - destruct (exact_rounding c n) as [Fq Hq]; [| exact Hn |].
    { unfold c. rewrite Hdm, Hr0, Z.add_0_r, inject_Z_mult. field. lra. }
    split; [rewrite Eq; exact Fq |].
    split; [intros _; exact Hq | intros H; contradiction].
  - assert (HM : inject_Z minutes == inject_Z n * inject_Z g + inject_Z r).
    { rewrite Hdm, inject_Z_plus, inject_Z_mult. ring. }
    assert (Hr1 : 1 <= inject_Z r).
    { change 1 with (inject_Z 1). rewrite <- Zle_Qle. lia. }
    assert (Hr2 : inject_Z r <= inject_Z g - 1).
    { assert (H : (r <= g + -1)%Z) by lia.
      rewrite Zle_Qle, inject_Z_plus in H. exact H. }
    assert (Hbound : -9007199254740992 < inject_Z minutes
                     /\ inject_Z minutes < 9007199254740992).
    { assert (H1 : (-9007199254740992 < minutes)%Z) by lia.
      assert (H2 : (minutes < 9007199254740992)%Z) by lia.
      rewrite Zlt_Qlt in H1, H2. split; [exact H1 | exact H2]. }
    assert (Hsign : 1 <= inject_Z minutes \/ inject_Z minutes <= -1).
    { assert (Hd0 : minutes <> 0%Z).
      { intros E. apply Hr0. unfold r. rewrite E. apply Z.mod_0_l. lia. }
      assert (H : (1 <= minutes \/ minutes <= -1)%Z) by lia.
      destruct H as [H | H]; rewrite Zle_Qle in H; [left | right]; exact H. }
    assert (Hq : inject_Z n < float_round c
                 /\ float_round c < inject_Z (n + 1)).
    { apply (float_round_between c (inject_Z minutes) (inject_Z g) n HG Hc).
      destruct Hsign as [Hpos | Hneg]; [left | right].
      - split.
        + apply (Qmult_le_r _ _ (inject_Z g) HG). rewrite Hc. lra.
        + unfold unit_roundoff. rewrite inject_Z_plus.
          change (inject_Z 1) with 1. split; lra.
      - split.
        + apply (Qmult_le_r _ _ (inject_Z g) HG). rewrite Hc. lra.
        + unfold unit_roundoff. rewrite inject_Z_plus.
          change (inject_Z 1) with 1. split; lra. }
    destruct Hq as [Hlo Hhi].
    split; [rewrite Eq; apply (between_finite _ n Hn Hlo Hhi) |].
    split; [intros H; contradiction | intros _; split; assumption].
Qed.

End FloatIndexer.

(** On the examples, [int_truediv] is the division of the binary64
    specification of the Standard Library. *)
Lemma int_truediv_binary64_examples :
  forallb same_quotient quotient_examples = true.
Proof. vm_compute. reflexivity. Qed.

(** ** The time indexer on floats *)

(** Within [2^51] microseconds of the base, about 71 years, the float
    computation of [to_slot] and [to_slot_ceiling] gives the floor and
    the ceiling of the exact quotient. *)
Lemma float_to_slot_exact (ix : _TimeIndexer) (t : datetime) :
  0 < granularity ix < 2 ^ 53 ->
  Z.abs (t - base ix) < 2 ^ 51 ->
  TimeIndexerFloat.to_slot ix t = Some (to_slot ix t)
  /\ TimeIndexerFloat.to_slot_ceiling ix t = Some (to_slot_ceiling ix t).
Proof.
  intros Hg Ht.
  destruct (indexer_quotient (granularity ix) (t - base ix) Hg Ht)
    as [seconds [minutes [q [Es [Em [Eq [Hexact Hstrict]]]]]]].
  unfold TimeIndexerFloat.to_slot, TimeIndexerFloat.to_slot_ceiling.
  rewrite Es. cbn [obind]. rewrite Em. cbn [obind]. rewrite Eq.
  cbn [obind]. unfold to_slot, to_slot_ceiling.
  change (US_PER_MINUTE * granularity ix) with (60000000 * granularity ix).
  set (delta := t - base ix) in *. set (D := 60000000 * granularity ix) in *.
  assert (HD : 0 < D) by (unfold D; lia).
  pose proof (Z.div_mod delta D ltac:(lia)) as Hdm.
  pose proof (Z.mod_pos_bound delta D HD) as Hr.
  destruct (Z.eq_dec (delta mod D) 0) as [E | E].
  - rewrite (Qfloor_comp _ _ (Hexact E)), (Qceiling_comp _ _ (Hexact E)).
    rewrite Qfloor_Z, Qceiling_Z. split; [reflexivity |].
    f_equal. symmetry. apply cdiv_unique; [exact HD | lia].
  - destruct (Hstrict E) as [Hlo Hhi]. split; f_equal.
    + apply Qfloor_unique; [apply Qlt_le_weak; exact Hlo | exact Hhi].
    + transitivity (delta / D + 1).
      * apply Qceiling_unique; [| apply Qlt_le_weak; exact Hhi].
        replace (delta / D + 1 - 1) with (delta / D) by lia. exact Hlo.
      * symmetry. apply cdiv_unique; [exact HD | lia].
Qed.

(** Below [2^53] minutes the float computation of [duration_to_slots]
    gives the exact number of slots. *)
Lemma float_duration_to_slots_exact (ix : _TimeIndexer) (minutes : Z) :
  0 < granularity ix < 2 ^ 53 ->
  Z.abs minutes < 2 ^ 53 ->
  TimeIndexerFloat.duration_to_slots ix minutes
  = Some (duration_to_slots ix minutes).
Proof.
  intros Hg Hm.
  destruct (int_quotient (granularity ix) minutes Hg Hm)
    as [q [Eq [Hexact Hstrict]]].
  unfold TimeIndexerFloat.duration_to_slots. rewrite Eq. cbn [obind].
  unfold duration_to_slots. do 2 f_equal.
  set (g := granularity ix) in *.
  pose proof (Z.div_mod minutes g ltac:(lia)) as Hdm.
  pose proof (Z.mod_pos_bound minutes g ltac:(lia)) as Hr.
  destruct (Z.eq_dec (minutes mod g) 0) as [E | E].
  - rewrite (Qceiling_comp _ _ (Hexact E)), Qceiling_Z.
    symmetry. apply cdiv_unique; lia.
  - destruct (Hstrict E) as [Hlo Hhi].
    transitivity (minutes / g + 1).
    + apply Qceiling_unique; [| apply Qlt_le_weak; exact Hhi].
      replace (minutes / g + 1 - 1) with (minutes / g) by lia. exact Hlo.
    + symmetry. apply cdiv_unique; lia.
Qed.

(** Far from the base the float quotient loses the microsecond: at a
    granularity of 15 minutes, 545 years after the base, the instants
    one microsecond before and after a grid instant get the slot of the
    grid instant; and [2^53 + 1] minutes at one minute per slot get
    [2^53] slots. *)
Lemma float_quotients_far_from_base :
  let ix := {| base := on_day 9 0; granularity := 15 |} in
  let grid := to_datetime ix 19096800 in
  (TimeIndexerFloat.to_slot ix (grid - 1) = Some 19096800
   /\ to_slot ix (grid - 1) = 19096799)
  /\ (TimeIndexerFloat.to_slot_ceiling ix (grid + 1) = Some 19096800
      /\ to_slot_ceiling ix (grid + 1) = 19096801)
  /\ (TimeIndexerFloat.duration_to_slots {| base := on_day 9 0; granularity := 1 |}
        (2 ^ 53 + 1) = Some (2 ^ 53)
      /\ duration_to_slots {| base := on_day 9 0; granularity := 1 |}
           (2 ^ 53 + 1) = 2 ^ 53 + 1).
Proof. vm_compute. repeat split; reflexivity. Qed.

(** X1: within [2^51] microseconds of the base (about 71 years) and for
    a granularity below [2^53], the float computations of [to_slot] and
    [to_slot_ceiling] in [_TimeIndexer] return the floor and the ceiling
    of the exact quotient.  Both invert [to_datetime]; [to_slot] gives
    the slot that contains an instant, and [to_slot_ceiling] the first
    slot that starts at or after it. *)
Theorem indexer_round_trip (ix : _TimeIndexer) (slot : Z) (t : datetime) :
  0 < granularity ix < 2 ^ 53 ->
  Z.abs (to_datetime ix slot - base ix) < 2 ^ 51 ->
  Z.abs (t - base ix) < 2 ^ 51 ->
  TimeIndexerFloat.to_slot ix (to_datetime ix slot) = Some slot
  /\ TimeIndexerFloat.to_slot_ceiling ix (to_datetime ix slot) = Some slot
  /\ TimeIndexerFloat.to_slot ix t = Some (to_slot ix t)
  /\ TimeIndexerFloat.to_slot_ceiling ix t = Some (to_slot_ceiling ix t)
  /\ to_datetime ix (to_slot ix t) <= t < to_datetime ix (to_slot ix t + 1)
  /\ to_datetime ix (to_slot_ceiling ix t - 1) < t
     <= to_datetime ix (to_slot_ceiling ix t).
Proof.
  intros Hg Hslot Ht.
  assert (Hg0 : 0 < granularity ix) by lia.
  pose proof (slot_width_pos ix Hg0) as Hw.
  destruct (float_to_slot_exact ix (to_datetime ix slot) Hg Hslot)
    as [Hf1 Hc1].
  destruct (float_to_slot_exact ix t Hg Ht) as [Hf2 Hc2].
  assert (Hs1 : to_slot ix (to_datetime ix slot) = slot).
  { unfold to_slot. rewrite to_datetime_eq. fold (slot_width ix).
    replace (base ix + slot * slot_width ix - base ix)
      with (slot * slot_width ix) by lia.
    apply Z.div_mul. lia. }
  assert (Hs2 : to_slot_ceiling ix (to_datetime ix slot) = slot).
  { unfold to_slot_ceiling. rewrite to_datetime_eq. fold (slot_width ix).
    apply cdiv_unique; [assumption | lia]. }
  rewrite Hs1 in Hf1. rewrite Hs2 in Hc1.
  repeat (split; [assumption |]).
  split.
  - apply to_slot_spec. assumption.
  - pose proof (to_slot_ceiling_spec ix Hg0 t) as H.
    rewrite !to_datetime_eq in *. lia.
Qed.

Lemma indexer_round_trip_witness :
  let ix := {| base := on_day 9 0; granularity := 15 |} in
  TimeIndexerFloat.to_slot ix (to_datetime ix 7) = Some 7
  /\ TimeIndexerFloat.to_slot_ceiling ix (to_datetime ix 7) = Some 7
  /\ TimeIndexerFloat.to_slot ix (on_day 10 20)
     = Some (to_slot ix (on_day 10 20))
  /\ TimeIndexerFloat.to_slot_ceiling ix (on_day 10 20)
     = Some (to_slot_ceiling ix (on_day 10 20))
  /\ to_datetime ix (to_slot ix (on_day 10 20)) <= on_day 10 20
     < to_datetime ix (to_slot ix (on_day 10 20) + 1)
  /\ to_datetime ix (to_slot_ceiling ix (on_day 10 20) - 1) < on_day 10 20
     <= to_datetime ix (to_slot_ceiling ix (on_day 10 20)).
Proof.
  intros ix. apply (indexer_round_trip ix 7 (on_day 10 20)).
  - cbn. lia.
  - vm_compute. reflexivity.
  - vm_compute. reflexivity.
Defined.

(** X2: for a granularity below [2^53] and a duration below [2^53]
    minutes in absolute value, the float computation of
    [duration_to_slots] in [_TimeIndexer] returns the least number of
    slots, at least one, that covers the duration. *)
Theorem duration_to_slots_least_cover (ix : _TimeIndexer) (minutes : Z) :
  0 < granularity ix < 2 ^ 53 ->
  Z.abs minutes < 2 ^ 53 ->
  TimeIndexerFloat.duration_to_slots ix minutes
  = Some (duration_to_slots ix minutes)
  /\ 1 <= duration_to_slots ix minutes
  /\ minutes <= duration_to_slots ix minutes * granularity ix
  /\ forall k, 1 <= k -> minutes <= k * granularity ix ->
               duration_to_slots ix minutes <= k.
Proof.
  intros Hg Hm. assert (Hg0 : 0 < granularity ix) by lia.
  split; [apply float_duration_to_slots_exact; assumption |].
  split; [apply duration_to_slots_pos |].
  split; [apply duration_to_slots_covers; assumption |].
  intros k Hk Hcov. unfold duration_to_slots.
  pose proof (cdiv_le minutes (granularity ix) k Hg0 Hcov). lia.
Qed.

Lemma duration_to_slots_least_cover_witness :
  let ix := {| base := on_day 9 0; granularity := 15 |} in
  TimeIndexerFloat.duration_to_slots ix 50
  = Some (duration_to_slots ix 50)
  /\ 1 <= duration_to_slots ix 50
  /\ 50 <= duration_to_slots ix 50 * granularity ix
  /\ forall k, 1 <= k -> 50 <= k * granularity ix ->
               duration_to_slots ix 50 <= k.
Proof.
  intros ix. apply (duration_to_slots_least_cover ix 50).
  - cbn. lia.
  - vm_compute. reflexivity.
Defined.

(** ** Segmentation *)

Lemma segment_loop_count (remaining : Z) :
  remaining = 0 \/ 15 <= remaining ->
  len (segment_loop remaining) = cdiv remaining 120
  /\ Sorted Z.ge (segment_loop remaining)
  /\ HdRel Z.ge (Z.min 120 remaining) (segment_loop remaining).
Proof.
  funelim (segment_loop remaining); intros Hinv.
  - assert (Hr : 15 <= remaining) by lia.
    destruct (segment_chunk_cases remaining Hr) as [Hc Hrest].
    match goal with
    | IH : _ -> len (segment_loop _) = _ /\ _ |- _ =>
        destruct (IH Hrest) as [IHlen [IHs IHhd]]
    end.
    assert (Hchunk :
              (remaining <= 120 /\ segment_chunk remaining = remaining)
              \/ (120 < remaining < 135
                  /\ segment_chunk remaining = remaining - 15)
              \/ (135 <= remaining /\ segment_chunk remaining = 120)).
    { unfold segment_chunk, MAX_BLOCK_MINUTES, MIN_BLOCK_MINUTES.
      destruct (0 <? remaining - Z.min 120 remaining) eqn:E1;
        destruct (remaining - Z.min 120 remaining <? 15) eqn:E2;
        cbn [andb]; lia. }
    split; [| split].
    + unfold len in *. cbn [List.length]. rewrite Nat2Z.inj_succ, IHlen.
      symmetry. apply cdiv_unique; [lia |].
      pose proof (cdiv_spec (remaining - segment_chunk remaining) 120
                    ltac:(lia)).
      destruct Hchunk as [[H1 H2] | [[H1 H2] | [H1 H2]]]; rewrite H2 in *.
      * replace (remaining - remaining) with 0 in * by lia. lia.
      * replace (remaining - (remaining - 15)) with 15 in * by lia. lia.
      * lia.
    + constructor; [assumption |].
      destruct (segment_loop (remaining - segment_chunk remaining))
        as [| c r]; constructor.
      inversion IHhd; subst. lia.
    + constructor. lia.
  - split; [| split]; [| constructor | constructor].
    assert (remaining = 0) by lia. subst. reflexivity.
Qed.

(** X3: [_segment_duration] cuts a duration into the fewest blocks that
    the maximal block length allows, [ceil(max(total, 15) / 120)] of
    them, and lists them from the longest to the shortest. *)
Theorem segment_duration_count (total_minutes : Z) :
  len (_segment_duration total_minutes)
  = cdiv (Z.max total_minutes MIN_BLOCK_MINUTES) MAX_BLOCK_MINUTES
  /\ Sorted Z.ge (_segment_duration total_minutes).
Proof.
  unfold _segment_duration, MIN_BLOCK_MINUTES, MAX_BLOCK_MINUTES.
  destruct (segment_loop_count (Z.max total_minutes 15)) as [Hlen [Hs _]];
    [lia |].
  split; assumption.
Qed.

(** ** The fan-out of the task rows *)

Lemma py_sum_sumZ (xs : list Z) : py_sum xs = sumZ xs.
Proof.
  unfold py_sum, sumZ. apply fold_symmetric; intros; lia.
Qed.

Lemma sumZ_app (l1 l2 : list Z) : sumZ (l1 ++ l2) = sumZ l1 + sumZ l2.
Proof.
  induction l1 as [| x r IH]; cbn; [reflexivity |].
  fold (sumZ (r ++ l2)). fold (sumZ r). lia.
Qed.

Lemma NoDup_append {A} (l1 l2 : list A) :
  NoDup l1 -> NoDup l2 -> (forall x, In x l1 -> ~ In x l2) ->
  NoDup (l1 ++ l2).
Proof.
  induction 1 as [| x r Hx Hr IH]; intros H2 Hsep; cbn; [assumption |].
  constructor.
  - intros Hin. apply in_app_or in Hin. destruct Hin as [Hin | Hin];
      [contradiction | apply (Hsep x (or_introl eq_refl) Hin)].
  - apply IH; [assumption |]. intros y Hy. apply Hsep. right. assumption.
Qed.

Lemma expand_segments_tasks (tk : Task)
    (previous_segments : list (datetime * datetime)) (segments : list Z)
    (acc : expansion) (index : nat) :
  expanded_tasks (expand_segments tk previous_segments acc index segments)
  = expanded_tasks acc ++ segment_tasks_from tk index segments.
Proof.
  revert acc index. induction segments as [| d r IH]; intros acc index;
    cbn [expand_segments segment_tasks_from].
  - rewrite app_nil_r. reflexivity.
  - rewrite IH. cbn [expand_segment expanded_tasks].
    rewrite <- app_assoc. reflexivity.
Qed.

Lemma expand_tasks_tasks
    (grouped : dict (list (datetime * datetime))) (rows : list Task)
    (acc : expansion) :
  expanded_tasks (expand_tasks grouped rows acc)
  = expanded_tasks acc ++ flat_map segment_tasks rows.
Proof.
  revert acc. induction rows as [| tk r IH]; intros acc;
    cbn [expand_tasks flat_map].
  - rewrite app_nil_r. reflexivity.
  - rewrite IH, expand_segments_tasks, <- app_assoc. reflexivity.
Qed.

Lemma segment_tasks_from_durations (tk : Task) (index : nat)
    (segments : list Z) :
  map duration_minutes (segment_tasks_from tk index segments) = segments.
Proof.
  revert index. induction segments as [| d r IH]; intros index; cbn;
    [reflexivity | rewrite IH; reflexivity].
Qed.

Lemma segment_tasks_from_fixed (tk : Task) (index : nat) (segments : list Z) :
  Forall (fun s => fixed_start s = None)
         (segment_tasks_from tk index segments).
Proof.
  revert index. induction segments as [| d r IH]; intros index; cbn;
    constructor; [reflexivity | apply IH].
Qed.

(** X4: the request of the service lists, for every task row in turn,
    one task per block of [_segment_duration]; each lasts between 15 and
    120 minutes and has no fixed start, and together they last as long
    as the rows, a row shorter than 15 minutes counting for 15. *)
Theorem fan_out_lists_segments
    (grouped : dict (list (datetime * datetime))) (rows : list Task) :
  let request_tasks :=
    expanded_tasks (expand_tasks grouped rows empty_expansion) in
  request_tasks = flat_map segment_tasks rows
  /\ map duration_minutes request_tasks
     = flat_map (fun tk => _segment_duration (task_row_duration_minutes tk))
                rows
  /\ Forall (fun s => 15 <= duration_minutes s <= 120 /\ fixed_start s = None)
            request_tasks
  /\ sumZ (map duration_minutes request_tasks)
     = sumZ (map (fun tk => Z.max (task_row_duration_minutes tk) 15) rows).
Proof.
  intros request_tasks.
  assert (Hshape : request_tasks = flat_map segment_tasks rows).
  { unfold request_tasks. rewrite expand_tasks_tasks. reflexivity. }
  assert (Hseg : forall d, Forall (fun c => 15 <= c <= 120) (_segment_duration d)
                           /\ sumZ (_segment_duration d) = Z.max d 15).
  { intros d. unfold _segment_duration, MIN_BLOCK_MINUTES.
    apply segment_loop_spec. lia. }
  split; [exact Hshape |]. rewrite Hshape. clear Hshape request_tasks.
  split; [| split].
  - induction rows as [| tk r IH]; cbn [flat_map]; [reflexivity |].
    rewrite map_app, IH. unfold segment_tasks at 1.
    rewrite segment_tasks_from_durations. reflexivity.
  - apply Forall_flat_map. rewrite Forall_forall. intros tk _.
    unfold segment_tasks.
    pose proof (segment_tasks_from_fixed tk 0
                  (_segment_duration (task_row_duration_minutes tk))) as Hf.
    pose proof (proj1 (Hseg (task_row_duration_minutes tk))) as Hd.
    rewrite <- (segment_tasks_from_durations tk 0) in Hd.
    rewrite Forall_map in Hd. rewrite Forall_forall in *.
    intros s Hs. split; [apply Hd | apply Hf]; assumption.
  - induction rows as [| tk r IH]; cbn [flat_map map]; [reflexivity |].
    rewrite map_app, sumZ_app, IH. unfold segment_tasks.
    rewrite segment_tasks_from_durations, (proj2 (Hseg _)).
    cbn [sumZ fold_right]. reflexivity.
Qed.

Lemma to_uint_nonnil (n : nat) : Nat.to_uint n <> Decimal.Nil.
Proof.
  rewrite <- (DecimalNat.Unsigned.of_to n) at 1.
  rewrite DecimalNat.Unsigned.to_of. apply DecimalFacts.unorm_nonnil.
Qed.

Lemma str_of_nat_inj (a b : nat) : str_of_nat a = str_of_nat b -> a = b.
Proof.
  unfold str_of_nat. intros E.
  pose proof (NilZero.usu _ (to_uint_nonnil a)) as Ha.
  pose proof (NilZero.usu _ (to_uint_nonnil b)) as Hb.
  rewrite E in Ha. rewrite Ha in Hb. injection Hb as Hab.
  rewrite <- (DecimalNat.Unsigned.of_to a), <- (DecimalNat.Unsigned.of_to b).
  congruence.
Qed.

Lemma append_inj_l (p x y : string) :
  (p ++ x)%string = (p ++ y)%string -> x = y.
Proof.
  induction p as [| c r IH]; cbn; [auto |]. intros [= E]. auto.
Qed.

(** Over one UUID root, a segment id names one index. *)
Lemma schedule_id_index_unique (root : string) (i j : nat) :
  uuid_text root = true ->
  schedule_id_of root i = schedule_id_of root j -> i = j.
Proof.
  intros Hr E. destruct i as [| i], j as [| j].
  - reflexivity.
  - change (schedule_id_of root 0) with root in E.
    rewrite E, schedule_id_not_uuid in Hr. discriminate.
  - change (schedule_id_of root 0) with root in E.
    rewrite <- E, schedule_id_not_uuid in Hr. discriminate.
  - unfold schedule_id_of in E. apply append_inj_l in E.
    apply (append_inj_l "::seg") in E. apply str_of_nat_inj in E. lia.
Qed.

Lemma schedule_id_unique (root root' : string) (i j : nat) :
  uuid_text root = true -> uuid_text root' = true ->
  schedule_id_of root i = schedule_id_of root' j -> root = root' /\ i = j.
Proof.
  intros Hr Hr' E.
  pose proof (schedule_id_root_unique root root' i j Hr Hr' E) as <-.
  split; [reflexivity |]. apply (schedule_id_index_unique root); assumption.
Qed.

Lemma segment_tasks_from_ids (tk : Task) (index : nat) (segments : list Z)
    (k : string) :
  In k (map task_id (segment_tasks_from tk index segments)) <->
  exists j, (j < List.length segments)%nat
            /\ k = schedule_id_of (task_row_id tk) (index + j).
Proof.
  revert index. induction segments as [| d r IH]; intros index; cbn.
  - split; [intros [] | intros [j [Hj _]]; lia].
  - rewrite IH. split.
    + intros [<- | [j [Hj ->]]].
      * exists 0%nat. split; [lia |]. rewrite Nat.add_0_r. reflexivity.
      * exists (S j). split; [lia |]. f_equal. lia.
    + intros [[| j] [Hj ->]].
      * left. rewrite Nat.add_0_r. reflexivity.
      * right. exists j. split; [lia |]. f_equal. lia.
Qed.

Lemma segment_tasks_from_distinct (tk : Task) (index : nat)
    (segments : list Z) :
  uuid_text (task_row_id tk) = true ->
  NoDup (map task_id (segment_tasks_from tk index segments)).
Proof.
  intros Hu. revert index. induction segments as [| d r IH]; intros index;
    cbn; constructor; [| apply IH].
  intros Hin. apply segment_tasks_from_ids in Hin.
  destruct Hin as [j [_ E]].
  apply schedule_id_index_unique in E; [lia | assumption].
Qed.

(** X5: when the task rows carry pairwise distinct UUIDs, the tasks of
    the request that the service builds have pairwise distinct ids. *)
Theorem fan_out_ids_distinct
    (grouped : dict (list (datetime * datetime))) (rows : list Task) :
  uuid_ids rows = true ->
  NoDup (map task_row_id rows) ->
  NoDup (map task_id
           (expanded_tasks (expand_tasks grouped rows empty_expansion))).
Proof.
  intros Hu Hnd. rewrite expand_tasks_tasks. cbn [expanded_tasks empty_expansion app].
  induction rows as [| tk r IH]; cbn [flat_map map]; [constructor |].
  cbn in Hu. apply andb_true_iff in Hu. destruct Hu as [Hu Hur].
  inversion Hnd as [| ? ? Hnotin Hnd']; subst.
  rewrite map_app. apply NoDup_append.
  - apply segment_tasks_from_distinct. assumption.
  - apply IH; assumption.
  - intros k Hk Hk'. apply segment_tasks_from_ids in Hk.
    destruct Hk as [i [_ ->]].
    apply in_map_iff in Hk'. destruct Hk' as [s [Hid Hs]].
    apply in_flat_map in Hs. destruct Hs as [tk' [Htk' Hs]].
    assert (Hs' : In (task_id s) (map task_id (segment_tasks tk')))
      by (apply in_map; assumption).
    apply segment_tasks_from_ids in Hs'. destruct Hs' as [j [_ Hj]].
    rewrite Hid in Hj.
    unfold uuid_ids in Hur. rewrite forallb_forall in Hur.
    apply schedule_id_root_unique in Hj; [| assumption | apply Hur; assumption].
    apply Hnotin. rewrite Hj. apply in_map. assumption.
Qed.

Lemma fan_out_ids_distinct_witness :
  NoDup (map task_id
           (expanded_tasks (expand_tasks [] two_rows empty_expansion))).
Proof.
  apply (fan_out_ids_distinct [] two_rows).
  - vm_compute. reflexivity.
  - distinct_ids.
Defined.

(** ** Previous assignments of the segments *)

Section FanOutPrevious.

Variable grouped : dict (list (datetime * datetime)).

Local Abbreviation inv := (previous_inv grouped).

Lemma previous_inv_unset (d : dict (datetime * datetime)) (root : string)
    (j : nat) :
  inv d -> uuid_text root = true ->
  nth_error (dict_get_default grouped root []) j = None ->
  dict_get d (schedule_id_of root j) = None.
Proof.
  intros Hinv Hu Hnone.
  destruct (dict_get d (schedule_id_of root j)) as [v |] eqn:E; [| reflexivity].
  destruct (Hinv _ _ E) as [root' [j' [Hu' [Hk Hv]]]].
  apply schedule_id_unique in Hk; [| assumption | assumption].
  destruct Hk as [<- <-]. congruence.
Qed.

Lemma expand_segment_previous (tk : Task) (acc : expansion) (index : nat)
    (d : Z) :
  inv (segment_previous_assignments acc) ->
  uuid_text (task_row_id tk) = true ->
  let prev := dict_get_default grouped (task_row_id tk) [] in
  let acc' := expand_segment tk prev acc index d in
  inv (segment_previous_assignments acc')
  /\ (forall k v, dict_get (segment_previous_assignments acc) k = Some v ->
                  dict_get (segment_previous_assignments acc') k = Some v)
  /\ dict_get (segment_previous_assignments acc')
       (schedule_id_of (task_row_id tk) index)
     = nth_error prev index.
Proof.
  intros Hinv Hu prev acc'. unfold acc', expand_segment.
  cbn [segment_previous_assignments]. fold prev.
  destruct (nth_error prev index) as [p |] eqn:Ep.
  - split; [| split].
    + intros k v Hk. rewrite dict_get_set in Hk.
      destruct (String.eqb (schedule_id_of (task_row_id tk) index) k) eqn:E.
      * apply String.eqb_eq in E. injection Hk as <-.
        exists (task_row_id tk), index. auto.
      * apply Hinv. assumption.
    + intros k v Hk. rewrite dict_get_set.
      destruct (String.eqb (schedule_id_of (task_row_id tk) index) k) eqn:E;
        [| assumption].
      apply String.eqb_eq in E.
      destruct (Hinv _ _ Hk) as [root' [j' [Hu' [Hk' Hv]]]].
      rewrite <- E in Hk'.
      apply schedule_id_unique in Hk'; [| assumption | assumption].
      destruct Hk' as [<- <-]. unfold prev in Ep. congruence.
    + apply dict_get_set_same.
  - split; [assumption |]. split; [auto |].
    apply previous_inv_unset; assumption.
Qed.

Lemma expand_segments_previous (tk : Task) (segments : list Z)
    (acc : expansion) (index : nat) :
  inv (segment_previous_assignments acc) ->
  uuid_text (task_row_id tk) = true ->
  let prev := dict_get_default grouped (task_row_id tk) [] in
  let acc' := expand_segments tk prev acc index segments in
  inv (segment_previous_assignments acc')
  /\ (forall k v, dict_get (segment_previous_assignments acc) k = Some v ->
                  dict_get (segment_previous_assignments acc') k = Some v).
Proof.
  revert acc index. induction segments as [| d r IH]; intros acc index Hinv Hu;
    cbn [expand_segments].
  - split; [assumption | auto].
  - destruct (expand_segment_previous tk acc index d Hinv Hu)
      as [Hinv1 [Hext1 _]].
    destruct (IH _ (S index) Hinv1 Hu) as [Hinv' Hext'].
    split; [assumption |]. intros k v Hk. apply Hext', Hext1, Hk.
Qed.

Lemma expand_segments_previous_get (tk : Task) (segments : list Z)
    (acc : expansion) (index j : nat) (v : datetime * datetime) :
  inv (segment_previous_assignments acc) ->
  uuid_text (task_row_id tk) = true ->
  (j < List.length segments)%nat ->
  let prev := dict_get_default grouped (task_row_id tk) [] in
  nth_error prev (index + j) = Some v ->
  dict_get (segment_previous_assignments
              (expand_segments tk prev acc index segments))
    (schedule_id_of (task_row_id tk) (index + j)) = Some v.
Proof.
  revert acc index j. induction segments as [| d r IH];
    intros acc index j Hinv Hu Hj prev Hv; [cbn in Hj; lia |].
  cbn [expand_segments].
  destruct (expand_segment_previous tk acc index d Hinv Hu)
    as [Hinv1 [_ Hget1]].
  destruct j as [| j].
  - rewrite Nat.add_0_r in *.
    apply (proj2 (expand_segments_previous tk r _ (S index) Hinv1 Hu)).
    etransitivity; [exact Hget1 | exact Hv].
  - replace (index + S j)%nat with (S index + j)%nat in * by lia.
    apply IH; [assumption | assumption | cbn in Hj; lia | exact Hv].
Qed.

Lemma expand_tasks_previous (rows : list Task) (acc : expansion) :
  inv (segment_previous_assignments acc) ->
  uuid_ids rows = true ->
  let d' := segment_previous_assignments (expand_tasks grouped rows acc) in
  inv d'
  /\ (forall k v, dict_get (segment_previous_assignments acc) k = Some v ->
                  dict_get d' k = Some v)
  /\ forall tk j v,
       In tk rows ->
       (j < List.length (_segment_duration (task_row_duration_minutes tk)))%nat ->
       nth_error (dict_get_default grouped (task_row_id tk) []) j = Some v ->
       dict_get d' (schedule_id_of (task_row_id tk) j) = Some v.
Proof.
  revert acc. induction rows as [| tk r IH]; intros acc Hinv Hu.
  - cbn. split; [assumption |]. split; [auto |]. intros tk j v [].
  - cbn [expand_tasks]. cbn in Hu. apply andb_true_iff in Hu.
    destruct Hu as [Hu Hur].
    destruct (expand_segments_previous tk
                (_segment_duration (task_row_duration_minutes tk)) acc 0
                Hinv Hu) as [Hinv1 Hext1].
    destruct (IH _ Hinv1 Hur) as [Hinv' [Hext' Hget']].
    cbn zeta. split; [assumption |]. split.
    + intros k v Hk. apply Hext', Hext1, Hk.
    + intros tk' j v [<- | Hin] Hj Hv.
      * apply Hext'.
        apply (expand_segments_previous_get tk _ acc 0 j v Hinv Hu Hj Hv).
      * apply Hget'; assumption.
Qed.

End FanOutPrevious.

(** X6: in the request of the service, the segment of index [j] of a
    task row has as its previous assignment the entry of index [j] of the
    previous assignments grouped under the id of the row, and none when
    the group has no such entry. *)
Theorem fan_out_previous_by_index
    (grouped : dict (list (datetime * datetime))) (rows : list Task)
    (tk : Task) (j : nat) :
  uuid_ids rows = true ->
  In tk rows ->
  (j < List.length (_segment_duration (task_row_duration_minutes tk)))%nat ->
  dict_get
    (segment_previous_assignments (expand_tasks grouped rows empty_expansion))
    (schedule_id_of (task_row_id tk) j)
  = nth_error (dict_get_default grouped (task_row_id tk) []) j.
Proof.
  intros Hu Hin Hj.
  destruct (expand_tasks_previous grouped rows empty_expansion)
    as [Hinv [_ Hget]]; [intros k v H; discriminate | assumption |].
  destruct (nth_error (dict_get_default grouped (task_row_id tk) []) j)
    as [v |] eqn:E.
  - apply Hget; assumption.
  - apply (previous_inv_unset grouped); [assumption | | assumption].
    unfold uuid_ids in Hu. rewrite forallb_forall in Hu. apply Hu. assumption.
Qed.

Lemma fan_out_previous_by_index_witness :
  let grouped :=
    [("6f1c2d3e-0000-4000-8000-00000000000a"%string,
      [(on_day 9 0, on_day 11 0)])] in
  let tk := example_row "6f1c2d3e-0000-4000-8000-00000000000a" 150 in
  dict_get
    (segment_previous_assignments (expand_tasks grouped two_rows empty_expansion))
    (schedule_id_of (task_row_id tk) 1)
  = nth_error (dict_get_default grouped (task_row_id tk) []) 1.
Proof.
  intros grouped tk.
  apply (fan_out_previous_by_index grouped two_rows tk 1).
  - vm_compute. reflexivity.
  - left. reflexivity.
  - vm_compute. lia.
Defined.

(** ** Sorting with a total comparison *)

Lemma insert_by_Sorted {A} (le : A -> A -> bool) (x : A) (l : list A) :
  (forall a b, le a b = false -> le b a = true) ->
  Sorted (fun a b => le a b = true) l ->
  Sorted (fun a b => le a b = true) (insert_by le x l).
Proof.
  intros Htot. induction 1 as [| y r Hr IH Hhd]; cbn.
  - repeat constructor.
  - destruct (le x y) eqn:E.
    + constructor; [constructor; assumption | constructor; exact E].
    + constructor; [assumption |].
      destruct r as [| z r']; cbn.
      * constructor. apply Htot. exact E.
      * destruct (le x z); constructor;
          [apply Htot; exact E | inversion Hhd; assumption].
Qed.

Lemma sorted_Sorted {A} (le : A -> A -> bool) (l : list A) :
  (forall a b, le a b = false -> le b a = true) ->
  Sorted (fun a b => le a b = true) (sorted le l).
Proof.
  intros Htot. induction l as [| x r IH]; [constructor |].
  change (sorted le (x :: r)) with (insert_by le x (sorted le r)).
  apply insert_by_Sorted; assumption.
Qed.

Lemma Sorted_weaken {A} (R1 R2 : A -> A -> Prop) (l : list A) :
  (forall a b, R1 a b -> R2 a b) -> Sorted R1 l -> Sorted R2 l.
Proof.
  intros Himp. induction 1 as [| x r Hr IH Hhd]; constructor; [assumption |].
  destruct Hhd; constructor. auto.
Qed.

(** ** The grouping of a snapshot *)

Lemma group_loop_get (rows : list TaskAssignment)
    (acc : dict (list (datetime * datetime))) (k : string) :
  dict_get (group_loop rows acc) k
  = match dict_get acc k, rows_of_task rows k with
    | None, [] => None
    | o, own => Some (match o with Some l => l | None => [] end ++ own)
    end.
Proof.
  revert acc. induction rows as [| a r IH]; intros acc.
  - cbn. destruct (dict_get acc k); [rewrite List.app_nil_r |]; reflexivity.
  - cbn [group_loop]. rewrite IH. unfold setdefault_append, rows_of_task.
    cbn [filter]. rewrite dict_get_set. unfold dict_get_default.
    destruct (String.eqb (assignment_task_id a) k) eqn:E.
    + apply String.eqb_eq in E. subst k. cbn [map].
      destruct (dict_get acc (assignment_task_id a)) as [l |];
        rewrite <- app_assoc; reflexivity.
    + reflexivity.
Qed.

Lemma dict_get_map_values {V W} (f : V -> W) (d : dict V) (k : string) :
  dict_get (map (fun kv => (fst kv, f (snd kv))) d) k
  = option_map f (dict_get d k).
Proof.
  induction d as [| [k' v] r IH]; cbn; [reflexivity |].
  destruct (String.eqb k' k); [reflexivity | exact IH].
Qed.

(** X7: [assignments_as_mapping] groups the rows of a snapshot by task
    id: a task without rows has no entry, and the entry of any other
    task holds the start and end of each of its rows, ordered by start. *)
Theorem assignments_as_mapping_groups
    (snapshot_assignments : list TaskAssignment) (k : string) :
  match dict_get (assignments_as_mapping snapshot_assignments) k with
  | None => rows_of_task snapshot_assignments k = []
  | Some l =>
      rows_of_task snapshot_assignments k <> []
      /\ Permutation (rows_of_task snapshot_assignments k) l
      /\ Sorted (fun a b => fst a <= fst b) l
  end.
Proof.
  unfold assignments_as_mapping. rewrite dict_get_map_values, group_loop_get.
  cbn [dict_get].
  destruct (rows_of_task snapshot_assignments k) as [| p own] eqn:E;
    cbn [option_map app]; [reflexivity |].
  split; [discriminate |]. split; [apply sorted_perm |].
  apply Sorted_weaken with (R1 := fun a b => item_start_le a b = true).
  - intros a b H. unfold item_start_le in H. apply Z.leb_le in H. exact H.
  - apply sorted_Sorted. intros a b H. unfold item_start_le in *.
    apply Z.leb_gt in H. apply Z.leb_le. lia.
Qed.

(** ** Metrics *)

Lemma length_nodup_le {A} (dec : forall x y : A, {x = y} + {x <> y})
    (l : list A) :
  (List.length (nodup dec l) <= List.length l)%nat.
Proof.
  induction l as [| x r IH]; cbn; [lia |].
  destruct (in_dec dec x r); cbn; lia.
Qed.

(** X8: the metrics of a remapped result count the assignments and add
    up the deviation and the tardiness of the result as the scheduler
    returned it, one assignment per segment, while the unscheduled count
    is the number of distinct roots of the unscheduled segments. *)
Theorem metrics_of_remapped (result : ScheduleResult) (mapping : dict string) :
  let metrics := snd (remapped_with_metrics result mapping) in
  scheduled_count metrics = len (assignments result)
  /\ total_deviation_minutes metrics
     = sumZ (map deviation_minutes (assignments result))
  /\ total_tardiness_minutes metrics
     = sumZ (map tardiness_minutes (assignments result))
  /\ unscheduled_count metrics
     = len (nodup string_dec
              (map (root_id mapping) (unscheduled_tasks result)))
  /\ unscheduled_count metrics <= len (unscheduled_tasks result).
Proof.
  cbn [remapped_with_metrics snd _build_metrics scheduled_count
       total_deviation_minutes total_tardiness_minutes unscheduled_count
       _remap_schedule_result assignments unscheduled_tasks].
  assert (Hlen : len (sorted_set (map (root_id mapping) (unscheduled_tasks result)))
                 = len (nodup string_dec
                          (map (root_id mapping) (unscheduled_tasks result)))).
  { unfold sorted_set, len. f_equal. symmetry.
    apply Permutation_length, sorted_perm. }
  split; [unfold len; rewrite length_map; reflexivity |].
  split; [rewrite py_sum_sumZ, map_map; reflexivity |].
  split; [rewrite py_sum_sumZ, map_map; reflexivity |].
  split; [exact Hlen |]. rewrite Hlen. unfold len.
  pose proof (length_nodup_le string_dec
                (map (root_id mapping) (unscheduled_tasks result))) as H.
  rewrite length_map in H. lia.
Qed.

(** ** The best result of the squeaky-wheel iterations *)

Section SWOBest.

Import SWOScheduler.

Variable self : t.
Variable segment_infos : dict _SegmentInfo.
Variable base_occupancy : list bool.
Variable horizon_slots : Z.
Variable indexer : _TimeIndexer.

Lemma assigned_list_ids (items : dict Z) (l : list AssignedTask) :
  assigned_list segment_infos indexer items = Some l ->
  map assigned_task_id l = dict_keys items.
Proof.
  revert l. induction items as [| [k s] r IH]; intros l; cbn [assigned_list].
  - intros [= <-]. reflexivity.
  - unfold assigned_of at 1.
    destruct (dict_get segment_infos k) as [info |]; [| discriminate].
    cbn [obind].
    destruct (assigned_list segment_infos indexer r) as [rest |];
      [| discriminate].
    cbn [obind]. intros [= <-]. cbn. f_equal. apply IH. reflexivity.
Qed.

Lemma build_result_fields (asg : dict Z) (uns : list string)
    (r : ScheduleResult) :
  _build_result asg uns segment_infos indexer = Some r ->
  unscheduled_tasks r = uns
  /\ exists l, assigned_list segment_infos indexer asg = Some l
               /\ assignments r = sorted start_le l.
Proof.
  unfold _build_result.
  destruct (assigned_list segment_infos indexer asg) as [l |]; [| discriminate].
  cbn [obind]. intros [= <-]. split; [reflexivity |]. exists l. auto.
Qed.

(** One turn of the iteration loop: a construction pass over the current
    order, whose result replaces the best result or leaves it; then the
    loop stops or goes on from a state with the same best result. *)
Lemma iterations_step (n : nat) (st st' : loop_state) :
  iterations self segment_infos base_occupancy horizon_slots indexer (S n) st
  = Some st' ->
  exists asg uns result st1,
    _construct_schedule (order st) segment_infos base_occupancy horizon_slots
    = Some (asg, uns)
    /\ _build_result asg uns segment_infos indexer = Some result
    /\ (replaces_best self st st1 uns result
        \/ (same_best st st1 /\ best_result st <> None))
    /\ (st' = st1
        \/ exists st2,
             same_best st1 st2
             /\ iterations self segment_infos base_occupancy horizon_slots
                  indexer n st2 = Some st').
Proof.
  intros H. cbn [iterations] in H.
  destruct (_construct_schedule (order st) segment_infos base_occupancy
              horizon_slots) as [[asg uns] |]; [| discriminate].
  cbn [obind] in H.
  destruct (_build_result asg uns segment_infos indexer) as [result |] eqn:E2;
    [| discriminate].
  cbn [obind] in H.
  destruct (_evaluate_penalties self asg uns segment_infos) as [newp |];
    [| discriminate].
  cbn [obind] in H.
  destruct (any_changed newp (penalties st) (order st)) as [changed |];
    [| discriminate].
  cbn [obind] in H.
  destruct (reorder_keys newp (order st)) as [keyed |]; [| discriminate].
  cbn [obind] in H.
  set (better := _ || _ || _) in H.
  exists asg, uns, result,
    {| order := order st;
       penalties := newp;
       best_result := if better then Some result else best_result st;
       best_unscheduled :=
         if better then Some (len uns) else best_unscheduled st;
       best_objective :=
         if better then Some (len uns * unscheduled_penalty self)
         else best_objective st |}.
  split; [reflexivity |]. split; [exact E2 |]. split.
  - destruct better eqn:Eb.
    + left. unfold replaces_best.
      cbn [best_result best_unscheduled best_objective].
      split; [reflexivity |]. split; [reflexivity |]. split; [reflexivity |].
      subst better.
      destruct (best_result st); [| left; reflexivity].
      destruct (best_unscheduled st) as [b |]; [| right; left; reflexivity].
      right. right. exists b. split; [reflexivity |].
      cbn [orb lt_inf eq_inf] in Eb. apply orb_true_iff in Eb.
      destruct Eb as [Eb | Eb].
      * apply Z.ltb_lt in Eb. lia.
      * apply andb_true_iff in Eb. destruct Eb as [Eb _].
        apply Z.eqb_eq in Eb. lia.
    + right. split; [repeat split |].
      subst better. destruct (best_result st); [discriminate | discriminate].
  - destruct (negb changed || _).
    + left. injection H as <-. reflexivity.
    + right. eexists. split; [| exact H]. repeat split.
Qed.

Lemma best_recorded_same (st1 st2 : loop_state) :
  same_best st1 st2 -> best_recorded self st1 -> best_recorded self st2.
Proof.
  unfold same_best, best_recorded. intros [E1 [E2 E3]].
  rewrite E1, E2, E3. auto.
Qed.

(** The loop keeps the record of its best result, and the best result
    never gets more unscheduled ids. *)
Lemma iterations_best (n : nat) (st st' : loop_state) :
  iterations self segment_infos base_occupancy horizon_slots indexer n st
  = Some st' ->
  best_recorded self st ->
  best_recorded self st'
  /\ forall r, best_result st = Some r ->
               exists r', best_result st' = Some r'
                          /\ len (unscheduled_tasks r')
                             <= len (unscheduled_tasks r).
Proof.
  revert st. induction n as [| n IH]; intros st H Hrec.
  - cbn in H. injection H as <-. split; [assumption |].
    intros r Hr. exists r. split; [assumption | lia].
  - destruct (iterations_step n st st' H)
      as [asg [uns [result [st1 [_ [E2 [Hbest Hnext]]]]]]].
    destruct (build_result_fields asg uns result E2) as [Huns _].
    assert (H1 : best_recorded self st1
                 /\ forall r, best_result st = Some r ->
                              exists r', best_result st1 = Some r'
                                         /\ len (unscheduled_tasks r')
                                            <= len (unscheduled_tasks r)).
    { destruct Hbest as [[Hr [Hu [Ho Hwhy]]] | [Hsame _]].
      - split.
        + unfold best_recorded. rewrite Hr, Hu, Ho, Huns. auto.
        + intros r Hbr. exists result. split; [assumption |]. rewrite Huns.
          unfold best_recorded in Hrec. rewrite Hbr in Hrec.
          destruct Hrec as [Hb _].
          destruct Hwhy as [Hn | [Hn | [b [Hb' Hle]]]]; congruence.
      - split; [eapply best_recorded_same; eassumption |].
        intros r Hbr. exists r. destruct Hsame as [<- _].
        split; [assumption | lia]. }
    destruct H1 as [Hrec1 Hle1].
    destruct Hnext as [-> | [st2 [Hsame Hrest]]]; [split; assumption |].
    destruct (IH st2 Hrest (best_recorded_same _ _ Hsame Hrec1))
      as [Hrec' Hle'].
    split; [assumption |]. intros r Hbr.
    destruct (Hle1 r Hbr) as [r1 [Hr1 Hl1]].
    destruct Hsame as [Hsame _]. rewrite Hsame in Hr1.
    destruct (Hle' r1 Hr1) as [r' [Hr' Hl']].
    exists r'. split; [assumption | lia].
Qed.

(** The best result of a loop that starts without one has at most as
    many unscheduled ids as the first pass leaves. *)
Lemma iterations_first (n : nat) (st st' : loop_state) (asg : dict Z)
    (uns : list string) :
  iterations self segment_infos base_occupancy horizon_slots indexer (S n) st
  = Some st' ->
  best_recorded self st ->
  best_result st = None ->
  _construct_schedule (order st) segment_infos base_occupancy horizon_slots
  = Some (asg, uns) ->
  exists r', best_result st' = Some r'
             /\ len (unscheduled_tasks r') <= len uns.
Proof.
  intros H Hrec Hnone Hpass.
  destruct (iterations_step n st st' H)
    as [asg' [uns' [result [st1 [E1 [E2 [Hbest Hnext]]]]]]].
  rewrite Hpass in E1. injection E1 as <- <-.
  destruct (build_result_fields asg uns result E2) as [Huns _].
  destruct Hbest as [[Hr [Hu [Ho _]]] | [_ Hsome]]; [| contradiction].
  assert (Hrec1 : best_recorded self st1).
  { unfold best_recorded. rewrite Hr, Hu, Ho, Huns. auto. }
  destruct Hnext as [-> | [st2 [Hsame Hrest]]].
  - exists result. split; [assumption | rewrite Huns; lia].
  - destruct (iterations_best n st2 st' Hrest
                (best_recorded_same _ _ Hsame Hrec1)) as [_ Hle].
    destruct Hsame as [Hsame _]. rewrite Hsame in Hr.
    destruct (Hle result Hr) as [r' [Hr' Hl']].
    exists r'. split; [assumption | rewrite <- Huns; assumption].
Qed.

End SWOBest.

Section SWORun.

Import SWOScheduler.

Variable self : t.
Variable request : ScheduleRequest.

Hypothesis granularity_pos : 0 < granularity_minutes self.

Local Abbreviation ix := (request_indexer (granularity_minutes self) request).
Local Abbreviation hz := (request_horizon (granularity_minutes self) request).
Local Abbreviation infos :=
  (infos_loop ix hz (previous_of request) (tasks request) []).

(** [schedule] on a request with tasks: the base occupancy, the
    iteration loop, and the result made of the state in which the loop
    ends. *)
Lemma swo_schedule_run :
  tasks request <> [] ->
  exists occ st,
    base_occupancy_of self ix hz (meetings request) = Some occ
    /\ base_ok self ix hz (meetings request) occ
    /\ iterations self infos occ hz ix (Z.to_nat (max_iterations self))
         (initial_loop_state request) = Some st
    /\ loop_inv infos occ hz ix (tasks request) st
    /\ (0 < max_iterations self -> best_result st <> None)
    /\ schedule self request = Some (result_of_loop request st).
Proof.
  intros Hne.
  pose proof (request_indexer_granularity self request) as Hgran.
  pose proof (swo_infos_ok self request granularity_pos) as Hok.
  pose proof (swo_infos_keys self request) as Hkeys.
  unfold schedule, result_of_loop, initial_loop_state, request_horizon,
    request_indexer in *.
  destruct (tasks request) as [| t0 ts] eqn:Et; [congruence |].
  fold (indexer_of self t0 ts (meetings request)) in *.
  set (ixv := indexer_of self t0 ts (meetings request)) in *.
  set (hzv := horizon_slots_of ixv (t0 :: ts) (meetings request)) in *.
  assert (Hg : 0 < granularity ixv) by (rewrite Hgran; assumption).
  destruct (horizon_slots_of_ge ixv (t0 :: ts) (meetings request) Hg)
    as [Hhz _].
  destruct (base_occupancy_of_spec self ixv hzv (meetings request))
    as [occ [Eocc Hbase]]; [fold hzv in Hhz; lia |].
  exists occ. rewrite Eocc. cbn [obind].
  destruct (iterations_spec self _ occ hzv ixv (t0 :: ts) Hok
              (proj1 Hbase) Hg Hkeys (Z.to_nat (max_iterations self))
              {| order := sorted initial_le (t0 :: ts);
                 penalties := initial_penalties (t0 :: ts) [];
                 best_result := None;
                 best_unscheduled := None;
                 best_objective := None |})
    as [st [Est [Hinv Hsome]]].
  { split; [apply sorted_perm |]. split; [| exact I].
    intros tk Htk. apply initial_penalties_keys. left. apply in_map. assumption. }
  exists st. rewrite Est. cbn [obind].
  split; [reflexivity |]. split; [assumption |]. split; [reflexivity |].
  split; [assumption |]. split; [| reflexivity].
  intros Hmax. apply Hsome. lia.
Qed.

End SWORun.

(** ** The ids of a construction pass *)

Lemma dict_keys_set_new {V} (d : dict V) (k : string) (v : V) :
  ~ In k (dict_keys d) -> dict_keys (dict_set d k v) = dict_keys d ++ [k].
Proof.
  unfold dict_keys. induction d as [| [k' v'] r IH]; cbn; [reflexivity |].
  intros Hk. destruct (String.eqb k' k) eqn:E.
  - apply String.eqb_eq in E. exfalso. apply Hk. left. exact E.
  - cbn. f_equal. apply IH. intros H. apply Hk. right. exact H.
Qed.

Lemma construct_step_ids (segment_infos : dict SWOScheduler._SegmentInfo)
    (horizon_slots : Z) (st st' : SWOScheduler.pass_state) (tk : ScheduleTask) :
  SWOScheduler.construct_step segment_infos horizon_slots st tk = Some st' ->
  ~ In (task_id tk) (dict_keys (SWOScheduler.pass_assignments st)) ->
  Permutation
    (dict_keys (SWOScheduler.pass_assignments st')
     ++ SWOScheduler.pass_unscheduled st')
    (task_id tk :: dict_keys (SWOScheduler.pass_assignments st)
                   ++ SWOScheduler.pass_unscheduled st)
  /\ forall k, In k (dict_keys (SWOScheduler.pass_assignments st')) ->
               k = task_id tk
               \/ In k (dict_keys (SWOScheduler.pass_assignments st)).
Proof.
  unfold SWOScheduler.construct_step. intros H Hnew.
  destruct (dict_get segment_infos (task_id tk)) as [info |]; [| discriminate].
  cbn [obind] in H.
  destruct (SWOScheduler._find_slot info (SWOScheduler.occupancy st)
              horizon_slots) as [[s |] |]; cbn [obind] in H; [| | discriminate].
  - destruct (SWOScheduler.mark_occupied _ _) as [occ' |]; [| discriminate].
    cbn [obind] in H. injection H as <-.
    cbn [SWOScheduler.pass_assignments SWOScheduler.pass_unscheduled]. split.
    + rewrite dict_keys_set_new by assumption. rewrite <- app_assoc.
      apply Permutation_sym. apply Permutation_cons_app. reflexivity.
    + intros k Hk. apply dict_keys_set in Hk. exact Hk.
  - injection H as <-.
    cbn [SWOScheduler.pass_assignments SWOScheduler.pass_unscheduled]. split.
    + rewrite app_assoc. apply Permutation_sym. apply Permutation_cons_append.
    + auto.
Qed.

Lemma construct_loop_ids (segment_infos : dict SWOScheduler._SegmentInfo)
    (horizon_slots : Z) (order : list ScheduleTask)
    (st st' : SWOScheduler.pass_state) :
  SWOScheduler.construct_loop segment_infos horizon_slots order st = Some st' ->
  NoDup (map task_id order) ->
  (forall tk, In tk order ->
              ~ In (task_id tk) (dict_keys (SWOScheduler.pass_assignments st))) ->
  Permutation
    (dict_keys (SWOScheduler.pass_assignments st')
     ++ SWOScheduler.pass_unscheduled st')
    (map task_id order
     ++ dict_keys (SWOScheduler.pass_assignments st)
     ++ SWOScheduler.pass_unscheduled st).
Proof.
  revert st. induction order as [| tk r IH]; intros st H Hnd Hnew.
  - cbn in H. injection H as <-. reflexivity.
  - cbn [SWOScheduler.construct_loop] in H.
    destruct (SWOScheduler.construct_step segment_infos horizon_slots st tk)
      as [st1 |] eqn:E; [| discriminate].
    cbn [obind] in H. inversion Hnd as [| ? ? Hnotin Hnd']; subst.
    destruct (construct_step_ids _ _ _ _ _ E (Hnew tk (or_introl eq_refl)))
      as [Hperm Hkeys].
    rewrite (IH st1 H Hnd').
    + rewrite Hperm. cbn [map app]. apply Permutation_sym.
      apply Permutation_middle.
    + intros tk' Htk' Hin. destruct (Hkeys _ Hin) as [Heq | Hold].
      * apply Hnotin. rewrite <- Heq. apply in_map. assumption.
      * apply (Hnew tk' (or_intror Htk')). assumption.
Qed.

(** The ids of the result of a pass over tasks with distinct ids: every
    id is assigned or unscheduled, and none is both. *)
Lemma pass_result_ids (segment_infos : dict SWOScheduler._SegmentInfo)
    (base_occupancy : list bool) (horizon_slots : Z) (ix : _TimeIndexer)
    (all_tasks : list ScheduleTask) (r : ScheduleResult) :
  is_pass_result segment_infos base_occupancy horizon_slots ix all_tasks r ->
  NoDup (map task_id all_tasks) ->
  Permutation (map assigned_task_id (assignments r) ++ unscheduled_tasks r)
              (map task_id all_tasks).
Proof.
  intros [order [asg [uns [Hperm [E1 E2]]]]] Hnd.
  destruct (build_result_fields _ _ _ _ _ E2) as [-> [l [El ->]]].
  rewrite <- (Permutation_map assigned_task_id (sorted_perm _ l)).
  rewrite (assigned_list_ids _ _ _ _ El).
  unfold SWOScheduler._construct_schedule in E1.
  destruct (SWOScheduler.construct_loop segment_infos horizon_slots order _)
    as [st |] eqn:Eloop; [| discriminate].
  cbn [obind] in E1. injection E1 as <- <-.
  rewrite (construct_loop_ids _ _ _ _ _ Eloop).
  - cbn [SWOScheduler.pass_assignments SWOScheduler.pass_unscheduled
         dict_keys map app]. rewrite List.app_nil_r.
    apply Permutation_map, Permutation_sym, Hperm.
  - eapply Permutation_NoDup; [apply Permutation_map; exact Hperm | exact Hnd].
  - intros tk _ [].
Qed.

(** ** Chronological lists of assignments *)

Lemma chronological_of_sorted (l : list AssignedTask) :
  Sorted (fun a b => assigned_start a <= assigned_start b) l ->
  non_overlapping l ->
  Forall (fun a => assigned_start a < assigned_end a) l ->
  chronological l.
Proof.
  intros Hs Hno Hpos.
  apply Sorted_StronglySorted in Hs; [| intros a b c Hab Hbc; lia].
  unfold chronological, non_overlapping in *.
  induction l as [| a r IH]; [constructor |].
  inversion Hs as [| ? ? Hs' Hhd]; subst.
  inversion Hno as [| ? ? Hd Hno']; subst.
  inversion Hpos as [| ? ? Ha Hpos']; subst.
  constructor; [apply IH; assumption |].
  rewrite Forall_forall in *. intros b Hb.
  specialize (Hhd b Hb). specialize (Hd b Hb). specialize (Hpos' b Hb).
  unfold assigned_disjoint, disjoint in Hd. lia.
Qed.

Lemma sorted_by_start (le : AssignedTask -> AssignedTask -> bool)
    (l : list AssignedTask) :
  (forall a b, le a b = (assigned_start a <=? assigned_start b)) ->
  Sorted (fun a b => assigned_start a <= assigned_start b) (sorted le l).
Proof.
  intros Hle.
  apply Sorted_weaken with (R1 := fun a b => le a b = true).
  - intros a b H. rewrite Hle in H. apply Z.leb_le. exact H.
  - apply sorted_Sorted. intros a b H. rewrite Hle in *.
    apply Z.leb_gt in H. apply Z.leb_le. lia.
Qed.

(** ** The result of the squeaky-wheel scheduler *)

(** X9: with a positive granularity, [SWOScheduler.schedule] returns a
    result on every request: no index of the occupancy bitmap is out of
    range, and no key is missing from a dictionary. *)
Theorem swo_schedule_returns (self : SWOScheduler.t)
    (request : ScheduleRequest) :
  0 < SWOScheduler.granularity_minutes self ->
  exists res, SWOScheduler.schedule self request = Some res.
Proof.
  intros Hg. destruct (tasks request) as [| t0 ts] eqn:Et.
  - unfold SWOScheduler.schedule. rewrite Et. eauto.
  - destruct (swo_schedule_run self request Hg)
      as [occ [st [_ [_ [_ [_ [_ E]]]]]]]; [congruence |].
    eauto.
Qed.

Lemma swo_schedule_returns_witness :
  exists res,
    SWOScheduler.schedule SWOScheduler.default request_meeting_deadline
    = Some res.
Proof.
  apply (swo_schedule_returns SWOScheduler.default request_meeting_deadline).
  cbn. lia.
Defined.

Lemma initial_loop_state_recorded (self : SWOScheduler.t)
    (request : ScheduleRequest) :
  best_recorded self (initial_loop_state request).
Proof. unfold best_recorded, initial_loop_state. cbn. auto. Qed.

(** X10: when [SWOScheduler.schedule] makes at least one iteration on a
    request with tasks, the objective value of its result is the number
    of unscheduled ids of the result times the penalty of an unscheduled
    task. *)
Theorem swo_objective_counts_unscheduled (self : SWOScheduler.t)
    (request : ScheduleRequest) (res : ScheduleResult) :
  0 < SWOScheduler.granularity_minutes self ->
  0 < SWOScheduler.max_iterations self ->
  tasks request <> [] ->
  SWOScheduler.schedule self request = Some res ->
  objective_value res
  = Some (len (unscheduled_tasks res) * SWOScheduler.unscheduled_penalty self).
Proof.
  intros Hg Hmax Hne Hres.
  destruct (swo_schedule_run self request Hg Hne)
    as [occ [st [_ [_ [Eit [_ [Hsome E]]]]]]].
  rewrite E in Hres. injection Hres as <-.
  destruct (iterations_best _ _ _ _ _ _ _ _ Eit
              (initial_loop_state_recorded self request)) as [Hrec _].
  unfold best_recorded in Hrec. unfold result_of_loop.
  destruct (SWOScheduler.best_result st) as [r |];
    [| exfalso; apply (Hsome Hmax); reflexivity].
  cbn [objective_value unscheduled_tasks]. apply Hrec.
Qed.

Lemma swo_objective_counts_unscheduled_witness :
  objective_value (result_meeting_deadline (Some 0))
  = Some (len (unscheduled_tasks (result_meeting_deadline (Some 0)))
          * SWOScheduler.unscheduled_penalty SWOScheduler.default).
Proof.
  apply (swo_objective_counts_unscheduled SWOScheduler.default
           request_meeting_deadline).
  - cbn. lia.
  - cbn. lia.
  - discriminate.
  - vm_compute. reflexivity.
Defined.

(** X11: a squeaky-wheel scheduler whose [max_iterations] is not
    positive assigns nothing: on a request with tasks its result has no
    assignment and no objective value, and lists as unscheduled the keys
    of the previous assignments, not the tasks of the request. *)
Theorem swo_without_iterations (self : SWOScheduler.t)
    (request : ScheduleRequest) :
  0 < SWOScheduler.granularity_minutes self ->
  SWOScheduler.max_iterations self <= 0 ->
  tasks request <> [] ->
  SWOScheduler.schedule self request
  = Some {| assignments := [];
            unscheduled_tasks := dict_keys (previous_of request);
            objective_value := None |}.
Proof.
  intros Hg Hmax Hne.
  destruct (swo_schedule_run self request Hg Hne)
    as [occ [st [_ [_ [Eit [_ [_ E]]]]]]].
  replace (Z.to_nat (SWOScheduler.max_iterations self)) with O in Eit by lia.
  cbn [SWOScheduler.iterations] in Eit. injection Eit as <-.
  rewrite E. reflexivity.
Qed.

Lemma swo_without_iterations_witness :
  SWOScheduler.schedule swo_no_iterations request_lns
  = Some {| assignments := [];
            unscheduled_tasks := dict_keys (previous_of request_lns);
            objective_value := None |}.
Proof.
  apply (swo_without_iterations swo_no_iterations request_lns).
  - cbn. lia.
  - cbn. lia.
  - discriminate.
Defined.

(** X12: the result of [SWOScheduler.schedule] leaves at most as many
    ids unscheduled as the first construction pass, the one over the
    tasks in the order of decreasing priority and increasing earliest
    start. *)
Theorem swo_no_worse_than_first_pass (self : SWOScheduler.t)
    (request : ScheduleRequest) :
  0 < SWOScheduler.granularity_minutes self ->
  0 < SWOScheduler.max_iterations self ->
  tasks request <> [] ->
  let g := SWOScheduler.granularity_minutes self in
  let ix := request_indexer g request in
  let hz := request_horizon g request in
  let segment_infos :=
    SWOScheduler.infos_loop ix hz (previous_of request) (tasks request) [] in
  exists res base_occupancy asg uns,
    SWOScheduler.schedule self request = Some res
    /\ SWOScheduler.base_occupancy_of self ix hz (meetings request)
       = Some base_occupancy
    /\ SWOScheduler._construct_schedule
         (sorted SWOScheduler.initial_le (tasks request))
         segment_infos base_occupancy hz = Some (asg, uns)
    /\ len (unscheduled_tasks res) <= len uns.
Proof.
  intros Hg Hmax Hne g ix hz segment_infos.
  destruct (swo_schedule_run self request Hg Hne)
    as [occ [st [Eocc [Hbase [Eit [_ [_ E]]]]]]].
  fold g ix hz segment_infos in Eocc, Eit, Hbase.
  destruct (Z.to_nat (SWOScheduler.max_iterations self)) as [| n] eqn:En;
    [lia |].
  destruct (iterations_step _ _ _ _ _ _ _ _ Eit)
    as [asg [uns [result [st1 [E1 _]]]]].
  destruct (iterations_first _ _ _ _ _ _ _ _ asg uns Eit
              (initial_loop_state_recorded self request) eq_refl E1)
    as [r' [Hr' Hle]].
  exists (result_of_loop request st), occ, asg, uns.
  split; [exact E |]. split; [exact Eocc |]. split; [exact E1 |].
  unfold result_of_loop. rewrite Hr'. exact Hle.
Qed.

Lemma swo_no_worse_than_first_pass_witness :
  let g := SWOScheduler.granularity_minutes SWOScheduler.default in
  let ix := request_indexer g request_meeting_deadline in
  let hz := request_horizon g request_meeting_deadline in
  let segment_infos :=
    SWOScheduler.infos_loop ix hz (previous_of request_meeting_deadline)
      (tasks request_meeting_deadline) [] in
  exists res base_occupancy asg uns,
    SWOScheduler.schedule SWOScheduler.default request_meeting_deadline
    = Some res
    /\ SWOScheduler.base_occupancy_of SWOScheduler.default ix hz
         (meetings request_meeting_deadline) = Some base_occupancy
    /\ SWOScheduler._construct_schedule
         (sorted SWOScheduler.initial_le (tasks request_meeting_deadline))
         segment_infos base_occupancy hz = Some (asg, uns)
    /\ len (unscheduled_tasks res) <= len uns.
Proof.
  apply (swo_no_worse_than_first_pass SWOScheduler.default
           request_meeting_deadline).
  - cbn. lia.
  - cbn. lia.
  - discriminate.
Defined.

(** X13: when the tasks of a request have pairwise distinct ids and the
    squeaky-wheel scheduler makes at least one iteration, its result
    accounts for every task once: the ids of the assignments followed by
    the unscheduled ids are the ids of the tasks, in some order. *)
Theorem swo_accounts_for_every_task (self : SWOScheduler.t)
    (request : ScheduleRequest) (res : ScheduleResult) :
  0 < SWOScheduler.granularity_minutes self ->
  0 < SWOScheduler.max_iterations self ->
  NoDup (map task_id (tasks request)) ->
  SWOScheduler.schedule self request = Some res ->
  Permutation (map assigned_task_id (assignments res) ++ unscheduled_tasks res)
              (map task_id (tasks request)).
Proof.
  intros Hg Hmax Hnd Hres.
  destruct (tasks request) as [| t0 ts] eqn:Et.
  - unfold SWOScheduler.schedule in Hres. rewrite Et in Hres.
    injection Hres as <-. reflexivity.
  - rewrite <- Et in *.
    destruct (swo_schedule_run self request Hg)
      as [occ [st [_ [_ [_ [[_ [_ Hbest]] [Hsome E]]]]]]]; [congruence |].
    rewrite E in Hres. injection Hres as <-. unfold result_of_loop.
    destruct (SWOScheduler.best_result st) as [r |];
      [| exfalso; apply (Hsome Hmax); reflexivity].
    cbn [assignments unscheduled_tasks].
    eapply pass_result_ids; eassumption.
Qed.

Lemma swo_accounts_for_every_task_witness :
  Permutation
    (map assigned_task_id (assignments (result_meeting_deadline (Some 0)))
     ++ unscheduled_tasks (result_meeting_deadline (Some 0)))
    (map task_id (tasks request_meeting_deadline)).
Proof.
  apply (swo_accounts_for_every_task SWOScheduler.default
           request_meeting_deadline).
  - cbn. lia.
  - cbn. lia.
  - distinct_ids.
  - vm_compute. reflexivity.
Defined.

(** X14: the assignments of a result of the squeaky-wheel scheduler are
    listed in chronological order: each one ends before the ones listed
    after it start. *)
Theorem swo_assignments_chronological (self : SWOScheduler.t)
    (request : ScheduleRequest) (res : ScheduleResult) :
  0 < SWOScheduler.granularity_minutes self ->
  SWOScheduler.schedule self request = Some res ->
  chronological (assignments res).
Proof.
  intros Hg Hres.
  destruct (tasks request) as [| t0 ts] eqn:Et.
  { unfold SWOScheduler.schedule in Hres. rewrite Et in Hres.
    injection Hres as <-. constructor. }
  assert (Hne : tasks request <> []) by congruence.
  destruct (swo_result_spec self request Hg res Hres Hne)
    as [occ [_ [Hno Hall]]].
  apply chronological_of_sorted; [| exact Hno |].
  - destruct (swo_schedule_run self request Hg Hne)
      as [occ' [st [_ [_ [_ [[_ [_ Hbest]] [_ E]]]]]]].
    rewrite E in Hres. injection Hres as <-. unfold result_of_loop.
    destruct (SWOScheduler.best_result st) as [r |]; [| constructor].
    cbn [assignments].
    destruct Hbest as [order [asg [uns [_ [_ E2]]]]].
    destruct (build_result_fields _ _ _ _ _ E2) as [_ [l [_ ->]]].
    apply sorted_by_start. reflexivity.
  - rewrite Forall_forall in *. intros a Ha.
    destruct (Hall a Ha) as [tk [_ Horigin]].
    destruct (swo_assignment_slots self request occ tk a Horigin)
      as [s [_ [-> [-> _]]]].
    apply to_datetime_lt; [apply request_indexer_pos; assumption |].
    pose proof (duration_to_slots_pos
                  (request_indexer (SWOScheduler.granularity_minutes self) request)
                  (duration_minutes tk)). lia.
Qed.

Lemma swo_assignments_chronological_witness :
  chronological (assignments (result_meeting_deadline (Some 0))).
Proof.
  apply (swo_assignments_chronological SWOScheduler.default
           request_meeting_deadline).
  - cbn. lia.
  - vm_compute. reflexivity.
Defined.

(** X15: the deviation of an assignment of the squeaky-wheel scheduler
    is the distance, in minutes, between its start and the slot of the
    previous start of its task, and 0 for a task without previous
    assignment. *)
Theorem swo_deviation_from_previous_slot (self : SWOScheduler.t)
    (request : ScheduleRequest) (res : ScheduleResult) :
  0 < SWOScheduler.granularity_minutes self ->
  SWOScheduler.schedule self request = Some res ->
  let ix := request_indexer (SWOScheduler.granularity_minutes self) request in
  Forall (fun a =>
            match dict_get (previous_of request) (assigned_task_id a) with
            | Some previous_assignment =>
                timedelta_minutes (deviation_minutes a)
                = Z.abs (assigned_start a
                         - to_datetime ix (to_slot ix (fst previous_assignment)))
            | None => deviation_minutes a = 0
            end)
         (assignments res).
Proof.
  intros Hg Hres ix.
  destruct (tasks request) as [| t0 ts] eqn:Et.
  { unfold SWOScheduler.schedule in Hres. rewrite Et in Hres.
    injection Hres as <-. constructor. }
  assert (Hne : tasks request <> []) by congruence.
  destruct (swo_result_spec self request Hg res Hres Hne)
    as [occ [_ [_ Hall]]].
  rewrite Forall_forall in *. intros a Ha.
  destruct (Hall a Ha) as [tk [_ [s [_ ->]]]]. fold ix.
  cbn [SWOScheduler.make_assigned assigned_task_id assigned_start
       deviation_minutes SWOScheduler.segment_info_of
       SWOScheduler.previous_start_slot].
  destruct (dict_get (previous_of request) (task_id tk)) as [pa |];
    [| reflexivity].
  unfold to_datetime, timedelta_minutes.
  assert (Hus : 0 < US_PER_MINUTE) by (unfold US_PER_MINUTE; lia).
  pose proof (request_indexer_pos _ request Hg) as Hix. fold ix in Hix.
  replace (base ix + s * granularity ix * US_PER_MINUTE
           - (base ix + to_slot ix (fst pa) * granularity ix * US_PER_MINUTE))
    with ((s - to_slot ix (fst pa)) * (granularity ix * US_PER_MINUTE)) by lia.
  rewrite Z.abs_mul, (Z.abs_eq (granularity ix * US_PER_MINUTE)) by nia.
  lia.
Qed.

Lemma swo_deviation_from_previous_slot_witness :
  let ix :=
    request_indexer (SWOScheduler.granularity_minutes SWOScheduler.default)
      request_lns in
  Forall (fun a =>
            match dict_get (previous_of request_lns) (assigned_task_id a) with
            | Some previous_assignment =>
                timedelta_minutes (deviation_minutes a)
                = Z.abs (assigned_start a
                         - to_datetime ix (to_slot ix (fst previous_assignment)))
            | None => deviation_minutes a = 0
            end)
         (assignments result_lns_swo).
Proof.
  apply (swo_deviation_from_previous_slot SWOScheduler.default request_lns
           result_lns_swo).
  - cbn. lia.
  - vm_compute. reflexivity.
Defined.

(** ** The CP/LNS scheduler: building the model *)

Section CPModelBuilt.

Import CPLNSScheduler.

Variable self : t.
Variable ix : _TimeIndexer.
Variable horizon_slots : Z.

Lemma day_loop_defined (horizon_end_dt : datetime) (fuel : nat)
    (current_day : datetime) (intervals : list (Z * Z)) :
  0 <= working_day_start_hour self <= 23 ->
  0 <= working_day_end_hour self <= 23 ->
  exists fixed,
    day_loop self ix horizon_slots horizon_end_dt fuel current_day intervals
    = Some fixed.
Proof.
  intros Hs He. revert current_day intervals.
  induction fuel as [| fuel IH]; intros current_day intervals;
    cbn [day_loop]; [eauto |].
  destruct (current_day <? horizon_end_dt); [| eauto].
  unfold replace_hour_checked.
  replace ((0 <=? working_day_start_hour self)
           && (working_day_start_hour self <=? 23)) with true
    by (symmetry; apply andb_true_iff; split; apply Z.leb_le; lia).
  replace ((0 <=? working_day_end_hour self)
           && (working_day_end_hour self <=? 23)) with true
    by (symmetry; apply andb_true_iff; split; apply Z.leb_le; lia).
  cbn [obind]. apply IH.
Qed.

Lemma day_loop_raises (horizon_end_dt : datetime) (fuel : nat)
    (current_day : datetime) (intervals : list (Z * Z)) :
  working_day_end_hour self = 24 ->
  current_day < horizon_end_dt ->
  day_loop self ix horizon_slots horizon_end_dt (S fuel) current_day intervals
  = None.
Proof.
  intros He Hlt. cbn [day_loop].
  replace (current_day <? horizon_end_dt) with true
    by (symmetry; apply Z.ltb_lt; assumption).
  destruct (replace_hour_checked current_day (working_day_start_hour self));
    [| reflexivity].
  cbn [obind]. unfold replace_hour_checked. rewrite He. reflexivity.
Qed.

(** Building the fixed intervals fails exactly when the working day
    starts after midnight and ends at 24. *)
Lemma fixed_intervals_defined (ms : list ScheduleMeeting) :
  0 < granularity ix -> 0 < horizon_slots ->
  init_ok self = true ->
  (0 < working_day_start_hour self /\ working_day_end_hour self = 24
   -> fixed_intervals self ix horizon_slots ms = None)
  /\ (~ (0 < working_day_start_hour self /\ working_day_end_hour self = 24)
      -> exists fixed, fixed_intervals self ix horizon_slots ms = Some fixed).
Proof.
  intros Hg Hhz Hinit. unfold init_ok in Hinit.
  apply andb_true_iff in Hinit. destruct Hinit as [Hinit H24].
  apply andb_true_iff in Hinit. destruct Hinit as [H0 Hlt].
  apply Z.leb_le in H0, H24. apply Z.ltb_lt in Hlt.
  unfold fixed_intervals. split.
  - intros [Hs He].
    replace ((working_day_start_hour self >? 0)
             || (working_day_end_hour self <? 24)) with true
      by (symmetry; apply orb_true_iff; left; rewrite Z.gtb_ltb;
          apply Z.ltb_lt; assumption).
    assert (Hus : 0 < US_PER_DAY)
      by (unfold US_PER_DAY, US_PER_HOUR, US_PER_MINUTE; lia).
    pose proof (Z.mod_pos_bound (base ix) US_PER_DAY Hus) as Hm.
    assert (Hday0 : replace_hour (base ix) 0 = base ix - base ix mod US_PER_DAY)
      by (unfold replace_hour; lia).
    replace (replace_hour (base ix) 0 >? base ix) with false
      by (symmetry; rewrite Z.gtb_ltb; apply Z.ltb_ge; lia).
    assert (Hend : base ix < to_datetime ix horizon_slots).
    { rewrite to_datetime_eq. pose proof (slot_width_pos ix Hg). nia. }
    set (span := to_datetime ix horizon_slots - replace_hour (base ix) 0).
    assert (0 <= span / US_PER_DAY) by (apply Z.div_pos; unfold span; lia).
    replace (Z.to_nat (span / US_PER_DAY + 1))
      with (S (Z.to_nat (span / US_PER_DAY))) by lia.
    apply day_loop_raises; [assumption | lia].
  - intros Hnot.
    destruct ((working_day_start_hour self >? 0)
              || (working_day_end_hour self <? 24)) eqn:E; [| eauto].
    destruct (replace_hour (base ix) 0 >? base ix);
      apply day_loop_defined; try lia.
    all: apply orb_true_iff in E; destruct E as [E | E];
      [rewrite Z.gtb_ltb in E; apply Z.ltb_lt in E | apply Z.ltb_lt in E]; lia.
Qed.

End CPModelBuilt.

Lemma vars_of_keys (ts : list ScheduleTask)
    (vs : list CPLNSScheduler.task_values)
    (acc : dict CPLNSScheduler.task_values) (k : string) :
  List.length vs = List.length ts ->
  In k (map task_id ts) \/ In k (dict_keys acc) ->
  In k (dict_keys (CPLNSScheduler.vars_of ts vs acc)).
Proof.
  revert vs acc. induction ts as [| tk r IH]; intros vs acc Hlen Hk.
  - destruct Hk as [[] | Hk]. destruct vs; exact Hk.
  - destruct vs as [| v vs']; [discriminate |].
    cbn [CPLNSScheduler.vars_of]. apply IH; [cbn in Hlen; lia |].
    destruct Hk as [[<- | Hk] | Hk].
    + right. apply dict_keys_set. left. reflexivity.
    + left. assumption.
    + right. apply dict_keys_set. right. assumption.
Qed.

Lemma decode_defined (self : CPLNSScheduler.t) (ix : _TimeIndexer)
    (vars : dict CPLNSScheduler.task_values) (ts : list ScheduleTask) :
  (forall tk, In tk ts -> In (task_id tk) (dict_keys vars)) ->
  exists d, CPLNSScheduler.decode self ix vars ts = Some d.
Proof.
  induction ts as [| tk r IH]; intros Hk; cbn [CPLNSScheduler.decode];
    [eauto |].
  destruct (proj1 (dict_get_keys vars (task_id tk)) (Hk tk (or_introl eq_refl)))
    as [v ->].
  cbn [obind].
  destruct IH as [[asg uns] ->]; [intros tk' H; apply Hk; right; exact H |].
  cbn [obind]. destruct (negb (CPLNSScheduler.presence_val v)); eauto.
Qed.

(** X16: [CPLNSScheduler.schedule] fails on a request with tasks when
    the working day starts after midnight and ends at 24, a setting that
    [__init__] accepts: building the blocks outside the working hours
    asks for the hour 24 of a day.  With any other accepted setting it
    returns a result, whatever the solver answers within its contract. *)
Theorem cp_schedule_fails_for_end_at_midnight (self : CPLNSScheduler.t)
    (request : ScheduleRequest) (response : CPLNSScheduler.solver_response) :
  0 < CPLNSScheduler.granularity_minutes self ->
  CPLNSScheduler.init_ok self = true ->
  tasks request <> [] ->
  (0 < CPLNSScheduler.working_day_start_hour self
   /\ CPLNSScheduler.working_day_end_hour self = 24 ->
   CPLNSScheduler.schedule self request response = None)
  /\ (~ (0 < CPLNSScheduler.working_day_start_hour self
         /\ CPLNSScheduler.working_day_end_hour self = 24) ->
      CPLNSScheduler.response_ok self request response = true ->
      exists res, CPLNSScheduler.schedule self request response = Some res).
Proof.
  intros Hg Hinit Hne.
  set (ix := request_indexer (CPLNSScheduler.granularity_minutes self) request).
  set (hz := request_horizon (CPLNSScheduler.granularity_minutes self) request).
  assert (Hix : 0 < granularity ix) by (apply request_indexer_pos; assumption).
  assert (Hhz : 0 < hz).
  { destruct (horizon_slots_of_ge ix (tasks request) (meetings request) Hix)
      as [H _]. unfold hz, request_horizon. fold ix. lia. }
  destruct (fixed_intervals_defined self ix hz (meetings request) Hix Hhz Hinit)
    as [Hfail Hbuilt].
  split.
  - intros Hhours. specialize (Hfail Hhours).
    unfold CPLNSScheduler.schedule. unfold ix, hz, request_horizon,
      request_indexer in Hfail.
    destruct (tasks request) as [| t0 ts]; [congruence |].
    fold (CPLNSScheduler.indexer_of self t0 ts (meetings request)) in Hfail.
    rewrite Hfail. reflexivity.
  - intros Hhours Hok. destruct (Hbuilt Hhours) as [fixed Efix].
    assert (Hlen : CPLNSScheduler.is_solution (CPLNSScheduler.status response)
                   = true ->
                   List.length (CPLNSScheduler.values response)
                   = List.length (tasks request)).
    { intros Hsol.
      destruct (cp_solution_spec self request response Hok Hsol)
        as [fixed' [_ [H _]]]. exact H. }
    unfold CPLNSScheduler.schedule. unfold ix, hz, request_horizon,
      request_indexer in Efix.
    destruct (tasks request) as [| t0 ts]; [congruence |].
    fold (CPLNSScheduler.indexer_of self t0 ts (meetings request)) in Efix.
    rewrite Efix. cbn [obind].
    destruct (CPLNSScheduler.is_solution (CPLNSScheduler.status response));
      cbn [negb]; [| eauto].
    destruct (decode_defined self
                (CPLNSScheduler.indexer_of self t0 ts (meetings request))
                (CPLNSScheduler.vars_of (t0 :: ts)
                   (CPLNSScheduler.values response) [])
                (t0 :: ts)) as [[asg uns] ->].
    { intros tk Htk. apply vars_of_keys; [auto |]. left. apply in_map. exact Htk. }
    cbn [obind]. eauto.
Qed.

Lemma cp_schedule_fails_for_end_at_midnight_witness :
  CPLNSScheduler.schedule cp_until_midnight request_meeting_deadline
    response_infeasible = None.
Proof.
  apply (cp_schedule_fails_for_end_at_midnight cp_until_midnight
           request_meeting_deadline response_infeasible).
  - cbn. lia.
  - reflexivity.
  - discriminate.
  - split; [cbn; lia | reflexivity].
Defined.

(** ** The CP/LNS scheduler: what a result holds *)

Lemma filter_split {A} (p : A -> bool) (l : list A) :
  Permutation (filter p l ++ filter (fun x => negb (p x)) l) l.
Proof.
  induction l as [| x r IH]; cbn; [reflexivity |].
  destruct (p x); cbn.
  - constructor. exact IH.
  - apply Permutation_sym, Permutation_cons_app, Permutation_sym, IH.
Qed.

Lemma map_fst_combine {A B} (l1 : list A) (l2 : list B) :
  List.length l2 = List.length l1 -> map fst (combine l1 l2) = l1.
Proof.
  revert l2. induction l1 as [| a r IH]; intros l2 Hlen; [reflexivity |].
  destruct l2 as [| b r2]; [discriminate |].
  cbn. f_equal. apply IH. cbn in Hlen. lia.
Qed.

(** With distinct ids, an id names one task of a list. *)
Lemma task_of_id_unique (ts : list ScheduleTask) (tk tk' : ScheduleTask) :
  NoDup (map task_id ts) -> In tk ts -> In tk' ts ->
  task_id tk = task_id tk' -> tk = tk'.
Proof.
  induction ts as [| t0 r IH]; intros Hnd H1 H2 Hid; [contradiction |].
  inversion Hnd as [| ? ? Hnotin Hnd']; subst.
  destruct H1 as [<- | H1], H2 as [<- | H2].
  - reflexivity.
  - exfalso. apply Hnotin. rewrite Hid. apply in_map. assumption.
  - exfalso. apply Hnotin. rewrite <- Hid. apply in_map. assumption.
  - apply IH; assumption.
Qed.

(** The result of [schedule] lists its assignments as [sorted] leaves
    them. *)
Lemma cp_schedule_sorted (self : CPLNSScheduler.t) (request : ScheduleRequest)
    (response : CPLNSScheduler.solver_response) (res : ScheduleResult) :
  CPLNSScheduler.schedule self request response = Some res ->
  exists l, assignments res = sorted CPLNSScheduler.start_le l.
Proof.
  unfold CPLNSScheduler.schedule. intros H.
  destruct (tasks request) as [| t0 ts].
  - injection H as <-. exists []. reflexivity.
  - destruct (CPLNSScheduler.fixed_intervals _ _ _ _); [| discriminate].
    cbn [obind] in H.
    destruct (negb (CPLNSScheduler.is_solution (CPLNSScheduler.status response))).
    + injection H as <-. exists []. reflexivity.
    + destruct (CPLNSScheduler.decode _ _ _ _) as [[asg uns] |];
        [| discriminate].
      cbn [obind] in H. injection H as <-. exists asg. reflexivity.
Qed.

Section CPResult.

Import CPLNSScheduler.

Variable self : t.
Variable request : ScheduleRequest.
Variable response : solver_response.
Variable res : ScheduleResult.

Hypothesis granularity_pos : 0 < granularity_minutes self.
Hypothesis ids_distinct : NoDup (map task_id (tasks request)).
Hypothesis contract : response_ok self request response = true.
Hypothesis returned : schedule self request response = Some res.

Local Abbreviation ix := (request_indexer (granularity_minutes self) request).
Local Abbreviation hz := (request_horizon (granularity_minutes self) request).

(** Every assignment comes from the values of the variables of the one
    task that carries its id. *)
Lemma cp_assignment_origin (a : AssignedTask) (tk : ScheduleTask) :
  In a (assignments res) -> In tk (tasks request) ->
  task_id tk = assigned_task_id a ->
  exists v,
    presence_val v = true
    /\ cp_task_ok self request tk v
    /\ a = make_assigned self ix tk v.
Proof.
  intros Ha Htk Hid.
  assert (Hne : tasks request <> []) by (intros E; rewrite E in Htk; exact Htk).
  destruct (is_solution (status response)) eqn:Es.
  - destruct (cp_result_spec self request response granularity_pos
                ids_distinct contract res returned Es Hne)
      as [fixed [_ [_ [_ [_ Hall]]]]].
    rewrite Forall_forall in Hall.
    destruct (Hall a Ha) as [tk' [Htk' [v [Hin [Hpres [Hok [_ Heq]]]]]]].
    assert (tk' = tk).
    { apply (task_of_id_unique (tasks request)); try assumption.
      rewrite Hid, Heq. reflexivity. }
    subst tk'. exists v. auto.
  - rewrite (non_solution_no_assignments self request response res returned
               (or_intror Es)) in Ha. contradiction.
Qed.

Lemma cp_result_ids :
  Permutation (map assigned_task_id (assignments res) ++ unscheduled_tasks res)
              (map task_id (tasks request)).
Proof.
  destruct (tasks request) as [| t0 ts] eqn:Et.
  { unfold schedule in returned. rewrite Et in returned.
    injection returned as <-. reflexivity. }
  assert (Hne : tasks request <> []) by congruence.
  rewrite <- Et in *. clear Et t0 ts.
  destruct (is_solution (status response)) eqn:Es.
  - destruct (cp_result_spec self request response granularity_pos
                ids_distinct contract res returned Es Hne)
      as [fixed [_ [Hperm [Huns _]]]].
    destruct (cp_solution_spec self request response contract Es)
      as [fixed' [_ [Hlen _]]].
    rewrite <- (Permutation_map assigned_task_id Hperm), Huns, map_map.
    cbn [make_assigned assigned_task_id].
    unfold present_pairs, absent_pairs.
    rewrite <- map_app.
    rewrite (Permutation_map (fun tv => task_id (fst tv))
               (filter_split (fun tv => presence_val (snd tv))
                  (combine (tasks request) (values response)))).
    rewrite <- (map_map fst task_id), map_fst_combine by assumption.
    reflexivity.
  - unfold schedule in returned.
    destruct (tasks request) as [| t0 ts]; [congruence |].
    destruct (fixed_intervals _ _ _ _); [| discriminate].
    cbn [obind] in returned. rewrite Es in returned. cbn [negb] in returned.
    injection returned as <-. reflexivity.
Qed.

End CPResult.

Lemma task_constraints_deviation (ix : _TimeIndexer) (horizon_slots : Z)
    (previous : dict (datetime * datetime)) (window_slot_range : option (Z * Z))
    (tk : ScheduleTask) (v : CPLNSScheduler.task_values) :
  CPLNSScheduler.task_constraints ix horizon_slots previous window_slot_range
    tk v = true ->
  match fixed_start tk, dict_get previous (task_id tk) with
  | Some fs, _ =>
      Z.abs (CPLNSScheduler.start_val v - to_slot ix fs)
      <= CPLNSScheduler.deviation_val v
  | None, Some pa =>
      Z.abs (CPLNSScheduler.start_val v - to_slot ix (fst pa))
      <= CPLNSScheduler.deviation_val v
  | None, None => CPLNSScheduler.deviation_val v = 0
  end.
Proof.
  intros H. unfold CPLNSScheduler.task_constraints in H. cbv zeta in H.
  split_andb.
  destruct (fixed_start tk) as [fs |];
    [| destruct (dict_get previous (task_id tk)) as [pa |]];
    split_andb; to_Z; lia.
Qed.

(** X17: under the solver's contract and with distinct task ids, a
    result of the CP scheduler accounts for every task once: the ids of
    the assignments followed by the unscheduled ids are the ids of the
    tasks, in some order.  When the solver has no solution, every task
    is unscheduled, in the order of the request; and the objective value
    is reported for the status OPTIMAL only. *)
Theorem cp_accounts_for_every_task (self : CPLNSScheduler.t)
    (request : ScheduleRequest) (response : CPLNSScheduler.solver_response)
    (res : ScheduleResult) :
  0 < CPLNSScheduler.granularity_minutes self ->
  NoDup (map task_id (tasks request)) ->
  CPLNSScheduler.response_ok self request response = true ->
  CPLNSScheduler.schedule self request response = Some res ->
  Permutation (map assigned_task_id (assignments res) ++ unscheduled_tasks res)
              (map task_id (tasks request))
  /\ (tasks request <> [] ->
      CPLNSScheduler.is_solution (CPLNSScheduler.status response) = false ->
      assignments res = []
      /\ unscheduled_tasks res = map task_id (tasks request))
  /\ (tasks request <> [] ->
      objective_value res
      = match CPLNSScheduler.status response with
        | CPLNSScheduler.OPTIMAL => Some (CPLNSScheduler.objective response)
        | _ => None
        end).
Proof.
  intros Hg Hnd Hok Hres.
  split; [apply (cp_result_ids self request response res); assumption |].
  unfold CPLNSScheduler.schedule in Hres.
  destruct (tasks request) as [| t0 ts]; [split; congruence |].
  destruct (CPLNSScheduler.fixed_intervals _ _ _ _); [| discriminate].
  cbn [obind] in Hres.
  destruct (CPLNSScheduler.is_solution (CPLNSScheduler.status response)) eqn:Es;
    cbn [negb] in Hres.
  - destruct (CPLNSScheduler.decode _ _ _ _) as [[asg uns] |]; [| discriminate].
    cbn [obind] in Hres. injection Hres as <-.
    split; [discriminate | reflexivity].
  - injection Hres as <-. split; [auto |]. intros _.
    destruct (CPLNSScheduler.status response); try reflexivity; discriminate.
Qed.

Lemma cp_accounts_for_every_task_witness :
  let res := result_meeting_deadline (Some 120) in
  Permutation (map assigned_task_id (assignments res) ++ unscheduled_tasks res)
              (map task_id (tasks request_meeting_deadline))
  /\ (tasks request_meeting_deadline <> [] ->
      CPLNSScheduler.is_solution
        (CPLNSScheduler.status response_meeting_deadline) = false ->
      assignments res = []
      /\ unscheduled_tasks res = map task_id (tasks request_meeting_deadline))
  /\ (tasks request_meeting_deadline <> [] ->
      objective_value res
      = match CPLNSScheduler.status response_meeting_deadline with
        | CPLNSScheduler.OPTIMAL =>
            Some (CPLNSScheduler.objective response_meeting_deadline)
        | _ => None
        end).
Proof.
  apply (cp_accounts_for_every_task CPLNSScheduler.default
           request_meeting_deadline response_meeting_deadline).
  - cbn. lia.
  - distinct_ids.
  - vm_compute. reflexivity.
  - vm_compute. reflexivity.
Defined.

(** X18: a solution of the CP model leaves a task unscheduled only if
    the task has a previous assignment and no fixed start and, when a
    neighbourhood window is given, the slot of its previous start lies
    inside the slot range of the window; every other task is assigned. *)
Theorem cp_drops_only_movable_tasks (self : CPLNSScheduler.t)
    (request : ScheduleRequest) (response : CPLNSScheduler.solver_response)
    (res : ScheduleResult) (tk : ScheduleTask) :
  0 < CPLNSScheduler.granularity_minutes self ->
  NoDup (map task_id (tasks request)) ->
  CPLNSScheduler.response_ok self request response = true ->
  CPLNSScheduler.is_solution (CPLNSScheduler.status response) = true ->
  CPLNSScheduler.schedule self request response = Some res ->
  In tk (tasks request) ->
  In (task_id tk) (unscheduled_tasks res) ->
  let ix := request_indexer (CPLNSScheduler.granularity_minutes self) request in
  fixed_start tk = None
  /\ exists previous_assignment,
       dict_get (previous_of request) (task_id tk) = Some previous_assignment
       /\ forall w, neighborhood_window request = Some w ->
                    to_slot ix (fst w) <= to_slot ix (fst previous_assignment)
                                       <= to_slot_ceiling ix (snd w).
Proof.
  intros Hg Hnd Hok Hsol Hres Hin Huns ix.
  assert (Hpinned : forall p,
             pinned_slot ix (previous_of request)
               (CPLNSScheduler.window_slot_range_of ix
                  (neighborhood_window request)) tk = Some p -> False).
  { intros p Hp.
    destruct (cp_pinned_assigned self request response res Hg Hnd Hok Hsol
                Hres tk p Hin Hp) as [_ Hnot].
    apply Hnot. exact Huns. }
  unfold pinned_slot in Hpinned.
  destruct (fixed_start tk) as [fs |] eqn:Efs;
    [exfalso; apply (Hpinned _ eq_refl) |].
  split; [reflexivity |].
  destruct (dict_get (previous_of request) (task_id tk)) as [pa |] eqn:Eprev.
  - exists pa. split; [reflexivity |]. intros [w_start w_end] Hw.
    rewrite Hw in Hpinned. cbn [CPLNSScheduler.window_slot_range_of] in Hpinned.
    cbn [fst snd]. cbv zeta in Hpinned.
    destruct ((to_slot ix w_start <=? to_slot ix (fst pa))
              && (to_slot ix (fst pa) <=? to_slot_ceiling ix w_end)) eqn:E.
    + apply andb_true_iff in E. destruct E as [E1 E2].
      apply Z.leb_le in E1, E2. lia.
    + exfalso. apply (Hpinned _ eq_refl).
  - exfalso.
    destruct (cp_solution_spec self request response Hok Hsol)
      as [fixed [_ [Hlen [Hall _]]]].
    destruct (combine_defined _ _ tk Hlen Hin) as [v Hv].
    pose proof (Hall tk v Hv) as Hcons. unfold cp_task_ok in Hcons.
    pose proof (task_constraints_new_present _ _ _ _ _ _ Hcons Eprev Efs)
      as Hpres.
    destruct (cp_present_assigned self request response Hg Hnd Hok res tk v
                Hres Hsol Hv Hpres) as [_ [Hnot _]].
    apply Hnot. exact Huns.
Qed.

Lemma cp_drops_only_movable_tasks_witness :
  let tk := plain_task "task-a" 60 (on_day 9 0) (on_day 17 0) 5 in
  let ix := request_indexer 5 request_droppable in
  fixed_start tk = None
  /\ exists previous_assignment,
       dict_get (previous_of request_droppable) (task_id tk)
       = Some previous_assignment
       /\ forall w, neighborhood_window request_droppable = Some w ->
                    to_slot ix (fst w) <= to_slot ix (fst previous_assignment)
                                       <= to_slot_ceiling ix (snd w).
Proof.
  intros tk.
  apply (cp_drops_only_movable_tasks CPLNSScheduler.default request_droppable
           response_dropped (result_all_unscheduled ["task-a"%string]) tk).
  - cbn. lia.
  - distinct_ids.
  - vm_compute. reflexivity.
  - reflexivity.
  - vm_compute. reflexivity.
  - left. reflexivity.
  - left. reflexivity.
Defined.

(** X19: every assignment of the CP scheduler ends by the deadline of
    its task rounded up to the slot grid, so less than one slot after
    the deadline. *)
Theorem cp_assignment_ends_by_due_slot (self : CPLNSScheduler.t)
    (request : ScheduleRequest) (response : CPLNSScheduler.solver_response)
    (res : ScheduleResult) :
  0 < CPLNSScheduler.granularity_minutes self ->
  NoDup (map task_id (tasks request)) ->
  CPLNSScheduler.response_ok self request response = true ->
  CPLNSScheduler.schedule self request response = Some res ->
  let ix := request_indexer (CPLNSScheduler.granularity_minutes self) request in
  Forall (fun a =>
            forall tk, In tk (tasks request) ->
                       task_id tk = assigned_task_id a ->
                       assigned_end a
                       <= to_datetime ix (to_slot_ceiling ix (due tk))
                       /\ assigned_end a - due tk
                          < timedelta_minutes
                              (CPLNSScheduler.granularity_minutes self))
         (assignments res).
Proof.
  intros Hg Hnd Hok Hres ix. rewrite Forall_forall. intros a Ha tk Htk Hid.
  destruct (cp_assignment_origin self request response res Hg Hnd Hok Hres
              a tk Ha Htk Hid) as [v [Hpres [Hcons ->]]].
  unfold cp_task_ok in Hcons.
  destruct (task_constraints_present _ _ _ _ _ _ Hcons Hpres) as [_ [Hend _]].
  fold ix in Hend.
  cbn [CPLNSScheduler.make_assigned assigned_end].
  pose proof (request_indexer_pos _ request Hg) as Hix. fold ix in Hix.
  pose proof (to_slot_ceiling_spec ix Hix (due tk)) as Hc.
  apply (to_datetime_le ix Hix) in Hend. fold ix.
  assert (Hgran : granularity ix = CPLNSScheduler.granularity_minutes self)
    by apply request_indexer_gran.
  unfold slot_width in Hc. rewrite Hgran in Hc. unfold timedelta_minutes.
  split; [assumption | lia].
Qed.

Lemma cp_assignment_ends_by_due_slot_witness :
  let ix := request_indexer 5 request_due_off_grid in
  Forall (fun a =>
            forall tk, In tk (tasks request_due_off_grid) ->
                       task_id tk = assigned_task_id a ->
                       assigned_end a
                       <= to_datetime ix (to_slot_ceiling ix (due tk))
                       /\ assigned_end a - due tk
                          < timedelta_minutes
                              (CPLNSScheduler.granularity_minutes
                                 CPLNSScheduler.default))
         (assignments
            (one_assignment "task-a" (on_day 9 5) (on_day 9 35) (Some 5))).
Proof.
  apply (cp_assignment_ends_by_due_slot CPLNSScheduler.default
           request_due_off_grid response_due_off_grid).
  - cbn. lia.
  - distinct_ids.
  - vm_compute. reflexivity.
  - vm_compute. reflexivity.
Defined.

(** X20: the deviation that the CP scheduler reports for an assignment
    lies between 0 and the horizon; for a task with a previous
    assignment and no fixed start it is at least the distance between
    the start and the slot of the previous start, and for a task with
    neither it is 0. *)
Theorem cp_deviation_bounds (self : CPLNSScheduler.t)
    (request : ScheduleRequest) (response : CPLNSScheduler.solver_response)
    (res : ScheduleResult) :
  0 < CPLNSScheduler.granularity_minutes self ->
  NoDup (map task_id (tasks request)) ->
  CPLNSScheduler.response_ok self request response = true ->
  CPLNSScheduler.schedule self request response = Some res ->
  let g := CPLNSScheduler.granularity_minutes self in
  let ix := request_indexer g request in
  Forall (fun a =>
            forall tk,
              In tk (tasks request) -> task_id tk = assigned_task_id a ->
              0 <= deviation_minutes a <= request_horizon g request * g
              /\ match fixed_start tk,
                       dict_get (previous_of request) (task_id tk) with
                 | None, Some previous_assignment =>
                     Z.abs (assigned_start a
                            - to_datetime ix
                                (to_slot ix (fst previous_assignment)))
                     <= timedelta_minutes (deviation_minutes a)
                 | None, None => deviation_minutes a = 0
                 | Some _, _ => True
                 end)
         (assignments res).
Proof.
  intros Hg Hnd Hok Hres g ix. rewrite Forall_forall. intros a Ha tk Htk Hid.
  destruct (cp_assignment_origin self request response res Hg Hnd Hok Hres
              a tk Ha Htk Hid) as [v [Hpres [Hcons ->]]].
  unfold cp_task_ok in Hcons. fold g ix in Hcons.
  destruct (task_constraints_domains _ _ _ _ _ _ Hcons) as [_ [_ [_ Hdev]]].
  pose proof (task_constraints_deviation _ _ _ _ _ _ Hcons) as Hprev.
  cbn [CPLNSScheduler.make_assigned assigned_start deviation_minutes].
  fold g ix. split; [nia |].
  destruct (fixed_start tk) as [fs |]; [exact I |].
  destruct (dict_get (previous_of request) (task_id tk)) as [pa |];
    [| rewrite Hprev; lia].
  assert (Hgran : granularity ix = g) by apply request_indexer_gran.
  unfold to_datetime, timedelta_minutes. rewrite Hgran.
  assert (Hus : 0 < US_PER_MINUTE) by (unfold US_PER_MINUTE; lia).
  replace (base ix + CPLNSScheduler.start_val v * g * US_PER_MINUTE
           - (base ix + to_slot ix (fst pa) * g * US_PER_MINUTE))
    with ((CPLNSScheduler.start_val v - to_slot ix (fst pa))
          * (g * US_PER_MINUTE)) by lia.
  rewrite Z.abs_mul, (Z.abs_eq (g * US_PER_MINUTE)) by nia.
  replace (CPLNSScheduler.deviation_val v * g * US_PER_MINUTE)
    with (CPLNSScheduler.deviation_val v * (g * US_PER_MINUTE)) by lia.
  apply Z.mul_le_mono_nonneg_r; [nia | exact Hprev].
Qed.

Lemma cp_deviation_bounds_witness :
  let g := CPLNSScheduler.granularity_minutes CPLNSScheduler.default in
  let ix := request_indexer g request_lns in
  Forall (fun a =>
            forall tk,
              In tk (tasks request_lns) -> task_id tk = assigned_task_id a ->
              0 <= deviation_minutes a <= request_horizon g request_lns * g
              /\ match fixed_start tk,
                       dict_get (previous_of request_lns) (task_id tk) with
                 | None, Some previous_assignment =>
                     Z.abs (assigned_start a
                            - to_datetime ix
                                (to_slot ix (fst previous_assignment)))
                     <= timedelta_minutes (deviation_minutes a)
                 | None, None => deviation_minutes a = 0
                 | Some _, _ => True
                 end)
         (assignments result_lns).
Proof.
  apply (cp_deviation_bounds CPLNSScheduler.default request_lns response_lns).
  - cbn. lia.
  - distinct_ids.
  - vm_compute. reflexivity.
  - vm_compute. reflexivity.
Defined.

(** X21: under the solver's contract and with distinct task ids, the
    assignments of a result of the CP scheduler are listed in
    chronological order: each one ends before the ones listed after it
    start. *)
Theorem cp_assignments_chronological (self : CPLNSScheduler.t)
    (request : ScheduleRequest) (response : CPLNSScheduler.solver_response)
    (res : ScheduleResult) :
  0 < CPLNSScheduler.granularity_minutes self ->
  NoDup (map task_id (tasks request)) ->
  CPLNSScheduler.response_ok self request response = true ->
  CPLNSScheduler.schedule self request response = Some res ->
  chronological (assignments res).
Proof.
  intros Hg Hnd Hok Hres.
  destruct (cp_schedule_sorted self request response res Hres) as [l Hl].
  destruct (tasks request) as [| t0 ts] eqn:Et.
  { rewrite (non_solution_no_assignments self request response res Hres
               (or_introl Et)). constructor. }
  assert (Hne : tasks request <> []) by congruence.
  rewrite <- Et in Hnd. clear Et.
  destruct (CPLNSScheduler.is_solution (CPLNSScheduler.status response)) eqn:Es.
  2:{ rewrite (non_solution_no_assignments self request response res Hres
                 (or_intror Es)). constructor. }
  destruct (cp_result_spec self request response Hg Hnd Hok res Hres Es Hne)
    as [fixed [_ [_ [_ [Hno Hall]]]]].
  apply chronological_of_sorted; [| exact Hno |].
  - rewrite Hl. apply sorted_by_start. reflexivity.
  - rewrite Forall_forall in *. intros a Ha.
    destruct (Hall a Ha) as [tk [_ [v [_ [Hpres [Hcons [_ ->]]]]]]].
    unfold cp_task_ok in Hcons.
    destruct (task_constraints_present _ _ _ _ _ _ Hcons Hpres) as [Hlen _].
    cbn [CPLNSScheduler.make_assigned assigned_start assigned_end].
    apply to_datetime_lt; [apply request_indexer_pos; assumption |].
    pose proof (duration_to_slots_pos
                  (request_indexer (CPLNSScheduler.granularity_minutes self)
                     request) (duration_minutes tk)).
    lia.
Qed.

Lemma cp_assignments_chronological_witness :
  chronological (assignments (result_meeting_deadline (Some 120))).
Proof.
  apply (cp_assignments_chronological CPLNSScheduler.default
           request_meeting_deadline response_meeting_deadline).
  - cbn. lia.
  - distinct_ids.
  - vm_compute. reflexivity.
  - vm_compute. reflexivity.
Defined.

(** ** The service around the squeaky-wheel scheduler *)

Lemma construct_loop_unscheduled
    (segment_infos : dict SWOScheduler._SegmentInfo) (horizon_slots : Z)
    (order : list ScheduleTask) (st st' : SWOScheduler.pass_state) (k : string) :
  SWOScheduler.construct_loop segment_infos horizon_slots order st = Some st' ->
  In k (SWOScheduler.pass_unscheduled st') ->
  In k (SWOScheduler.pass_unscheduled st) \/ In k (map task_id order).
Proof.
  revert st. induction order as [| tk r IH]; intros st H Hk.
  - cbn in H. injection H as <-. left. exact Hk.
  - cbn [SWOScheduler.construct_loop] in H.
    destruct (SWOScheduler.construct_step segment_infos horizon_slots st tk)
      as [st1 |] eqn:E; [| discriminate].
    cbn [obind] in H. destruct (IH st1 H Hk) as [H1 | H1];
      [| right; right; exact H1].
    unfold SWOScheduler.construct_step in E.
    destruct (dict_get segment_infos (task_id tk)) as [info |]; [| discriminate].
    cbn [obind] in E.
    destruct (SWOScheduler._find_slot info (SWOScheduler.occupancy st)
                horizon_slots) as [[s |] |]; cbn [obind] in E;
      [| | discriminate].
    + destruct (SWOScheduler.mark_occupied _ _) as [occ' |]; [| discriminate].
      cbn [obind] in E. injection E as <-. left. exact H1.
    + injection E as <-. cbn [SWOScheduler.pass_unscheduled] in H1.
      apply in_app_or in H1. destruct H1 as [H1 | [<- | []]];
        [left; exact H1 | right; left; reflexivity].
Qed.

(** The unscheduled ids of the result of a pass are ids of tasks. *)
Lemma pass_result_unscheduled
    (segment_infos : dict SWOScheduler._SegmentInfo)
    (base_occupancy : list bool) (horizon_slots : Z) (ix : _TimeIndexer)
    (all_tasks : list ScheduleTask) (r : ScheduleResult) (k : string) :
  is_pass_result segment_infos base_occupancy horizon_slots ix all_tasks r ->
  In k (unscheduled_tasks r) -> In k (map task_id all_tasks).
Proof.
  intros [order [asg [uns [Hperm [E1 E2]]]]] Hk.
  destruct (build_result_fields _ _ _ _ _ E2) as [Huns _].
  rewrite Huns in Hk. unfold SWOScheduler._construct_schedule in E1.
  destruct (SWOScheduler.construct_loop segment_infos horizon_slots order _)
    as [st |] eqn:Eloop; [| discriminate].
  cbn [obind] in E1. injection E1 as _ <-.
  destruct (construct_loop_unscheduled _ _ _ _ _ k Eloop Hk) as [[] | H].
  eapply Permutation_in;
    [apply Permutation_map, Permutation_sym; exact Hperm | exact H].
Qed.

(** The root of the id of a task of the request is the id of a row. *)
Lemma fan_out_root_in_rows
    (grouped : dict (list (datetime * datetime))) (rows : list Task)
    (k : string) :
  uuid_ids rows = true ->
  let exp := expand_tasks grouped rows empty_expansion in
  In k (map task_id (expanded_tasks exp)) ->
  In (root_id (schedule_mapping exp) k) (map task_row_id rows).
Proof.
  intros Hu exp Hk. unfold exp in Hk. rewrite expand_tasks_tasks in Hk.
  cbn [expanded_tasks empty_expansion app] in Hk.
  apply in_map_iff in Hk. destruct Hk as [s [Hid Hs]].
  apply in_flat_map in Hs. destruct Hs as [tk [Htk Hs]].
  assert (Hs' : In (task_id s) (map task_id (segment_tasks tk)))
    by (apply in_map; assumption).
  apply segment_tasks_from_ids in Hs'. destruct Hs' as [j [Hj Hsid]].
  destruct (expand_tasks_mapping grouped rows empty_expansion)
    as [_ [_ Hget]]; [intros k' v H; discriminate | assumption |].
  unfold root_id, dict_get_default. fold exp in Hget.
  rewrite <- Hid, Hsid. cbn [Nat.add]. rewrite (Hget tk j Htk Hj).
  apply in_map. assumption.
Qed.

(** X22: a run of the service with the squeaky-wheel scheduler, up to
    the remapped result: the scheduler returns a result for the request
    that the service builds from the task rows, and after the remap
    every assignment and every unscheduled id carries the id of a task
    row, and the assignments do not overlap. *)
Theorem service_swo_run_refers_to_rows (self : SWOScheduler.t)
    (previous_snapshot : option (list TaskAssignment)) (rows : list Task)
    (ms : list Meeting) (window : option (datetime * datetime)) :
  0 < SWOScheduler.granularity_minutes self ->
  0 < SWOScheduler.max_iterations self ->
  uuid_ids rows = true ->
  let request := fst (request_of_rows previous_snapshot rows ms window) in
  let mapping := snd (request_of_rows previous_snapshot rows ms window) in
  exists res,
    SWOScheduler.schedule self request = Some res
    /\ let remapped := fst (remapped_with_metrics res mapping) in
       Forall (fun a => In (assigned_task_id a) (map task_row_id rows))
              (assignments remapped)
       /\ Forall (fun k => In k (map task_row_id rows))
                 (unscheduled_tasks remapped)
       /\ non_overlapping (assignments remapped).
Proof.
  intros Hg Hmax Hu request mapping.
  set (grouped := match previous_snapshot with
                  | Some snapshot => assignments_as_mapping snapshot
                  | None => []
                  end).
  assert (Hroot : forall k, In k (map task_id (tasks request)) ->
                            In (root_id mapping k) (map task_row_id rows)).
  { intros k Hk. apply (fan_out_root_in_rows grouped rows k Hu). exact Hk. }
  destruct (tasks request) as [| t0 ts] eqn:Et.
  { exists empty_result. split.
    - unfold SWOScheduler.schedule. rewrite Et. reflexivity.
    - cbn. repeat split; constructor. }
  assert (Hne : tasks request <> []) by congruence.
  rewrite <- Et in Hroot. clear Et t0 ts.
  destruct (swo_schedule_run self request Hg Hne)
    as [occ [st [_ [_ [_ [[_ [_ Hbest]] [Hsome E]]]]]]].
  exists (result_of_loop request st). split; [exact E |].
  destruct (swo_result_spec self request Hg _ E Hne) as [occ' [_ [Hno Hall]]].
  cbn [remapped_with_metrics fst _remap_schedule_result assignments
       unscheduled_tasks].
  split; [| split].
  - rewrite Forall_map, Forall_forall. rewrite Forall_forall in Hall.
    intros a Ha. cbn [assigned_task_id].
    destruct (Hall a Ha) as [tk [Htk [s [_ ->]]]].
    cbn [SWOScheduler.make_assigned assigned_task_id].
    apply Hroot, in_map. exact Htk.
  - rewrite Forall_forall. intros k Hk.
    apply (proj1 (proj2 (proj2 (sorted_set_spec _)) k)) in Hk.
    apply in_map_iff in Hk. destruct Hk as [seg [<- Hseg]].
    apply Hroot. unfold result_of_loop in Hseg.
    destruct (SWOScheduler.best_result st) as [r |];
      [| exfalso; apply (Hsome Hmax); reflexivity].
    cbn [unscheduled_tasks] in Hseg.
    eapply pass_result_unscheduled; eassumption.
  - apply ForallOrdPairs_map.
    eapply ForallOrdPairs_impl; [| exact Hno]. intros a b Hab. exact Hab.
Qed.

Lemma service_swo_run_refers_to_rows_witness :
  let request := fst (request_of_rows None two_rows [] None) in
  let mapping := snd (request_of_rows None two_rows [] None) in
  exists res,
    SWOScheduler.schedule SWOScheduler.default request = Some res
    /\ let remapped := fst (remapped_with_metrics res mapping) in
       Forall (fun a => In (assigned_task_id a) (map task_row_id two_rows))
              (assignments remapped)
       /\ Forall (fun k => In k (map task_row_id two_rows))
                 (unscheduled_tasks remapped)
       /\ non_overlapping (assignments remapped).
Proof.
  apply (service_swo_run_refers_to_rows SWOScheduler.default None two_rows
           [] None).
  - cbn. lia.
  - cbn. lia.
  - vm_compute. reflexivity.
Defined.

(** ** Fixed intervals that overlap *)

Section CPFixedIntervals.

Import CPLNSScheduler.

Variable self : t.
Variable ix : _TimeIndexer.
Variable horizon_slots : Z.

Lemma add_block_interval_app (intervals : list (Z * Z))
    (start_dt end_dt : datetime) :
  add_block_interval ix horizon_slots intervals start_dt end_dt
  = intervals ++ add_block_interval ix horizon_slots [] start_dt end_dt.
Proof.
  unfold add_block_interval. destruct (_ <=? _);
    [rewrite List.app_nil_r |]; reflexivity.
Qed.

(** The loop over the days only appends blocks to the intervals. *)
Lemma day_loop_app (horizon_end_dt : datetime) (fuel : nat)
    (current_day : datetime) (intervals : list (Z * Z)) :
  day_loop self ix horizon_slots horizon_end_dt fuel current_day intervals
  = option_map (app intervals)
      (day_loop self ix horizon_slots horizon_end_dt fuel current_day []).
Proof.
  revert current_day intervals.
  induction fuel as [| fuel IH]; intros current_day intervals; cbn [day_loop].
  - cbn. rewrite List.app_nil_r. reflexivity.
  - destruct (current_day <? horizon_end_dt);
      [| cbn; rewrite List.app_nil_r; reflexivity].
    destruct (replace_hour_checked current_day (working_day_start_hour self))
      as [ws |]; [| reflexivity].
    cbn [obind].
    destruct (replace_hour_checked current_day (working_day_end_hour self))
      as [we |]; [| reflexivity].
    cbn [obind]. rewrite IH. symmetry. rewrite IH. symmetry.
    rewrite (add_block_interval_app (add_block_interval _ _ intervals _ _)).
    rewrite (add_block_interval_app intervals).
    rewrite (add_block_interval_app (add_block_interval _ _ [] _ _)).
    cbn [app].
    destruct (day_loop self ix horizon_slots horizon_end_dt fuel _ []);
      cbn [option_map]; [| reflexivity].
    rewrite <- !app_assoc. reflexivity.
Qed.

Hypothesis granularity_pos : 0 < granularity ix.

(** The fixed intervals are the intervals of the meetings followed by
    blocks that cover every instant of the horizon outside the working
    hours. *)
Lemma fixed_intervals_blocks (ms : list ScheduleMeeting)
    (fixed : list (Z * Z)) :
  fixed_intervals self ix horizon_slots ms = Some fixed ->
  exists blocks,
    fixed = map (meeting_interval ix) ms ++ blocks
    /\ forall t,
         base ix <= t < to_datetime ix horizon_slots ->
         ~ working (working_day_start_hour self) (working_day_end_hour self) t ->
         covered_by ix blocks t.
Proof.
  intros Hfixed.
  assert (Hsame : fixed_intervals self ix horizon_slots ms
                  = option_map (app (map (meeting_interval ix) ms))
                      (fixed_intervals self ix horizon_slots [])).
  { unfold fixed_intervals. cbn [map].
    destruct ((working_day_start_hour self >? 0)
              || (working_day_end_hour self <? 24));
      [apply day_loop_app | cbn; rewrite List.app_nil_r; reflexivity]. }
  rewrite Hsame in Hfixed.
  destruct (fixed_intervals self ix horizon_slots []) as [blocks |] eqn:E;
    [| discriminate].
  cbn in Hfixed. injection Hfixed as <-. exists blocks.
  split; [reflexivity |].
  apply (fixed_intervals_cover self ix horizon_slots granularity_pos [] blocks E).
Qed.

End CPFixedIntervals.

Lemma ForallOrdPairs_split {A} (R : A -> A -> Prop) (l1 l2 l3 : list A)
    (x y : A) :
  ForallOrdPairs R (l1 ++ x :: l2 ++ y :: l3) -> R x y.
Proof.
  induction l1 as [| a r IH]; cbn; intros H.
  - inversion H as [| ? ? Hx _]; subst. rewrite Forall_forall in Hx.
    apply Hx. apply in_or_app. right. left. reflexivity.
  - inversion H; subst. auto.
Qed.

(** A response to a model whose fixed intervals overlap carries no
    solution, so every task comes back unscheduled. *)
Lemma cp_conflict_unschedules_all (self : CPLNSScheduler.t)
    (request : ScheduleRequest) (response : CPLNSScheduler.solver_response)
    (res : ScheduleResult) :
  tasks request <> [] ->
  CPLNSScheduler.response_ok self request response = true ->
  CPLNSScheduler.schedule self request response = Some res ->
  (forall fixed,
      CPLNSScheduler.fixed_intervals self
        (request_indexer (CPLNSScheduler.granularity_minutes self) request)
        (request_horizon (CPLNSScheduler.granularity_minutes self) request)
        (meetings request) = Some fixed ->
      CPLNSScheduler.no_overlap fixed = false) ->
  res = {| assignments := [];
           unscheduled_tasks := map task_id (tasks request);
           objective_value := None |}.
Proof.
  intros Hne Hok Hres Hconflict.
  destruct (CPLNSScheduler.is_solution (CPLNSScheduler.status response)) eqn:Es.
  - exfalso.
    destruct (cp_solution_spec self request response Hok Es)
      as [fixed [Efix [_ [_ Hno]]]].
    specialize (Hconflict fixed Efix).
    assert (CPLNSScheduler.no_overlap fixed = true); [| congruence].
    clear -Hno.
    induction (CPLNSScheduler.task_intervals (CPLNSScheduler.values response))
      as [| x r IH]; [exact Hno |].
    cbn in Hno. apply andb_true_iff in Hno. apply IH, Hno.
  - unfold CPLNSScheduler.schedule in Hres.
    destruct (tasks request) as [| t0 ts]; [congruence |].
    destruct (CPLNSScheduler.fixed_intervals _ _ _ _); [| discriminate].
    cbn [obind] in Hres. rewrite Es in Hres. cbn [negb] in Hres.
    injection Hres as <-. reflexivity.
Qed.

(** X23: when the slot intervals of two meetings of a request overlap,
    the model of the CP scheduler has no solution: under the solver's
    contract the result has no assignment and every task is unscheduled. *)
Theorem cp_overlapping_meetings_unschedule_all (self : CPLNSScheduler.t)
    (request : ScheduleRequest) (response : CPLNSScheduler.solver_response)
    (res : ScheduleResult) (pre mid post : list ScheduleMeeting)
    (m1 m2 : ScheduleMeeting) :
  0 < CPLNSScheduler.granularity_minutes self ->
  tasks request <> [] ->
  CPLNSScheduler.response_ok self request response = true ->
  CPLNSScheduler.schedule self request response = Some res ->
  meetings request = pre ++ m1 :: mid ++ m2 :: post ->
  let ix := request_indexer (CPLNSScheduler.granularity_minutes self) request in
  CPLNSScheduler.disjointb (CPLNSScheduler.meeting_interval ix m1)
                           (CPLNSScheduler.meeting_interval ix m2) = false ->
  res = {| assignments := [];
           unscheduled_tasks := map task_id (tasks request);
           objective_value := None |}.
Proof.
  intros Hg Hne Hok Hres Hms ix Hover.
  apply (cp_conflict_unschedules_all self request response res Hne Hok Hres).
  intros fixed Efix. fold ix in Efix.
  destruct (fixed_intervals_blocks self ix _
              (request_indexer_pos _ request Hg) _ _ Efix) as [blocks [-> _]].
  destruct (CPLNSScheduler.no_overlap _) eqn:Eno; [| reflexivity].
  apply no_overlap_pairs in Eno. rewrite Hms in Eno.
  rewrite map_app in Eno. cbn [map] in Eno. rewrite map_app in Eno.
  cbn [map] in Eno. rewrite <- !app_assoc in Eno. cbn [app] in Eno.
  rewrite <- app_assoc in Eno. cbn [app] in Eno.
  apply ForallOrdPairs_split in Eno. congruence.
Qed.

Lemma cp_overlapping_meetings_unschedule_all_witness :
  result_all_unscheduled ["task-a"; "task-b"]%string
  = {| assignments := [];
       unscheduled_tasks := map task_id (tasks request_overlapping_meetings);
       objective_value := None |}.
Proof.
  apply (cp_overlapping_meetings_unschedule_all CPLNSScheduler.default
           request_overlapping_meetings response_infeasible
           (result_all_unscheduled ["task-a"; "task-b"]%string)
           [] [] [] meeting_10_11 meeting_1030_1130).
  - cbn. lia.
  - discriminate.
  - reflexivity.
  - vm_compute. reflexivity.
  - reflexivity.
  - vm_compute. reflexivity.
Defined.




(** ** The grid of a request *)

Lemma list_min_in (x : Z) (l : list Z) : In (list_min x l) (x :: l).
Proof.
  unfold list_min. revert x. induction l as [| y r IH]; intros x; cbn.
  - left. reflexivity.
  - destruct (IH (Z.min x y)) as [H | H]; [| right; right; exact H].
    rewrite <- H. destruct (Z.min_spec x y) as [[_ ->] | [_ ->]]; auto.
Qed.

(** The base is the least candidate, rounded down to a whole minute and
    then to a multiple of the granularity within its hour. *)
Lemma base_start_of_spec (g : Z) (t0 : ScheduleTask) (ts : list ScheduleTask)
    (ms : list ScheduleMeeting) :
  0 < g ->
  let b := base_start_of g t0 ts ms in
  b mod US_PER_MINUTE = 0
  /\ dt_minute b mod g = 0
  /\ exists c,
       In c (map earliest_start (t0 :: ts) ++ map meeting_start ms)
       /\ c - timedelta_minutes (g + 1) < b <= c.
Proof.
  intros Hg. unfold base_start_of.
  set (cands := map earliest_start ts ++
                match ms with [] => [] | _ => map meeting_start ms end).
  pose proof (list_min_in (earliest_start t0) cands) as Hin.
  set (m := list_min (earliest_start t0) cands) in *.
  assert (Hus : 0 < US_PER_MINUTE) by (unfold US_PER_MINUTE; lia).
  set (M := m / US_PER_MINUTE).
  assert (Hb1 : replace_second_zero m = M * US_PER_MINUTE).
  { unfold replace_second_zero, M.
    pose proof (Z.div_mod m US_PER_MINUTE ltac:(lia)). lia. }
  pose proof (Z.mod_pos_bound m US_PER_MINUTE Hus) as Hsec.
  assert (Hm : M * US_PER_MINUTE <= m < M * US_PER_MINUTE + US_PER_MINUTE).
  { unfold M. pose proof (Z.div_mod m US_PER_MINUTE ltac:(lia)). lia. }
  rewrite Hb1.
  assert (Hminute : dt_minute (M * US_PER_MINUTE) = M mod 60).
  { unfold dt_minute. rewrite Z.div_mul by lia. reflexivity. }
  rewrite Hminute.
  set (off := (M mod 60) mod g).
  pose proof (Z.mod_pos_bound M 60 ltac:(lia)) as H60.
  pose proof (Z.mod_pos_bound (M mod 60) g Hg) as Hoff. fold off in Hoff.
  assert (Hoff_le : off <= M mod 60)
    by (unfold off; apply Z.mod_le; lia).
  assert (Hgoal : forall b : datetime,
             b = (M - off) * US_PER_MINUTE ->
             b mod US_PER_MINUTE = 0
             /\ dt_minute b mod g = 0
             /\ exists c,
                  In c (map earliest_start (t0 :: ts) ++ map meeting_start ms)
                  /\ c - timedelta_minutes (g + 1) < b <= c).
  { intros b ->. split; [apply Z_mod_mult |]. split.
    - unfold dt_minute. rewrite Z.div_mul by lia.
      assert (Hsame : (M - off) mod 60 = M mod 60 - off).
      { pose proof (Z.div_mod M 60 ltac:(lia)) as Hdm.
        symmetry. apply Z.mod_unique with (q := M / 60); lia. }
      rewrite Hsame. unfold off.
      pose proof (Z.div_mod (M mod 60) g ltac:(lia)) as Hdm.
      replace (M mod 60 - (M mod 60) mod g) with ((M mod 60 / g) * g) by lia.
      apply Z_mod_mult.
    - exists m. split.
      + cbn [map app]. destruct Hin as [<- | Hin]; [left; reflexivity |].
        right. unfold cands in Hin. apply in_or_app.
        apply in_app_or in Hin. destruct Hin as [Hin | Hin]; [left; exact Hin |].
        right. destruct ms; [contradiction | exact Hin].
      + unfold timedelta_minutes. nia. }
  apply Hgoal. unfold timedelta_minutes.
  destruct (off =? 0) eqn:E0; [apply Z.eqb_eq in E0 |]; lia.
Qed.

(** X25: the grid that both schedulers lay over a request with tasks.
    The base lies on a whole minute whose minute of the hour is a
    multiple of the granularity, at most [granularity + 1] minutes
    before the earliest of the earliest starts and meeting starts and
    after none of them; the horizon has at least 10 slots and reaches 10
    slots past every deadline and every end of a meeting. *)
Theorem request_grid_covers_request (g : Z) (request : ScheduleRequest) :
  0 < g ->
  tasks request <> [] ->
  let ix := request_indexer g request in
  let hz := request_horizon g request in
  base ix mod US_PER_MINUTE = 0
  /\ dt_minute (base ix) mod g = 0
  /\ Forall (fun c => base ix <= c) (base_candidates request)
  /\ (exists c, In c (base_candidates request)
                /\ c - timedelta_minutes (g + 1) < base ix)
  /\ 10 <= hz
  /\ Forall (fun tk => to_slot_ceiling ix (due tk) + 10 <= hz) (tasks request)
  /\ Forall (fun m => to_slot_ceiling ix (meeting_end m) + 10 <= hz)
            (meetings request).
Proof.
  intros Hg Hne ix hz.
  pose proof (request_indexer_pos g request Hg) as Hix. fold ix in Hix.
  destruct (horizon_slots_of_ge ix (tasks request) (meetings request) Hix)
    as [Hhz [Hdues Hends]].
  assert (Hbase : base ix mod US_PER_MINUTE = 0
                  /\ dt_minute (base ix) mod g = 0
                  /\ Forall (fun c => base ix <= c) (base_candidates request)
                  /\ exists c, In c (base_candidates request)
                               /\ c - timedelta_minutes (g + 1) < base ix).
  { unfold ix, request_indexer, base_candidates.
    destruct (tasks request) as [| t0 ts]; [congruence |]. cbn [base].
    destruct (base_start_of_spec g t0 ts (meetings request) Hg)
      as [H1 [H2 [c [Hc Hr]]]].
    destruct (base_start_of_le g t0 ts (meetings request) Hg) as [Hts Hms].
    split; [exact H1 |]. split; [exact H2 |]. split.
    - apply Forall_app. split; apply Forall_map; assumption.
    - exists c. split; [exact Hc | lia]. }
  destruct Hbase as [H1 [H2 [H3 H4]]].
  repeat (split; [assumption |]). assumption.
Qed.

Lemma request_grid_covers_request_witness :
  let ix := request_indexer 15 request_early_meeting in
  let hz := request_horizon 15 request_early_meeting in
  base ix mod US_PER_MINUTE = 0
  /\ dt_minute (base ix) mod 15 = 0
  /\ Forall (fun c => base ix <= c) (base_candidates request_early_meeting)
  /\ (exists c, In c (base_candidates request_early_meeting)
                /\ c - timedelta_minutes (15 + 1) < base ix)
  /\ 10 <= hz
  /\ Forall (fun tk => to_slot_ceiling ix (due tk) + 10 <= hz)
            (tasks request_early_meeting)
  /\ Forall (fun m => to_slot_ceiling ix (meeting_end m) + 10 <= hz)
            (meetings request_early_meeting).
Proof.
  apply (request_grid_covers_request 15 request_early_meeting).
  - lia.
  - discriminate.
Defined.

(** ** The base occupancy of the squeaky-wheel scheduler *)

Section BaseOccupancyExact.

Import SWOScheduler.

Variable self : t.
Variable ix : _TimeIndexer.

Lemma block_hours_loop_exact (slots : list Z) (occ : list bool) :
  (forall i, In i slots -> 0 <= i < len occ) ->
  exists occ',
    block_hours_loop self ix slots occ = Some occ'
    /\ len occ' = len occ
    /\ forall idx, 0 <= idx ->
         list_get occ' idx
         = if existsb (Z.eqb idx) slots
              && outside_working_hours self (to_datetime ix idx)
           then Some true else list_get occ idx.
Proof.
  revert occ. induction slots as [| i r IH]; intros occ Hin; cbn.
  - exists occ. auto.
  - pose proof (Hin i (or_introl eq_refl)) as Hi.
    destruct (outside_working_hours self (to_datetime ix i)) eqn:Eout.
    + destruct (list_set_defined occ i true) as [occ1 E1]; [assumption |].
      rewrite E1. cbn [obind].
      destruct (list_set_spec _ _ _ _ (proj1 Hi) E1) as [Hlen1 Hget1].
      destruct (IH occ1) as [occ' [E' [Hlen' Hget']]].
      { intros j Hj. rewrite Hlen1. apply Hin. right. assumption. }
      exists occ'. split; [assumption |]. split; [congruence |].
      intros idx Hidx. rewrite Hget', Hget1 by assumption.
      destruct (idx =? i) eqn:E; cbn [orb].
      * apply Z.eqb_eq in E. subst idx. rewrite Eout.
        destruct (existsb (Z.eqb i) r); reflexivity.
      * reflexivity.
    + destruct (IH occ) as [occ' [E' [Hlen' Hget']]].
      { intros j Hj. apply Hin. right. assumption. }
      exists occ'. split; [assumption |]. split; [assumption |].
      intros idx Hidx. rewrite Hget' by assumption.
      destruct (idx =? i) eqn:E; cbn [orb]; [| reflexivity].
      apply Z.eqb_eq in E. subst idx. rewrite Eout.
      rewrite !andb_false_r. reflexivity.
Qed.

Lemma block_hours_exact (horizon_slots : Z) (occ : list bool) :
  len occ = horizon_slots ->
  exists occ',
    block_hours self ix horizon_slots occ = Some occ'
    /\ len occ' = len occ
    /\ forall idx, 0 <= idx < horizon_slots ->
         list_get occ' idx
         = if outside_working_hours self (to_datetime ix idx)
           then Some true else list_get occ idx.
Proof.
  intros Hlen. unfold block_hours.
  destruct ((working_day_start_hour self >? 0)
            || (working_day_end_hour self <? 24)) eqn:Eg.
  - destruct (block_hours_loop_exact (range 0 horizon_slots) occ)
      as [occ' [E [Hl Hget]]].
    { intros i Hi. apply in_range in Hi. lia. }
    exists occ'. split; [assumption |]. split; [assumption |].
    intros idx Hidx. rewrite Hget by lia.
    replace (existsb (Z.eqb idx) (range 0 horizon_slots)) with true;
      [reflexivity |].
    symmetry. apply existsb_exists. exists idx.
    split; [apply in_range; assumption | apply Z.eqb_refl].
  - apply orb_false_iff in Eg. destruct Eg as [E1 E2].
    exists occ. split; [reflexivity |]. split; [reflexivity |].
    intros idx _.
    rewrite (outside_working_hours_whole_day self); [reflexivity | lia | lia].
Qed.

Lemma block_meetings_exact (horizon_slots : Z) (ms : list ScheduleMeeting)
    (occ : list bool) :
  len occ = horizon_slots ->
  exists occ',
    block_meetings ix horizon_slots ms occ = Some occ'
    /\ len occ' = len occ
    /\ forall idx, 0 <= idx < horizon_slots ->
         list_get occ' idx
         = if existsb (fun m => meeting_touches ix m idx) ms
           then Some true else list_get occ idx.
Proof.
  revert occ. induction ms as [| m r IH]; intros occ Hlen; cbn.
  - exists occ. auto.
  - destruct (mark_occupied_spec _ occ
                (Z.max 0 (to_slot ix (meeting_start m)))
                (Z.min horizon_slots (to_slot_ceiling ix (meeting_end m)))
                eq_refl) as [occ1 [E1 [Hlen1 Hget1]]]; [lia | lia |].
    rewrite E1. cbn [obind].
    destruct (IH occ1) as [occ' [E' [Hlen' Hget']]]; [congruence |].
    exists occ'. split; [assumption |]. split; [congruence |].
    intros idx Hidx. rewrite Hget' by assumption. rewrite Hget1 by lia.
    replace ((Z.max 0 (to_slot ix (meeting_start m)) <=? idx)
             && (idx <? Z.min horizon_slots
                          (to_slot_ceiling ix (meeting_end m))))
      with (meeting_touches ix m idx).
    + destruct (meeting_touches ix m idx); cbn [orb];
        [destruct (existsb _ r); reflexivity | reflexivity].
    + unfold meeting_touches.
      destruct (to_slot ix (meeting_start m) <=? idx) eqn:A1;
        destruct (idx <? to_slot_ceiling ix (meeting_end m)) eqn:A2;
        destruct (Z.max 0 (to_slot ix (meeting_start m)) <=? idx) eqn:B1;
        destruct (idx <? Z.min horizon_slots
                           (to_slot_ceiling ix (meeting_end m))) eqn:B2;
        cbn; try reflexivity; lia.
Qed.

End BaseOccupancyExact.

(** X26: the base occupancy of the squeaky-wheel scheduler has one entry
    per slot of the horizon, and a slot is taken exactly when it starts
    outside the working hours or a meeting touches it. *)
Theorem swo_base_occupancy_exact (self : SWOScheduler.t) (ix : _TimeIndexer)
    (horizon_slots : Z) (ms : list ScheduleMeeting) :
  0 <= horizon_slots ->
  exists base_occupancy,
    SWOScheduler.base_occupancy_of self ix horizon_slots ms
    = Some base_occupancy
    /\ len base_occupancy = horizon_slots
    /\ forall idx, 0 <= idx < horizon_slots ->
         list_get base_occupancy idx
         = Some (SWOScheduler.outside_working_hours self (to_datetime ix idx)
                 || existsb (fun m => meeting_touches ix m idx) ms).
Proof.
  intros Hh. unfold SWOScheduler.base_occupancy_of.
  destruct (block_hours_exact self ix horizon_slots
              (repeat false (Z.to_nat horizon_slots)) (len_repeat _ _ Hh))
    as [occ1 [E1 [Hlen1 Hget1]]].
  rewrite E1. cbn [obind]. rewrite len_repeat in Hlen1 by assumption.
  destruct (block_meetings_exact ix horizon_slots ms occ1 Hlen1)
    as [occ [E [Hlen Hget]]].
  exists occ. split; [assumption |]. split; [congruence |].
  intros idx Hidx. rewrite Hget, Hget1 by assumption.
  assert (Hinit : list_get (repeat false (Z.to_nat horizon_slots)) idx
                  = Some false).
  { destruct (list_get_defined (repeat false (Z.to_nat horizon_slots)) idx)
      as [b Hb]; [rewrite len_repeat; assumption |].
    rewrite Hb. f_equal. eapply list_get_repeat. exact Hb. }
  rewrite Hinit.
  destruct (SWOScheduler.outside_working_hours self (to_datetime ix idx));
    destruct (existsb _ ms); reflexivity.
Qed.

Lemma swo_base_occupancy_exact_witness :
  let ix := request_indexer 15 request_meeting_deadline in
  exists base_occupancy,
    SWOScheduler.base_occupancy_of SWOScheduler.default ix 42
      (meetings request_meeting_deadline) = Some base_occupancy
    /\ len base_occupancy = 42
    /\ forall idx, 0 <= idx < 42 ->
         list_get base_occupancy idx
         = Some (SWOScheduler.outside_working_hours SWOScheduler.default
                   (to_datetime ix idx)
                 || existsb (fun m => meeting_touches ix m idx)
                      (meetings request_meeting_deadline)).
Proof.
  intros ix.
  apply (swo_base_occupancy_exact SWOScheduler.default ix 42
           (meetings request_meeting_deadline)).
  lia.
Defined.

(** ** Tasks that cannot be placed *)

(** X27: the squeaky-wheel scheduler leaves out a task whose window is
    too short for it, that is whose deadline slot comes before its
    earliest slot plus its length in slots: with distinct task ids and
    at least one iteration, the task is unscheduled and has no
    assignment; the other tasks are placed as usual. *)
Theorem swo_leaves_out_task_that_cannot_fit (self : SWOScheduler.t)
    (request : ScheduleRequest) (res : ScheduleResult) (tk : ScheduleTask) :
  0 < SWOScheduler.granularity_minutes self ->
  0 < SWOScheduler.max_iterations self ->
  NoDup (map task_id (tasks request)) ->
  SWOScheduler.schedule self request = Some res ->
  In tk (tasks request) ->
  let ix := request_indexer (SWOScheduler.granularity_minutes self) request in
  to_slot_ceiling ix (due tk)
  < to_slot_ceiling ix (earliest_start tk)
    + duration_to_slots ix (duration_minutes tk) ->
  In (task_id tk) (unscheduled_tasks res)
  /\ forall a, In a (assignments res) -> assigned_task_id a <> task_id tk.
Proof.
  intros Hg Hmax Hnd Hres Htk ix Htight.
  assert (Hne : tasks request <> []) by (intros E; rewrite E in Htk; exact Htk).
  assert (Hnone : forall a, In a (assignments res) ->
                            assigned_task_id a <> task_id tk).
  { intros a Ha Hid.
    destruct (swo_result_spec self request Hg res Hres Hne) as [occ [_ [_ Hall]]].
    rewrite Forall_forall in Hall.
    destruct (Hall a Ha) as [tk' [Htk' Horigin]].
    destruct (swo_assignment_slots self request occ tk' a Horigin)
      as [s [Hid' [_ [_ [Hlo [Hhi _]]]]]].
    assert (tk' = tk).
    { apply (task_of_id_unique (tasks request)); try assumption. congruence. }
    subst tk'. fold ix in Hlo, Hhi. lia. }
  split; [| exact Hnone].
  destruct (swo_schedule_run self request Hg Hne)
    as [occ [st [_ [_ [_ [[_ [_ Hbest]] [Hsome E]]]]]]].
  rewrite E in Hres. injection Hres as <-. unfold result_of_loop in *.
  destruct (SWOScheduler.best_result st) as [r |];
    [| exfalso; apply (Hsome Hmax); reflexivity].
  cbn [assignments unscheduled_tasks] in *.
  pose proof (pass_result_ids _ _ _ _ _ _ Hbest Hnd) as Hperm.
  assert (Hin : In (task_id tk)
                   (map assigned_task_id (assignments r) ++ unscheduled_tasks r)).
  { eapply Permutation_in; [apply Permutation_sym; exact Hperm |].
    apply in_map. exact Htk. }
  apply in_app_or in Hin. destruct Hin as [Hin | Hin]; [| exact Hin].
  apply in_map_iff in Hin. destruct Hin as [a [Hid Ha]].
  exfalso. apply (Hnone a Ha Hid).
Qed.

Lemma swo_leaves_out_task_that_cannot_fit_witness :
  let tk := plain_task "task-a" 90 (on_day 9 0) (on_day 10 0) 5 in
  In (task_id tk) (unscheduled_tasks result_tight_swo)
  /\ forall a, In a (assignments result_tight_swo) ->
               assigned_task_id a <> task_id tk.
Proof.
  intros tk.
  apply (swo_leaves_out_task_that_cannot_fit SWOScheduler.default
           request_tight result_tight_swo tk).
  - cbn. lia.
  - cbn. lia.
  - distinct_ids.
  - vm_compute. reflexivity.
  - left. reflexivity.
  - vm_compute. reflexivity.
Defined.

(** The result of [schedule] for a response without solution. *)
Lemma cp_no_solution_result (self : CPLNSScheduler.t)
    (request : ScheduleRequest) (response : CPLNSScheduler.solver_response)
    (res : ScheduleResult) :
  tasks request <> [] ->
  CPLNSScheduler.schedule self request response = Some res ->
  CPLNSScheduler.is_solution (CPLNSScheduler.status response) = false ->
  res = {| assignments := [];
           unscheduled_tasks := map task_id (tasks request);
           objective_value := None |}.
Proof.
  intros Hne Hres Es. unfold CPLNSScheduler.schedule in Hres.
  destruct (tasks request) as [| t0 ts]; [congruence |].
  destruct (CPLNSScheduler.fixed_intervals _ _ _ _); [| discriminate].
  cbn [obind] in Hres. rewrite Es in Hres. cbn [negb] in Hres.
  injection Hres as <-. reflexivity.
Qed.

(** X28: one task that has neither a previous assignment nor a fixed
    start and whose window is too short for it leaves the CP model
    without solution: under the solver's contract the result has no
    assignment and every task of the request is unscheduled. *)
Theorem cp_task_that_cannot_fit_unschedules_all (self : CPLNSScheduler.t)
    (request : ScheduleRequest) (response : CPLNSScheduler.solver_response)
    (res : ScheduleResult) (tk : ScheduleTask) :
  0 < CPLNSScheduler.granularity_minutes self ->
  CPLNSScheduler.response_ok self request response = true ->
  CPLNSScheduler.schedule self request response = Some res ->
  In tk (tasks request) ->
  dict_get (previous_of request) (task_id tk) = None ->
  fixed_start tk = None ->
  let ix := request_indexer (CPLNSScheduler.granularity_minutes self) request in
  to_slot_ceiling ix (due tk)
  < Z.max 0 (to_slot ix (earliest_start tk))
    + duration_to_slots ix (duration_minutes tk) ->
  res = {| assignments := [];
           unscheduled_tasks := map task_id (tasks request);
           objective_value := None |}.
Proof.
  intros Hg Hok Hres Htk Hprev Hfix ix Htight.
  assert (Hne : tasks request <> []) by (intros E; rewrite E in Htk; exact Htk).
  apply (cp_no_solution_result self request response res Hne Hres).
  destruct (CPLNSScheduler.is_solution (CPLNSScheduler.status response)) eqn:Es;
    [| reflexivity].
  exfalso.
  destruct (cp_solution_spec self request response Hok Es)
    as [fixed [_ [Hlen [Hall _]]]].
  destruct (combine_defined _ _ tk Hlen Htk) as [v Hv].
  pose proof (Hall tk v Hv) as Hcons. unfold cp_task_ok in Hcons.
  fold ix in Hcons.
  pose proof (task_constraints_new_present _ _ _ _ _ _ Hcons Hprev Hfix)
    as Hpres.
  destruct (task_constraints_present _ _ _ _ _ _ Hcons Hpres) as [Hend [Hdue _]].
  destruct (task_constraints_domains _ _ _ _ _ _ Hcons) as [Hstart _].
  lia.
Qed.

Lemma cp_task_that_cannot_fit_unschedules_all_witness :
  result_all_unscheduled ["task-a"; "task-b"]%string
  = {| assignments := [];
       unscheduled_tasks := map task_id (tasks request_tight);
       objective_value := None |}.
Proof.
  apply (cp_task_that_cannot_fit_unschedules_all CPLNSScheduler.default
           request_tight response_infeasible
           (result_all_unscheduled ["task-a"; "task-b"]%string)
           (plain_task "task-a" 90 (on_day 9 0) (on_day 10 0) 5)).
  - cbn. lia.
  - reflexivity.
  - vm_compute. reflexivity.
  - left. reflexivity.
  - reflexivity.
  - reflexivity.
  - vm_compute. reflexivity.
Defined.

(** X29: a task whose fixed start lies before its earliest slot, or too
    late for the task to end by its deadline slot, leaves the CP model
    without solution: under the solver's contract the result has no
    assignment and every task of the request is unscheduled. *)
Theorem cp_fixed_start_out_of_window_unschedules_all
    (self : CPLNSScheduler.t) (request : ScheduleRequest)
    (response : CPLNSScheduler.solver_response) (res : ScheduleResult)
    (tk : ScheduleTask) (fs : datetime) :
  0 < CPLNSScheduler.granularity_minutes self ->
  CPLNSScheduler.response_ok self request response = true ->
  CPLNSScheduler.schedule self request response = Some res ->
  In tk (tasks request) ->
  fixed_start tk = Some fs ->
  let ix := request_indexer (CPLNSScheduler.granularity_minutes self) request in
  to_slot ix fs < Z.max 0 (to_slot ix (earliest_start tk))
  \/ to_slot_ceiling ix (due tk)
     < to_slot ix fs + duration_to_slots ix (duration_minutes tk) ->
  res = {| assignments := [];
           unscheduled_tasks := map task_id (tasks request);
           objective_value := None |}.
Proof.
  intros Hg Hok Hres Htk Hfix ix Hout.
  assert (Hne : tasks request <> []) by (intros E; rewrite E in Htk; exact Htk).
  apply (cp_no_solution_result self request response res Hne Hres).
  destruct (CPLNSScheduler.is_solution (CPLNSScheduler.status response)) eqn:Es;
    [| reflexivity].
  exfalso.
  destruct (cp_solution_spec self request response Hok Es)
    as [fixed [_ [Hlen [Hall _]]]].
  destruct (combine_defined _ _ tk Hlen Htk) as [v Hv].
  pose proof (Hall tk v Hv) as Hcons. unfold cp_task_ok in Hcons.
  fold ix in Hcons.
  destruct (task_constraints_pinned _ _ _ _ _ _ Hcons (to_slot ix fs))
    as [Hstart Hpres].
  { unfold pinned_slot. rewrite Hfix. reflexivity. }
  destruct (task_constraints_present _ _ _ _ _ _ Hcons Hpres) as [Hend [Hdue _]].
  destruct (task_constraints_domains _ _ _ _ _ _ Hcons) as [Hlo _].
  lia.
Qed.

Lemma cp_fixed_start_out_of_window_unschedules_all_witness :
  result_all_unscheduled ["task-a"; "task-b"]%string
  = {| assignments := [];
       unscheduled_tasks := map task_id (tasks request_fixed_too_late);
       objective_value := None |}.
Proof.
  apply (cp_fixed_start_out_of_window_unschedules_all CPLNSScheduler.default
           request_fixed_too_late response_infeasible
           (result_all_unscheduled ["task-a"; "task-b"]%string)
           {| task_id := "task-a"; duration_minutes := 60;
              earliest_start := on_day 9 0; due := on_day 17 0;
              priority := 5; preferred_windows := None;
              fixed_start := Some (on_day 16 30) |} (on_day 16 30)).
  - cbn. lia.
  - reflexivity.
  - vm_compute. reflexivity.
  - left. reflexivity.
  - reflexivity.
  - right. vm_compute. reflexivity.
Defined.

(** ** What the squeaky-wheel scheduler does not read *)

Lemma insert_by_map {A B} (f : A -> B) (le : A -> A -> bool)
    (le' : B -> B -> bool) (x : A) (l : list A) :
  (forall a b, le' (f a) (f b) = le a b) ->
  insert_by le' (f x) (map f l) = map f (insert_by le x l).
Proof.
  intros Hle. induction l as [| y r IH]; cbn; [reflexivity |].
  rewrite Hle. destruct (le x y); cbn; [reflexivity |].
  rewrite IH. reflexivity.
Qed.

Lemma sorted_map {A B} (f : A -> B) (le : A -> A -> bool)
    (le' : B -> B -> bool) (l : list A) :
  (forall a b, le' (f a) (f b) = le a b) ->
  sorted le' (map f l) = map f (sorted le l).
Proof.
  intros Hle. induction l as [| x r IH]; cbn; [reflexivity |].
  fold (sorted le' (map f r)). fold (sorted le r). rewrite IH.
  apply insert_by_map. exact Hle.
Qed.

Lemma dict_set_map_values {V W} (f : V -> W) (d : dict V) (k : string) (v : V) :
  dict_set (map (fun kv => (fst kv, f (snd kv))) d) k (f v)
  = map (fun kv => (fst kv, f (snd kv))) (dict_set d k v).
Proof.
  induction d as [| [k' v'] r IH]; cbn; [reflexivity |].
  destruct (String.eqb k' k); cbn; [reflexivity |].
  rewrite IH. reflexivity.
Qed.

Lemma ScheduleTask_eqb_refl (a : ScheduleTask) : ScheduleTask_eqb a a = true.
Proof.
  assert (Hw : forall l : list (datetime * datetime),
             list_eqb window_eqb l l = true).
  { induction l as [| w r IH]; cbn [list_eqb]; [reflexivity |].
    rewrite IH. unfold window_eqb. rewrite !Z.eqb_refl. reflexivity. }
  unfold ScheduleTask_eqb.
  rewrite String.eqb_refl, !Z.eqb_refl. cbn [andb].
  destruct (preferred_windows a) as [l |], (fixed_start a) as [f |]; cbn;
    rewrite ?Hw, ?Z.eqb_refl; reflexivity.
Qed.

Lemma ScheduleTask_eqb_without_pins (a b : ScheduleTask) :
  ScheduleTask_eqb a b = true ->
  ScheduleTask_eqb (without_pins a) (without_pins b) = true.
Proof.
  unfold ScheduleTask_eqb. cbn.
  intros H. repeat (apply andb_prop in H; destruct H as [H ?]).
  rewrite !andb_true_r.
  repeat (apply andb_true_intro; split); assumption.
Qed.

Lemma ScheduleTask_eqb_without_pins_id (a b : ScheduleTask) :
  ScheduleTask_eqb (without_pins a) (without_pins b) = true ->
  task_id a = task_id b.
Proof.
  unfold ScheduleTask_eqb. cbn.
  intros H. repeat (apply andb_prop in H; destruct H as [H ?]).
  apply String.eqb_eq. assumption.
Qed.

(** With distinct ids, two orders of the same tasks that list the ids
    alike are equal. *)
Lemma orders_equal_by_ids (l1 l2 : list ScheduleTask) :
  Permutation l1 l2 -> NoDup (map task_id l2) ->
  map task_id l1 = map task_id l2 -> l1 = l2.
Proof.
  revert l2. induction l1 as [| a r1 IH]; intros l2 Hperm Hnd Hids.
  - destruct l2; [reflexivity | discriminate].
  - destruct l2 as [| b r2]; [discriminate |].
    cbn in Hids. injection Hids as Hid Hids.
    assert (a = b) as <-.
    { apply (task_of_id_unique (b :: r2)); [exact Hnd | | left; reflexivity
                                            | exact Hid].
      eapply Permutation_in; [exact Hperm | left; reflexivity]. }
    f_equal. apply IH; [| | exact Hids].
    + eapply Permutation_cons_inv. exact Hperm.
    + inversion Hnd. assumption.
Qed.

(** The comparison [new_order == order] does not depend on the fixed
    starts and preferred windows when the ids are distinct. *)
Lemma list_eqb_without_pins (l1 l2 : list ScheduleTask) :
  Permutation l1 l2 -> NoDup (map task_id l2) ->
  list_eqb ScheduleTask_eqb (map without_pins l1) (map without_pins l2)
  = list_eqb ScheduleTask_eqb l1 l2.
Proof.
  intros Hperm Hnd.
  assert (Hfwd : forall l1 l2 : list ScheduleTask,
             list_eqb ScheduleTask_eqb l1 l2 = true ->
             list_eqb ScheduleTask_eqb (map without_pins l1)
               (map without_pins l2) = true).
  { clear. induction l1 as [| a r IH]; intros [| b r2] H; cbn in *;
      try discriminate; [reflexivity |].
    apply andb_prop in H. destruct H as [Hab Hr].
    rewrite (ScheduleTask_eqb_without_pins _ _ Hab), (IH _ Hr). reflexivity. }
  assert (Hids : forall l1 l2 : list ScheduleTask,
             list_eqb ScheduleTask_eqb (map without_pins l1)
               (map without_pins l2) = true ->
             map task_id l1 = map task_id l2).
  { clear. induction l1 as [| a r IH]; intros [| b r2] H; cbn in *;
      try discriminate; [reflexivity |].
    apply andb_prop in H. destruct H as [Hab Hr].
    rewrite (ScheduleTask_eqb_without_pins_id _ _ Hab), (IH _ Hr).
    reflexivity. }
  assert (Hrefl : forall l : list ScheduleTask,
             list_eqb ScheduleTask_eqb l l = true).
  { clear. induction l as [| a r IH]; cbn; [reflexivity |].
    rewrite ScheduleTask_eqb_refl, IH. reflexivity. }
  destruct (list_eqb ScheduleTask_eqb l1 l2) eqn:E.
  - apply Hfwd. exact E.
  - destruct (list_eqb ScheduleTask_eqb (map without_pins l1)
                (map without_pins l2)) eqn:E'; [| reflexivity].
    apply Hids in E'. apply (orders_equal_by_ids _ _ Hperm Hnd) in E'.
    subst l2. rewrite Hrefl in E. discriminate.
Qed.

Lemma find_slot_loop_without_pins (info : SWOScheduler._SegmentInfo)
    (occupancy : list bool) (latest_start slot : Z) (fuel : nat) :
  SWOScheduler.find_slot_loop (info_without_pins info) occupancy latest_start
    slot fuel
  = SWOScheduler.find_slot_loop info occupancy latest_start slot fuel.
Proof.
  revert slot. induction fuel as [| fuel IH]; intros slot; cbn;
    [reflexivity |].
  rewrite !IH. reflexivity.
Qed.

Lemma infos_loop_without_pins (indexer : _TimeIndexer) (horizon_slots : Z)
    (previous : dict (datetime * datetime)) (ts : list ScheduleTask)
    (acc : dict SWOScheduler._SegmentInfo) :
  SWOScheduler.infos_loop indexer horizon_slots previous
    (map without_pins ts) (infos_without_pins acc)
  = infos_without_pins
      (SWOScheduler.infos_loop indexer horizon_slots previous ts acc).
Proof.
  revert acc. induction ts as [| tk r IH]; intros acc; cbn; [reflexivity |].
  rewrite <- IH. f_equal. unfold infos_without_pins.
  rewrite <- dict_set_map_values. reflexivity.
Qed.

Lemma construct_loop_without_pins
    (segment_infos : dict SWOScheduler._SegmentInfo) (horizon_slots : Z)
    (order : list ScheduleTask) (st : SWOScheduler.pass_state) :
  SWOScheduler.construct_loop (infos_without_pins segment_infos)
    horizon_slots (map without_pins order) st
  = SWOScheduler.construct_loop segment_infos horizon_slots order st.
Proof.
  revert st. induction order as [| tk r IH]; intros st; cbn; [reflexivity |].
  assert (Hstep : SWOScheduler.construct_step
                    (infos_without_pins segment_infos) horizon_slots st
                    (without_pins tk)
                  = SWOScheduler.construct_step segment_infos horizon_slots
                      st tk).
  { unfold SWOScheduler.construct_step, infos_without_pins.
    rewrite dict_get_map_values. cbn [without_pins task_id].
    destruct (dict_get segment_infos (task_id tk)) as [info |];
      [| reflexivity].
    cbn [option_map obind]. unfold SWOScheduler._find_slot.
    rewrite find_slot_loop_without_pins. reflexivity. }
  rewrite Hstep.
  destruct (SWOScheduler.construct_step segment_infos horizon_slots st tk);
    cbn [obind]; [apply IH | reflexivity].
Qed.

Lemma assigned_list_without_pins
    (segment_infos : dict SWOScheduler._SegmentInfo) (indexer : _TimeIndexer)
    (items : dict Z) :
  SWOScheduler.assigned_list (infos_without_pins segment_infos) indexer items
  = SWOScheduler.assigned_list segment_infos indexer items.
Proof.
  induction items as [| [tid s] r IH]; cbn; [reflexivity |].
  rewrite IH. unfold infos_without_pins. rewrite dict_get_map_values.
  destruct (dict_get segment_infos tid); reflexivity.
Qed.

Lemma penalties_loop_without_pins (self : SWOScheduler.t)
    (assignments : dict Z) (unscheduled : list string)
    (items : dict SWOScheduler._SegmentInfo) (acc : dict Q) :
  SWOScheduler.penalties_loop self assignments unscheduled
    (infos_without_pins items) acc
  = SWOScheduler.penalties_loop self assignments unscheduled items acc.
Proof.
  revert acc. induction items as [| [tid info] r IH]; intros acc; cbn;
    [reflexivity |].
  change (SWOScheduler.penalty_of self assignments unscheduled tid
            (info_without_pins info))
    with (SWOScheduler.penalty_of self assignments unscheduled tid info).
  destruct (SWOScheduler.penalty_of self assignments unscheduled tid info);
    cbn [obind]; [apply IH | reflexivity].
Qed.

Lemma any_changed_without_pins (new_penalties penalties : dict Q)
    (order : list ScheduleTask) :
  SWOScheduler.any_changed new_penalties penalties (map without_pins order)
  = SWOScheduler.any_changed new_penalties penalties order.
Proof.
  induction order as [| tk r IH]; cbn; [reflexivity |].
  rewrite IH. reflexivity.
Qed.

Lemma reorder_keys_without_pins (penalties : dict Q)
    (order : list ScheduleTask) :
  SWOScheduler.reorder_keys penalties (map without_pins order)
  = option_map (map (fun kt => (fst kt, without_pins (snd kt))))
      (SWOScheduler.reorder_keys penalties order).
Proof.
  induction order as [| tk r IH]; cbn; [reflexivity |].
  destruct (dict_get penalties (task_id tk)); [| reflexivity]. cbn [obind].
  rewrite IH. destruct (SWOScheduler.reorder_keys penalties r); reflexivity.
Qed.

Lemma initial_penalties_without_pins (ts : list ScheduleTask) (acc : dict Q) :
  SWOScheduler.initial_penalties (map without_pins ts) acc
  = SWOScheduler.initial_penalties ts acc.
Proof.
  revert acc. induction ts as [| tk r IH]; intros acc; cbn; [reflexivity |].
  apply IH.
Qed.

Lemma iterations_without_pins (self : SWOScheduler.t)
    (segment_infos : dict SWOScheduler._SegmentInfo)
    (base_occupancy : list bool) (horizon_slots : Z) (indexer : _TimeIndexer)
    (ts : list ScheduleTask) (n : nat) (st : SWOScheduler.loop_state) :
  NoDup (map task_id ts) ->
  Permutation (SWOScheduler.order st) ts ->
  SWOScheduler.iterations self (infos_without_pins segment_infos)
    base_occupancy horizon_slots indexer n (state_without_pins st)
  = option_map state_without_pins
      (SWOScheduler.iterations self segment_infos base_occupancy
         horizon_slots indexer n st).
Proof.
  intros Hnd. revert st. induction n as [| n IH]; intros st Hperm;
    [reflexivity |].
  cbn [SWOScheduler.iterations state_without_pins SWOScheduler.order
       SWOScheduler.penalties SWOScheduler.best_result
       SWOScheduler.best_unscheduled SWOScheduler.best_objective].
  unfold SWOScheduler._construct_schedule.
  rewrite construct_loop_without_pins.
  destruct (SWOScheduler.construct_loop segment_infos horizon_slots
              (SWOScheduler.order st) _) as [ps |]; [| reflexivity].
  cbn [obind]. unfold SWOScheduler._build_result.
  rewrite assigned_list_without_pins.
  destruct (SWOScheduler.assigned_list segment_infos indexer
              (SWOScheduler.pass_assignments ps)) as [assigned |];
    [| reflexivity].
  cbn [obind]. unfold SWOScheduler._evaluate_penalties.
  rewrite penalties_loop_without_pins.
  destruct (SWOScheduler.penalties_loop self _ _ segment_infos [])
    as [newp |]; [| reflexivity].
  cbn [obind]. rewrite any_changed_without_pins.
  destruct (SWOScheduler.any_changed newp _ _) as [changed |];
    [| reflexivity].
  cbn [obind]. rewrite reorder_keys_without_pins.
  destruct (SWOScheduler.reorder_keys newp (SWOScheduler.order st))
    as [keyed |] eqn:Ek; [| reflexivity].
  cbn [option_map obind].
  assert (Hsnd : map snd keyed = SWOScheduler.order st).
  { clear - Ek. revert keyed Ek.
    induction (SWOScheduler.order st) as [| tk r IHr]; intros keyed Ek;
      cbn in Ek.
    - injection Ek as <-. reflexivity.
    - destruct (dict_get newp (task_id tk)); [| discriminate].
      cbn [obind] in Ek.
      destruct (SWOScheduler.reorder_keys newp r) as [rest |];
        [| discriminate].
      cbn [obind] in Ek. injection Ek as <-. cbn. f_equal. apply IHr.
      reflexivity. }
  rewrite (sorted_map (fun kt => (fst kt, without_pins (snd kt)))
             SWOScheduler.reorder_le SWOScheduler.reorder_le).
  2: { intros [[[pa qa] ea] ta] [[[pb qb] eb] tb]. reflexivity. }
  rewrite map_map. cbn [snd].
  rewrite <- (map_map snd without_pins).
  assert (Hnew : Permutation
                   (map snd (sorted SWOScheduler.reorder_le keyed))
                   (SWOScheduler.order st)).
  { rewrite <- Hsnd. apply Permutation_map, Permutation_sym, sorted_perm. }
  rewrite (list_eqb_without_pins _ _ Hnew).
  2: { eapply Permutation_NoDup; [| exact Hnd].
       apply Permutation_map, Permutation_sym. exact Hperm. }
  destruct (negb changed || list_eqb ScheduleTask_eqb _ _); [reflexivity |].
  cbn [SWOScheduler.order SWOScheduler.penalties SWOScheduler.best_result
       SWOScheduler.best_unscheduled SWOScheduler.best_objective].
  apply (IH {| SWOScheduler.order :=
                 map snd (sorted SWOScheduler.reorder_le keyed);
               SWOScheduler.penalties := newp;
               SWOScheduler.best_result := _;
               SWOScheduler.best_unscheduled := _;
               SWOScheduler.best_objective := _ |}).
  cbn [SWOScheduler.order]. etransitivity; [exact Hnew | exact Hperm].
Qed.

(** X30: the squeaky-wheel scheduler reads neither the fixed start nor
    the preferred windows of a task, nor the neighborhood window of the
    request: with distinct task ids, removing them from a request
    changes nothing in what [schedule] returns. *)
Theorem swo_ignores_fixed_start_and_windows (self : SWOScheduler.t)
    (request : ScheduleRequest) :
  NoDup (map task_id (tasks request)) ->
  SWOScheduler.schedule self (request_without_pins request)
  = SWOScheduler.schedule self request.
Proof.
  intros Hnd. unfold SWOScheduler.schedule, request_without_pins.
  cbn [tasks meetings].
  destruct (tasks request) as [| t0 ts] eqn:Et; [reflexivity |].
  cbn [map].
  change (previous_of {| tasks := without_pins t0 :: map without_pins ts;
                         meetings := meetings request;
                         previous_assignments := previous_assignments request;
                         neighborhood_window := None |})
    with (previous_of request).
  assert (Hix : SWOScheduler.indexer_of self (without_pins t0)
                  (map without_pins ts) (meetings request)
                = SWOScheduler.indexer_of self t0 ts (meetings request)).
  { unfold SWOScheduler.indexer_of, base_start_of.
    rewrite map_map. reflexivity. }
  rewrite Hix.
  set (indexer := SWOScheduler.indexer_of self t0 ts (meetings request)).
  assert (Hhz : horizon_slots_of indexer
                  (without_pins t0 :: map without_pins ts) (meetings request)
                = horizon_slots_of indexer (t0 :: ts) (meetings request)).
  { unfold horizon_slots_of. cbn [map]. rewrite map_map. reflexivity. }
  rewrite Hhz.
  set (hz := horizon_slots_of indexer (t0 :: ts) (meetings request)).
  destruct (SWOScheduler.base_occupancy_of self indexer hz (meetings request))
    as [occ |]; [| reflexivity].
  cbn [obind].
  pose proof (infos_loop_without_pins indexer hz (previous_of request)
                (t0 :: ts) []) as Hinfos.
  cbn [map infos_without_pins] in Hinfos. rewrite Hinfos.
  pose proof (sorted_map without_pins SWOScheduler.initial_le
                SWOScheduler.initial_le (t0 :: ts)) as Hsorted.
  cbn [map] in Hsorted. rewrite Hsorted; [| reflexivity].
  pose proof (initial_penalties_without_pins (t0 :: ts) []) as Hpen.
  cbn [map] in Hpen. rewrite Hpen.
  pose proof (iterations_without_pins self
                (SWOScheduler.infos_loop indexer hz (previous_of request)
                   (t0 :: ts) [])
                occ hz indexer (t0 :: ts)
                (Z.to_nat (SWOScheduler.max_iterations self))
                {| SWOScheduler.order :=
                     sorted SWOScheduler.initial_le (t0 :: ts);
                   SWOScheduler.penalties :=
                     SWOScheduler.initial_penalties (t0 :: ts) [];
                   SWOScheduler.best_result := None;
                   SWOScheduler.best_unscheduled := None;
                   SWOScheduler.best_objective := None |} Hnd) as Hit.
  unfold state_without_pins at 1 in Hit.
  cbn [SWOScheduler.order SWOScheduler.penalties SWOScheduler.best_result
       SWOScheduler.best_unscheduled SWOScheduler.best_objective] in Hit.
  rewrite Hit; [| apply Permutation_sym, sorted_perm]. clear Hit.
  destruct (SWOScheduler.iterations self _ occ hz indexer _ _) as [st |];
    reflexivity.
Qed.

Lemma swo_ignores_fixed_start_and_windows_witness :
  SWOScheduler.schedule SWOScheduler.default
    (request_without_pins request_fixed_too_late)
  = SWOScheduler.schedule SWOScheduler.default request_fixed_too_late.
Proof.
  apply (swo_ignores_fixed_start_and_windows SWOScheduler.default
           request_fixed_too_late).
  distinct_ids.
Defined.
